(* ===== verification/_CoqProject ===== *)
-Q . S2P
Prelude.v
Fmt.v
Linker.v
Frames.v
Bytes.v
PageFrame.v
Sv39.v
Sv39Props.v
Sv39Room.v
BlockDev.v
Minix3.v
Minix3Read.v
Minix3Holes.v
Virtio.v
VirtioProps.v
VirtioQueue.v
VirtioRead.v
VirtioBus.v
VirtioSetup.v
Hart.v
Process.v
ProcessProps.v
Uart.v
Console.v
Trap.v
Vector.v
Words.v
Kernel.v
Ramdisk.v
TrapProps.v
Machine.v
SyscallProps.v
Elf.v
Boot.v
BootProps.v
BootRun.v
BootDisk.v
BootAll.v
Demo.v
Examples.v
BootExamples.v
