(* ===== verification/Prelude.v ===== *)
(** * Vesper: a verification of the RISC-V kernel under [src/src]

    Vesper is a small single-hart kernel for the QEMU [virt] machine.  This
    library translates its Rust code, and the assembly of its trap vector,
    into executable definitions and proves what makes each part
    correct, up to three end-to-end results: the [read] system call delivers
    the bytes of the file; under any sequence of traps the kernel behaves as
    an abstract machine of virtual processors; and [kinit], [skmain] and the
    first timer tick take the machine from reset to the first instruction of
    its first process.

    ** The program and the files that model it

    - [linker/mod.rs], [lds/virt.lds]: [Linker].  The symbols are fields of
      the class [Linker]; [VirtLds] is what the linker script guarantees.
    - [mm/alloc/page_frame.rs]: [PageFrame].  The state is the descriptor
      table, [ALLOC_START] and memory ([frames]); the operations are [init],
      [allocate], [zallocate], [deallocate].  [Frames] states what the
      allocator promises its clients (class [FrameAllocatorLaws], over a map
      [h] from live runs to their length) and holds memory as a map from
      addresses to 64-bit words; [Bytes] reads and writes the same memory at
      byte addresses.
    - [mm/paging/sv39]: [Sv39] (entries, [map], [unmap], [v2p],
      [id_map_range], and the reference walk [walk] the theorems speak of),
      [Sv39Props] (its properties), [Sv39Room] (how many pages mapping
      needs).
    - [drivers/virtio]: [Virtio] (registers, queue layout, probe and set-up,
      [block_op], [pending], interrupts), [VirtioProps], [VirtioQueue] (the
      queue invariant [q_inv]), [VirtioRead] (reads and writes from submission
      to completion), [VirtioBus] (the probe), [VirtioSetup] (the device side
      of the set-up handshake).  [BlockDev] is the interface to the file
      system (class [BlockReaderLaws]), which [VirtioRead] implements;
      [Ramdisk] is a machine, a disk and a serial port, that meets the
      assumptions made of the hardware.
    - [fs/minix3]: [Minix3] (superblock, inodes, [read_file] with its four
      levels of zones, directory entries), [Minix3Read] and [Minix3Holes]
      (what it does with holes).
    - [process]: [Process] (table, [spawn_kernel], [schedule],
      [exit_current]) and [ProcessProps]; [syscall.rs] is in [Trap].
    - [arch/riscv64]: [Hart] (trap frames, control registers, [satp],
      [enter_sv39]), [Trap] ([m_trap], interrupts, system calls, and
      [trap_vector], the save and restore code of [asm/trap.S]), [Vector]
      (that code instruction by instruction), [Words] (the results of
      [read] are machine words), [TrapProps],
      [SyscallProps], and [Machine], the abstract machine all traps refine.
    - [drivers/uart], [drivers/plic]: [Uart].  [console]: [Fmt] (format
      strings and their rendering) and [Console] ([print!] on the UART,
      waiting for the transmitter before every byte); all components print
      through it ([Kernel.kernel_console]).  [exec/elf.rs]: [Elf].
    - [boot], [arch/mod.rs]: [Boot] ([kinit], [skmain], their tests, the
      panic handler, the façade [arch]), [BootProps] ([kinit]), [BootRun]
      ([skmain]), [BootDisk] (the disks the one leaves to the other) and
      [BootAll] (start-up as a whole).
    - [Kernel] puts the parts side by side into one state; lenses give each
      component its part, and [Apart] says the allocator does not disturb
      the others.
    - [Demo], [Examples], [BootExamples]: concrete machines on which every
      hypothesis of the theorems holds, and what the code does on them.

    ** How code is translated

    A function is a definition in the monad [M]: it takes the state and ends
    in an [outcome], a value with the new state, a [Panic] with its reason,
    [Undefined] (a raw access outside its object, a null slice, a caller's
    slice that overlaps the kernel's own statics) or [Diverge].
    Machine integers are [Z]; where the source's arithmetic can leave its
    width the definition uses [checked], which panics or wraps as the build
    profile (class [Profile]) says, or writes the wrap-around out.  Statics
    are fields of the state; a [*mut TrapFrame] is symbolic, the kernel's own
    frame or the one in a slot of the process table, so that writes through
    it alias the table.  [wp E m Q s] says that [m] run from [s] ends in a
    state satisfying [Q] or in a fault that [E] allows; [wp none] is total
    correctness.

    ** What is assumed

    Code outside the repository is a parameter.  [Host] is the machine behind
    the device registers: what a volatile read returns (possibly a bus
    fault), what a write does, and the steps the devices take between two
    looks of the driver.  [DiskHost] adds what the driver relies on of a
    VirtIO block device: it serves published requests in order, reading from
    and writing to the contents of its disk, touches only the buffer of a
    read, the status byte and the used ring, and completes within
    [hd_latency] looks.  [DiskSetup] adds how the registers of a slot
    configure its queue, [UartHost] that the transmitter is ready within
    [ua_latency] looks and sends what it is given, [ConsoleReady] that this
    holds of every state of the machine and the console's wait is given more
    looks than that ([Spins]).  Theorems that say a trap or a boot step
    returns although it prints assume [ConsoleReady]; those about a call that
    has returned assume nothing of the UART.  The probe and all of [kinit]
    are verified whatever the other devices do.  The symbols of the linker
    script are parameters with [VirtLds].

    ** What the theorems show

    - Allocator: it refines an executable first-fit allocator, replies,
      panics and memory, for every sequence of [allocate], [zallocate] and
      [deallocate] that frees only live runs; freeing undoes allocating, or
      panics where the run starts beyond the heap; zeroing touches only the
      fresh run; [deallocate] terminates on any table.
    - Page tables: [map] adds exactly the translations of the page at every
      level, succeeds when one page per missing table is free, [unmap] frees
      every table once, [id_map_range] is the identity on its range.
    - VirtIO: the queue invariant is kept by submission, completion and
      acknowledgement through the 16-bit wrap-around; a read is correct end
      to end, and what is written is read back, with nothing else on the
      disks changed; the probe is safe on any register contents; an
      interrupt acknowledges the completions of its own device.
    - Minix 3: the superblock and inode table are decoded as specified;
      [read_file] agrees with the reference definition of the file's bytes
      ([file_byte]) through all levels; on arbitrary images it terminates
      and gives its buffers back; holes are skipped, not read as zeros.
    - Processes and traps: the scheduler is fair; PIDs are unique until the
      counter wraps; traps of every kind leave all other contexts alone.  The
      CPU, the process table and the trap frames together refine a machine
      of sixteen virtual processors, event by event; a preempted process
      resumes with the registers and PC it was interrupted with, and these
      stay 64-bit words.  The assembly of the trap vector saves and restores
      what [trap_vector] says, and runs the handler on the trap stack.
    - Console: every byte printed is rendered and transmitted, in order.
    - ELF: exactly which files [parse] accepts, and when the program-header
      walk stays inside the slice.
    - Boot: the rights of every page of the kernel's address space, that
      [kinit] always reaches the supervisor on a machine whose UART answers
      (an access that faults before the trap vector is installed would be
      retried for ever, [Boot.untrapped]), that [skmain] creates the
      first process, and that the two compose: what [kinit] leaves is what
      [skmain] needs, and the first tick starts the first process.
    - Findings, proved or computed on an example: pages beyond the heap,
      [map] below a large page, holes and missing tables in [read_file],
      PID 0 after 65535 spawns, the stack kept by a failed spawn and by
      [exit], small program-header entries, the echo of bytes above 0x7f.

    ** Bounds and fuel

    Loops over fixed ranges are folds over lists.  Three loops take fuel:
    [free_chain_loop] (nine rounds: there are eight descriptors, so a chain
    that has not ended by then is a cycle the code never leaves),
    [pending_loop] (2^16 rounds: the indices it compares are 16 bits wide)
    and the polling loops ([polls] and, for the console, [spins], which the
    theorems take larger than the device's latency); running out is
    [Diverge], and the theorems show it does not happen.  Printing a number takes 64 digits of fuel, enough for
    a 64-bit number in any radix.  [kinit] needs 67 tables, the root, a trap
    stack of four pages and two pages per disk, 88 in all; a heap of 2 MiB
    has at least a hundred.

    ** Not modelled

    [asm/boot.S] but its stub trap vector; the state in which a panic leaves
    the machine; caches, the TLB and memory ordering ([fence], atomics, since
    one hart runs); traps taken while kernel code itself runs, apart from the bus
    faults the probe provokes; the floating-point part of trap frames, which
    the code never touches; the descriptor table's own bytes in the heap,
    which no other component addresses. *)

From Stdlib Require Export ZArith Lia.
From stdpp Require Export base gmap list numbers.

#[global] Open Scope Z_scope.

(** ** Outcomes of kernel code

    A Rust function of the kernel either returns, panics ([assert!],
    [expect], an index out of bounds, an overflow check), performs an
    operation whose behaviour is undefined (a raw access outside the
    object it was derived from), or never returns. *)

Inductive panic_reason : Type :=
| PAssert        (** a failed [assert!] *)
| POverflow      (** arithmetic overflow, checked profile *)
| PBounds        (** slice or array index out of range *)
| PUnwrap        (** [expect] / [unwrap] on [None] *)
| PExplicit.     (** [panic!] in the source *)

#[global] Instance panic_reason_eq_dec : EqDecision panic_reason.
Proof. solve_decision. Defined.

Inductive outcome (A : Type) : Type :=
| Done (a : A)
| Panic (p : panic_reason)
| Undefined
| Diverge.
Arguments Done {A} a.
Arguments Panic {A} p.
Arguments Undefined {A}.
Arguments Diverge {A}.

(** [core::result::Result]. *)
Inductive result (A E : Type) : Type :=
| Ok (a : A)
| Err (e : E).
Arguments Ok {A E} a.
Arguments Err {A E} e.

(** ** The state monad of the kernel *)

Definition M (S A : Type) : Type := S → outcome (A * S).

#[global] Instance M_ret {S} : MRet (M S) := λ A a s, Done (a, s).
#[global] Instance M_bind {S} : MBind (M S) := λ A B f m s,
  match m s with
  | Done (a, s') => f a s'
  | Panic p => Panic p
  | Undefined => Undefined
  | Diverge => Diverge
  end.

Definition panic {S A} (p : panic_reason) : M S A := λ _, Panic p.
Definition undefined {S A} : M S A := λ _, Undefined.
Definition diverge {S A} : M S A := λ _, Diverge.
Definition gets {S A} (f : S → A) : M S A := λ s, Done (f s, s).
Definition modify {S} (f : S → S) : M S unit := λ s, Done (tt, f s).
Definition assert {S} (b : bool) : M S unit :=
  if b then mret tt else panic PAssert.
Definition unwrap {S A} (o : option A) : M S A :=
  match o with Some a => mret a | None => panic PUnwrap end.
Definition index {S A} (l : list A) (i : nat) : M S A :=
  match l !! i with Some a => mret a | None => panic PBounds end.

(** Running a component's code inside a larger state. *)
Definition zoom {S T A} (get : S → T) (set : T → S → S) (m : M T A) : M S A := λ s,
  match m (get s) with
  | Done (a, t) => Done (a, set t s)
  | Panic p => Panic p
  | Undefined => Undefined
  | Diverge => Diverge
  end.

(** A component's state inside a larger one. *)
Class Lens (S T : Type) := { view : S → T; put : T → S → S }.
Class LensLaws (S T : Type) `{Lens S T} : Prop := {
  view_put t s : view (put t s) = t;
  put_put t t' s : put t (put t' s) = put t s;
  put_view s : put (view s) s = s }.

Definition get_state {S T} `{Lens S T} : M S T := gets view.
Definition set_state {S T} `{Lens S T} (t : T) : M S unit := modify (put t).

Section monad_laws.
Context {S : Type}.

Lemma bind_same {A B} (m m' : M S A) (f : A → M S B) s s' :
  m s = m' s' → (m ≫= f) s = (m' ≫= f) s'.
Proof. unfold mbind, M_bind. by intros ->. Qed.

Lemma bind_done {A B} (m : M S A) (f : A → M S B) s a s' :
  m s = Done (a, s') → (m ≫= f) s = f a s'.
Proof. unfold mbind, M_bind. by intros ->. Qed.

Lemma bind_done_inv {A B} (m : M S A) (f : A → M S B) s r :
  (m ≫= f) s = Done r →
  ∃ a s', m s = Done (a, s') ∧ f a s' = Done r.
Proof.
  unfold mbind, M_bind. destruct (m s) as [[a s']| | |] eqn:E; try done. eauto.
Qed.

Lemma bind_panic_inv {A B} (m : M S A) (f : A → M S B) s p :
  (m ≫= f) s = Panic p →
  m s = Panic p ∨ ∃ a s', m s = Done (a, s') ∧ f a s' = Panic p.
Proof.
  unfold mbind, M_bind.
  destruct (m s) as [[a s']| | |] eqn:E; intros; simplify_eq; eauto.
Qed.

Lemma bind_assoc {A B C} (m : M S A) (f : A → M S B) (g : B → M S C) s :
  ((m ≫= f) ≫= g) s = (m ≫= λ a, f a ≫= g) s.
Proof. unfold mbind, M_bind. by destruct (m s) as [[a s']| | |]. Qed.

Lemma bind_ret {A B} (a : A) (f : A → M S B) s : (mret a ≫= f) s = f a s.
Proof. done. Qed.

Lemma bind_get {T B} `{Lens S T} (f : T → M S B) s : (get_state ≫= f) s = f (view s) s.
Proof. done. Qed.

Lemma bind_set {T B} `{Lens S T} (t : T) (f : unit → M S B) s :
  (set_state t ≫= f) s = f tt (put t s).
Proof. done. Qed.

Lemma assert_true b s : b = true → assert (S:=S) b s = Done (tt, s).
Proof. by intros ->. Qed.

Lemma index_some {A} (l : list A) i a s :
  l !! i = Some a → index (S:=S) l i s = Done (a, s).
Proof. unfold index. by intros ->. Qed.
End monad_laws.

(** Code that always returns or panics: it neither runs forever nor leaves
    the defined behaviours. *)
Definition returns {S A} (m : M S A) : Prop := ∀ s, m s ≠ Diverge ∧ m s ≠ Undefined.

Section returns.
Context {S : Type}.

Lemma returns_ret {A} (a : A) : returns (S:=S) (mret a).
Proof. done. Qed.
Lemma returns_panic {A} p : returns (S:=S) (A:=A) (panic p).
Proof. done. Qed.
Lemma returns_gets {A} (f : S → A) : returns (gets f).
Proof. done. Qed.
Lemma returns_modify (f : S → S) : returns (modify f).
Proof. done. Qed.
Lemma returns_assert b : returns (S:=S) (assert b).
Proof. by destruct b. Qed.
Lemma returns_unwrap {A} (o : option A) : returns (S:=S) (unwrap o).
Proof. by destruct o. Qed.
Lemma returns_index {A} (l : list A) i : returns (S:=S) (index l i).
Proof. intros s. unfold index. by destruct (l !! i). Qed.
Lemma returns_bind {A B} (m : M S A) (f : A → M S B) :
  returns m → (∀ a, returns (f a)) → returns (m ≫= f).
Proof.
  intros Hm Hf s. specialize (Hm s). unfold mbind, M_bind.
  destruct (m s) as [[a s']| | |]; [apply Hf|done|by destruct Hm|by destruct Hm].
Qed.
End returns.

Create HintDb returns.
#[export] Hint Resolve returns_ret returns_panic returns_gets returns_modify
  returns_assert returns_unwrap returns_index returns_bind : returns.

(** ** Weakest preconditions

    [wp E m Q s]: run from [s], the code returns in a state satisfying [Q],
    or ends in one of the faults [E] allows.  [wp none] is total
    correctness. *)

Inductive fault : Type := FPanic (p : panic_reason) | FUndefined | FDiverge.

Definition none : fault → Prop := λ _, False.

Definition wp {S A} (E : fault → Prop) (m : M S A) (Q : A → S → Prop) (s : S) : Prop :=
  match m s with
  | Done (a, s') => Q a s'
  | Panic p => E (FPanic p)
  | Undefined => E FUndefined
  | Diverge => E FDiverge
  end.

Section wp.
Context {S : Type} (E : fault → Prop).

Lemma wp_ret {A} (a : A) Q (s : S) : Q a s → wp E (mret a) Q s.
Proof. done. Qed.

Lemma wp_bind {A B} (m : M S A) (f : A → M S B) Q s :
  wp E m (λ a, wp E (f a) Q) s → wp E (m ≫= f) Q s.
Proof. unfold wp, mbind, M_bind. by destruct (m s) as [[a s']| | |]. Qed.

Lemma wp_mono {A} (m : M S A) (Q Q' : A → S → Prop) s :
  wp E m Q s → (∀ a s', Q a s' → Q' a s') → wp E m Q' s.
Proof. unfold wp. destruct (m s) as [[a s']| | |]; eauto. Qed.

Lemma wp_gets {A} (f : S → A) Q s : Q (f s) s → wp E (gets f) Q s.
Proof. done. Qed.

Lemma wp_modify f (Q : unit → S → Prop) s : Q tt (f s) → wp E (modify f) Q s.
Proof. done. Qed.

Lemma wp_done {A} (m : M S A) Q s a s' : m s = Done (a, s') → Q a s' → wp E m Q s.
Proof. unfold wp. by intros ->. Qed.

Lemma wp_index {A} (l : list A) i a Q (s : S) :
  l !! i = Some a → Q a s → wp E (index l i) Q s.
Proof. unfold index. by intros ->. Qed.

Lemma wp_weaken {A} (E' : fault → Prop) (m : M S A) Q s :
  wp E m Q s → (∀ f, E f → E' f) → wp E' m Q s.
Proof. unfold wp. destruct (m s) as [[a s']| | |]; eauto. Qed.
End wp.

Lemma wp_none {S A} (m : M S A) Q s :
  wp none m Q s ↔ ∃ a s', m s = Done (a, s') ∧ Q a s'.
Proof.
  unfold wp, none. destruct (m s) as [[a s']| | |]; split; try done;
    try (by intros (? & ? & ? & _)).
  - eauto.
  - by intros (? & ? & [= -> ->] & ?).
Qed.

(** [for x in l { f(x) }]. *)
Fixpoint for_each {S A} (l : list A) (f : A → M S unit) : M S unit :=
  match l with
  | [] => mret tt
  | x :: l' => f x;; for_each l' f
  end.

(** A loop invariant indexed by the elements still to be visited. *)
Lemma for_each_inv {S A} (f : A → M S unit) (I : list A → S → Prop) l s :
  I l s →
  (∀ x l' s, I (x :: l') s → ∃ s', f x s = Done (tt, s') ∧ I l' s') →
  ∃ s', for_each l f s = Done (tt, s') ∧ I [] s'.
Proof.
  intros HI Hstep. revert s HI. induction l as [|x l IH]; intros s HI; [by exists s|].
  destruct (Hstep _ _ _ HI) as (s1 & E & HI1). cbn [for_each].
  rewrite (bind_done _ _ _ _ _ E). by apply IH.
Qed.

(** The same for a body that may also panic with [p]. *)
Lemma for_each_or {S A} (f : A → M S unit) (I : list A → S → Prop) p l s :
  I l s →
  (∀ x l' s, I (x :: l') s →
     f x s = Panic p ∨ ∃ s', f x s = Done (tt, s') ∧ I l' s') →
  for_each l f s = Panic p ∨ ∃ s', for_each l f s = Done (tt, s') ∧ I [] s'.
Proof.
  intros HI Hstep. revert s HI. induction l as [|x l IH]; intros s HI; [right; by exists s|].
  cbn [for_each]. destruct (Hstep _ _ _ HI) as [E|(s1 & E & HI1)].
  - left. unfold mbind, M_bind. by rewrite E.
  - rewrite (bind_done _ _ _ _ _ E). by apply IH.
Qed.

Lemma Forall_last {A} (P : A → Prop) l d : Forall P l → l ≠ [] → P (List.last l d).
Proof.
  induction 1 as [|x l Hx Hl IH]; [done|]. intros _. destruct l; [done|]. by apply IH.
Qed.

Lemma filter_agree {A} (P Q : A → Prop) `{!∀ x, Decision (P x), !∀ x, Decision (Q x)} (l : list A) :
  (∀ x, x ∈ l → P x ↔ Q x) → filter P l = filter Q l.
Proof.
  induction l as [|x l IH]; intros HPQ; [done|]. rewrite !list.filter_cons.
  assert (Hx : P x ↔ Q x) by (apply HPQ; by left).
  rewrite IH by (intros y Hy; apply HPQ; by right).
  repeat case_decide; tauto.
Qed.

(** Removing a list of keys from a map. *)
Definition deletes {A} (ks : list Z) (h : gmap Z A) : gmap Z A :=
  foldl (λ h k, delete k h) h ks.

Lemma lookup_deletes {A} ks (h : gmap Z A) k :
  deletes ks h !! k = if decide (k ∈ ks) then None else h !! k.
Proof.
  revert h. induction ks as [|k' ks IH]; intros h; cbn.
  - by rewrite decide_False by apply not_elem_of_nil.
  - unfold deletes in IH. rewrite IH, lookup_delete.
    destruct (decide (k ∈ ks)) as [Hin|Hin].
    { by rewrite decide_True by (apply elem_of_cons; by right). }
    destruct (decide (k' = k)) as [->|Hne].
    { by rewrite decide_True by (apply elem_of_cons; by left). }
    rewrite decide_False; [done|]. rewrite elem_of_cons. intros [?|?]; congruence.
Qed.

Lemma deletes_app {A} ks ks' (h : gmap Z A) :
  deletes (ks ++ ks') h = deletes ks' (deletes ks h).
Proof. apply foldl_app. Qed.

(** One monadic step of a goal or hypothesis whose first action is known. *)
Ltac mstep := first
  [ rewrite bind_ret | erewrite bind_done by eassumption
  | rewrite bind_assoc ].
Ltac minv H := apply bind_done_inv in H as (? & ? & ? & H).

(** ** Machine integers

    Unsigned integers are values of [Z] in range; whether an overflow panics
    or wraps depends on the Cargo profile the kernel is built with. *)

Class Profile := { overflow_checks : bool }.

Definition dev : Profile := {| overflow_checks := true |}.
Definition release : Profile := {| overflow_checks := false |}.

Definition in_width (w z : Z) : bool := (0 <=? z) && (z <? 2 ^ w).

Definition checked {S} `{Profile} (w z : Z) : M S Z :=
  if in_width w z then mret z
  else if overflow_checks then panic POverflow else mret (z mod 2 ^ w).

Lemma checked_mod {S} `{Profile} w z v (s s' : S) :
  checked w z s = Done (v, s') → v = z mod 2 ^ w ∧ s' = s.
Proof.
  unfold checked. destruct (in_width w z) eqn:E.
  - intros [= <- <-]. unfold in_width in E. apply andb_prop in E as [E1 E2].
    split; [|done]. symmetry. apply Z.mod_small. lia.
  - destruct overflow_checks; [done|]. by intros [= <- <-].
Qed.

Lemma in_width_true w z : 0 <= z < 2 ^ w → in_width w z = true.
Proof. unfold in_width. intros [??]. apply andb_true_intro. split; lia. Qed.

Lemma checked_ok {S} `{Profile} w z (s : S) :
  0 <= z < 2 ^ w → checked w z s = Done (z, s).
Proof. intros Hz. unfold checked. by rewrite in_width_true. Qed.

Lemma wp_checked {S} `{Profile} E w z Q (s : S) :
  0 <= z < 2 ^ w → Q z s → wp E (checked w z) Q s.
Proof. intros Hz HQ. eapply wp_done; [by apply checked_ok|done]. Qed.

(** Without a bound, an overflow panics or wraps. *)
Lemma wp_checked_any {S} `{Profile} (E : fault → Prop) w z Q (s : S) :
  0 <= w → E (FPanic POverflow) →
  (∀ v, 0 <= v < 2 ^ w → (0 <= z → v <= z) → Q v s) → wp E (checked w z) Q s.
Proof.
  intros Hw HE HQ. assert (0 < 2 ^ w) by (by apply Z.pow_pos_nonneg). unfold wp, checked.
  destruct (in_width w z) eqn:Hin; [|destruct overflow_checks; cbn; [done|]].
  - apply andb_prop in Hin as [??]. apply HQ; lia.
  - apply HQ; [by apply Z.mod_pos_bound|]. intros. by apply Z.mod_le.
Qed.

Lemma returns_checked {S} `{Profile} w z : returns (S:=S) (checked w z).
Proof.
  unfold checked. destruct (in_width w z); [|destruct overflow_checks];
    auto with returns.
Qed.
#[export] Hint Resolve returns_checked : returns.

(** Two's complement reading of a 64-bit pattern, [as i64] and [as usize]. *)
Definition to_u64 (z : Z) : Z := z mod 2 ^ 64.
Definition to_i64 (z : Z) : Z :=
  let u := z mod 2 ^ 64 in if u <? 2 ^ 63 then u else u - 2 ^ 64.

Lemma to_u64_small z : 0 <= z < 2 ^ 64 → to_u64 z = z.
Proof. apply Z.mod_small. Qed.

Lemma to_i64_small z : 0 <= z < 2 ^ 63 → to_i64 z = z.
Proof.
  intros Hz. unfold to_i64. rewrite Z.mod_small by lia.
  destruct (Z.ltb_spec z (2 ^ 63)); lia.
Qed.

(** Linear arithmetic with quotients and remainders by literals. *)
Ltac dlia := Z.to_euclidean_division_equations; lia.

(** Bitwise equality of integers, bit by bit. *)
Ltac bits_unfold :=
  repeat first
    [ rewrite Z.land_spec | rewrite Z.lor_spec | rewrite Z.lxor_spec
    | rewrite Z.lnot_spec by lia
    | rewrite Z.shiftl_spec by lia | rewrite Z.shiftr_spec by lia ].

(** [z] has no bit at or above [k]. *)
Lemma testbit_above k z i : 0 <= z < 2 ^ k → k <= i → Z.testbit z i = false.
Proof.
  intros Hz Hi. destruct (Z.eq_dec z 0) as [->|]; [apply Z.bits_0|].
  assert (0 <= k). { destruct (Z.lt_ge_cases k 0); [|done]. rewrite Z.pow_neg_r in Hz by done. lia. }
  apply Z.bits_above_log2; [lia|].
  assert (Z.log2 z < k) by (apply Z.log2_lt_pow2; lia). lia.
Qed.

Lemma land_ones_mod z k : 0 <= k → Z.land z (2 ^ k - 1) = z mod 2 ^ k.
Proof. intros. rewrite <- Z.land_ones by done. rewrite Z.ones_equiv. f_equal. Qed.

Lemma land_clear_low z k :
  0 <= k → Z.land z (Z.lnot (2 ^ k - 1)) = z - z mod 2 ^ k.
Proof.
  intros Hk. rewrite <- land_ones_mod by done.
  rewrite (Z.sub_nocarry_ldiff z (Z.land z (2 ^ k - 1)));
    apply Z.bits_inj'; intros i Hi; rewrite Z.ldiff_spec; bits_unfold;
    rewrite ?Z.bits_0; by destruct (Z.testbit z i), (Z.testbit (2 ^ k - 1) i).
Qed.

Lemma lor_add a b : Z.land a b = 0 → Z.lor a b = a + b.
Proof. intros. by rewrite Z.add_nocarry_lxor, Z.lxor_lor. Qed.

(** A multiple of [2 ^ k] and a number below it do not interfere. *)
Lemma lor_add_low x y k :
  0 <= k → 0 <= y < 2 ^ k → Z.lor (x * 2 ^ k) y = x * 2 ^ k + y.
Proof.
  intros Hk Hy. apply lor_add. apply Z.bits_inj'. intros i Hi. bits_unfold.
  rewrite Z.bits_0. destruct (Z.lt_ge_cases i k).
  - by rewrite Z.mul_pow2_bits_low.
  - by rewrite (testbit_above k y), andb_false_r.
Qed.

Lemma lor_bound a b k : 0 <= a < 2 ^ k → 0 <= b < 2 ^ k → 0 <= Z.lor a b < 2 ^ k.
Proof.
  intros Ha Hb. assert (Hn : 0 <= Z.lor a b) by (apply Z.lor_nonneg; lia). split; [done|].
  assert (0 <= k). { destruct (Z.lt_ge_cases k 0); [|done]. rewrite Z.pow_neg_r in Ha by done. lia. }
  assert (Hd : Z.lor a b / 2 ^ k = 0).
  { rewrite <- Z.shiftr_div_pow2, Z.shiftr_lor, !Z.shiftr_div_pow2 by done.
    by rewrite !Z.div_small. }
  apply Z.div_small_iff in Hd; lia.
Qed.
