(* ===== verification/Fmt.v ===== *)
(** * Formatted output: what [print!] and [println!] hand to the UART

    [src/src/console/mod.rs] writes through [core::fmt]: the format strings of
    the kernel with the conversions they use ([{}], [{:?}], [{:x}], [{:o}],
    widths, zero padding and right alignment), rendered to bytes.  A format
    string is the text of the source, so the escapes of a Rust string literal
    are undone first. *)

From Stdlib Require Import String Ascii.
From S2P Require Import Prelude.

#[local] Open Scope Z_scope.

(** An argument: an unsigned integer, a [char], or a [&str]. *)
Inductive arg : Type := Num (z : Z) | Chr (c : Z) | Str (l : list Z).

Definition code_of (c : ascii) : Z := Z.of_N (N_of_ascii c).
Fixpoint text (s : string) : list Z :=
  match s with EmptyString => [] | String c s' => code_of c :: text s' end.

(** ** String literals *)

Definition hex_value (d : Z) : Z := if d <? 58 then d - 48 else d - 87.

Fixpoint unescape (s : string) : list Z :=
  match s with
  | EmptyString => []
  | String "\" (String "r" s') => 13 :: unescape s'
  | String "\" (String "n" s') => 10 :: unescape s'
  | String "\" (String "x" (String a (String b s'))) =>
      16 * hex_value (code_of a) + hex_value (code_of b) :: unescape s'
  | String c s' => code_of c :: unescape s'
  end.

(** ** Conversions *)

Record spec : Type := mk_spec { right : bool; zero : bool; width : Z; radix : Z }.

Definition take_if (b : Z) (l : list Z) : bool * list Z :=
  match l with c :: l' => if c =? b then (true, l') else (false, l) | [] => (false, []) end.
Fixpoint read_width (n : Z) (l : list Z) : Z * list Z :=
  match l with
  | c :: l' => if (48 <=? c) && (c <=? 57) then read_width (10 * n + (c - 48)) l' else (n, l)
  | [] => (n, [])
  end.

(** The inside of a hole: [:], [>], [0], the width, [x], [o] or [?]. *)
Definition parse_spec (l : list Z) : spec :=
  let '(_, l) := take_if 58 l in
  let '(r, l) := take_if 62 l in
  let '(z, l) := take_if 48 l in
  let '(w, l) := read_width 0 l in
  mk_spec r z w (match l with c :: _ => if c =? 120 then 16 else if c =? 111 then 8 else 10 | [] => 10 end).

Inductive piece : Type := Lit (b : Z) | Hole (sp : spec).

(** A format string as pieces; [open] holds the hole read so far, reversed. *)
Fixpoint pieces (open : option (list Z)) (l : list Z) : list piece :=
  match l with
  | [] => []
  | b :: l' =>
      match open with
      | None => if b =? 123 then pieces (Some []) l' else Lit b :: pieces None l'
      | Some acc => if b =? 125 then Hole (parse_spec (rev acc)) :: pieces None l'
                    else pieces (Some (b :: acc)) l'
      end
  end.

(** ** Arguments *)

Definition digit (d : Z) : Z := if d <? 10 then 48 + d else 87 + d.
Fixpoint digits_to (fuel : nat) (r n : Z) (acc : list Z) : list Z :=
  match fuel with
  | O => acc
  | S fuel' =>
      let acc := digit (n mod r) :: acc in
      if n / r =? 0 then acc else digits_to fuel' r (n / r) acc
  end.
(** A [usize] has at most 64 digits. *)
Definition digits (r n : Z) : list Z := digits_to 64 r n [].

(** [encode_utf8] below [U+0800]. *)
Definition utf8 (c : Z) : list Z :=
  if c <? 128 then [c] else [0xc0 + c / 64; 0x80 + c mod 64].

Definition pad (left : bool) (fill : Z) (w : Z) (l : list Z) : list Z :=
  let p := replicate (Z.to_nat (w - Z.of_nat (length l))) fill in
  if left then p ++ l else l ++ p.

Definition render_arg (sp : spec) (a : arg) : list Z :=
  match a with
  | Num n => pad true (if zero sp then 48 else 32) (width sp) (digits (radix sp) n)
  | Chr c => pad (right sp) 32 (width sp) (utf8 c)
  | Str l => pad (right sp) 32 (width sp) l
  end.

Fixpoint fill (ps : list piece) (args : list arg) : list Z :=
  match ps with
  | [] => []
  | Lit b :: ps' => b :: fill ps' args
  | Hole sp :: ps' =>
      match args with
      | a :: args' => render_arg sp a ++ fill ps' args'
      | [] => fill ps' []
      end
  end.

Definition render (f : string) (args : list arg) : list Z := fill (pieces None (unescape f)) args.

Example render_probe :
  render "Virtio probing 0x{:08x}..." [Num 0x10001000] = text "Virtio probing 0x10001000...".
Proof. reflexivity. Qed.
Example render_inode :
  render "    inode {:>4}  {}" [Num 7; Str (text "etc")] = text "    inode    7  etc".
Proof. reflexivity. Qed.
Example render_erase : render "\x08 \x08" [] = [8; 32; 8].
Proof. reflexivity. Qed.
Example render_mode :
  render "  root inode: mode=0o{:o} size={} zones[0]={}\r\n" [Num 0x41ed; Num 96; Num 23] =
  (text "  root inode: mode=0o40755 size=96 zones[0]=23" ++ [13; 10])%list.
Proof. reflexivity. Qed.

(** ** Numbers read back *)

Definition value (r : Z) (l : list Z) : Z := foldl (λ n d, r * n + hex_value d) 0 l.

Lemma hex_value_digit d : 0 <= d < 16 → hex_value (digit d) = d.
Proof.
  intros Hd. unfold hex_value, digit. destruct (Z.ltb_spec d 10).
  - rewrite (proj2 (Z.ltb_lt _ _)) by lia. lia.
  - rewrite (proj2 (Z.ltb_ge _ _)) by lia. lia.
Qed.

Lemma foldl_value r a l : foldl (λ n d, r * n + hex_value d) a l = a * r ^ Z.of_nat (length l) + value r l.
Proof.
  unfold value. revert a. induction l as [|d l IH]; intros a; cbn [foldl length]; [lia|].
  rewrite IH, (IH (r * 0 + hex_value d)), Nat2Z.inj_succ, Z.pow_succ_r by lia. lia.
Qed.

Lemma digits_to_value r fuel : 2 <= r <= 16 → ∀ n acc, 0 <= n < r ^ Z.of_nat fuel →
  value r (digits_to fuel r n acc) = n * r ^ Z.of_nat (length acc) + value r acc.
Proof.
  intros Hr. induction fuel as [|fuel IH]; intros n acc Hn; cbn [digits_to].
  { change (r ^ Z.of_nat 0) with 1 in Hn. assert (n = 0) as -> by lia. lia. }
  rewrite Nat2Z.inj_succ, Z.pow_succ_r in Hn by lia.
  pose proof (Z.div_mod n r ltac:(lia)) as Hdm. pose proof (Z.mod_pos_bound n r ltac:(lia)) as Hm.
  assert (Hq : 0 <= n / r < r ^ Z.of_nat fuel).
  { split; [apply Z.div_pos; lia|]. apply Z.div_lt_upper_bound; lia. }
  assert (Hv : value r (digit (n mod r) :: acc) = n mod r * r ^ Z.of_nat (length acc) + value r acc).
  { unfold value at 1. cbn [foldl]. rewrite foldl_value, hex_value_digit by lia. lia. }
  destruct (Z.eqb_spec (n / r) 0) as [Hz|Hz].
  - rewrite Hv. rewrite Hz in Hdm. lia.
  - rewrite IH by done. rewrite Hv. cbn [length]. rewrite Nat2Z.inj_succ, Z.pow_succ_r by lia. nia.
Qed.

Lemma digits_value r n : 2 <= r <= 16 → 0 <= n < 2 ^ 64 → value r (digits r n) = n.
Proof.
  intros Hr Hn. unfold digits. rewrite digits_to_value; [cbn [length]; cbn; lia|done|].
  split; [lia|]. eapply Z.lt_le_trans; [apply Hn|]. apply Z.pow_le_mono_l. lia.
Qed.

(** No leading zero. *)
Lemma digits_to_head r fuel : 2 <= r <= 16 → ∀ n acc, 0 < n < r ^ Z.of_nat fuel →
  head (digits_to fuel r n acc) ≠ Some 48.
Proof.
  intros Hr. induction fuel as [|fuel IH]; intros n acc Hn; cbn [digits_to].
  { change (r ^ Z.of_nat 0) with 1 in Hn. lia. }
  rewrite Nat2Z.inj_succ, Z.pow_succ_r in Hn by lia.
  pose proof (Z.div_mod n r ltac:(lia)) as Hdm. pose proof (Z.mod_pos_bound n r ltac:(lia)) as Hm.
  destruct (Z.eqb_spec (n / r) 0) as [Hz|Hz].
  - cbn. rewrite Hz in Hdm. unfold digit. destruct (Z.ltb_spec (n mod r) 10); intros [= E]; lia.
  - apply IH. split; [|apply Z.div_lt_upper_bound; lia].
    assert (0 <= n / r) by (apply Z.div_pos; lia). lia.
Qed.
