(* ===== verification/Linker.v ===== *)
(** * Linker symbols

    The accessors of [src/src/linker/mod.rs] return the addresses of symbols
    that [src/src/lds/virt.lds] defines.  Their values are only known after
    linking, so they are the fields of a class; [VirtLds] collects what the
    linker script guarantees about them for every link of the kernel. *)

From S2P Require Import Prelude.

Class Linker := {
  text_start : Z;
  text_end : Z;
  rodata_start : Z;
  rodata_end : Z;
  data_start : Z;
  data_end : Z;
  bss_start : Z;
  bss_end : Z;
  stack_start : Z;
  stack_end : Z;
  heap_start : Z;
  heap_size : Z;
  memory_end : Z }.

(** What [virt.lds] fixes: the sections follow one another from the origin
    of RAM, [.rodata] and [.data] start on a page, the stack is 512 KiB above
    [.bss], and the heap is the rest of the 128 MiB. *)
Class VirtLds `{Linker} : Prop := {
  lds_origin : text_start = 0x80000000;
  lds_text : text_start <= text_end;
  lds_rodata_page : (4096 | rodata_start);
  lds_text_rodata : text_end <= rodata_start;
  lds_rodata : rodata_start <= rodata_end;
  lds_data_page : (4096 | data_start);
  lds_rodata_data : rodata_end <= data_start;
  lds_data : data_start <= data_end;
  lds_data_bss : data_end <= bss_start;
  lds_bss : bss_start <= bss_end;
  lds_stack_start : stack_start = bss_end;
  lds_stack_end : stack_end = stack_start + 0x80000;
  lds_memory_end : memory_end = 0x88000000;
  lds_heap_start : heap_start = stack_end;
  lds_heap_size : heap_size = memory_end - heap_start;
  lds_fits : heap_start <= memory_end }.

(** A link of a 300 KiB image, used to evaluate the model. *)
Definition demo_linker : Linker := {|
  text_start := 0x80000000; text_end := 0x80020000;
  rodata_start := 0x80020000; rodata_end := 0x80028010;
  data_start := 0x80029000; data_end := 0x8002a018;
  bss_start := 0x8002a018; bss_end := 0x8004b123;
  stack_start := 0x8004b123; stack_end := 0x800cb123;
  heap_start := 0x800cb123; heap_size := 0x7f34edd; memory_end := 0x88000000 |}.

#[global] Instance demo_linker_lds : @VirtLds demo_linker.
Proof.
  split; simpl; try lia; by apply Z.mod_divide; [lia|reflexivity].
Qed.

(** A heap of sixteen pages at a page boundary, small enough to run. *)
Definition toy_linker : Linker := {|
  text_start := 0x80000000; text_end := 0x80000000;
  rodata_start := 0x80000000; rodata_end := 0x80000000;
  data_start := 0x80000000; data_end := 0x80000000;
  bss_start := 0x80000000; bss_end := 0x80000000;
  stack_start := 0x80000000; stack_end := 0x80080000;
  heap_start := 0x80080000; heap_size := 0x10000; memory_end := 0x80090000 |}.
