(* ===== verification/Frames.v ===== *)
(** * Physical memory and the page-frame interface

    The contract between the page-frame allocator
    ([src/src/mm/alloc/page_frame.rs]) and its clients: the Sv39 page-table
    code, the trap and process stacks, the VirtIO queues and the file system
    buffers.  Clients are verified against [FrameAllocatorLaws]; the file
    [PageFrame] discharges it.

    Memory is a map from addresses to 64-bit words, kept at multiples of
    eight; [Bytes] gives the byte-addressed view of the same map. *)

From S2P Require Import Prelude.

Definition PAGE_ORDER : Z := 12.
Definition PAGE_SIZE : Z := Z.shiftl 1 PAGE_ORDER.

Lemma PAGE_SIZE_val : PAGE_SIZE = 4096.
Proof. reflexivity. Qed.

(** The word stored at an address; uninitialised memory is not constrained
    because every theorem quantifies over the whole map. *)
Definition word_at (m : gmap Z Z) (a : Z) : Z := default 0 (m !! a).

(** [slice.fill(0)] over [n] words from [p]. *)
Fixpoint zero_words (p : Z) (n : nat) (m : gmap Z Z) : gmap Z Z :=
  match n with
  | O => m
  | S n' => zero_words (p + 8) n' (<[p := 0]> m)
  end.

Lemma word_at_insert m a b v :
  word_at (<[a := v]> m) b = if decide (a = b) then v else word_at m b.
Proof. unfold word_at. rewrite lookup_insert. by case_decide. Qed.

Lemma word_at_zero_words n p m a :
  word_at (zero_words p n m) a =
  if decide (p <= a < p + 8 * Z.of_nat n ∧ (a - p) mod 8 = 0) then 0
  else word_at m a.
Proof.
  revert p m. induction n as [|n IH]; intros p m; cbn [zero_words].
  - rewrite decide_False; [done|lia].
  - rewrite IH, word_at_insert.
    replace (a - p) with (a - (p + 8) + 1 * 8) by lia. rewrite Z.mod_add by lia.
    repeat case_decide; try done; exfalso; dlia.
Qed.

(** Operations a kernel component needs of the allocator, on any state that
    contains it. *)
Class FrameAllocator (S : Type) := {
  fa_ram : S → gmap Z Z;
  fa_set_ram : gmap Z Z → S → S;
  fa_allocate : Z → M S (option Z);
  fa_zallocate : Z → M S (option Z);
  fa_deallocate : Z → M S unit;
  (** The pages it hands out: do [n] bytes from [p] lie within them?  Outside
      are the kernel's image, its statics and the devices. *)
  fa_memory : Z → Z → bool }.

(** [read_volatile] / [write_volatile] and plain accesses of one word. *)
Definition load {S} `{FrameAllocator S} (a : Z) : M S Z :=
  gets (λ s, word_at (fa_ram s) a).
Definition store {S} `{FrameAllocator S} (a v : Z) : M S unit :=
  modify (λ s, fa_set_ram (<[a := v]> (fa_ram s)) s).

(** The promise: a state represents a map [h] from the addresses of live
    runs to their length in pages. *)
Class FrameAllocatorLaws (S : Type) `{FrameAllocator S} := {
  fa_rep : S → gmap Z Z → Prop;
  fa_end : Z;
  fa_ram_set m s : fa_ram (fa_set_ram m s) = m;
  fa_rep_set m s h : fa_rep s h → fa_rep (fa_set_ram m s) h;
  fa_run s h p n : fa_rep s h → h !! p = Some n →
    0 < n ∧ 0 < p ∧ (PAGE_SIZE | p) ∧ p + n * PAGE_SIZE <= 2 ^ 55;
  fa_managed s h p n a k : fa_rep s h → h !! p = Some n → p <= a → a + k <= p + n * PAGE_SIZE →
    fa_memory a k = true;
  fa_disjoint s h p n p' n' : fa_rep s h →
    h !! p = Some n → h !! p' = Some n' → p ≠ p' →
    p + n * PAGE_SIZE <= p' ∨ p' + n' * PAGE_SIZE <= p;
  fa_allocate_spec s h n : fa_rep s h → 0 < n →
    fa_allocate n s = Done (None, s) ∨
    ∃ p s', fa_allocate n s = Done (Some p, s') ∧ h !! p = None ∧
            fa_rep s' (<[p := n]> h) ∧ fa_ram s' = fa_ram s;
  fa_zallocate_spec s h n : fa_rep s h → 0 < n →
    fa_zallocate n s = Done (None, s) ∨
    ∃ p s', fa_zallocate n s = Done (Some p, s') ∧ h !! p = None ∧
            fa_rep s' (<[p := n]> h) ∧
            ∀ a, word_at (fa_ram s') a =
                 if decide (p <= a < p + n * PAGE_SIZE ∧ (a - p) mod 8 = 0)
                 then 0 else word_at (fa_ram s) a;
  fa_deallocate_spec s h p n : fa_rep s h → h !! p = Some n → p < fa_end →
    ∃ s', fa_deallocate p s = Done (tt, s') ∧ fa_rep s' (delete p h) ∧
          fa_ram s' = fa_ram s;
  (** [fa_room s n]: [n] single pages can still be had, and given back. *)
  fa_room : S → nat → Prop;
  fa_room_le s m n : fa_room s n → (m <= n)%nat → fa_room s m;
  fa_room_set m s n : fa_room s n → fa_room (fa_set_ram m s) n;
  fa_allocate_room s h n : fa_rep s h → fa_room s (Datatypes.S n) →
    ∃ p s', fa_allocate 1 s = Done (Some p, s') ∧ p < fa_end ∧ fa_room s' n;
  fa_zallocate_room s h n : fa_rep s h → fa_room s (Datatypes.S n) →
    ∃ p s', fa_zallocate 1 s = Done (Some p, s') ∧ p < fa_end ∧ fa_room s' n;
  fa_deallocate_room s h p n s' : fa_rep s h → h !! p = Some 1 → p < fa_end →
    fa_room s n → fa_deallocate p s = Done (tt, s') → fa_room s' (Datatypes.S n) }.

(** ** The allocator beside other state

    A component keeps its own state next to the allocator's; the two do not
    interfere. *)

Class Apart (S T : Type) `{FrameAllocatorLaws S} `{LensLaws S T} : Prop := {
  ap_ram (t : T) s : fa_ram (put t s) = fa_ram s;
  ap_set_ram m s : view (T:=T) (fa_set_ram m s) = view s;
  ap_rep (t : T) s h : fa_rep s h → fa_rep (put t s) h;
  ap_room (t : T) s n : fa_room s n → fa_room (put t s) n;
  ap_allocate n s r s' : fa_allocate n s = Done (r, s') → view (T:=T) s' = view s;
  ap_zallocate n s r s' : fa_zallocate n s = Done (r, s') → view (T:=T) s' = view s;
  ap_deallocate p s r s' : fa_deallocate p s = Done (r, s') → view (T:=T) s' = view s }.

Section beside.
Context {A R : Type} `{FrameAllocatorLaws A}.

Definition on_frames {X} (m : M A X) : M (A * R) X := zoom fst (λ a s, (a, snd s)) m.

#[export] Instance beside_allocator : FrameAllocator (A * R) := {|
  fa_ram s := fa_ram (fst s);
  fa_set_ram m s := (fa_set_ram m (fst s), snd s);
  fa_allocate n := on_frames (fa_allocate n);
  fa_zallocate n := on_frames (fa_zallocate n);
  fa_deallocate p := on_frames (fa_deallocate p);
  fa_memory := fa_memory (S:=A) |}.

Lemma on_frames_done {X} (m : M A X) a r x a' :
  m a = Done (x, a') → on_frames m (a, r) = Done (x, (a', r)).
Proof. unfold on_frames, zoom. cbn. by intros ->. Qed.

#[export] Program Instance beside_laws : FrameAllocatorLaws (A * R) := {|
  fa_rep s := fa_rep (fst s);
  fa_end := fa_end (S:=A);
  fa_room s := fa_room (fst s) |}.
Next Obligation. intros m [a r]. cbn. apply fa_ram_set. Qed.
Next Obligation. intros m [a r] h. cbn. apply fa_rep_set. Qed.
Next Obligation. intros [a r] h p n. cbn. apply fa_run. Qed.
Next Obligation. intros [a r] h p n. cbn. apply fa_managed. Qed.
Next Obligation. intros [a r] h p n p' n'. cbn. apply fa_disjoint. Qed.
Next Obligation.
  intros [a r] h n Hrep Hn. cbn.
  destruct (fa_allocate_spec a h n Hrep Hn) as [E|(p & a' & E & ? & ? & ?)].
  - left. by rewrite (on_frames_done _ _ _ _ _ E).
  - right. exists p, (a', r). by rewrite (on_frames_done _ _ _ _ _ E).
Qed.
Next Obligation.
  intros [a r] h n Hrep Hn. cbn.
  destruct (fa_zallocate_spec a h n Hrep Hn) as [E|(p & a' & E & ? & ? & ?)].
  - left. by rewrite (on_frames_done _ _ _ _ _ E).
  - right. exists p, (a', r). by rewrite (on_frames_done _ _ _ _ _ E).
Qed.
Next Obligation.
  intros [a r] h p n Hrep Hp Hlt. cbn.
  destruct (fa_deallocate_spec a h p n Hrep Hp Hlt) as (a' & E & ? & ?).
  exists (a', r). by rewrite (on_frames_done _ _ _ _ _ E).
Qed.
Next Obligation. intros [a r] m n. cbn. apply fa_room_le. Qed.
Next Obligation. intros m [a r] n. cbn. apply fa_room_set. Qed.
Next Obligation.
  intros [a r] h n Hrep Hroom. cbn.
  destruct (fa_allocate_room a h n Hrep Hroom) as (p & a' & E & ? & ?).
  exists p, (a', r). by rewrite (on_frames_done _ _ _ _ _ E).
Qed.
Next Obligation.
  intros [a r] h n Hrep Hroom. cbn.
  destruct (fa_zallocate_room a h n Hrep Hroom) as (p & a' & E & ? & ?).
  exists p, (a', r). by rewrite (on_frames_done _ _ _ _ _ E).
Qed.
Next Obligation.
  intros [a r] h p n [a' r'] Hrep Hp Hlt Hroom. cbn. unfold on_frames, zoom. cbn.
  destruct (fa_deallocate p a) as [[[] a'']| | |] eqn:E; try done. intros [= <- <-].
  by eapply fa_deallocate_room.
Qed.

Lemma on_frames_keeps {X} (m : M A X) s x s' :
  on_frames m s = Done (x, s') → snd s' = snd s.
Proof.
  unfold on_frames, zoom. destruct (m (fst s)) as [[y a]| | |]; try done.
  by intros [= <- <-].
Qed.

Context {T : Type} `{LensLaws R T}.
#[export] Instance beside_lens : Lens (A * R) T := {|
  view s := view (snd s);
  put t s := (fst s, put t (snd s)) |}.
#[export] Instance beside_lens_laws : LensLaws (A * R) T.
Proof.
  split; cbn.
  - intros t s. apply view_put.
  - intros t t' s. by rewrite put_put.
  - intros [a r]. cbn. by rewrite put_view.
Qed.
#[export] Instance beside_apart : Apart (A * R) T.
Proof.
  split; cbn; try done; intros * E; apply on_frames_keeps in E; by rewrite E.
Qed.
End beside.
