(* ===== verification/Bytes.v ===== *)
(** * Bytes, little-endian fields and byte views of memory

    [#[repr(C)]] structures are read by casting a byte pointer.  A source of
    bytes is a function from addresses: a disk image, a buffer in memory or
    an in-memory slice; the same field decoders apply to all of them. *)

From S2P Require Import Prelude Frames.

(** An unsigned little-endian field of [n] bytes at [a]. *)
Fixpoint le (n : nat) (f : Z → Z) (a : Z) : Z :=
  match n with
  | O => 0
  | S n' => f a + 256 * le n' f (a + 1)
  end.

Definition u8_at (f : Z → Z) (a : Z) : Z := f a.
Definition u16_at : (Z → Z) → Z → Z := le 2.
Definition u32_at : (Z → Z) → Z → Z := le 4.
Definition u64_at : (Z → Z) → Z → Z := le 8.

(** The byte of memory at [a], inside the word that holds it. *)
Definition byte_at (m : gmap Z Z) (a : Z) : Z :=
  Z.land (Z.shiftr (word_at m (a - a mod 8)) (8 * (a mod 8))) 255.

(** The [n] bytes from [a], a slice. *)
Definition bytes_from (f : Z → Z) (a : Z) (n : nat) : list Z :=
  (λ i, f (a + Z.of_nat i)) <$> seq 0 n.

(** A slice seen as a source of bytes. *)
Definition slice_at (l : list Z) (a : Z) : Z :=
  if a <? 0 then 0 else default 0 (l !! Z.to_nat a).

(** [n] words of memory from [p] replaced by bytes of [f] from [a]. *)
Fixpoint put_words (p : Z) (f : Z → Z) (a : Z) (n : nat) (m : gmap Z Z) : gmap Z Z :=
  match n with
  | O => m
  | S n' => put_words (p + 8) f (a + 8) n' (<[p := le 8 f a]> m)
  end.

(** Writing one byte, and a little-endian field of [n] bytes. *)
Definition put_byte (a v : Z) (m : gmap Z Z) : gmap Z Z :=
  let k := 8 * (a mod 8) in
  let w := word_at m (a - a mod 8) in
  <[a - a mod 8 := Z.lor (Z.land w (Z.lnot (Z.shiftl 255 k))) (Z.shiftl v k)]> m.

Fixpoint put_le (n : nat) (a v : Z) (m : gmap Z Z) : gmap Z Z :=
  match n with
  | O => m
  | S n' => put_le n' (a + 1) (v / 256) (put_byte a (v mod 256) m)
  end.

Definition byteful (f : Z → Z) : Prop := ∀ a, 0 <= f a < 256.

Lemma byte_at_byteful m : byteful (byte_at m).
Proof.
  intros a. unfold byte_at. rewrite (land_ones_mod _ 8) by lia.
  apply Z.mod_pos_bound. lia.
Qed.

Lemma le_range n f a : byteful f → 0 <= le n f a < 256 ^ Z.of_nat n.
Proof.
  intros Hf. revert a. induction n as [|n IH]; intros a; [done|].
  cbn [le]. specialize (IH (a + 1)). specialize (Hf a).
  rewrite Nat2Z.inj_succ, Z.pow_succ_r by lia. lia.
Qed.

Lemma u16_range f a : byteful f → 0 <= u16_at f a < 2 ^ 16.
Proof. apply (le_range 2). Qed.
Lemma u32_range f a : byteful f → 0 <= u32_at f a < 2 ^ 32.
Proof. apply (le_range 4). Qed.
Lemma u64_range f a : byteful f → 0 <= u64_at f a < 2 ^ 64.
Proof. apply (le_range 8). Qed.

(** A field only depends on the bytes it covers. *)
Lemma le_ext n f g a b :
  (∀ i, 0 <= i < Z.of_nat n → f (a + i) = g (b + i)) → le n f a = le n g b.
Proof.
  revert a b. induction n as [|n IH]; intros a b H; [done|]. cbn [le]. f_equal.
  - specialize (H 0). rewrite !Z.add_0_r in H. apply H. lia.
  - f_equal. apply IH. intros i Hi. rewrite <- !Z.add_assoc. apply H. lia.
Qed.

Lemma bytes_from_length f a n : length (bytes_from f a n) = n.
Proof. unfold bytes_from. by rewrite length_fmap, length_seq. Qed.

Lemma bytes_from_lookup f a n i :
  (i < n)%nat → bytes_from f a n !! i = Some (f (a + Z.of_nat i)).
Proof.
  intros Hi. unfold bytes_from. rewrite list_lookup_fmap, lookup_seq_lt by done. done.
Qed.

Lemma bytes_from_ext f g a b n :
  (∀ i, 0 <= i < Z.of_nat n → f (a + i) = g (b + i)) →
  bytes_from f a n = bytes_from g b n.
Proof.
  intros H. unfold bytes_from. apply list_fmap_ext. intros i x Hx.
  apply lookup_seq in Hx as [-> Hi]. apply H. lia.
Qed.

Lemma bytes_from_app f a n k :
  bytes_from f a (n + k) = bytes_from f a n ++ bytes_from f (a + Z.of_nat n) k.
Proof.
  unfold bytes_from. rewrite seq_app, fmap_app. f_equal.
  rewrite <- (Nat.add_0_r n) at 1. rewrite Nat.add_comm, <- fmap_add_seq, <- list_fmap_compose.
  apply list_fmap_ext. intros i x _. cbn. f_equal. lia.
Qed.

(** Bytes of a little-endian word. *)
Lemma le_byte n f a i :
  byteful f → (i < n)%nat →
  Z.land (Z.shiftr (le n f a) (8 * Z.of_nat i)) 255 = f (a + Z.of_nat i).
Proof.
  intros Hf. revert a i. induction n as [|n IH]; intros a i Hi; [lia|].
  cbn [le]. rewrite (land_ones_mod _ 8) by lia. pose proof (Hf a) as Ha.
  destruct i as [|i].
  - rewrite Z.shiftr_0_r, Z.add_0_r.
    change (2 ^ 8) with 256. rewrite Z.mul_comm, Z_mod_plus_full. by apply Z.mod_small.
  - rewrite Nat2Z.inj_succ.
    replace (8 * Z.succ (Z.of_nat i)) with (8 + 8 * Z.of_nat i) by lia.
    rewrite <- Z.shiftr_shiftr by lia.
    replace (Z.shiftr (f a + 256 * le n f (a + 1)) 8) with (le n f (a + 1)).
    + rewrite <- (land_ones_mod _ 8) by lia. change (2 ^ 8 - 1) with 255.
      rewrite IH by lia. f_equal. lia.
    + rewrite Z.shiftr_div_pow2 by lia. change (2 ^ 8) with 256. dlia.
Qed.

Lemma word_at_put_words n p f a m b :
  word_at (put_words p f a n m) b =
  if decide (p <= b < p + 8 * Z.of_nat n ∧ (b - p) mod 8 = 0)
  then le 8 f (a + (b - p)) else word_at m b.
Proof.
  revert p a m. induction n as [|n IH]; intros p a m; cbn [put_words].
  - rewrite decide_False; [done|lia].
  - rewrite IH, word_at_insert.
    replace (b - p) with (b - (p + 8) + 1 * 8) by lia. rewrite Z.mod_add by lia.
    repeat case_decide; try done; try (exfalso; dlia); f_equal; dlia.
Qed.

(** Transferring [8 * n] bytes to an aligned buffer. *)
Lemma byte_at_put_words n p f a m b :
  byteful f → (8 | p) →
  byte_at (put_words p f a n m) b =
  if decide (p <= b < p + 8 * Z.of_nat n) then f (a + (b - p)) else byte_at m b.
Proof.
  intros Hf [q ->]. unfold byte_at. rewrite word_at_put_words.
  assert (Hm : (b - b mod 8 - q * 8) mod 8 = 0).
  { replace (b - b mod 8 - q * 8) with ((b / 8 - q) * 8) by dlia. apply Z_mod_mult. }
  repeat case_decide; try done; try (exfalso; dlia).
  pose proof (Z.mod_pos_bound b 8).
  pose proof (le_byte 8 f (a + (b - b mod 8 - q * 8)) (Z.to_nat (b mod 8)) Hf) as H'.
  rewrite Z2Nat.id in H' by lia. rewrite H' by lia. f_equal. lia.
Qed.

Lemma byte_at_word m m' a :
  word_at m' (a - a mod 8) = word_at m (a - a mod 8) → byte_at m' a = byte_at m a.
Proof. unfold byte_at. by intros ->. Qed.

Lemma byte_bits k : 0 <= k → Z.testbit 255 k = (k <? 8).
Proof.
  intros Hk. change 255 with (Z.ones 8). destruct (Z.ltb_spec k 8).
  - by apply Z.ones_spec_low.
  - apply Z.ones_spec_high. lia.
Qed.

Lemma byte_at_put_byte a v m b :
  0 <= v < 256 →
  byte_at (put_byte a v m) b = if decide (a = b) then v else byte_at m b.
Proof.
  intros Hv. unfold byte_at, put_byte. rewrite word_at_insert.
  pose proof (Z.mod_pos_bound a 8). pose proof (Z.mod_pos_bound b 8).
  destruct (decide (a = b)) as [<-|Hne].
  - rewrite decide_True by done. apply Z.bits_inj'. intros i Hi. bits_unfold.
    rewrite !byte_bits by lia.
    destruct (Z.ltb_spec i 8).
    + replace (i + 8 * (a mod 8) - 8 * (a mod 8)) with i by lia.
      rewrite (proj2 (Z.ltb_lt i 8)) by lia. cbn [negb].
      by rewrite andb_false_r, andb_true_r.
    + rewrite andb_false_r. symmetry. apply (testbit_above 8); [done|lia].
  - case_decide as Hw; [|done].
    assert (Hk : a mod 8 ≠ b mod 8) by lia. rewrite Hw.
    apply Z.bits_inj'. intros i Hi. bits_unfold. rewrite (byte_bits i) by lia.
    destruct (Z.ltb_spec i 8); [|by rewrite !andb_false_r].
    rewrite !andb_true_r.
    assert (Hv0 : Z.testbit v (i + 8 * (b mod 8) - 8 * (a mod 8)) = false).
    { destruct (Z.lt_ge_cases (i + 8 * (b mod 8) - 8 * (a mod 8)) 0);
        [by apply Z.testbit_neg_r|]. apply (testbit_above 8); [done|]. lia. }
    assert (Hf0 : Z.testbit 255 (i + 8 * (b mod 8) - 8 * (a mod 8)) = false).
    { destruct (Z.lt_ge_cases (i + 8 * (b mod 8) - 8 * (a mod 8)) 0);
        [by apply Z.testbit_neg_r|]. apply (testbit_above 8); lia. }
    by rewrite Hv0, Hf0, orb_false_r, andb_true_r.
Qed.

Lemma byte_at_put_le n a v m b :
  byte_at (put_le n a v m) b =
  if decide (a <= b < a + Z.of_nat n) then v / 256 ^ (b - a) mod 256 else byte_at m b.
Proof.
  revert a v m. induction n as [|n IH]; intros a v m; cbn [put_le].
  { rewrite decide_False; [done|lia]. }
  rewrite IH, byte_at_put_byte by (apply Z.mod_pos_bound; lia).
  repeat case_decide; try done; try (exfalso; lia).
  - rewrite Z.div_div by lia. do 2 f_equal.
    replace (b - a) with (Z.succ (b - (a + 1))) by lia. rewrite Z.pow_succ_r by lia. done.
  - subst b. by rewrite Z.sub_diag, Z.pow_0_r, Z.div_1_r.
Qed.

(** Reading back a field that was written. *)
Lemma le_put_le n a v m : le n (byte_at (put_le n a v m)) a = v mod 256 ^ Z.of_nat n.
Proof.
  rewrite (le_ext n _ (λ b, v / 256 ^ b mod 256) a 0).
  2: { intros i Hi. rewrite byte_at_put_le, decide_True by lia.
       by replace (a + i - a) with i by lia. }
  assert (Hgen : ∀ k x, 0 <= k →
    le n (λ b, x / 256 ^ b mod 256) k = x / 256 ^ k mod 256 ^ Z.of_nat n).
  { clear. induction n as [|n IH]; intros k x Hk; cbn [le].
    { by rewrite Z.pow_0_r, Z.mod_1_r. }
    rewrite IH by lia. rewrite Nat2Z.inj_succ, Z.pow_succ_r by lia.
    rewrite (Z.pow_add_r _ k 1), Z.pow_1_r, <- Z.div_div by lia.
    rewrite Z.rem_mul_r by lia. lia. }
  rewrite Hgen, Z.pow_0_r, Z.div_1_r by lia. done.
Qed.

(** Reading a field elsewhere. *)
Lemma le_put_le_ne k n a b v m :
  b + Z.of_nat k <= a ∨ a + Z.of_nat n <= b →
  le k (byte_at (put_le n a v m)) b = le k (byte_at m) b.
Proof.
  intros Hd. apply le_ext. intros i Hi. rewrite byte_at_put_le, decide_False; [done|lia].
Qed.

(** Writing [n] bytes of [g] from [src] to [a]. *)
Fixpoint copy_bytes (n : nat) (a : Z) (g : Z → Z) (src : Z) (m : gmap Z Z) : gmap Z Z :=
  match n with
  | O => m
  | S n' => copy_bytes n' (a + 1) g (src + 1) (put_byte a (g src) m)
  end.

Lemma byte_at_copy_bytes n a g src m b :
  byteful g →
  byte_at (copy_bytes n a g src m) b =
  if decide (a <= b < a + Z.of_nat n) then g (src + (b - a)) else byte_at m b.
Proof.
  intros Hg. revert a src m. induction n as [|n IH]; intros a src m; cbn [copy_bytes].
  { rewrite decide_False; [done|lia]. }
  rewrite IH, byte_at_put_byte by apply Hg.
  repeat case_decide; try done; try (exfalso; lia); f_equal; lia.
Qed.
