(* ===== verification/PageFrame.v ===== *)
(** * The first-fit page-frame allocator

    Models [src/src/mm/alloc/page_frame.rs].  The state is the descriptor
    table, the address of the first data page and physical memory.  The table
    occupies the bytes from [heap_start], below [alloc_start], so it is kept
    apart from the words of the data pages.

    - [allocate], [zallocate], [deallocate], [init]: the operations;
    - [rep]: the table describes a map of live runs;
    - [Spec]: the abstract allocator, first fit over a map of runs;
    - the instance [frames_laws] of the interface of [Frames]. *)

From S2P Require Import Prelude Linker Frames.

(** ** Page descriptors ([PageDesc]) *)

Definition TAKEN : Z := Z.shiftl 1 0.
Definition LAST : Z := Z.shiftl 1 1.

Definition is_taken (d : Z) : bool := negb (Z.land d TAKEN =? 0).
Definition is_last (d : Z) : bool := negb (Z.land d LAST =? 0).
Definition clear (d : Z) : Z := 0.
Definition mark_taken (d : Z) : Z := Z.lor d TAKEN.
Definition mark_last (d : Z) : Z := Z.lor d LAST.

(** ** Allocator state *)

Record frames := mk_frames {
  descs : list Z;        (** the descriptor table *)
  alloc_start : Z;       (** [ALLOC_START] *)
  ram : gmap Z Z }.

Definition set_descs (l : list Z) (s : frames) : frames :=
  mk_frames l (alloc_start s) (ram s).
Definition set_alloc_start (a : Z) (s : frames) : frames :=
  mk_frames (descs s) a (ram s).
Definition set_ram (m : gmap Z Z) (s : frames) : frames :=
  mk_frames (descs s) (alloc_start s) m.

(** [usize::next_multiple_of]. *)
Definition next_multiple_of (a b : Z) : Z :=
  if a mod b =? 0 then a else a + (b - a mod b).

(** [slice::windows] and [Iterator::position]. *)
Fixpoint windows {A} (n : nat) (l : list A) : list (list A) :=
  match l with
  | [] => []
  | _ :: l' => if decide (n <= length l)%nat then take n l :: windows n l' else []
  end.

Fixpoint position {A} (f : A → bool) (l : list A) : option nat :=
  match l with
  | [] => None
  | x :: l' => if f x then Some O else S <$> position f l'
  end.

(** The run [table[s .. s + n]] marked taken, its last page marked last. *)
Definition mark_run (s n : nat) (table : list Z) : list Z :=
  take s table
    ++ alter mark_last (n - 1)%nat (mark_taken <$> take n (drop s table))
    ++ drop (s + n) table.

(** The loop of [deallocate]: clear descriptors up to the last of the run. *)
Fixpoint free_run (fuel : nat) (table : list Z) (i : nat) : outcome (list Z * nat) :=
  match fuel with
  | O => Diverge
  | S fuel' =>
      match table !! i with
      | None => Panic PBounds
      | Some d =>
          if is_taken d && negb (is_last d)
          then free_run fuel' (<[i := clear d]> table) (S i)
          else Done (table, i)
      end
  end.

Section page_frame.
Context `{Profile} `{Linker}.

(** Number of descriptors, [heap_size() / PAGE_SIZE]. *)
Definition descriptors : nat := Z.to_nat (heap_size / PAGE_SIZE).

Definition init : M frames unit :=
  modify (λ s, set_descs (clear <$> descs s) s);;
  table ← gets descs;
  e ← checked 64 (heap_start + Z.of_nat (length table));
  a ← checked 64 (next_multiple_of e PAGE_SIZE);
  modify (set_alloc_start a).

Definition allocate (pages : Z) : M frames (option Z) :=
  assert (0 <? pages);;
  table ← gets descs;
  match position (forallb (λ p, negb (is_taken p)))
                 (windows (Z.to_nat pages) table) with
  | None => mret None
  | Some start_idx =>
      modify (set_descs (mark_run start_idx (Z.to_nat pages) table));;
      start ← gets alloc_start;
      off ← checked 64 (Z.of_nat start_idx * PAGE_SIZE);
      addr ← checked 64 (start + off);
      mret (if addr =? 0 then None else Some addr)
  end.

Definition zallocate (pages : Z) : M frames (option Z) :=
  o ← allocate pages;
  match o with
  | None => mret None
  | Some p =>
      bytes ← checked 64 (PAGE_SIZE * pages);
      modify (λ s, set_ram (zero_words p (Z.to_nat (bytes / 8)) (ram s)) s);;
      mret (Some p)
  end.

Definition deallocate (addr : Z) : M frames unit :=
  start ← gets alloc_start;
  heap_end ← checked 64 (heap_start + heap_size);
  assert ((start <=? addr) && (addr <? heap_end));;
  table ← gets descs;
  let i := Z.to_nat ((addr - start) / PAGE_SIZE) in
  '(table', j) ← (λ s, match free_run (S (length table)) table i with
                       | Done r => Done (r, s)
                       | Panic p => Panic p
                       | Undefined => Undefined
                       | Diverge => Diverge
                       end);
  d ← index table' j;
  assert (is_taken d && is_last d);;
  modify (set_descs (<[j := clear d]> table')).
End page_frame.

(** ** Lists *)

Lemma windows_lookup {A} n (l : list A) i w :
  (0 < n)%nat → windows n l !! i = Some w →
  (i + n <= length l)%nat ∧ w = take n (drop i l).
Proof.
  intros Hn. revert i. induction l as [|x l IH]; intros i; cbn [windows]; [done|].
  case_decide as Hd; [|done]. destruct i as [|i]; cbn [lookup list_lookup drop].
  - intros [= <-]. done.
  - intros Hw. apply IH in Hw as [? ->]. cbn [length]. split; [lia|done].
Qed.

Lemma windows_all {A} n (l : list A) i :
  (0 < n)%nat → (i + n <= length l)%nat →
  windows n l !! i = Some (take n (drop i l)).
Proof.
  intros Hn. revert i. induction l as [|x l IH]; intros i Hi; cbn [windows length] in *; [lia|].
  rewrite decide_True by lia. destruct i as [|i]; [done|].
  apply IH. lia.
Qed.

Lemma position_some {A} (f : A → bool) l i :
  position f l = Some i →
  (∃ x, l !! i = Some x ∧ f x = true) ∧
  ∀ j y, (j < i)%nat → l !! j = Some y → f y = false.
Proof.
  revert i. induction l as [|x l IH]; intros i; cbn [position]; [done|].
  destruct (f x) eqn:Hf.
  - intros [= <-]. split; [by exists x|lia].
  - destruct (position f l) as [k|] eqn:Hk; [|done]. intros [= <-].
    destruct (IH k eq_refl) as [Hex Hlt]. split; [done|].
    intros [|j] y Hj Hy; cbn in Hy; [by simplify_eq|]. eapply Hlt; [|done]. lia.
Qed.

Lemma position_none {A} (f : A → bool) l i x :
  position f l = None → l !! i = Some x → f x = false.
Proof.
  revert i. induction l as [|y l IH]; intros i; cbn [position]; [done|].
  destruct (f y) eqn:Hf; [done|]. destruct (position f l) eqn:Hp; [done|].
  intros _. destruct i as [|i]; cbn; [by intros [= <-]|by apply IH].
Qed.

(** The descriptor at [i] after a run is marked. *)
Definition marked (s n i : nat) (d : Z) : Z :=
  if decide (s <= i < s + n)%nat
  then if decide (S i = s + n)%nat then mark_last (mark_taken d) else mark_taken d
  else d.

Lemma mark_run_lookup s n table i :
  (0 < n)%nat → (s + n <= length table)%nat →
  mark_run s n table !! i = marked s n i <$> table !! i.
Proof.
  intros Hn Hs. unfold mark_run.
  destruct (decide (i < s)%nat) as [Hi|Hi].
  { rewrite lookup_app_l by (rewrite length_take; lia).
    rewrite lookup_take_lt by done.
    destruct (table !! i); [|done]. cbn. unfold marked. by rewrite decide_False by lia. }
  rewrite lookup_app_r by (rewrite length_take; lia).
  rewrite length_take, Nat.min_l by lia.
  destruct (decide (i < s + n)%nat) as [Hi'|Hi'].
  - rewrite lookup_app_l by (rewrite length_alter, length_fmap, length_take, length_drop; lia).
    destruct (decide (S i = s + n)%nat) as [He|He];
      [replace (n - 1)%nat with (i - s)%nat by lia; rewrite list_lookup_alter_eq
      |rewrite list_lookup_alter_ne by lia];
      rewrite list_lookup_fmap, lookup_take_lt, lookup_drop by lia;
      replace (s + (i - s))%nat with i by lia;
      (destruct (table !! i); [|done]); cbn; unfold marked;
      rewrite decide_True by lia; [by rewrite decide_True|by rewrite decide_False].
  - rewrite lookup_app_r by (rewrite length_alter, length_fmap, length_take, length_drop; lia).
    rewrite length_alter, length_fmap, length_take, length_drop.
    rewrite Nat.min_l, lookup_drop by lia.
    replace (s + n + (i - s - n))%nat with i by lia.
    destruct (table !! i); [|done]. cbn. unfold marked. by rewrite decide_False by lia.
Qed.

Lemma length_mark_run s n table :
  (s + n <= length table)%nat → length (mark_run s n table) = length table.
Proof.
  intros. unfold mark_run.
  rewrite !length_app, length_alter, length_fmap, !length_take, !length_drop. lia.
Qed.

(** ** Representation: the table describes a set of runs *)

Record table_rep (table : list Z) (runs : gmap nat nat) : Prop := {
  tr_fits s n : runs !! s = Some n → (0 < n)%nat ∧ (s + n <= length table)%nat;
  tr_disj s n s' n' : runs !! s = Some n → runs !! s' = Some n' → s ≠ s' →
    (s + n <= s')%nat ∨ (s' + n' <= s)%nat;
  tr_taken s n i : runs !! s = Some n → (s <= i < s + n)%nat →
    table !! i = Some (if decide (S i = s + n)%nat then 3 else 1);
  tr_free i : (i < length table)%nat →
    (∀ s n, runs !! s = Some n → ¬ (s <= i < s + n)%nat) → table !! i = Some 0 }.

Definition all_free (table : list Z) (s n : nat) : Prop :=
  (s + n <= length table)%nat ∧
  ∀ i d, (s <= i < s + n)%nat → table !! i = Some d → is_taken d = false.

Lemma all_free_window table s n w :
  (0 < n)%nat → windows n table !! s = Some w →
  forallb (λ p, negb (is_taken p)) w = true ↔ all_free table s n.
Proof.
  intros Hn Hw. apply windows_lookup in Hw as [Hs ->]; [|done].
  rewrite <- Is_true_true, forallb_True, Forall_lookup. unfold all_free. split.
  - intros Hall. split; [done|]. intros i d Hi Hd.
    specialize (Hall (i - s)%nat d). rewrite lookup_take_lt, lookup_drop in Hall by lia.
    replace (s + (i - s))%nat with i in Hall by lia. apply negb_prop_elim in Hall; [|done].
    by destruct (is_taken d).
  - intros [_ Hall] i d Hi. apply lookup_take_Some in Hi as [Hi ?].
    rewrite lookup_drop in Hi. apply Hall in Hi; [|lia]. by rewrite Hi.
Qed.

Lemma table_rep_uncovered table runs s n :
  table_rep table runs → all_free table s n →
  ∀ s' n' i, runs !! s' = Some n' → (s <= i < s + n)%nat → ¬ (s' <= i < s' + n')%nat.
Proof.
  intros R [_ Hf] s' n' i Hr Hi Hi'. pose proof (tr_taken _ _ R _ _ _ Hr Hi') as Ht.
  apply Hf in Ht; [|done]. by case_decide.
Qed.

(** A run can be placed exactly where the table has a free window. *)
Lemma all_free_iff table runs s n :
  table_rep table runs →
  all_free table s n ↔
  (s + n <= length table)%nat ∧
  ∀ s' n' i, runs !! s' = Some n' → (s <= i < s + n)%nat → ¬ (s' <= i < s' + n')%nat.
Proof.
  intros R. split.
  - intros Hf. split; [apply Hf|by apply table_rep_uncovered with table].
  - intros [Hs Hun]. split; [done|]. intros i d Hi Hd.
    rewrite (tr_free _ _ R i) in Hd by (lia || eauto). by simplify_eq.
Qed.

Lemma table_rep_mark table runs s n :
  table_rep table runs → (0 < n)%nat → all_free table s n →
  table_rep (mark_run s n table) (<[s := n]> runs) ∧ runs !! s = None.
Proof.
  intros R Hn Hf. pose proof (table_rep_uncovered _ _ _ _ R Hf) as Hun.
  destruct Hf as [Hs Hf].
  assert (Hnone : runs !! s = None).
  { destruct (runs !! s) as [n'|] eqn:E; [|done].
    destruct (tr_fits _ _ R _ _ E). destruct (Hun s n' s E); lia. }
  assert (Hsep : ∀ s' n', runs !! s' = Some n' → (s + n <= s')%nat ∨ (s' + n' <= s)%nat).
  { intros s' n' E. destruct (tr_fits _ _ R _ _ E).
    destruct (decide (s <= s')%nat).
    - destruct (decide (s + n <= s')%nat); [by left|].
      destruct (Hun s' n' s' E); lia.
    - destruct (decide (s' + n' <= s)%nat); [by right|].
      destruct (Hun s' n' s E); lia. }
  split; [|done]. split.
  - intros s' n'. rewrite lookup_insert, length_mark_run by done.
    case_decide; [intros [= <-]; subst; lia|by apply (tr_fits _ _ R)].
  - intros s1 n1 s2 n2. rewrite !lookup_insert.
    repeat case_decide; intros; simplify_eq; try done.
    + by apply Hsep.
    + destruct (Hsep s1 n1); [done|lia|lia].
    + by apply (tr_disj _ _ R).
  - intros s' n' i. rewrite lookup_insert, mark_run_lookup by done.
    case_decide; intros E Hi; simplify_eq.
    + rewrite (tr_free _ _ R) by (lia || eauto). cbn. unfold marked.
      rewrite decide_True by done. by case_decide.
    + rewrite (tr_taken _ _ R _ _ _ E Hi). cbn. unfold marked.
      destruct (Hsep _ _ E); rewrite (decide_False (P := (s <= i < s + n)%nat)) by lia; done.
  - intros i. rewrite length_mark_run, mark_run_lookup by done. intros Hi Hnc.
    assert (¬ (s <= i < s + n)%nat) by (apply (Hnc s n); by rewrite lookup_insert_eq).
    rewrite (tr_free _ _ R i Hi).
    + cbn. unfold marked. by rewrite decide_False.
    + intros s' n' E. apply (Hnc s' n'). by rewrite lookup_insert_ne by congruence.
Qed.

(** The loop of [deallocate] on a run clears it and stops on its last page. *)
Lemma free_run_spec fuel table i e :
  (i <= e)%nat → (e - i < fuel)%nat →
  (∀ j, (i <= j < e)%nat → table !! j = Some 1) → table !! e = Some 3 →
  ∃ table', free_run fuel table i = Done (table', e) ∧
    length table' = length table ∧
    ∀ j, table' !! j = if decide (i <= j < e)%nat then Some 0 else table !! j.
Proof.
  revert table i. induction fuel as [|fuel IH]; intros table i Hie Hf Hrun He; [lia|].
  cbn [free_run]. destruct (decide (i = e)) as [->|Hne].
  - rewrite He. cbn. eexists. split; [done|]. split; [done|].
    intros j. by rewrite decide_False by lia.
  - rewrite (Hrun i) by lia. cbn.
    assert (Hl : (i < length table)%nat) by (apply lookup_lt_is_Some; rewrite Hrun by lia; eauto).
    destruct (IH (<[i := clear 1]> table) (S i)) as (t' & -> & Hlen & Ht'); [lia|lia| | |].
    + intros j Hj. rewrite list_lookup_insert_ne by lia. apply Hrun. lia.
    + by rewrite list_lookup_insert_ne by lia.
    + exists t'. split; [done|]. rewrite length_insert in Hlen. split; [done|]. intros j.
      rewrite Ht'. destruct (decide (j = i)) as [->|].
      * rewrite decide_False, decide_True by lia. by rewrite list_lookup_insert_eq.
      * rewrite list_lookup_insert_ne by done. repeat case_decide; try done; lia.
Qed.

Lemma table_rep_clear table table' runs s n :
  table_rep table runs → runs !! s = Some n → length table' = length table →
  (∀ j, table' !! j = if decide (s <= j < s + n)%nat then Some 0 else table !! j) →
  table_rep table' (delete s runs).
Proof.
  intros R Hs Hlen Hl.
  assert (Hd : ∀ s' n', delete s runs !! s' = Some n' → s' ≠ s ∧ runs !! s' = Some n').
  { intros s' n'. rewrite lookup_delete. case_decide; [done|]. split; congruence. }
  split.
  - intros s' n' [_ E]%Hd. rewrite Hlen. by apply (tr_fits _ _ R).
  - intros s1 n1 s2 n2 [_ E1]%Hd [_ E2]%Hd. by apply (tr_disj _ _ R).
  - intros s' n' i [Hne E]%Hd Hi. rewrite Hl, decide_False.
    + by apply (tr_taken _ _ R).
    + destruct (tr_disj _ _ R _ _ _ _ E Hs Hne); lia.
  - intros i Hi Hnc. rewrite Hl. case_decide; [done|].
    apply (tr_free _ _ R); [lia|]. intros s' n' E Hin.
    destruct (decide (s' = s)) as [->|]; [simplify_eq; lia|].
    apply (Hnc s' n'); [by rewrite lookup_delete_ne by congruence|done].
Qed.

(** ** The allocator's invariant *)

(** Addresses of the heap are positive and far below the 64-bit limit. *)
Class HeapOk `{Linker} : Prop := {
  heap_start_pos : 0 < heap_start;
  heap_size_nonneg : 0 <= heap_size;
  heap_small : heap_start + heap_size <= 2 ^ 53 }.

#[export] Instance virt_heap_ok `{VirtLds} : HeapOk.
Proof.
  destruct H0. split; lia.
Qed.

Lemma next_multiple_of_spec a :
  0 <= a → (PAGE_SIZE | next_multiple_of a PAGE_SIZE) ∧
  a <= next_multiple_of a PAGE_SIZE < a + PAGE_SIZE.
Proof.
  intros Ha. unfold next_multiple_of. rewrite PAGE_SIZE_val.
  pose proof (Z.mod_pos_bound a 4096). destruct (Z.eqb_spec (a mod 4096) 0) as [E|E].
  - split; [by apply Z.mod_divide|lia].
  - split; [|lia]. exists (a / 4096 + 1). rewrite (Z.div_mod a 4096) at 1; lia.
Qed.

Section invariant.
Context `{Profile} `{Linker} `{!HeapOk}.

(** [alloc_start] as [init] leaves it. *)
Definition first_page : Z :=
  next_multiple_of (heap_start + Z.of_nat descriptors) PAGE_SIZE.

Definition page_addr (i : nat) : Z := first_page + Z.of_nat i * PAGE_SIZE.

(** The live runs by address. *)
Definition held (runs : gmap nat nat) : gmap Z Z := kmap page_addr (Z.of_nat <$> runs).

Definition rep (s : frames) (h : gmap Z Z) : Prop :=
  length (descs s) = descriptors ∧ alloc_start s = first_page ∧
  ∃ runs, table_rep (descs s) runs ∧ h = held runs.

#[export] Instance page_addr_inj : Inj (=) (=) page_addr.
Proof. intros i j. unfold page_addr. rewrite PAGE_SIZE_val. lia. Qed.

Lemma held_lookup runs i : held runs !! page_addr i = Z.of_nat <$> runs !! i.
Proof. unfold held. by rewrite (lookup_kmap page_addr), lookup_fmap. Qed.

Lemma held_lookup_Some runs p n :
  held runs !! p = Some n ↔
  ∃ i k, p = page_addr i ∧ n = Z.of_nat k ∧ runs !! i = Some k.
Proof.
  unfold held. rewrite (lookup_kmap_Some page_addr). split.
  - intros (i & -> & E). rewrite lookup_fmap in E.
    destruct (runs !! i) eqn:?; simplify_eq/=. eauto 6.
  - intros (i & k & -> & -> & E). exists i. by rewrite lookup_fmap, E.
Qed.

Lemma held_insert runs i k : held (<[i := k]> runs) = <[page_addr i := Z.of_nat k]> (held runs).
Proof. unfold held. by rewrite fmap_insert, (kmap_insert page_addr). Qed.

Lemma held_delete runs i : held (delete i runs) = delete (page_addr i) (held runs).
Proof. unfold held. by rewrite fmap_delete, (kmap_delete page_addr). Qed.

Lemma descriptors_bound : Z.of_nat descriptors * PAGE_SIZE <= heap_size.
Proof.
  pose proof heap_size_nonneg. unfold descriptors. rewrite PAGE_SIZE_val.
  rewrite Z2Nat.id; dlia.
Qed.

Lemma first_page_spec :
  (PAGE_SIZE | first_page) ∧ heap_start + Z.of_nat descriptors <= first_page ∧
  first_page + Z.of_nat descriptors * PAGE_SIZE < 2 ^ 54.
Proof.
  pose proof heap_start_pos. pose proof heap_small. pose proof descriptors_bound.
  destruct (next_multiple_of_spec (heap_start + Z.of_nat descriptors)) as [? Hb]; [lia|].
  split; [done|]. unfold first_page. rewrite PAGE_SIZE_val in *. lia.
Qed.

Lemma page_addr_spec i :
  (i <= descriptors)%nat →
  (PAGE_SIZE | page_addr i) ∧ 0 < heap_start <= page_addr i ∧ page_addr i < 2 ^ 54.
Proof.
  intros Hi. pose proof heap_start_pos. destruct first_page_spec as (Hd & ? & ?).
  unfold page_addr. split.
  - apply Z.divide_add_r; [done|]. by exists (Z.of_nat i).
  - rewrite PAGE_SIZE_val in *. lia.
Qed.

Lemma page_addr_index i : Z.to_nat ((page_addr i - first_page) / PAGE_SIZE) = i.
Proof.
  unfold page_addr. rewrite PAGE_SIZE_val.
  replace (first_page + Z.of_nat i * 4096 - first_page) with (Z.of_nat i * 4096) by lia.
  rewrite Z.div_mul by lia. apply Nat2Z.id.
Qed.

Lemma rep_held s h p n :
  rep s h → h !! p = Some n →
  ∃ i k, p = page_addr i ∧ n = Z.of_nat k ∧ (0 < k)%nat ∧ (i + k <= descriptors)%nat.
Proof.
  intros (Hlen & _ & runs & R & ->) Hp.
  apply held_lookup_Some in Hp as (i & k & -> & -> & E).
  destruct (tr_fits _ _ R _ _ E). exists i, k. lia.
Qed.

(** *** [init] establishes the invariant *)
Lemma init_spec s :
  length (descs s) = descriptors →
  ∃ s', init s = Done (tt, s') ∧ rep s' ∅ ∧ ram s' = ram s.
Proof.
  intros Hlen. destruct first_page_spec as (_ & ? & ?).
  pose proof heap_start_pos. unfold init.
  rewrite bind_done with (a := tt) (s' := set_descs (clear <$> descs s) s) by done.
  rewrite bind_done with (a := clear <$> descs s) (s' := set_descs (clear <$> descs s) s) by done.
  rewrite length_fmap, Hlen.
  assert (first_page < 2 ^ 54) by (rewrite PAGE_SIZE_val in *; lia).
  erewrite bind_done by (apply checked_ok; lia). fold first_page.
  erewrite bind_done by (apply checked_ok; lia).
  eexists. split; [done|]. split; [|done].
  split; [by cbn; rewrite length_fmap|]. split; [done|].
  exists ∅. split; [|done]. cbn. split; try done.
  intros i Hi _. rewrite list_lookup_fmap. rewrite length_fmap in Hi.
  by apply lookup_lt_is_Some in Hi as [d ->].
Qed.

(** *** [allocate] *)
Lemma allocate_spec s h n :
  rep s h → 0 < n →
  (allocate n s = Done (None, s) ∧ ∀ i, ¬ all_free (descs s) i (Z.to_nat n)) ∨
  ∃ i, allocate n s = Done (Some (page_addr i),
                            set_descs (mark_run i (Z.to_nat n) (descs s)) s) ∧
       all_free (descs s) i (Z.to_nat n) ∧
       (∀ j, (j < i)%nat → ¬ all_free (descs s) j (Z.to_nat n)) ∧
       h !! page_addr i = None ∧
       rep (set_descs (mark_run i (Z.to_nat n) (descs s)) s) (<[page_addr i := n]> h).
Proof.
  intros (Hlen & Hstart & runs & R & ->) Hn. unfold allocate.
  assert (Hn' : (0 < Z.to_nat n)%nat) by lia.
  rewrite bind_done with (a := tt) (s' := s) by (apply assert_true; lia).
  rewrite bind_done with (a := descs s) (s' := s) by done.
  destruct (position _ _) as [i|] eqn:Hp.
  - right. exists i. apply position_some in Hp as [(w & Hw & Hall) Hlow].
    pose proof Hw as Hw'. apply (all_free_window _ _ _ _ Hn') in Hw' as Hfree.
    apply Hfree in Hall. destruct (table_rep_mark _ _ _ _ R Hn' Hall) as [R' Hnone].
    pose proof Hall as [Hfit _]. rewrite Hlen in Hfit.
    destruct first_page_spec as (_ & ? & ?). pose proof heap_start_pos.
    rewrite bind_done with (a := tt)
      (s' := set_descs (mark_run i (Z.to_nat n) (descs s)) s) by done.
    rewrite bind_done with (a := first_page)
      (s' := set_descs (mark_run i (Z.to_nat n) (descs s)) s) by (by unfold gets; rewrite <- Hstart).
    rewrite PAGE_SIZE_val in *.
    erewrite bind_done by (apply checked_ok; lia).
    erewrite bind_done by (apply checked_ok; lia).
    rewrite (proj2 (Z.eqb_neq (first_page + Z.of_nat i * 4096) 0)) by lia.
    split; [done|]. split; [done|]. split_and!.
    + intros j Hj Hf. pose proof (windows_all _ (descs s) j Hn' (proj1 Hf)) as Hwj.
      apply (all_free_window _ _ _ _ Hn' Hwj) in Hf. rewrite (Hlow _ _ Hj Hwj) in Hf. done.
    + by rewrite held_lookup, Hnone.
    + split; [cbn; rewrite length_mark_run; [done|lia]|]. split; [done|].
      exists (<[i := Z.to_nat n]> runs). split; [done|].
      rewrite held_insert. by rewrite Z2Nat.id by lia.
  - left. split; [done|]. intros i Hf.
    pose proof (windows_all _ (descs s) i Hn' (proj1 Hf)) as Hw.
    apply (all_free_window _ _ _ _ Hn' Hw) in Hf.
    by rewrite (position_none _ _ _ _ Hp Hw) in Hf.
Qed.
(** *** [zallocate] *)
Lemma zallocate_spec s h n :
  rep s h → 0 < n →
  zallocate n s = Done (None, s) ∨
  ∃ p s', zallocate n s = Done (Some p, s') ∧ h !! p = None ∧
          rep s' (<[p := n]> h) ∧
          ∀ a, word_at (ram s') a =
               if decide (p <= a < p + n * PAGE_SIZE ∧ (a - p) mod 8 = 0)
               then 0 else word_at (ram s) a.
Proof.
  intros R Hn. unfold zallocate.
  destruct (allocate_spec _ _ _ R Hn) as [[Ha _]|(i & Ha & Hf & _ & Hfresh & R')].
  { left. by rewrite (bind_done _ _ _ _ _ Ha). }
  right. exists (page_addr i). rewrite (bind_done _ _ _ _ _ Ha).
  pose proof R as (Hlen & _). destruct Hf as [Hfit _]. rewrite Hlen in Hfit.
  destruct first_page_spec as (_ & ? & ?). pose proof heap_start_pos.
  rewrite PAGE_SIZE_val in *.
  erewrite bind_done by (apply checked_ok; lia). eexists.
  split; [reflexivity|]. split; [done|]. split; [by apply R'|].
  intros a. cbn [ram set_ram set_descs]. rewrite word_at_zero_words, Z2Nat.id by dlia.
  replace (8 * (4096 * n / 8)) with (n * 4096) by dlia. done.
Qed.

(** *** [deallocate] *)
Lemma deallocate_entry s i :
  alloc_start s = first_page → (i < descriptors)%nat → page_addr i < heap_start + heap_size →
  deallocate (page_addr i) s =
  ('(table', j) ← (λ s, match free_run (S (length (descs s))) (descs s) i with
                        | Done r => Done (r, s)
                        | Panic p => Panic p
                        | Undefined => Undefined
                        | Diverge => Diverge
                        end);
   d ← index table' j;
   assert (is_taken d && is_last d);;
   modify (set_descs (<[j := clear d]> table'))) s.
Proof.
  intros Hs Hi Hp. unfold deallocate. pose proof heap_small. pose proof heap_start_pos.
  pose proof heap_size_nonneg. destruct (page_addr_spec i) as (_ & ? & _); [lia|].
  rewrite bind_done with (a := first_page) (s' := s) by (by unfold gets; rewrite Hs).
  erewrite bind_done by (apply checked_ok; lia).
  rewrite bind_done with (a := tt) (s' := s).
  2: { apply assert_true. apply andb_true_intro.
       split; [apply Z.leb_le; unfold page_addr; rewrite PAGE_SIZE_val; lia|lia]. }
  rewrite bind_done with (a := descs s) (s' := s) by done.
  cbv zeta. rewrite page_addr_index. done.
Qed.

Lemma deallocate_spec s h p n :
  rep s h → h !! p = Some n → p < heap_start + heap_size →
  ∃ table', deallocate p s = Done (tt, set_descs table' s) ∧
            rep (set_descs table' s) (delete p h) ∧
            ∃ i k, p = page_addr i ∧ n = Z.of_nat k ∧
              ∀ j, table' !! j = if decide (i <= j < i + k)%nat then Some 0 else descs s !! j.
Proof.
  intros (Hlen & Hs & runs & R & ->) Hp Hend.
  apply held_lookup_Some in Hp as (i & k & -> & -> & E).
  destruct (tr_fits _ _ R _ _ E) as [Hk Hfit].
  rewrite deallocate_entry by (done || lia).
  destruct (free_run_spec (S (length (descs s))) (descs s) i (i + k - 1))
    as (t & Ht & Hlt & Hlook); [lia|lia| | |].
  { intros j Hj. rewrite (tr_taken _ _ R _ _ _ E) by lia. by rewrite decide_False by lia. }
  { rewrite (tr_taken _ _ R _ _ _ E) by lia. by rewrite decide_True by lia. }
  erewrite bind_done by (rewrite Ht; done). cbv beta iota.
  assert (He : t !! (i + k - 1)%nat = Some 3).
  { rewrite Hlook, decide_False, (tr_taken _ _ R _ _ _ E) by lia. by rewrite decide_True by lia. }
  erewrite bind_done by (apply index_some, He).
  rewrite bind_done with (a := tt) (s' := s) by done.
  assert (Hfin : ∀ j, <[(i + k - 1)%nat := clear 3]> t !! j =
    if decide (i <= j < i + k)%nat then Some 0 else descs s !! j).
  { intros j. destruct (decide (j = i + k - 1)%nat) as [->|].
    - rewrite list_lookup_insert_eq by (apply lookup_lt_is_Some; eauto).
      by rewrite decide_True by lia.
    - rewrite list_lookup_insert_ne, Hlook by done. repeat case_decide; (done || lia). }
  eexists. split; [done|]. split.
  - split; [cbn; rewrite length_insert; lia|]. split; [done|].
    exists (delete i runs). rewrite held_delete. split; [|done].
    eapply table_rep_clear; [done|done| |done]. cbn. rewrite length_insert. lia.
  - by exists i, k.
Qed.

(** A page that no live run covers cannot be freed. *)
Lemma deallocate_free_page s h i :
  rep s h → (i < descriptors)%nat → page_addr i < heap_start + heap_size →
  (∀ p n, h !! p = Some n → ¬ (p <= page_addr i < p + n * PAGE_SIZE)) →
  deallocate (page_addr i) s = Panic PAssert.
Proof.
  intros (Hlen & Hs & runs & R & ->) Hi Hend Hnc.
  rewrite deallocate_entry by done.
  assert (E : descs s !! i = Some 0).
  { apply (tr_free _ _ R); [lia|]. intros s' n' Er Hin.
    apply (Hnc (page_addr s') (Z.of_nat n')).
    - by rewrite held_lookup, Er.
    - unfold page_addr. rewrite PAGE_SIZE_val. lia. }
  assert (Hfr : free_run (S (length (descs s))) (descs s) i = Done (descs s, i)).
  { cbn [free_run]. by rewrite E. }
  erewrite bind_done by (rewrite Hfr; done). cbv beta iota.
  by erewrite bind_done by (apply index_some, E).
Qed.

Lemma frames_disjoint s h p n p' n' :
  rep s h → h !! p = Some n → h !! p' = Some n' → p ≠ p' →
  p + n * PAGE_SIZE <= p' ∨ p' + n' * PAGE_SIZE <= p.
Proof.
  intros (_ & _ & runs & R & ->) Hp Hp' Hne.
  apply held_lookup_Some in Hp as (i & k & -> & -> & E).
  apply held_lookup_Some in Hp' as (i' & k' & -> & -> & E').
  unfold page_addr in *. rewrite PAGE_SIZE_val in *.
  destruct (tr_disj _ _ R _ _ _ _ E E'); [congruence|lia|lia].
Qed.

(** *** Free pages that can also be given back *)

(** Descriptors whose page starts below the end of the heap. *)
Definition usable : nat := Z.to_nat ((heap_start + heap_size - first_page + PAGE_SIZE - 1) / PAGE_SIZE).

Definition free_pages (table : list Z) : list Z := filter (λ d, is_taken d = false) table.

(** [n] free pages among the first [k]. *)
Definition room_in (k : nat) (s : frames) (n : nat) : Prop :=
  (n <= length (free_pages (take k (descs s))))%nat.

Definition room : frames → nat → Prop := room_in usable.

Lemma usable_spec i : (i < usable)%nat ↔ page_addr i < heap_start + heap_size.
Proof. unfold usable, page_addr. rewrite PAGE_SIZE_val. dlia. Qed.

Lemma free_pages_insert table i d d' :
  table !! i = Some d → is_taken d = false → is_taken d' = true →
  length (free_pages table) = S (length (free_pages (<[i := d']> table))).
Proof.
  intros Hi Hd Hd'. unfold free_pages.
  rewrite <- (take_drop_middle _ _ _ Hi) at 1. rewrite insert_take_drop by (by eapply lookup_lt_Some).
  rewrite !list.filter_app, !length_app, !list.filter_cons.
  rewrite decide_True by done. rewrite decide_False by congruence. cbn. lia.
Qed.

Lemma room_free k s n : room_in k s (S n) → ∃ i d, (i < k)%nat ∧ descs s !! i = Some d ∧ is_taken d = false.
Proof.
  unfold room_in. intros Hr. destruct (free_pages _) as [|d l] eqn:E; [cbn in Hr; lia|].
  assert (Hd : d ∈ free_pages (take k (descs s))) by (rewrite E; constructor).
  apply list_elem_of_filter in Hd as [Hd Hin]. apply list_elem_of_lookup in Hin as [i Hi].
  apply lookup_take_Some in Hi as [Hi Hlt]. eauto.
Qed.

Lemma mark_run_one i table :
  table !! i = Some 0 → mark_run i 1 table = <[i := 3]> table.
Proof.
  intros Hi. apply lookup_lt_Some in Hi as Hlt. apply list_eq. intros j.
  rewrite mark_run_lookup by lia. destruct (decide (j = i)) as [->|].
  - rewrite list_lookup_insert_eq, Hi by done. cbn. unfold marked.
    by rewrite !decide_True by lia.
  - rewrite list_lookup_insert_ne by done. destruct (table !! j); [|done]. cbn. unfold marked.
    by rewrite decide_False by lia.
Qed.

Lemma allocate_room k s h n :
  rep s h → (k <= usable)%nat → room_in k s (S n) →
  ∃ i, allocate 1 s = Done (Some (page_addr i), set_descs (<[i := 3]> (descs s)) s) ∧
    descs s !! i = Some 0 ∧ (i < k)%nat ∧ page_addr i < heap_start + heap_size ∧
    room_in k (set_descs (<[i := 3]> (descs s)) s) n.
Proof.
  intros R Hk Hr. destruct (room_free _ _ _ Hr) as (i0 & d0 & Hu & Hd0 & Hf0).
  assert (Hone : all_free (descs s) i0 1).
  { split; [apply lookup_lt_Some in Hd0; lia|]. intros j d Hj Hd.
    replace j with i0 in Hd by lia. congruence. }
  destruct (allocate_spec s h 1 R) as [[_ Hno]|(i & Ha & [Hfit Hf] & Hlow & _ & R')]; [lia|by destruct (Hno i0)|].
  change (Z.to_nat 1) with 1%nat in *. exists i.
  assert (Hi : (i <= i0)%nat) by (destruct (decide (i <= i0)%nat); [done|]; destruct (Hlow i0); [lia|done]).
  assert (Hd : descs s !! i = Some 0).
  { destruct R as (_ & _ & runs & R & _). apply (tr_free _ _ R); [lia|].
    intros s' n' E Hin. apply (table_rep_uncovered _ _ i 1 R) with s' n' i; (done || lia). }
  rewrite mark_run_one in Ha by done. split; [done|]. split; [done|]. split; [lia|].
  split; [apply usable_spec; lia|]. unfold room_in in *. cbn [descs set_descs].
  assert (Hiu : (i < k)%nat) by lia.
  rewrite take_insert_lt by done.
  erewrite (free_pages_insert (take k (descs s)) i 0 3) in Hr; [lia| |done|done].
  by rewrite lookup_take_lt.
Qed.

Lemma deallocate_room b s h p n s' :
  rep s h → h !! p = Some 1 → p < heap_start + heap_size →
  (∀ i, p = page_addr i → (i < b)%nat) → room_in b s n →
  deallocate p s = Done (tt, s') → room_in b s' (S n).
Proof.
  intros R Hp He Hlow Hr Hd.
  destruct (deallocate_spec s h p 1 R Hp He) as (t & Hd' & _ & i & k & -> & Hk & Ht).
  rewrite Hd' in Hd. simplify_eq. assert (k = 1)%nat as -> by lia.
  assert (Hib : (i < b)%nat) by (by apply Hlow). unfold room_in in *. cbn [descs set_descs].
  destruct R as (_ & _ & runs & R & ->). rewrite held_lookup in Hp.
  destruct (runs !! i) as [k|] eqn:E; simplify_eq/=. assert (k = 1%nat) as -> by lia.
  assert (Hi : descs s !! i = Some 3).
  { rewrite (tr_taken _ _ R _ _ i E) by lia. by rewrite decide_True by lia. }
  assert (descs s = <[i := 3]> t) as Hs.
  { apply list_eq. intros j. destruct (decide (j = i)) as [->|].
    - rewrite list_lookup_insert_eq; [done|].
      apply lookup_lt_is_Some. rewrite Ht, decide_True by lia. done.
    - rewrite list_lookup_insert_ne, Ht, decide_False by lia. done. }
  rewrite Hs, take_insert_lt in Hr by done.
  rewrite (free_pages_insert (take b t) i 0 3); [lia| |done|done].
  rewrite lookup_take_lt, Ht, decide_True by lia. done.
Qed.

(** ** The allocator implements the interface of [Frames] *)

#[export] Instance frames_allocator : FrameAllocator frames := {|
  fa_ram := ram;
  fa_set_ram := set_ram;
  fa_allocate := allocate;
  fa_zallocate := zallocate;
  fa_deallocate := deallocate;
  fa_memory p n := (first_page <=? p) && (p + n <=? first_page + Z.of_nat descriptors * PAGE_SIZE) |}.

#[export] Program Instance frames_laws : FrameAllocatorLaws frames := {|
  fa_rep := rep;
  fa_end := heap_start + heap_size;
  fa_room := room |}.
Next Obligation. done. Qed.
Next Obligation. intros m s h (? & ? & ?). split; [done|]. by split. Qed.
Next Obligation.
  intros s h p n R Hp. destruct (rep_held _ _ _ _ R Hp) as (i & k & -> & -> & ? & ?).
  destruct (page_addr_spec i) as (? & ? & _); [lia|].
  destruct (page_addr_spec (i + k)) as (_ & _ & ?); [lia|].
  unfold page_addr in *. rewrite PAGE_SIZE_val in *. split_and!; try lia. done.
Qed.
Next Obligation.
  intros s h p n a k R Hp Ha Hk. destruct (rep_held _ _ _ _ R Hp) as (i & m & -> & -> & ? & ?).
  cbn. unfold page_addr in *. rewrite PAGE_SIZE_val in *.
  by rewrite (proj2 (Z.leb_le _ _)), (proj2 (Z.leb_le _ _)) by lia.
Qed.
Next Obligation. apply frames_disjoint. Qed.
Next Obligation.
  intros s h n R Hn.
  destruct (allocate_spec _ _ _ R Hn) as [[? _]|(i & ? & _ & _ & ? & ?)]; [by left|].
  right. eexists _, _. done.
Qed.
Next Obligation. apply zallocate_spec. Qed.
Next Obligation.
  intros s h p n R Hp He. destruct (deallocate_spec _ _ _ _ R Hp He) as (t & ? & ? & _).
  eexists. done.
Qed.
Next Obligation. unfold room, room_in. intros s m n ??. lia. Qed.
Next Obligation. done. Qed.
Next Obligation.
  intros s h n R Hr. destruct (allocate_room usable s h n R ltac:(lia) Hr) as (i & Ha & _ & _ & He & Hr').
  eexists _, _. done.
Qed.
Next Obligation.
  intros s h n R Hr. destruct (allocate_room usable s h n R ltac:(lia) Hr) as (i & Ha & _ & _ & He & Hr').
  cbn. unfold zallocate. rewrite (bind_done _ _ _ _ _ Ha).
  erewrite bind_done by (by apply checked_ok). eexists _, _. done.
Qed.
Next Obligation.
  intros s h p n s' R Hp He Hr Hd. eapply (deallocate_room usable); [done..| |done|done].
  intros i ->. by apply usable_spec.
Qed.

(** *** Keeping the end of the heap free

    The allocator takes the lowest page that fits, so single pages do not
    touch the pages above [k] as long as one below is free: the same
    interface, with the pages from [k] on held in reserve. *)

Definition above (k : nat) (s : frames) : Prop :=
  ∀ i, (k <= i < descriptors)%nat → descs s !! i = Some 0.
Definition reserved (k : nat) (s : frames) (n : nat) : Prop := room_in k s n ∧ above k s.

Lemma reserved_allocate k s h n :
  rep s h → (k <= usable)%nat → reserved k s (S n) →
  ∃ i, allocate 1 s = Done (Some (page_addr i), set_descs (<[i := 3]> (descs s)) s) ∧
    page_addr i < heap_start + heap_size ∧ reserved k (set_descs (<[i := 3]> (descs s)) s) n.
Proof.
  intros R Hk [Hr Hf]. destruct (allocate_room k s h n R Hk Hr) as (i & Ha & _ & Hi & He & Hr').
  exists i. split; [done|]. split; [done|]. split; [done|].
  intros j Hj. cbn. rewrite list_lookup_insert_ne by lia. by apply Hf.
Qed.

Lemma reserved_deallocate k s h p n s' :
  rep s h → h !! p = Some 1 → p < heap_start + heap_size → reserved k s n →
  deallocate p s = Done (tt, s') → reserved k s' (S n).
Proof.
  intros R Hp He [Hr Hf] Hd.
  assert (Hlow : ∀ i, p = page_addr i → (i < k)%nat).
  { intros i ->. destruct (decide (i < k)%nat) as [|Hge]; [done|]. exfalso.
    destruct R as (Hlen & _ & runs & R & ->). rewrite held_lookup in Hp.
    destruct (runs !! i) as [j|] eqn:E; simplify_eq/=. destruct (tr_fits _ _ R _ _ E).
    pose proof (tr_taken _ _ R _ _ i E ltac:(lia)) as Ht. rewrite Hf in Ht by lia.
    by case_decide. }
  split; [by eapply deallocate_room|]. intros j Hj.
  destruct (deallocate_spec s h p 1 R Hp He) as (t & Hd' & _ & i & q & -> & Hq & Ht).
  rewrite Hd' in Hd. simplify_eq. cbn. rewrite Ht. case_decide; [done|]. by apply Hf.
Qed.

(** Nothing is in use after [init]. *)
Lemma reserved_fresh k s : rep s ∅ → (k <= descriptors)%nat → reserved k s k.
Proof.
  intros (Hlen & _ & runs & R & Hh) Hk.
  assert (Hfree : ∀ i, (i < descriptors)%nat → descs s !! i = Some 0).
  { intros i Hi. apply (tr_free _ _ R); [lia|]. intros j n E. exfalso.
    assert (Hn : held runs !! page_addr j = None) by (rewrite <- Hh; apply lookup_empty).
    rewrite held_lookup, E in Hn. done. }
  assert (Hd : descs s = replicate descriptors 0).
  { apply list_eq. intros i. destruct (decide (i < descriptors)%nat) as [Hi|Hi].
    - rewrite Hfree, lookup_replicate_2 by done. done.
    - rewrite !lookup_ge_None_2; [done|rewrite length_replicate; lia|lia]. }
  split; [|intros i Hi; apply Hfree; lia]. unfold room_in. rewrite Hd, take_replicate, Nat.min_l by done.
  enough (length (free_pages (replicate k 0)) = k) by lia. unfold free_pages. clear.
  induction k as [|k IH]; [done|]. cbn [replicate]. rewrite list.filter_cons, decide_True by done.
  cbn [length]. by rewrite IH.
Qed.

Lemma room_in_mono k k' s n : room_in k s n → (k <= k')%nat → room_in k' s n.
Proof.
  unfold room_in, free_pages. intros Hr Hk. replace k' with (k + (k' - k))%nat by lia.
  rewrite <- (take_drop k (take (k + _) _)), list.filter_app, length_app, take_take, Nat.min_l; lia.
Qed.

(** A heap of two megabytes has room for a hundred pages. *)
Lemma usable_enough : 0x200000 <= heap_size → (100 <= usable)%nat ∧ (200 <= descriptors)%nat.
Proof.
  intros Hs. pose proof heap_start_pos. destruct (next_multiple_of_spec (heap_start + Z.of_nat descriptors)) as [_ Hb]; [lia|].
  fold first_page in Hb. rewrite PAGE_SIZE_val in Hb.
  assert (Z.of_nat descriptors = heap_size / 4096)
    by (unfold descriptors; rewrite PAGE_SIZE_val, Z2Nat.id; dlia).
  assert (Hd : (200 <= descriptors)%nat) by dlia. split; [|done].
  unfold usable. rewrite PAGE_SIZE_val. dlia.
Qed.

(** *** The high-water mark

    With everything above [k] free, a run of [n] pages can be had, and leaves
    everything above [k + n] free. *)

Lemma above_free k s h n :
  rep s h → above k s → 0 < n → Z.of_nat k + n <= Z.of_nat descriptors → all_free (descs s) k (Z.to_nat n).
Proof.
  intros (Hlen & _) Hf Hn Hk. split; [lia|]. intros j d Hj Hd. rewrite Hf in Hd by lia. by injection Hd as <-.
Qed.

Lemma above_run k s h n :
  rep s h → above k s → 0 < n → Z.of_nat k + n <= Z.of_nat descriptors →
  ∃ p s', zallocate n s = Done (Some p, s').
Proof.
  intros R Hf Hn Hk.
  destruct (zallocate_spec s h n R Hn) as [Ez|(p & s' & E & _)]; [exfalso|by eauto].
  destruct (allocate_spec s h n R Hn) as [[_ Hno]|(i & E & _)]; [by destruct (Hno k); eapply above_free|].
  unfold zallocate in Ez. rewrite (bind_done _ _ _ _ _ E) in Ez.
  by apply bind_done_inv in Ez as (b & s2 & _ & Ez).
Qed.

Lemma above_zallocate k s h n o s' :
  rep s h → above k s → 0 < n → Z.of_nat k + n <= Z.of_nat descriptors → (k < usable)%nat →
  zallocate n s = Done (o, s') →
  above (k + Z.to_nat n) s' ∧ ∀ p, o = Some p → p < heap_start + heap_size.
Proof.
  intros R Hf Hn Hk Hu Ez. pose proof (above_free k s h n R Hf Hn Hk) as Hfree.
  unfold zallocate in Ez. apply bind_done_inv in Ez as (o1 & s1 & E & Ez).
  destruct (allocate_spec s h n R Hn) as [[_ Hno]|(i & E' & Hfit & Hlow & _)]; [by destruct (Hno k)|].
  rewrite E' in E. injection E as <- <-.
  assert (Hi : (i <= k)%nat) by (destruct (decide (i <= k)%nat); [done|]; destruct (Hlow k); [lia|done]).
  apply bind_done_inv in Ez as (b & s2 & Eb & Ez). apply checked_mod in Eb as [_ ->].
  injection Ez as <- <-. split; [|intros p [= <-]; apply usable_spec; lia].
  intros j Hj. cbn [descs set_descs set_ram].
  rewrite mark_run_lookup by (destruct Hfit; lia). rewrite Hf by lia. cbn. unfold marked.
  by rewrite decide_False by lia.
Qed.

Lemma above_room k s n : (k + n <= usable)%nat → (k + n <= descriptors)%nat → length (descs s) = descriptors →
  above k s → room s n.
Proof.
  intros Hu Hd Hlen Hf. unfold room, room_in.
  rewrite <- (take_drop k (take usable (descs s))). unfold free_pages. rewrite list.filter_app, length_app.
  enough (n <= length (filter (λ d, is_taken d = false) (drop k (take usable (descs s)))))%nat by lia.
  set (l := drop k (take usable (descs s))).
  assert (Hl : Forall (λ d, is_taken d = false) l).
  { apply list.Forall_forall. intros d Hin. apply list_elem_of_lookup in Hin as [i Hi].
    unfold l in Hi. rewrite lookup_drop in Hi. apply lookup_take_Some in Hi as [Hi Hlt].
    apply lookup_lt_Some in Hi as Hb. rewrite Hf in Hi by lia. by injection Hi as <-. }
  assert (Hall : filter (λ d, is_taken d = false) l = l).
  { clear -Hl. induction Hl as [|d l Hd _ IH]; [done|]. by rewrite list.filter_cons_True, IH. }
  rewrite Hall. unfold l. rewrite length_drop, length_take. lia.
Qed.

Definition reserve_laws (k : nat) (Hk : (k <= usable)%nat) : FrameAllocatorLaws frames.
Proof.
  refine {|
    fa_rep := rep; fa_end := heap_start + heap_size;
    fa_ram_set := fa_ram_set; fa_rep_set := fa_rep_set; fa_run := fa_run;
    fa_managed := fa_managed; fa_disjoint := fa_disjoint; fa_allocate_spec := fa_allocate_spec;
    fa_zallocate_spec := fa_zallocate_spec; fa_deallocate_spec := fa_deallocate_spec;
    fa_room := reserved k |}.
  - intros s m n [Hr Hf] Hmn. split; [unfold room_in in *; lia|done].
  - intros m s n Hr. exact Hr.
  - intros s h n R Hr. destruct (reserved_allocate k s h n R Hk Hr) as (i & Ha & He & Hr'). eauto.
  - intros s h n R Hr. destruct (reserved_allocate k s h n R Hk Hr) as (i & Ha & He & Hr').
    cbn. unfold zallocate. rewrite (bind_done _ _ _ _ _ Ha).
    erewrite bind_done by (by apply checked_ok). eexists _, _. split; [done|]. by split.
  - intros s h p n s'. apply reserved_deallocate.
Defined.
End invariant.

(** ** Abstract specification and refinement

    The abstract allocator keeps the live runs as a map from addresses to
    lengths, and the words of memory; its operations are written in the same
    monad.  [deallocate] is specified within its safety contract: asked to
    free anything but the start of a live run, the specification is
    [Undefined]. *)

Inductive op := Alloc (n : Z) | Zalloc (n : Z) | Free (p : Z).
Inductive reply := RAlloc (o : option Z) | RFree.

Record abstract : Type := mk_abstract { live : gmap Z Z; words : Z → Z }.

Fixpoint run_all {S} (f : op → M S reply) (os : list op) : M S (list reply) :=
  match os with
  | [] => mret []
  | o :: os' => r ← f o; rs ← run_all f os'; mret (r :: rs)
  end.

(** A run that follows its specification: the same replies and panics, as
    long as the specification has something to say. *)
Definition follows {A B C} (R : B → C → Prop) (spec : outcome (A * B)) (run : outcome (A * C)) : Prop :=
  match spec, run with
  | Done (a, b), Done (a', c) => a = a' ∧ R b c
  | Panic p, Panic p' => p = p'
  | Undefined, _ => True
  | _, _ => False
  end.

Lemma follows_bind {A A' B C} (R : B → C → Prop) (m : M B A) (m' : M C A) (k : A → M B A') (k' : A → M C A') b c :
  follows R (m b) (m' c) → (∀ a b' c', R b' c' → follows R (k a b') (k' a c')) →
  follows R ((m ≫= k) b) ((m' ≫= k') c).
Proof.
  unfold follows, mbind, M_bind. intros Hm Hk.
  destruct (m b) as [[a b']| | |], (m' c) as [[a' c']| | |]; try done. destruct Hm as [<- HR].
  by apply Hk.
Qed.

Section spec.
Context `{Profile} `{Linker}.

(** [n] pages fit at page [i]: the table has descriptors for them, and no
    live run is in the way. *)
Definition fits (h : gmap Z Z) (i : nat) (n : Z) : Prop :=
  Z.of_nat i + n <= Z.of_nat descriptors ∧
  map_Forall (λ q k, page_addr i + n * PAGE_SIZE <= q ∨ q + k * PAGE_SIZE <= page_addr i) h.

#[export] Instance fits_dec h i n : Decision (fits h i n).
Proof. unfold fits. apply _. Defined.

(** The lowest address that fits, if any. *)
Definition first_fit (h : gmap Z Z) (n : Z) : option Z :=
  (λ r, page_addr r.1) <$> list_find (λ i, fits h i n) (seq 0 descriptors).

Definition zeroed (p n : Z) (f : Z → Z) (a : Z) : Z :=
  if decide (p <= a < p + n * PAGE_SIZE ∧ (a - p) mod 8 = 0) then 0 else f a.

Definition spec_alloc (n : Z) (content : Z → (Z → Z) → Z → Z) : M abstract reply :=
  assert (0 <? n);;
  h ← gets live;
  match first_fit h n with
  | None => mret (RAlloc None)
  | Some p => modify (λ a, mk_abstract (<[p := n]> h) (content p (words a)));; mret (RAlloc (Some p))
  end.

Definition spec_op (o : op) : M abstract reply :=
  match o with
  | Alloc n => spec_alloc n (λ _ f, f)
  | Zalloc n => spec_alloc n (λ p, zeroed p n)
  | Free p =>
      h ← gets live;
      match h !! p with
      | None => undefined
      | Some _ =>
          assert (p <? heap_start + heap_size);;
          modify (λ a, mk_abstract (delete p h) (words a));; mret RFree
      end
  end.

(** The same client running against the allocator. *)
Definition run_op (o : op) : M frames reply :=
  match o with
  | Alloc n => r ← allocate n; mret (RAlloc r)
  | Zalloc n => r ← zallocate n; mret (RAlloc r)
  | Free p => deallocate p;; mret RFree
  end.

Context `{!HeapOk}.

Definition agree (a : abstract) (s : frames) : Prop :=
  rep s (live a) ∧ ∀ x, word_at (ram s) x = words a x.

Lemma fits_all_free s h i n :
  rep s h → 0 < n → fits h i n ↔ all_free (descs s) i (Z.to_nat n).
Proof.
  intros (Hlen & _ & runs & R & ->) Hn. rewrite (all_free_iff _ _ _ _ R), Hlen.
  unfold fits. split.
  - intros [Hfit Hsep]. split; [lia|]. intros s' n' x E Hx Hx'.
    assert (Hl : held runs !! page_addr s' = Some (Z.of_nat n')) by (by rewrite held_lookup, E).
    specialize (Hsep _ _ Hl). unfold page_addr in Hsep. rewrite PAGE_SIZE_val in Hsep.
    destruct Hsep; lia.
  - intros [Hfit Hun]. split; [lia|].
    intros q k Hq. apply held_lookup_Some in Hq as (s' & n' & -> & -> & E).
    destruct (tr_fits _ _ R _ _ E). unfold page_addr. rewrite PAGE_SIZE_val.
    pose proof (Hun _ _ i E). pose proof (Hun _ _ s' E). lia.
Qed.

(** The window search finds the first fit. *)
Lemma allocate_first_fit s h n :
  rep s h → 0 < n →
  match first_fit h n with
  | None => allocate n s = Done (None, s)
  | Some p => ∃ s', allocate n s = Done (Some p, s') ∧ rep s' (<[p := n]> h) ∧ ram s' = ram s
  end.
Proof.
  intros R Hn. pose proof R as (Hlen & _). unfold first_fit.
  destruct (list_find _ _) as [[k i]|] eqn:Ef; cbn [fmap option_fmap option_map fst].
  - apply list_find_Some in Ef as (Hk & Hf & Hlow). apply lookup_seq in Hk as [-> Hi]. cbn in Hf |- *.
    destruct (allocate_spec _ _ _ R Hn) as [[_ Hno]|(j & Ha & Hfree & Hmin & _ & R')].
    { apply (fits_all_free _ _ _ _ R Hn) in Hf. by destruct (Hno k). }
    assert (j = k) as ->; [|by eexists].
    apply (fits_all_free _ _ _ _ R Hn) in Hfree as Hfj.
    destruct (Nat.lt_trichotomy j k) as [Hlt|[->|Hlt]]; [|done|].
    + destruct (Hlow j j); [|lia|done]. apply lookup_seq. lia.
    + apply (fits_all_free _ _ _ _ R Hn) in Hf. by destruct (Hmin k Hlt).
  - apply list_find_None in Ef.
    destruct (allocate_spec _ _ _ R Hn) as [[Ha _]|(j & _ & Hfree & _)]; [done|]. exfalso.
    apply (fits_all_free _ _ _ _ R Hn) in Hfree as Hfj. destruct Hfj as [Hj _].
    rewrite list.Forall_forall in Ef. apply (Ef j); [|by apply (fits_all_free _ _ _ _ R Hn)].
    apply elem_of_seq. lia.
Qed.

(** Freeing a live run past the end of the heap is refused. *)
Lemma deallocate_beyond s h p n :
  rep s h → h !! p = Some n → heap_start + heap_size <= p → deallocate p s = Panic PAssert.
Proof.
  intros (_ & Hs & _) _ Hp. unfold deallocate. pose proof heap_small. pose proof heap_start_pos.
  pose proof heap_size_nonneg.
  rewrite bind_done with (a := first_page) (s' := s) by (by unfold gets; rewrite Hs).
  erewrite bind_done by (apply checked_ok; lia).
  rewrite (proj2 (Z.ltb_ge _ _)) by done. by rewrite andb_false_r.
Qed.

(** [zallocate] takes the run [allocate] would and clears it. *)
Lemma zallocate_first_fit s h n :
  rep s h → 0 < n →
  match first_fit h n with
  | None => zallocate n s = Done (None, s)
  | Some p => ∃ s', zallocate n s = Done (Some p, s') ∧ rep s' (<[p := n]> h) ∧
      ∀ a, word_at (ram s') a = zeroed p n (word_at (ram s)) a
  end.
Proof.
  intros R Hn. pose proof (allocate_first_fit s h n R Hn) as Ha.
  destruct (zallocate_spec s h n R Hn) as [E|(p & s' & E & _ & R' & Hw)].
  - destruct (first_fit h n) as [p|]; [|done]. destruct Ha as (s1 & Ea & _).
    unfold zallocate in E. rewrite (bind_done _ _ _ _ _ Ea) in E.
    by apply bind_done_inv in E as (b & s2 & _ & E).
  - unfold zallocate in E. destruct (first_fit h n) as [q|].
    + destruct Ha as (s1 & Ea & _). exists s'. unfold zallocate. rewrite (bind_done _ _ _ _ _ Ea) in E |- *.
      pose proof E as E'. apply bind_done_inv in E' as (b & s2 & _ & E'). by injection E' as -> _.
    + by rewrite (bind_done _ _ _ _ _ Ha) in E.
Qed.

(** An allocation, zeroing or not. *)
Lemma alloc_follows (m : M frames (option Z)) n content a s :
  agree a s → (n <= 0 → m s = Panic PAssert) →
  (0 < n → match first_fit (live a) n with
   | None => m s = Done (None, s)
   | Some p => ∃ s', m s = Done (Some p, s') ∧ rep s' (<[p := n]> (live a)) ∧
       ∀ x, word_at (ram s') x = content p (words a) x
   end) →
  follows agree (spec_alloc n content a) ((r ← m; mret (RAlloc r)) s).
Proof.
  intros Hagree Hneg Hpos. unfold spec_alloc. destruct (Z.ltb_spec 0 n) as [Hn|Hn].
  - specialize (Hpos Hn). rewrite (bind_done (assert true) _ a tt a) by done.
    rewrite (bind_done (gets live) _ a (live a) a) by done.
    destruct (first_fit (live a) n) as [p|].
    + destruct Hpos as (s' & E & R & Hw). by rewrite (bind_done _ _ _ _ _ E).
    + by rewrite (bind_done _ _ _ _ _ Hpos).
  - unfold mbind, M_bind. by rewrite Hneg.
Qed.

Lemma run_op_follows o a s : agree a s → follows agree (spec_op o a) (run_op o s).
Proof.
  intros Hagree. pose proof Hagree as [R Hw].
  assert (Hneg : ∀ n, n <= 0 → allocate n s = Panic PAssert).
  { intros n Hn. unfold allocate. by rewrite (proj2 (Z.ltb_ge _ _)). }
  destruct o as [n|n|p]; cbn [spec_op run_op].
  - apply alloc_follows; [done|auto|]. intros Hn. pose proof (allocate_first_fit s _ n R Hn) as Ha.
    destruct (first_fit (live a) n); [|done]. destruct Ha as (s' & E & R' & Hm). exists s'. by rewrite Hm.
  - apply alloc_follows; [done| |].
    { intros Hn. unfold zallocate, mbind, M_bind. by rewrite Hneg. }
    intros Hn. pose proof (zallocate_first_fit s _ n R Hn) as Ha.
    destruct (first_fit (live a) n); [|done]. destruct Ha as (s' & E & R' & Hm). exists s'.
    split_and!; [done|done|]. intros x. rewrite Hm. unfold zeroed. by rewrite Hw.
  - rewrite (bind_done (gets live) _ a (live a) a) by done.
    destruct (live a !! p) as [n|] eqn:Hp; [|done].
    destruct (Z.ltb_spec p (heap_start + heap_size)) as [He|He].
    + destruct (deallocate_spec _ _ _ _ R Hp He) as (t & Hd & R' & _).
      by rewrite (bind_done _ _ _ _ _ Hd).
    + unfold mbind, M_bind. by rewrite (deallocate_beyond s _ p n R Hp).
Qed.

Lemma run_all_follows os a s : agree a s → follows agree (run_all spec_op os a) (run_all run_op os s).
Proof.
  revert a s. induction os as [|o os IH]; intros a s Ha; [done|]. cbn [run_all].
  apply follows_bind; [by apply run_op_follows|]. intros r a' s' Ha'.
  apply follows_bind; [by apply IH|]. intros rs a'' s'' Ha''. done.
Qed.
End spec.

Lemma free_run_returns fuel table i :
  (length table - i < fuel)%nat →
  free_run fuel table i ≠ Diverge ∧ free_run fuel table i ≠ Undefined ∧
  ∀ t j, free_run fuel table i = Done (t, j) → length t = length table.
Proof.
  revert table i. induction fuel as [|fuel IH]; intros table i Hf; [lia|].
  cbn [free_run]. destruct (table !! i) as [d|] eqn:E; [|done].
  destruct (is_taken d && negb (is_last d)); [|by split; [|split; [|intros; simplify_eq]]].
  apply lookup_lt_Some in E.
  destruct (IH (<[i := clear d]> table) (S i)) as (? & ? & ?); [rewrite length_insert; lia|].
  rewrite length_insert in *. done.
Qed.

(** Two tables of the same length that describe the same runs are equal. *)
Lemma table_rep_unique t1 t2 runs :
  length t1 = length t2 → table_rep t1 runs → table_rep t2 runs → t1 = t2.
Proof.
  intros Hlen R1 R2. apply list_eq. intros i.
  destruct (decide (i < length t1)%nat) as [Hi|Hi].
  2: { rewrite !lookup_ge_None_2; [done|lia|lia]. }
  destruct (decide (map_Exists (λ s n, s <= i < s + n)%nat runs)) as [(s & n & E & Hin)|Hno].
  - by rewrite (tr_taken _ _ R1 _ _ _ E Hin), (tr_taken _ _ R2 _ _ _ E Hin).
  - assert (∀ s n, runs !! s = Some n → ¬ (s <= i < s + n)%nat)
      by (intros s n E Hin; apply Hno; by exists s, n).
    rewrite (tr_free _ _ R1), (tr_free _ _ R2); (done || lia).
Qed.

Lemma held_inj `{Linker} r1 r2 : held r1 = held r2 → r1 = r2.
Proof.
  intros E. apply map_eq. intros i.
  assert (E' : Z.of_nat <$> r1 !! i = Z.of_nat <$> r2 !! i) by (by rewrite <- !held_lookup, E).
  destruct (r1 !! i), (r2 !! i); simplify_eq/=; by f_equal; lia.
Qed.

(** The invariant and the live runs determine the whole allocator state. *)
Lemma rep_unique `{Linker} s1 s2 h :
  rep s1 h → rep s2 h → ram s1 = ram s2 → s1 = s2.
Proof.
  intros (Hl1 & Ha1 & r1 & R1 & E1) (Hl2 & Ha2 & r2 & R2 & E2) Hram.
  rewrite E1 in E2. apply held_inj in E2 as <-.
  destruct s1, s2; cbn in *. f_equal; [|congruence|done].
  eapply table_rep_unique; [congruence|done|done].
Qed.

(** ** Properties of the allocator *)

Section properties.
Context `{Profile} `{Linker} `{!HeapOk}.

(** Whether a run can be had depends on the live runs only. *)
Lemma zallocate_again s s' h n p s1 :
  rep s h → rep s' h → 0 < n → zallocate n s = Done (Some p, s1) →
  ∃ p' s1', zallocate n s' = Done (Some p', s1').
Proof.
  intros R R' Hn E.
  assert (Hd : descs s' = descs s).
  { rewrite (rep_unique s' (set_ram (ram s') s) h); [done|done|exact (fa_rep_set (ram s') s h R)|done]. }
  destruct (zallocate_spec s' h n R' Hn) as [E'|(q & s2 & E' & _)]; [|by eauto].
  exfalso. unfold zallocate in E, E'.
  destruct (allocate_spec s' h n R' Hn) as [[Ea Hno]|(i & Ea & _)].
  - rewrite Hd in Hno. destruct (allocate_spec s h n R Hn) as [[Eb _]|(i & _ & Hf & _)];
      [|by destruct (Hno i)]. by rewrite (bind_done _ _ _ _ _ Eb) in E.
  - rewrite (bind_done _ _ _ _ _ Ea) in E'. apply bind_done_inv in E' as (b & s2 & _ & E').
    done.
Qed.

(** C1. The allocator refines the abstract first-fit allocator: for every
    sequence of [allocate], [zallocate] and [deallocate] requests that frees
    only live runs, the initialised allocator gives exactly the replies of
    the abstract one (the lowest run of free pages, or none), panics exactly
    where it does (zero pages, a run past the end of the heap), and
    afterwards describes its live runs and holds its memory: a zeroed run is
    zero and no other word has changed. *)
Theorem allocator_refines_first_fit s os :
  length (descs s) = descriptors →
  follows agree (run_all spec_op os (mk_abstract ∅ (word_at (ram s)))) ((init;; run_all run_op os) s).
Proof.
  intros Hlen. destruct (init_spec s Hlen) as (s0 & E & R & Hm).
  rewrite (bind_done _ _ _ _ _ E). apply run_all_follows. split; [done|]. cbn. by rewrite Hm.
Qed.

(** C29. Freeing what an allocation returned: if the run starts below the end
    of the heap the allocator is put back in exactly the state before the
    allocation, otherwise [deallocate] refuses it. *)
Theorem allocate_deallocate_roundtrip s h n p s' :
  rep s h → 0 < n → allocate n s = Done (Some p, s') →
  deallocate p s' = if p <? heap_start + heap_size then Done (tt, s) else Panic PAssert.
Proof.
  intros R Hn Ha.
  destruct (allocate_spec _ _ _ R Hn) as [[E _]|(i & E & _ & _ & Hf & R')];
    rewrite E in Ha; simplify_eq.
  destruct (Z.ltb_spec (page_addr i) (heap_start + heap_size)) as [Hp|Hp].
  - destruct (deallocate_spec _ _ _ n R' (lookup_insert_eq _ _ _) Hp) as (t & -> & R'' & _).
    rewrite delete_insert_id in R'' by done.
    by rewrite (rep_unique _ _ _ R R'').
  - by apply (deallocate_beyond _ _ _ n R' (lookup_insert_eq _ _ _)).
Qed.

(** A second free of the same run is caught by the assertion. *)
Theorem double_free_panics s h p n :
  rep s h → h !! p = Some n → p < heap_start + heap_size →
  ∃ s', deallocate p s = Done (tt, s') ∧ deallocate p s' = Panic PAssert.
Proof.
  intros R Hp He. destruct (deallocate_spec _ _ _ _ R Hp He) as (t & E & R' & _).
  destruct (rep_held _ _ _ _ R Hp) as (i & k & -> & -> & Hk & Hi).
  eexists. split; [exact E|]. eapply deallocate_free_page; [exact R'|lia|done|].
  intros q m Hq Hin. rewrite lookup_delete in Hq. case_decide as Hne; [done|].
  destruct (frames_disjoint _ _ _ _ _ _ R Hp Hq Hne); rewrite PAGE_SIZE_val in *; lia.
Qed.

(** [deallocate] returns or panics on every table, well-formed or not:
    its loop never runs away and never leaves the table. *)
Lemma deallocate_returns p s :
  deallocate p s ≠ Diverge ∧ deallocate p s ≠ Undefined.
Proof.
  revert s. change (returns (deallocate p)). unfold deallocate.
  apply returns_bind; [auto with returns|intros start].
  apply returns_bind; [auto with returns|intros e].
  apply returns_bind; [auto with returns|intros _].
  apply returns_bind; [auto with returns|intros table]. cbv zeta.
  apply returns_bind; [|intros [t j]; auto 10 with returns].
  intros s. destruct (free_run_returns (S (length table)) table
    (Z.to_nat ((p - start) / PAGE_SIZE))) as (Hd & Hu & _); [lia|].
  by destruct (free_run _ _ _).
Qed.

(** C33. A zeroed allocation is all zero, and no word of any run that was
    live before the call changes. *)
Theorem zallocate_zeroes_only_fresh s h n p s' :
  rep s h → 0 < n → zallocate n s = Done (Some p, s') →
  (∀ k, 0 <= k < n * 512 → word_at (ram s') (p + 8 * k) = 0) ∧
  (∀ q m a, h !! q = Some m → q <= a < q + m * PAGE_SIZE →
     word_at (ram s') a = word_at (ram s) a).
Proof.
  intros R Hn Hz.
  destruct (zallocate_spec _ _ _ R Hn) as [E|(p' & s2 & E & Hf & R' & Hw)];
    rewrite E in Hz; simplify_eq.
  split.
  - intros k Hk. rewrite Hw, decide_True; [done|]. rewrite PAGE_SIZE_val.
    replace (p + 8 * k - p) with (k * 8) by lia. rewrite Z.mod_mul; lia.
  - intros q m a Hq Ha. rewrite Hw, decide_False; [done|].
    assert (Hne : p ≠ q) by congruence.
    destruct (frames_disjoint s' _ p n q m R'); (by rewrite ?lookup_insert_eq, ?lookup_insert_ne) || lia.
Qed.

(** The table has a descriptor for every page of the heap although the data
    pages start above the table, so the highest ones lie past the end of
    RAM.  With 33 MiB of heap or more the last page is entirely outside. *)
Lemma last_page_outside :
  0x2101000 <= heap_size →
  heap_start + heap_size <= page_addr (descriptors - 1) ∧ (1 < descriptors)%nat.
Proof.
  intros Hsz. destruct first_page_spec as (_ & Hfp & _). unfold page_addr.
  assert (Z.of_nat descriptors = heap_size / 4096).
  { unfold descriptors. rewrite PAGE_SIZE_val, Z2Nat.id; dlia. }
  rewrite PAGE_SIZE_val in *. rewrite Nat2Z.inj_sub by dlia. split; dlia.
Qed.

(** C37. Finding: with 33 MiB and a page of heap or more, asking the fresh
    allocator for all its pages succeeds with a run that ends beyond the heap, and a
    live run on the last page can never be freed: [deallocate] panics. *)
Theorem allocator_hands_out_pages_beyond_heap s h :
  0x2101000 <= heap_size → rep s h →
  (h = ∅ → ∃ s', allocate (Z.of_nat descriptors) s = Done (Some first_page, s') ∧
     heap_start + heap_size < first_page + Z.of_nat descriptors * PAGE_SIZE) ∧
  deallocate (page_addr (descriptors - 1)) s = Panic PAssert.
Proof.
  intros Hsz R. destruct (last_page_outside Hsz) as [Hlast Hn]. split.
  - intros ->. destruct (allocate_spec _ _ (Z.of_nat descriptors) R) as
      [[_ Hno]|(i & E & [Hfit _] & _)]; [lia| |].
    + exfalso. apply (Hno O), (fits_all_free _ _ _ _ R); [lia|].
      split; [lia|]. apply map_Forall_empty.
    + destruct R as (Hlen & _). rewrite Nat2Z.id, Hlen in Hfit.
      assert (i = O) as -> by lia. eexists. rewrite E. unfold page_addr at 1.
      rewrite Z.mul_0_l, Z.add_0_r. split; [done|].
      unfold page_addr in Hlast. rewrite PAGE_SIZE_val in *. lia.
  - destruct R as (_ & Hs & _). unfold deallocate.
    pose proof heap_small. pose proof heap_start_pos.
    rewrite bind_done with (a := first_page) (s' := s) by (by unfold gets; rewrite Hs).
    erewrite bind_done by (apply checked_ok; lia).
    rewrite (proj2 (Z.ltb_ge _ _)) by done. by rewrite andb_false_r.
Qed.
End properties.

(** ** Witnesses *)

(** The allocator as [init] leaves it. *)
Definition fresh_frames `{Linker} (m : gmap Z Z) : frames :=
  mk_frames (replicate descriptors 0) first_page m.

Lemma fresh_rep `{Linker} m : rep (fresh_frames m) ∅.
Proof.
  split; [apply length_replicate|]. split; [done|]. exists ∅. split; [|done].
  split; try done. intros i Hi _. cbn in *. rewrite length_replicate in Hi.
  by apply lookup_replicate_2.
Qed.

Module Toy.
#[export] Instance profile : Profile := dev.
#[export] Instance linker : Linker := toy_linker.
#[export] Instance heap_ok : HeapOk.
Proof. by split. Qed.

(** The bytes found in the table before [init], a fresh heap, and a heap
    whose first three pages are taken. *)
Definition raw : frames := mk_frames (replicate 16 170) 0 ∅.
Definition heap : frames := fresh_frames ∅.
Definition used : frames := set_descs (mark_run 0 3 (descs heap)) heap.
Definition base : Z := 0x80081000.

Lemma used_rep : rep used {[base := 3]}.
Proof.
  destruct (allocate_spec _ _ 3 (fresh_rep ∅)) as [[E _]|(i & E & _ & _ & _ & R)];
    [done|done|]. assert (E' : allocate 3 heap = Done (Some base, used)) by by vm_compute.
  assert (Hb : page_addr i = base) by (unfold heap in E'; congruence).
  change base with (page_addr 0) in Hb. apply (inj page_addr) in Hb as ->. exact R.
Qed.
End Toy.

Section witnesses.
Import Toy.

(** Two runs, the second cleared; the first is freed, so that the next
    request finds room below the second; then no room for thirteen pages. *)
Lemma allocator_refines_first_fit_witness :
  ∃ s', (init;; run_all run_op [Alloc 2; Zalloc 3; Free base; Alloc 1; Alloc 13]) raw
        = Done ([RAlloc (Some base); RAlloc (Some (base + 2 * PAGE_SIZE)); RFree;
                 RAlloc (Some base); RAlloc None], s') ∧
    rep s' {[base := 1; base + 2 * PAGE_SIZE := 3]} ∧
    word_at (ram s') (base + 2 * PAGE_SIZE) = 0.
Proof.
  pose proof (allocator_refines_first_fit raw [Alloc 2; Zalloc 3; Free base; Alloc 1; Alloc 13] eq_refl) as Hf.
  unfold follows in Hf.
  assert (E : match run_all spec_op [Alloc 2; Zalloc 3; Free base; Alloc 1; Alloc 13]
                     (mk_abstract ∅ (word_at (ram raw))) with
    | Done (rs, a) => Some (rs, live a, words a (base + 2 * PAGE_SIZE))
    | _ => None end = Some ([RAlloc (Some base); RAlloc (Some (base + 2 * PAGE_SIZE)); RFree;
      RAlloc (Some base); RAlloc None], {[base := 1; base + 2 * PAGE_SIZE := 3]}, 0))
    by (vm_compute; reflexivity).
  destruct (run_all spec_op _ _) as [[rs a]| | |]; try discriminate E. injection E as Hr Hl Hz.
  destruct ((init;; run_all run_op _) raw) as [[rs' s']| | |]; try (destruct Hf; fail).
  destruct Hf as [<- [R Hw]]. exists s'. rewrite Hw, Hr. rewrite Hl in R. split_and!; [reflexivity|exact R|exact Hz].
Defined.

Lemma allocate_deallocate_roundtrip_witness : deallocate base used = Done (tt, heap).
Proof. exact (allocate_deallocate_roundtrip heap ∅ 3 base used (fresh_rep ∅) eq_refl eq_refl). Defined.

Lemma double_free_panics_witness :
  ∃ s', deallocate base used = Done (tt, s') ∧ deallocate base s' = Panic PAssert.
Proof. by apply (double_free_panics used {[base := 3]} base 3); [apply used_rep| |]. Defined.

Lemma zallocate_zeroes_only_fresh_witness :
  let s' := set_ram (zero_words (base + 3 * PAGE_SIZE) (Z.to_nat (PAGE_SIZE * 1 / 8)) (ram used))
                    (set_descs (mark_run 3 1 (descs used)) used) in
  (∀ k, 0 <= k < 1 * 512 → word_at (ram s') (base + 3 * PAGE_SIZE + 8 * k) = 0) ∧
  (∀ q m a, ({[base := 3]} : gmap Z Z) !! q = Some m → q <= a < q + m * PAGE_SIZE →
     word_at (ram s') a = word_at (ram used) a).
Proof.
  intros s'. assert (Ha : allocate 1 used = Done (Some (base + 3 * PAGE_SIZE),
    set_descs (mark_run 3 1 (descs used)) used)) by (vm_compute; reflexivity).
  apply (zallocate_zeroes_only_fresh used {[base := 3]} 1 (base + 3 * PAGE_SIZE) s').
  - apply used_rep.
  - lia.
  - unfold zallocate. rewrite (bind_done _ _ _ _ _ Ha). cbv beta iota.
    rewrite bind_done with (a := PAGE_SIZE * 1)
      (s' := set_descs (mark_run 3 1 (descs used)) used) by (apply checked_ok; done).
    reflexivity.
Defined.

Lemma allocator_hands_out_pages_beyond_heap_witness :
  let s := @fresh_frames demo_linker ∅ in
  (∅ = (∅ : gmap Z Z) → ∃ s',
     @allocate dev (Z.of_nat (@descriptors demo_linker)) s
     = Done (Some (@first_page demo_linker), s') ∧
     @heap_start demo_linker + @heap_size demo_linker
     < @first_page demo_linker + Z.of_nat (@descriptors demo_linker) * PAGE_SIZE) ∧
  @deallocate dev demo_linker (@page_addr demo_linker (@descriptors demo_linker - 1)) s
  = Panic PAssert.
Proof.
  apply (@allocator_hands_out_pages_beyond_heap dev demo_linker _ _ ∅).
  - cbn. lia.
  - apply fresh_rep.
Defined.
End witnesses.
