(* ===== verification/Sv39.v ===== *)
(** * Sv39 page tables

    Models [src/src/mm/paging/sv39/types.rs] and [map.rs].  A table is a page
    of 512 words of physical memory; the walker, the mapper and the inverse
    lookup read and write those words through the frame interface, and all
    theorems hold for any allocator that satisfies it.

    - [map], [unmap], [v2p], [id_map_range]: the operations;
    - [tab], [ent]: the tables and entries reachable from a root, by path;
    - [pt_wf]: the reachable tables are live, pairwise distinct frames;
    - [xlate]: the translation the tree of entries denotes. *)

From S2P Require Import Prelude Frames.

(** ** Page-table entries ([types.rs]) *)

(** [PteFlags]; the source keeps flags and entries as [i64]. *)
Definition EMPTY : Z := 0.
Definition VALID : Z := Z.shiftl 1 0.
Definition READ : Z := Z.shiftl 1 1.
Definition WRITE : Z := Z.shiftl 1 2.
Definition EXECUTE : Z := Z.shiftl 1 3.
Definition USER : Z := Z.shiftl 1 4.
Definition GLOBAL : Z := Z.shiftl 1 5.
Definition ACCESSED : Z := Z.shiftl 1 6.
Definition DIRTY : Z := Z.shiftl 1 7.
Definition RWX : Z := 0xe.

Definition bitor (a b : Z) : Z := Z.lor a b.

Definition is_valid (e : Z) : bool := negb (Z.land e VALID =? 0).
Definition is_invalid (e : Z) : bool := negb (is_valid e).
Definition is_leaf (e : Z) : bool := negb (Z.land e RWX =? 0).
Definition is_branch (e : Z) : bool := negb (is_leaf e).

(** [Table::len()]. *)
Definition table_len : nat := 512.

(** ** Address arithmetic ([map.rs]) *)

Definition vpns (vaddr : Z) : list Z :=
  [ Z.land (Z.shiftr vaddr 12) 0x1ff;
    Z.land (Z.shiftr vaddr 21) 0x1ff;
    Z.land (Z.shiftr vaddr 30) 0x1ff ].

Definition ppns (paddr : Z) : list Z :=
  [ Z.land (Z.shiftr paddr 12) 0x1ff;
    Z.land (Z.shiftr paddr 21) 0x1ff;
    Z.land (Z.shiftr paddr 30) 0x3ffffff ].

(** [((pte & !0x3ff) << 2) as usize]. *)
Definition pte_to_addr (pte : Z) : Z :=
  to_u64 (to_i64 (Z.shiftl (Z.land pte (Z.lnot 0x3ff)) 2)).

(** The entry [map] writes for a freshly allocated table. *)
Definition table_pte (page : Z) : Z := Z.lor (Z.shiftr (to_i64 page) 2) VALID.

(** The leaf entry [map] writes. *)
Definition leaf_pte (paddr bits : Z) : Z :=
  Z.lor (Z.lor (Z.lor (Z.lor
    (to_i64 (to_u64 (Z.shiftl (nth 2 (ppns paddr) 0) 28)))
    (to_i64 (to_u64 (Z.shiftl (nth 1 (ppns paddr) 0) 19))))
    (to_i64 (to_u64 (Z.shiftl (nth 0 (ppns paddr) 0) 10))))
    bits) VALID.

(** The physical address [v2p] computes from a leaf at level [i]. *)
Definition leaf_addr (i : nat) (e vaddr : Z) : Z :=
  let off_mask := Z.shiftl 1 (12 + 9 * Z.of_nat i) - 1 in
  let vaddr_pgoff := Z.land vaddr off_mask in
  let addr := Z.land (to_u64 (to_i64 (Z.shiftl e 2))) (Z.lnot off_mask) in
  Z.lor addr vaddr_pgoff.

Section operations.
Context {St : Type} `{FrameAllocator St}.

(** Allocate the next-level table on demand: the entry at [v] is valid
    afterwards. *)
Definition ensure_table (v : Z) : M St unit :=
  e ← load v;
  if is_invalid e then
    page ← fa_zallocate 1;
    p ← unwrap page;
    store v (table_pte p)
  else mret tt.

(** The loop of [map] over the levels below the root: make sure the entry
    at [v] points to a table, and step into it. *)
Fixpoint map_walk (vpn : list Z) (v : Z) (levels : list nat) : M St Z :=
  match levels with
  | [] => mret v
  | i :: levels' =>
      ensure_table v;;
      e ← load v;
      let entry := pte_to_addr e in
      let v' := entry + 8 * nth i vpn 0 in
      if v' =? 0 then panic PUnwrap else map_walk vpn v' levels'
  end.

Definition map (root vaddr paddr bits : Z) (level : nat) : M St unit :=
  assert (negb (Z.land bits RWX =? 0));;
  v ← map_walk (vpns vaddr) (root + 8 * nth 2 (vpns vaddr) 0)
               (rev (seq level (2 - level)));
  store v (leaf_pte paddr bits).

Definition deallocate_addr (addr : Z) : M St unit :=
  if addr =? 0 then panic PUnwrap else fa_deallocate addr.

Definition unmap_lv1 (memaddr_lv1 : Z) (lv1 : nat) : M St unit :=
  entry_lv1 ← load (memaddr_lv1 + 8 * Z.of_nat lv1);
  if negb (is_valid entry_lv1) || negb (is_branch entry_lv1) then mret tt
  else
    deallocate_addr (pte_to_addr entry_lv1);;
    store (memaddr_lv1 + 8 * Z.of_nat lv1) 0.

Definition unmap_lv2 (root : Z) (lv2 : nat) : M St unit :=
  entry_lv2 ← load (root + 8 * Z.of_nat lv2);
  if negb (is_valid entry_lv2) || negb (is_branch entry_lv2) then mret tt
  else
    let memaddr_lv1 := pte_to_addr entry_lv2 in
    if memaddr_lv1 =? 0 then undefined else
    for_each (seq 0 table_len) (unmap_lv1 memaddr_lv1);;
    deallocate_addr memaddr_lv1;;
    store (root + 8 * Z.of_nat lv2) 0.

Definition unmap (root : Z) : M St unit :=
  for_each (seq 0 table_len) (unmap_lv2 root).

Fixpoint v2p_walk (vaddr v : Z) (levels : list nat) : M St (option Z) :=
  match levels with
  | [] => mret None
  | i :: levels' =>
      e ← load v;
      if is_invalid e then mret None
      else if is_leaf e then mret (Some (leaf_addr i e vaddr))
      else match i with
           | O => mret None
           | S i' =>
               let entry := pte_to_addr e in
               let v' := entry + 8 * nth i' (vpns vaddr) 0 in
               if v' =? 0 then panic PUnwrap else v2p_walk vaddr v' levels'
           end
  end.

Definition v2p (root vaddr : Z) : M St (option Z) :=
  v2p_walk vaddr (root + 8 * nth 2 (vpns vaddr) 0) (rev (seq 0 3)).

(** [(start..end).step_by(PAGE_SIZE)]. *)
Definition page_range (start end_ : Z) : list Z :=
  (λ k, start + Z.of_nat k * PAGE_SIZE)
    <$> seq 0 (Z.to_nat ((end_ - start + PAGE_SIZE - 1) / PAGE_SIZE)).

Definition id_map_range (root start end_ bits : Z) : M St unit :=
  assert (start mod PAGE_SIZE =? 0);;
  assert (end_ mod PAGE_SIZE =? 0);;
  for_each (page_range start end_) (λ addr, map root addr addr bits 0).
End operations.

(** ** Bit-level facts *)

Lemma vpns_bound vaddr i : (i < 3)%nat → 0 <= nth i (vpns vaddr) 0 < 512.
Proof.
  intros Hi. destruct i as [|[|[|]]]; [..|lia]; cbn [nth vpns];
    change 0x1ff with (2 ^ 9 - 1); rewrite land_ones_mod by lia; dlia.
Qed.

Lemma table_pte_val p : 0 <= p < 2 ^ 55 → (4096 | p) → table_pte p = p / 4 + 1.
Proof.
  intros Hp [q ->]. unfold table_pte. rewrite to_i64_small by lia.
  rewrite Z.shiftr_div_pow2 by lia. change (2 ^ 2) with 4.
  replace (q * 4096 / 4) with (q * 1024) by dlia.
  change VALID with 1. change (q * 1024) with (q * 2 ^ 10). by apply lor_add_low.
Qed.

Lemma pte_to_addr_val e : 0 <= e < 2 ^ 54 → pte_to_addr e = (e - e mod 1024) * 4.
Proof.
  intros He. unfold pte_to_addr. change 0x3ff with (2 ^ 10 - 1).
  rewrite land_clear_low, Z.shiftl_mul_pow2 by lia.
  change (2 ^ 10) with 1024. rewrite to_i64_small by dlia.
  rewrite to_u64_small by dlia. done.
Qed.

Lemma table_pte_spec p :
  0 < p < 2 ^ 55 → (4096 | p) →
  is_valid (table_pte p) = true ∧ is_leaf (table_pte p) = false ∧
  pte_to_addr (table_pte p) = p.
Proof.
  intros Hp [q ->]. rewrite table_pte_val; [|lia|by exists q].
  replace (q * 4096 / 4) with (q * 1024) by dlia. split_and!.
  - unfold is_valid. change VALID with (2 ^ 1 - 1). rewrite land_ones_mod by lia.
    apply negb_true_iff, Z.eqb_neq. change (2 ^ 1) with 2. dlia.
  - unfold is_leaf. apply negb_false_iff, Z.eqb_eq.
    replace RWX with (Z.land 0xf 0xe) by done. rewrite Z.land_assoc.
    change 0xf with (2 ^ 4 - 1). rewrite land_ones_mod by lia.
    replace ((q * 1024 + 1) mod 2 ^ 4) with 1; [done|]. change (2 ^ 4) with 16. dlia.
  - rewrite pte_to_addr_val by dlia. dlia.
Qed.

Lemma leaf_pte_val paddr bits :
  0 <= paddr < 2 ^ 56 → 0 <= bits < 2 ^ 10 →
  leaf_pte paddr bits = paddr / 4096 * 1024 + Z.lor bits VALID ∧
  0 <= Z.lor bits VALID < 1024.
Proof.
  intros Hp Hb. assert (Hf : 0 <= Z.lor bits VALID < 2 ^ 10) by (by apply lor_bound).
  split; [|done]. unfold leaf_pte. cbn [nth ppns].
  change 0x1ff with (2 ^ 9 - 1). change 0x3ffffff with (2 ^ 26 - 1).
  rewrite !land_ones_mod, !Z.shiftr_div_pow2, !Z.shiftl_mul_pow2 by lia.
  rewrite !to_u64_small, !to_i64_small by dlia.
  rewrite lor_add_low by dlia.
  replace ((paddr / 2 ^ 30) mod 2 ^ 26 * 2 ^ 28 + (paddr / 2 ^ 21) mod 2 ^ 9 * 2 ^ 19)
    with (paddr / 2 ^ 21 * 2 ^ 19) by dlia.
  rewrite lor_add_low by dlia.
  replace (paddr / 2 ^ 21 * 2 ^ 19 + (paddr / 2 ^ 12) mod 2 ^ 9 * 2 ^ 10)
    with (paddr / 4096 * 2 ^ 10) by dlia.
  rewrite <- Z.lor_assoc, lor_add_low by (lia || done). done.
Qed.

Lemma land_low_bits x y k :
  0 <= y < 2 ^ k → 0 <= k → Z.land (x * 2 ^ k + y) (2 ^ k - 1) = y.
Proof.
  intros Hy Hk. rewrite land_ones_mod by done.
  rewrite Z.add_comm, Z.mod_add by lia. by apply Z.mod_small.
Qed.

(** Masks below bit ten only see the flags. *)
Lemma leaf_pte_flags paddr bits f :
  0 <= paddr < 2 ^ 56 → 0 <= bits < 2 ^ 10 → 0 <= f < 2 ^ 10 →
  Z.land (leaf_pte paddr bits) f = Z.land (Z.lor bits VALID) f.
Proof.
  intros Hp Hb Hf. destruct (leaf_pte_val paddr bits) as [-> Hfl]; [done|done|].
  assert (Ef : f = Z.land (2 ^ 10 - 1) f).
  { rewrite Z.land_comm, land_ones_mod by lia. by rewrite Z.mod_small. }
  rewrite Ef at 1. rewrite Z.land_assoc.
  change 1024 with (2 ^ 10). by rewrite land_low_bits.
Qed.

Lemma leaf_pte_spec paddr bits :
  0 <= paddr < 2 ^ 56 → 0 <= bits < 2 ^ 10 → Z.land bits RWX ≠ 0 →
  is_valid (leaf_pte paddr bits) = true ∧ is_leaf (leaf_pte paddr bits) = true.
Proof.
  intros Hp Hb Hr. unfold is_valid, is_leaf. rewrite !leaf_pte_flags by done.
  rewrite !Z.land_lor_distr_l. split; apply negb_true_iff, Z.eqb_neq.
  - intros E%Z.lor_eq_0_iff. destruct E as [_ E]. done.
  - intros E%Z.lor_eq_0_iff. by destruct E.
Qed.

(** The lookup of a leaf keeps the page frame and the offset in the page,
    for the page size of its level. *)
Lemma leaf_addr_leaf_pte i paddr bits vaddr :
  0 <= paddr < 2 ^ 56 → 0 <= bits < 2 ^ 10 →
  leaf_addr i (leaf_pte paddr bits) vaddr =
  paddr - paddr mod 2 ^ (12 + 9 * Z.of_nat i) + vaddr mod 2 ^ (12 + 9 * Z.of_nat i).
Proof.
  intros Hp Hb. unfold leaf_addr. set (k := 12 + 9 * Z.of_nat i).
  assert (Hk : 12 <= k) by lia. assert (Hk2 : 2 ^ k = 2 ^ (k - 12) * 4096).
  { change 4096 with (2 ^ 12). rewrite <- Z.pow_add_r by lia. f_equal. lia. }
  assert (0 < 2 ^ (k - 12)) by (apply Z.pow_pos_nonneg; lia).
  rewrite Z.shiftl_1_l, land_clear_low, land_ones_mod by lia.
  destruct (leaf_pte_val paddr bits) as [-> Hfl]; [done|done|].
  rewrite Z.shiftl_mul_pow2, to_i64_small, to_u64_small by dlia. change (2 ^ 2) with 4.
  set (x := (paddr / 4096 * 1024 + Z.lor bits VALID) * 4).
  assert (Hx : x / 4096 = paddr / 4096) by (subst x; dlia).
  assert (Hq : ∀ z, z - z mod 2 ^ k = z / 4096 / 2 ^ (k - 12) * 2 ^ k).
  { intros z. rewrite Z.mod_eq, Hk2, (Z.mul_comm _ 4096), <- Z.div_div by lia. lia. }
  rewrite !Hq, Hx, lor_add_low; [done|lia|]. apply Z.mod_pos_bound. lia.
Qed.

(** ** The tree of tables reachable from a root *)

(** The table an entry points to, if it is a pointer. *)
Definition branch_of (e : Z) : option Z :=
  if is_valid e && is_branch e then Some (pte_to_addr e) else None.

(** The table at the end of a path of indices, innermost index first. *)
Fixpoint tab (m : gmap Z Z) (root : Z) (P : list Z) : option Z :=
  match P with
  | [] => Some root
  | i :: P' => t ← tab m root P'; branch_of (word_at m (t + 8 * i))
  end.

(** The entry with index [j] of the table at path [P]. *)
Definition ent (m : gmap Z Z) (root : Z) (P : list Z) (j : Z) : option Z :=
  (λ t, word_at m (t + 8 * j)) <$> tab m root P.

Definition idx_ok (j : Z) : Prop := 0 <= j < 512.
Definition path_ok (P : list Z) : Prop := (length P <= 2)%nat ∧ Forall idx_ok P.

(** The page tables below [root]: every reachable table is a live one-page
    run of its own, and level 0 holds no pointers. *)
Record pt_wf (m : gmap Z Z) (root : Z) (h : gmap Z Z) : Prop := {
  wf_live P t : path_ok P → tab m root P = Some t → h !! t = Some 1;
  wf_inj P Q t : path_ok P → path_ok Q →
    tab m root P = Some t → tab m root Q = Some t → P = Q;
  wf_level0 P j e : path_ok P → length P = 2%nat → idx_ok j →
    ent m root P j = Some e → branch_of e = None }.

(** The leaf entry a virtual address resolves to, with its level, from level
    [i] down. *)
Fixpoint walk_from (m : gmap Z Z) (root vaddr : Z) (i : nat) : option (nat * Z) :=
  e ← ent m root (drop (S i) (vpns vaddr)) (nth i (vpns vaddr) 0);
  if is_invalid e then None
  else if is_leaf e then Some (i, e)
  else match i with
       | O => None
       | S i' => walk_from m root vaddr i'
       end.

Definition walk (m : gmap Z Z) (root vaddr : Z) : option (nat * Z) := walk_from m root vaddr 2.

(** The physical address it translates to. *)
Definition resolve (vaddr : Z) (l : nat * Z) : Z := leaf_addr l.1 l.2 vaddr.
Definition xlate (m : gmap Z Z) (root vaddr : Z) : option Z :=
  resolve vaddr <$> walk m root vaddr.

(** *** Paths of a virtual address *)

Lemma path_ok_cons j P : path_ok (j :: P) → path_ok P ∧ idx_ok j.
Proof. intros [Hl Hf]. inversion_clear Hf. cbn in Hl. split; [split; [lia|done]|done]. Qed.

Lemma path_ok_cons_2 j P : path_ok P → idx_ok j → (length P < 2)%nat → path_ok (j :: P).
Proof. intros [? ?] ? ?. split; [cbn; lia|by constructor]. Qed.

Lemma vpn_path_ok vaddr i : path_ok (drop (S i) (vpns vaddr)).
Proof.
  split; [rewrite length_drop; cbn; lia|].
  apply Forall_drop.
  constructor; [apply (vpns_bound vaddr 0); lia|].
  constructor; [apply (vpns_bound vaddr 1); lia|].
  constructor; [apply (vpns_bound vaddr 2); lia|done].
Qed.

Lemma vpn_idx_ok vaddr i : (i < 3)%nat → idx_ok (nth i (vpns vaddr) 0).
Proof. apply vpns_bound. Qed.

Lemma vpn_path_cons vaddr i : (i < 3)%nat →
  drop i (vpns vaddr) = nth i (vpns vaddr) 0 :: drop (S i) (vpns vaddr).
Proof. intros Hi. by destruct i as [|[|[|]]]; [..|lia]. Qed.

#[export] Hint Resolve vpn_path_ok vpn_idx_ok : core.

Lemma branch_of_invalid e : is_valid e = false → branch_of e = None.
Proof. unfold branch_of. by intros ->. Qed.

Lemma branch_of_leaf e : is_leaf e = true → branch_of e = None.
Proof. unfold branch_of, is_branch. intros ->. by rewrite andb_false_r. Qed.

Lemma branch_of_Some e t :
  branch_of e = Some t ↔ is_valid e = true ∧ is_leaf e = false ∧ pte_to_addr e = t.
Proof.
  unfold branch_of, is_branch. destruct (is_valid e), (is_leaf e); cbn; intuition congruence.
Qed.

Lemma ent_cons m root i P : tab m root (i :: P) = ent m root P i ≫= branch_of.
Proof. unfold ent. cbn. by destruct (tab m root P). Qed.

Section tree.
Implicit Types (m h : gmap Z Z).

(** One-page runs lie on page boundaries of the physical address space. *)
Definition pages_ok (h : gmap Z Z) : Prop :=
  ∀ t, h !! t = Some 1 → 0 < t < 2 ^ 55 ∧ (4096 | t).

Lemma wf_table m h root P t :
  pages_ok h → pt_wf m root h → path_ok P → tab m root P = Some t →
  0 < t < 2 ^ 55 ∧ (4096 | t).
Proof. intros R W HP Ht. by apply R, (wf_live _ _ _ W _ _ HP). Qed.

(** Entries of distinct tables do not overlap. *)
Lemma entry_addr_inj t t' j j' :
  (4096 | t) → (4096 | t') → idx_ok j → idx_ok j' →
  t + 8 * j = t' + 8 * j' → t = t' ∧ j = j'.
Proof. unfold idx_ok. intros [q ->] [q' ->] ? ? ?. lia. Qed.

(** Two slots at the same address are the same slot of the same table. *)
Lemma entry_same_slot m h root P Q t t' i j :
  pages_ok h → pt_wf m root h → path_ok P → path_ok Q → idx_ok i → idx_ok j →
  tab m root P = Some t → tab m root Q = Some t' →
  t + 8 * i = t' + 8 * j → Q = P ∧ j = i.
Proof.
  intros R W HP HQ Hi Hj Ht Ht' E.
  destruct (wf_table _ _ _ _ _ R W HP Ht), (wf_table _ _ _ _ _ R W HQ Ht').
  destruct (entry_addr_inj t t' i j) as [<- <-]; [done..|].
  split; [|done]. by apply (wf_inj _ _ _ W) with t.
Qed.

(** *** Writing an entry that points nowhere, before and after *)
Lemma tab_store_leaf m root a e Q :
  branch_of (word_at m a) = None → branch_of e = None →
  tab (<[a := e]> m) root Q = tab m root Q.
Proof.
  intros Hold Hnew. induction Q as [|j Q IH]; [done|]. cbn [tab]. rewrite IH.
  destruct (tab m root Q) as [t|]; [|done]. cbn. rewrite word_at_insert.
  case_decide; [subst; congruence|done].
Qed.

Lemma ent_store_leaf m h root P t i e Q j :
  pages_ok h → pt_wf m root h →
  path_ok P → idx_ok i → tab m root P = Some t →
  branch_of (word_at m (t + 8 * i)) = None → branch_of e = None →
  path_ok Q → idx_ok j →
  ent (<[t + 8 * i := e]> m) root Q j =
  if decide (Q = P ∧ j = i) then Some e else ent m root Q j.
Proof.
  intros R W HP Hi Ht Hold Hnew HQ Hj. unfold ent. rewrite tab_store_leaf by done.
  destruct (tab m root Q) as [t'|] eqn:Ht'; cbn.
  - rewrite word_at_insert. destruct (decide (Q = P ∧ j = i)) as [[-> ->]|Hn].
    + rewrite Ht in Ht'. simplify_eq. by rewrite decide_True.
    + rewrite decide_False; [done|]. intros E. apply Hn.
      by eapply entry_same_slot.
  - rewrite decide_False; [done|]. intros [-> _]. congruence.
Qed.

Lemma pt_wf_store_leaf m h root P t i e :
  pages_ok h → pt_wf m root h →
  path_ok P → idx_ok i → tab m root P = Some t →
  branch_of (word_at m (t + 8 * i)) = None → branch_of e = None →
  pt_wf (<[t + 8 * i := e]> m) root h.
Proof.
  intros R W HP Hi Ht Hold Hnew. split.
  - intros Q t'. rewrite tab_store_leaf by done. apply (wf_live _ _ _ W).
  - intros Q Q' t'. rewrite !tab_store_leaf by done. apply (wf_inj _ _ _ W).
  - intros Q j e' HQ Hl Hj. rewrite (ent_store_leaf m h _ P) by done.
    case_decide; [by intros [= <-]|by apply (wf_level0 _ _ _ W)].
Qed.

(** *** Linking a fresh zeroed table into an invalid entry *)
Record fresh_table (m : gmap Z Z) (h : gmap Z Z) (z : Z) : Prop := {
  ft_new : h !! z = None;
  ft_range : 0 < z < 2 ^ 55;
  ft_page : (4096 | z);
  ft_zero j : idx_ok j → word_at m (z + 8 * j) = 0 }.

Context (m h : gmap Z Z) (root : Z) (P : list Z) (t i z : Z).
Context (R : pages_ok h) (W : pt_wf m root h).
Context (HP : path_ok P) (HlP : (length P < 2)%nat) (Hi : idx_ok i).
Context (Ht : tab m root P = Some t).
Context (Hold : is_valid (word_at m (t + 8 * i)) = false).
Context (Hz : fresh_table m h z).

Lemma fresh_distinct Q t' : path_ok Q → tab m root Q = Some t' → t' ≠ z.
Proof. intros HQ Ht' ->. pose proof (wf_live _ _ _ W _ _ HQ Ht'). by rewrite (ft_new _ _ _ Hz) in *. Qed.

Lemma tab_unlinked : tab m root (i :: P) = None.
Proof. cbn. rewrite Ht. cbn. by apply branch_of_invalid. Qed.

Lemma tab_store_branch Q :
  path_ok Q →
  tab (<[t + 8 * i := table_pte z]> m) root Q =
  if decide (Q = i :: P) then Some z else tab m root Q.
Proof.
  pose proof (table_pte_spec z (ft_range _ _ _ Hz) (ft_page _ _ _ Hz)) as (Hv & Hl & Ha).
  induction Q as [|j Q IH]; intros HQ; [done|].
  apply path_ok_cons in HQ as Hq. destruct Hq as [HQ' Hj]. cbn [tab]. rewrite IH by done.
  destruct (decide (Q = i :: P)) as [->|Hne].
  - rewrite tab_unlinked. cbn. rewrite decide_False by (intros [= _ E]; apply (f_equal length) in E; cbn in E; lia).
    rewrite word_at_insert, decide_False.
    + by rewrite (ft_zero _ _ _ Hz).
    + destruct (wf_table _ _ _ _ _ R W HP Ht). intros E.
      destruct (entry_addr_inj t z i j) as [-> _]; [done|apply Hz|done..|].
      by destruct (fresh_distinct P z).
  - destruct (tab m root Q) as [t'|] eqn:Ht'; cbn.
    + rewrite word_at_insert. destruct (decide (j :: Q = i :: P)) as [[= -> ->]|Hn].
      * rewrite Ht in Ht'. simplify_eq. rewrite decide_True by done. by apply branch_of_Some.
      * rewrite decide_False; [done|]. intros E. apply Hn.
        destruct (entry_same_slot m h root P Q t t' i j) as [-> ->]; done.
    + rewrite decide_False; [done|]. intros [= -> ->]. congruence.
Qed.

Lemma ent_store_branch Q j :
  path_ok Q → idx_ok j →
  ent (<[t + 8 * i := table_pte z]> m) root Q j =
  if decide (Q = P ∧ j = i) then Some (table_pte z)
  else if decide (Q = i :: P) then Some 0
  else ent m root Q j.
Proof.
  intros HQ Hj. unfold ent. rewrite tab_store_branch by done.
  destruct (wf_table _ _ _ _ _ R W HP Ht).
  destruct (decide (Q = i :: P)) as [->|Hne].
  - rewrite decide_False by (intros [E _]; apply (f_equal length) in E; cbn in E; lia).
    cbn. rewrite word_at_insert, decide_False; [by rewrite (ft_zero _ _ _ Hz)|].
    intros E. destruct (entry_addr_inj t z i j) as [-> _]; [done|apply Hz|done..|].
    by destruct (fresh_distinct P z).
  - destruct (tab m root Q) as [t'|] eqn:Ht'; cbn.
    + rewrite word_at_insert. destruct (decide (Q = P ∧ j = i)) as [[-> ->]|Hn].
      * rewrite Ht in Ht'. simplify_eq. by rewrite decide_True.
      * rewrite decide_False; [done|]. intros E. apply Hn.
        by apply (entry_same_slot m h root P Q t t' i j).
    + rewrite decide_False; [done|]. intros [-> _]. congruence.
Qed.

Lemma pt_wf_store_branch :
  pt_wf (<[t + 8 * i := table_pte z]> m) root (<[z := 1]> h).
Proof.
  split.
  - intros Q t' HQ. rewrite tab_store_branch by done.
    case_decide; intros Hq; [injection Hq as <-; by rewrite lookup_insert_eq|].
    rewrite lookup_insert_ne by (apply not_eq_sym; by eapply fresh_distinct).
    by apply (wf_live _ _ _ W) in Hq.
  - intros Q Q' t' HQ HQ'. rewrite !tab_store_branch by done.
    repeat case_decide; intros E1 E2; [congruence|..].
    + injection E1 as <-. by destruct (fresh_distinct Q' z HQ' E2).
    + injection E2 as <-. by destruct (fresh_distinct Q z HQ E1).
    + by apply (wf_inj _ _ _ W) with t'.
  - intros Q j e HQ Hl Hj. rewrite ent_store_branch by done.
    case_decide as Hd; [destruct Hd; subst; lia|].
    case_decide; [by intros [= <-]|by apply (wf_level0 _ _ _ W)].
Qed.

(** The new table is empty, so no translation changes. *)
Lemma walk_store_branch vaddr k :
  (k < 3)%nat →
  walk_from (<[t + 8 * i := table_pte z]> m) root vaddr k =
  walk_from m root vaddr k.
Proof.
  pose proof (table_pte_spec z (ft_range _ _ _ Hz) (ft_page _ _ _ Hz)) as (Hv & Hl & Ha).
  induction k as [|k IH]; intros Hk; cbn [walk_from]; rewrite ent_store_branch by auto.
  - case_decide as Hd; [destruct Hd as [E _]; apply (f_equal length) in E; cbn in E; lia|].
    case_decide as Hd'; [|done]. unfold ent. by rewrite Hd', tab_unlinked.
  - case_decide as Hd.
    + destruct Hd as [E1 E2]. unfold ent. rewrite E1, E2, Ht. cbn.
      unfold is_invalid. rewrite Hv, Hl, Hold. cbn. rewrite IH by lia.
      destruct k as [|k]; cbn [walk_from]; rewrite vpn_path_cons by lia;
        rewrite E1, E2; unfold ent; by rewrite tab_unlinked.
    + case_decide as Hd'.
      * unfold ent. by rewrite Hd', tab_unlinked.
      * rewrite IH by lia. done.
Qed.
End tree.

(** ** Changes outside the tables, and leaf writes *)

Section frame.
Implicit Types (m h : gmap Z Z).

(** [m'] has the same words as [m] in every table reachable in [m]. *)
Definition agree (m m' : gmap Z Z) (root : Z) : Prop :=
  ∀ Q t j, path_ok Q → idx_ok j → tab m root Q = Some t →
    word_at m' (t + 8 * j) = word_at m (t + 8 * j).

Lemma tab_agree m m' root Q :
  agree m m' root → path_ok Q → tab m' root Q = tab m root Q.
Proof.
  intros Ha. induction Q as [|j Q IH]; intros HQ; [done|].
  apply path_ok_cons in HQ as [HQ Hj]. cbn [tab]. rewrite IH by done.
  destruct (tab m root Q) as [t|] eqn:E; [|done]. cbn. by rewrite (Ha _ _ _ HQ Hj E).
Qed.

Lemma ent_agree m m' root Q j :
  agree m m' root → path_ok Q → idx_ok j → ent m' root Q j = ent m root Q j.
Proof.
  intros Ha HQ Hj. unfold ent. rewrite (tab_agree m) by done.
  destruct (tab m root Q) as [t|] eqn:E; [|done]. cbn. by rewrite (Ha _ _ _ HQ Hj E).
Qed.

Lemma pt_wf_agree m m' root h : agree m m' root → pt_wf m root h → pt_wf m' root h.
Proof.
  intros Ha W. split.
  - intros P t HP. rewrite (tab_agree m) by done. by apply (wf_live _ _ _ W).
  - intros P Q t HP HQ. rewrite (tab_agree m m' root P), (tab_agree m m' root Q) by done.
    by apply (wf_inj _ _ _ W).
  - intros P j e HP Hl Hj. rewrite (ent_agree m) by done. by apply (wf_level0 _ _ _ W).
Qed.

Lemma pt_wf_mono m root h h' : h ⊆ h' → pt_wf m root h → pt_wf m root h'.
Proof.
  intros Hs W. split; [|apply W..]. intros P t HP Ht.
  eapply lookup_weaken; [by apply (wf_live _ _ _ W _ _ HP)|done].
Qed.

Lemma walk_from_ext m m' root vaddr k :
  (∀ i, (i <= k)%nat →
     ent m' root (drop (S i) (vpns vaddr)) (nth i (vpns vaddr) 0) =
     ent m root (drop (S i) (vpns vaddr)) (nth i (vpns vaddr) 0)) →
  walk_from m' root vaddr k = walk_from m root vaddr k.
Proof.
  induction k as [|k IH]; intros He; cbn [walk_from]; rewrite He by lia; [done|].
  rewrite IH by (intros; apply He; lia). done.
Qed.

Lemma walk_agree m m' root vaddr :
  agree m m' root → walk m' root vaddr = walk m root vaddr.
Proof. intros Ha. apply walk_from_ext. intros i Hi. apply ent_agree; auto with lia. Qed.

(** A table on the path of [vaddr] is reached through pointers only. *)
Lemma walk_descend m root vaddr level k :
  (level <= k < 3)%nat → is_Some (tab m root (drop (S level) (vpns vaddr))) →
  walk_from m root vaddr k = walk_from m root vaddr level.
Proof.
  intros Hk Hs. replace k with (level + (k - level))%nat by lia.
  assert (Hb : (level + (k - level) < 3)%nat) by lia. clear Hk.
  revert Hb. generalize (k - level)%nat as d. intros d. clear k.
  induction d as [|d IH]; intros Hd; [by rewrite Nat.add_0_r|].
  rewrite Nat.add_succ_r in *. rewrite <- IH by lia. cbn [walk_from].
  assert (Hp : is_Some (tab m root (drop (S (level + d)) (vpns vaddr)))).
  { clear IH. revert Hd. induction d as [|d IHd]; [by rewrite Nat.add_0_r|].
    intros Hd. destruct IHd as [t Ht]; [lia|].
    rewrite Nat.add_succ_r. rewrite vpn_path_cons in Ht by lia.
    cbn [tab] in Ht. by destruct (tab m root (drop (S (S (level + d))) (vpns vaddr))). }
  rewrite vpn_path_cons, ent_cons in Hp by lia. destruct Hp as [t Ht].
  destruct (ent _ _ _ _) as [e|]; [|done]. cbn in Ht |- *.
  apply branch_of_Some in Ht as (Hv & Hl & _). unfold is_invalid. by rewrite Hv, Hl.
Qed.

(** Writing a leaf at a level: the region of that entry translates to the
    new frame, every other address keeps its translation. *)
Lemma walk_store_leaf m h root vaddr level t e :
  pages_ok h → pt_wf m root h → (level < 3)%nat →
  tab m root (drop (S level) (vpns vaddr)) = Some t →
  branch_of (word_at m (t + 8 * nth level (vpns vaddr) 0)) = None →
  is_valid e = true → is_leaf e = true →
  ∀ va, walk (<[t + 8 * nth level (vpns vaddr) 0 := e]> m) root va =
    if decide (drop level (vpns va) = drop level (vpns vaddr))
    then Some (level, e) else walk m root va.
Proof.
  intros R W Hl Ht Hold Hv Hlf va.
  assert (Hne : branch_of e = None) by by apply branch_of_leaf.
  assert (Hent := λ Q j, ent_store_leaf m h root _ t _ e Q j R W
    (vpn_path_ok vaddr level) (vpn_idx_ok vaddr level Hl) Ht Hold Hne).
  case_decide as Hd.
  - rewrite (vpn_path_cons va), (vpn_path_cons vaddr) in Hd by done.
    assert (Hi : nth level (vpns va) 0 = nth level (vpns vaddr) 0) by congruence.
    assert (HP : drop (S level) (vpns va) = drop (S level) (vpns vaddr)) by congruence.
    unfold walk. rewrite (walk_descend _ _ _ level 2).
    + destruct level; cbn [walk_from]; rewrite Hent by auto;
        rewrite decide_True by done; cbn; unfold is_invalid; by rewrite Hv, Hlf.
    + lia.
    + rewrite tab_store_leaf by done. rewrite HP, Ht. eauto.
  - apply walk_from_ext. intros i Hi2. rewrite Hent by auto with lia.
    rewrite decide_False; [done|]. intros [HP Hi]. apply Hd.
    assert (i = level) as ->.
    { apply (f_equal length) in HP. rewrite !length_drop in HP. cbn in HP. lia. }
    by rewrite (vpn_path_cons va), (vpn_path_cons vaddr), HP, Hi by done.
Qed.
End frame.

(** ** The operations against the tree *)

Section refinement.
Context {St : Type} `{FrameAllocatorLaws St}.
Implicit Types (s : St).

Lemma rep_pages_ok s h : fa_rep s h → pages_ok h.
Proof.
  intros R t Ht. destruct (fa_run _ _ _ _ R Ht) as (_ & ? & ? & ?).
  rewrite PAGE_SIZE_val in *. split; [lia|done].
Qed.

Lemma load_done a s : load a s = Done (word_at (fa_ram s) a, s).
Proof. done. Qed.

Lemma store_done a v s : store a v s = Done (tt, fa_set_ram (<[a := v]> (fa_ram s)) s).
Proof. done. Qed.

(** [v2p] computes the translation of the tree. *)
Lemma v2p_walk_spec s h root vaddr i t :
  fa_rep s h → pt_wf (fa_ram s) root h → (i < 3)%nat →
  tab (fa_ram s) root (drop (S i) (vpns vaddr)) = Some t →
  v2p_walk vaddr (t + 8 * nth i (vpns vaddr) 0) (rev (seq 0 (S i))) s
  = Done (resolve vaddr <$> walk_from (fa_ram s) root vaddr i, s).
Proof.
  intros R W. revert t. induction i as [|i IH]; intros t Hi Ht;
    rewrite seq_S, rev_app_distr; cbn [rev app v2p_walk walk_from Nat.add];
    rewrite (bind_done _ _ _ _ _ (load_done _ _)); unfold ent; rewrite Ht; cbn [fmap option_fmap option_map mbind option_bind].
  - destruct (is_invalid _); [done|]. by destruct (is_leaf _).
  - destruct (is_invalid _) eqn:Hv; [done|]. destruct (is_leaf _) eqn:Hl; [done|].
    apply negb_false_iff in Hv.
    assert (Hb : tab (fa_ram s) root (drop (S i) (vpns vaddr))
      = Some (pte_to_addr (word_at (fa_ram s) (t + 8 * nth (S i) (vpns vaddr) 0)))).
    { rewrite vpn_path_cons by lia. cbn [tab]. rewrite Ht. cbn. by apply branch_of_Some. }
    destruct (wf_table _ _ _ _ _ (rep_pages_ok _ _ R) W (vpn_path_ok _ _) Hb).
    destruct (vpns_bound vaddr i); [lia|].
    rewrite (proj2 (Z.eqb_neq _ _)) by lia. apply IH; [lia|done].
Qed.

Lemma v2p_xlate s h root vaddr :
  fa_rep s h → pt_wf (fa_ram s) root h →
  v2p root vaddr s = Done (xlate (fa_ram s) root vaddr, s).
Proof. intros R W. apply (v2p_walk_spec s h root vaddr 2 root); (done || lia). Qed.

(** *** The walk of [map] *)

(** No valid leaf at an entry. *)
Definition no_leaf (m : gmap Z Z) (root : Z) (Q : list Z) (j : Z) : Prop :=
  ∀ e, ent m root Q j = Some e → is_valid e = true → is_leaf e = false.

(** What the walk down to [level] may change: it links empty tables
    strictly above that level, and nothing else. *)
Record walked (level : nat) (root : Z) (s : St) (h : gmap Z Z) (s' : St) (h' : gmap Z Z)
  : Prop := {
  wk_rep : fa_rep s' h';
  wk_wf : pt_wf (fa_ram s') root h';
  wk_live : h ⊆ h';
  wk_walk va : walk (fa_ram s') root va = walk (fa_ram s) root va;
  wk_below Q j : path_ok Q → idx_ok j → (2 <= length Q + level)%nat →
    ent (fa_ram s') root Q j = ent (fa_ram s) root Q j ∨
    ent (fa_ram s) root Q j = None ∧ ent (fa_ram s') root Q j = Some 0;
  wk_no_leaf Q j : path_ok Q → idx_ok j →
    no_leaf (fa_ram s) root Q j → no_leaf (fa_ram s') root Q j }.

Lemma walked_refl level root s h :
  fa_rep s h → pt_wf (fa_ram s) root h → walked level root s h s h.
Proof. intros R W. split; auto. Qed.

Lemma walked_trans level root s1 h1 s2 h2 s3 h3 :
  walked level root s1 h1 s2 h2 → walked level root s2 h2 s3 h3 →
  walked level root s1 h1 s3 h3.
Proof.
  intros W1 W2. split; [apply W2|apply W2| | | |].
  - by transitivity h2; [apply W1|apply W2].
  - intros va. by rewrite (wk_walk _ _ _ _ _ _ W2), (wk_walk _ _ _ _ _ _ W1).
  - intros Q j HQ Hj Hl.
    destruct (wk_below _ _ _ _ _ _ W2 Q j HQ Hj Hl) as [E2|[E2 E2']],
      (wk_below _ _ _ _ _ _ W1 Q j HQ Hj Hl) as [E1|[E1 E1']];
      first [left; congruence|right; split; congruence].
  - intros Q j HQ Hj Hn. by apply (wk_no_leaf _ _ _ _ _ _ W2), (wk_no_leaf _ _ _ _ _ _ W1).
Qed.

Lemma zallocate_agree s h root z s1 :
  fa_rep s h → pt_wf (fa_ram s) root h → h !! z = None → fa_rep s1 (<[z := 1]> h) →
  (∀ a, word_at (fa_ram s1) a =
     if decide (z <= a < z + 1 * PAGE_SIZE ∧ (a - z) mod 8 = 0)
     then 0 else word_at (fa_ram s) a) →
  agree (fa_ram s) (fa_ram s1) root ∧ fresh_table (fa_ram s1) h z.
Proof.
  intros R W Hz R1 Hw.
  destruct (rep_pages_ok _ _ R1 z (lookup_insert_eq _ _ _)) as [Hr Hp]. split.
  - intros Q t j HQ Hj Ht. rewrite Hw, decide_False; [done|].
    pose proof (wf_live _ _ _ W _ _ HQ Ht) as Hl. unfold idx_ok in Hj.
    assert (z ≠ t) by congruence.
    destruct (fa_disjoint s1 _ z 1 t 1 R1);
      [by rewrite lookup_insert_eq|by rewrite lookup_insert_ne|done|..];
      rewrite PAGE_SIZE_val in *; lia.
  - split; [done|done|done|]. intros j Hj. unfold idx_ok in Hj. rewrite Hw, decide_True; [done|].
    rewrite PAGE_SIZE_val. replace (z + 8 * j - z) with (j * 8) by lia.
    rewrite Z.mod_mul; lia.
Qed.

(** Linking a fresh zeroed table above [level] is such a change. *)
Lemma link_walked level s h root P t idx z s1 s2 :
  fa_rep s h → pt_wf (fa_ram s) root h → path_ok P → idx_ok idx →
  (length P + level < 2)%nat → tab (fa_ram s) root P = Some t →
  is_valid (word_at (fa_ram s) (t + 8 * idx)) = false →
  h !! z = None → fa_rep s1 (<[z := 1]> h) →
  agree (fa_ram s) (fa_ram s1) root → fresh_table (fa_ram s1) h z →
  s2 = fa_set_ram (<[t + 8 * idx := table_pte z]> (fa_ram s1)) s1 →
  walked level root s h s2 (<[z := 1]> h) ∧
  tab (fa_ram s2) root (idx :: P) = Some z.
Proof.
  intros R W HP Hidx HlP Ht Hv Hz R1 Ha Hft Hs2.
  pose proof (pt_wf_agree _ _ _ _ Ha W) as W1. pose proof (rep_pages_ok _ _ R) as Hpg.
  assert (Ht1 : tab (fa_ram s1) root P = Some t) by (by rewrite (tab_agree (fa_ram s))).
  assert (Hv1 : is_valid (word_at (fa_ram s1) (t + 8 * idx)) = false) by (by rewrite (Ha P)).
  assert (HlP2 : (length P < 2)%nat) by lia.
  assert (Hram : fa_ram s2 = <[t + 8 * idx := table_pte z]> (fa_ram s1))
    by (subst s2; apply fa_ram_set).
  assert (Hent := ent_store_branch _ h _ P _ _ _ Hpg W1 HP HlP2 Hidx Ht1 Hv1 Hft).
  split; [split|].
  - subst s2. by apply fa_rep_set.
  - rewrite Hram. by apply (pt_wf_store_branch _ _ _ P).
  - by apply insert_subseteq.
  - intros va. rewrite Hram, <- (walk_agree _ _ _ va Ha).
    by apply (walk_store_branch _ h _ P _ _ _ Hpg W1 HP HlP2); [..|lia].
  - intros Q j HQ Hj Hl. rewrite Hram, Hent by done.
    case_decide as Hd; [destruct Hd as [-> _]; lia|].
    case_decide as Hd'; [|left; by apply ent_agree].
    right. split; [|done]. subst Q. unfold ent. cbn [tab]. rewrite Ht. cbn.
    by rewrite branch_of_invalid.
  - intros Q j HQ Hj Hn e. rewrite Hram, Hent by done.
    destruct (table_pte_spec z (ft_range _ _ _ Hft) (ft_page _ _ _ Hft)) as (_ & Hlf & _).
    repeat case_decide; [by intros [= <-]|by intros [= <-]|].
    rewrite (ent_agree (fa_ram s)) by done. apply Hn.
  - rewrite Hram, (tab_store_branch _ h _ P _ _ _ Hpg W1 HP HlP2) by (done || by apply path_ok_cons_2).
    by rewrite decide_True.
Qed.

Lemma ensure_table_spec level s h root vaddr i t :
  fa_rep s h → pt_wf (fa_ram s) root h → (level < i < 3)%nat →
  tab (fa_ram s) root (drop (S i) (vpns vaddr)) = Some t →
  no_leaf (fa_ram s) root (drop (S i) (vpns vaddr)) (nth i (vpns vaddr) 0) →
  (ensure_table (t + 8 * nth i (vpns vaddr) 0) s = Panic PUnwrap ∧ ¬ fa_room s 1) ∨
  ∃ s' h' t', ensure_table (t + 8 * nth i (vpns vaddr) 0) s = Done (tt, s') ∧
    (∀ n, fa_room s (S n) → fa_room s' n) ∧
    walked level root s h s' h' ∧
    tab (fa_ram s') root (drop i (vpns vaddr)) = Some t' ∧
    pte_to_addr (word_at (fa_ram s') (t + 8 * nth i (vpns vaddr) 0)) = t'.
Proof.
  intros R W Hi Ht Hnl. unfold ensure_table.
  rewrite (bind_done _ _ _ _ _ (load_done _ _)), vpn_path_cons by lia.
  destruct (is_invalid _) eqn:Hv; unfold is_invalid in Hv.
  - apply negb_true_iff in Hv.
    destruct (fa_zallocate_spec s h 1 R) as [E|(z & s1 & E & Hz & R1 & Hw)]; [lia| |].
    { left. split; [by rewrite (bind_done _ _ _ _ _ E)|]. intros Hr.
      destruct (fa_zallocate_room s h 0 R Hr) as (? & ? & ? & _). congruence. }
    right. rewrite (bind_done _ _ _ _ _ E). cbn [unwrap]. rewrite bind_ret, store_done.
    destruct (zallocate_agree _ _ _ _ _ R W Hz R1 Hw) as [Ha Hft].
    eexists _, _, z. split; [done|]. split.
    { intros n Hr. destruct (fa_zallocate_room s h n R Hr) as (p' & s1' & E' & _ & Hr').
      apply fa_room_set. congruence. }
    edestruct (link_walked level s h root) as [Hwk Htab];
      [exact R|exact W|apply vpn_path_ok| | |exact Ht|exact Hv|exact Hz|exact R1|exact Ha|exact Hft|reflexivity|].
    + apply vpn_idx_ok. lia.
    + rewrite length_drop. cbn. lia.
    + split; [exact Hwk|]. split; [done|].
      rewrite fa_ram_set, word_at_insert, decide_True by done.
      apply table_pte_spec; [apply Hft|apply Hft].
  - apply negb_false_iff in Hv. right. eexists s, h, _. split; [done|].
    split; [intros n Hr; eapply fa_room_le; [exact Hr|lia]|].
    split; [by apply walked_refl|]. split; [|done]. cbn [tab]. rewrite Ht. cbn.
    apply branch_of_Some. split; [done|]. split; [|done].
    apply (Hnl _); [|done]. unfold ent. by rewrite Ht.
Qed.

Lemma map_walk_spec k level s h root vaddr t :
  fa_rep s h → pt_wf (fa_ram s) root h → (level + k < 3)%nat →
  tab (fa_ram s) root (drop (S (level + k)) (vpns vaddr)) = Some t →
  (∀ i, (level < i <= level + k)%nat →
     no_leaf (fa_ram s) root (drop (S i) (vpns vaddr)) (nth i (vpns vaddr) 0)) →
  (map_walk (vpns vaddr) (t + 8 * nth (level + k) (vpns vaddr) 0) (rev (seq level k)) s
    = Panic PUnwrap ∧ ¬ fa_room s k) ∨
  ∃ s' h' t',
    map_walk (vpns vaddr) (t + 8 * nth (level + k) (vpns vaddr) 0) (rev (seq level k)) s
      = Done (t' + 8 * nth level (vpns vaddr) 0, s') ∧
    (∀ n, fa_room s (k + n) → fa_room s' n) ∧
    walked level root s h s' h' ∧
    tab (fa_ram s') root (drop (S level) (vpns vaddr)) = Some t'.
Proof.
  revert s h t. induction k as [|k IH]; intros s h t R W Hk Ht Hnl.
  { right. exists s, h, t. rewrite Nat.add_0_r in *. split; [done|].
    split; [done|]. split; [by apply walked_refl|done]. }
  rewrite seq_S, rev_app_distr. cbn [rev app map_walk].
  destruct (ensure_table_spec level s h root vaddr (level + S k) t)
    as [[E Hr]|(s1 & h1 & t1 & E & Hr & W1 & Ht1 & Hp)]; [done|done|lia|done|apply Hnl; lia|..].
  { left. split; [unfold mbind, M_bind; by rewrite E|]. intros Hr'. apply Hr.
    eapply fa_room_le; [exact Hr'|lia]. }
  rewrite (bind_done _ _ _ _ _ E), (bind_done _ _ _ _ _ (load_done _ _)), Hp.
  rewrite Nat.add_succ_r in Ht1. cbv zeta.
  destruct (wf_table _ _ _ _ _ (rep_pages_ok _ _ (wk_rep _ _ _ _ _ _ W1))
    (wk_wf _ _ _ _ _ _ W1) (vpn_path_ok _ _) Ht1).
  destruct (vpns_bound vaddr (level + k)); [lia|]. rewrite (proj2 (Z.eqb_neq _ _)) by lia.
  destruct (IH s1 h1 t1) as [[E2 Hr2]|(s2 & h2 & t2 & E2 & Hr2 & W2 & Ht2)];
    [apply W1|apply W1|lia|done| |left; split; [done|]; intros Hr'; by apply Hr2, Hr|].
  - intros i Hi. apply (wk_no_leaf _ _ _ _ _ _ W1);
      [apply vpn_path_ok|apply vpn_idx_ok; lia|apply Hnl; lia].
  - right. exists s2, h2, t2. split; [done|]. split; [intros n Hn; by apply Hr2, Hr|].
    split; [by eapply walked_trans|done].
Qed.

(** *** [map] *)
Definition mappable (m : gmap Z Z) (root vaddr : Z) (level : nat) : Prop :=
  (∀ i, (level < i < 3)%nat →
     no_leaf m root (drop (S i) (vpns vaddr)) (nth i (vpns vaddr) 0)) ∧
  (∀ e, ent m root (drop (S level) (vpns vaddr)) (nth level (vpns vaddr) 0) = Some e →
     branch_of e = None).

Definition flags_ok (bits : Z) : Prop := 0 <= bits < 2 ^ 10 ∧ Z.land bits RWX ≠ 0.

(** The slot the walk ends on still holds no pointer. *)
Lemma walked_target level root s h s1 h1 vaddr t :
  walked level root s h s1 h1 → (level < 3)%nat → mappable (fa_ram s) root vaddr level →
  tab (fa_ram s1) root (drop (S level) (vpns vaddr)) = Some t →
  branch_of (word_at (fa_ram s1) (t + 8 * nth level (vpns vaddr) 0)) = None.
Proof.
  intros W1 Hl [_ Htgt] Ht. set (idx := nth level (vpns vaddr) 0) in *.
  assert (Ee : ent (fa_ram s1) root (drop (S level) (vpns vaddr)) idx
    = Some (word_at (fa_ram s1) (t + 8 * idx))) by (unfold ent; by rewrite Ht).
  destruct (wk_below _ _ _ _ _ _ W1 (drop (S level) (vpns vaddr)) idx) as [E1|[_ E1]].
  - apply vpn_path_ok.
  - by apply vpn_idx_ok.
  - rewrite length_drop. cbn. lia.
  - apply Htgt. congruence.
  - rewrite Ee in E1. by injection E1 as ->.
Qed.

Lemma map_spec s h root vaddr paddr bits level :
  fa_rep s h → pt_wf (fa_ram s) root h → (level < 3)%nat →
  0 <= paddr < 2 ^ 56 → flags_ok bits → mappable (fa_ram s) root vaddr level →
  (map root vaddr paddr bits level s = Panic PUnwrap ∧ ¬ fa_room s (2 - level)) ∨
  ∃ s' h', map root vaddr paddr bits level s = Done (tt, s') ∧
    fa_rep s' h' ∧ pt_wf (fa_ram s') root h' ∧ h ⊆ h' ∧
    (∀ va, walk (fa_ram s') root va =
       if decide (drop level (vpns va) = drop level (vpns vaddr))
       then Some (level, leaf_pte paddr bits)
       else walk (fa_ram s) root va) ∧
    (∀ Q j, path_ok Q → idx_ok j → no_leaf (fa_ram s) root Q j →
       (2 < length Q + level)%nat ∨ (length Q + level < 2)%nat →
       no_leaf (fa_ram s') root Q j).
Proof.
  intros R W Hl Hp [Hb Hr] Hmap. pose proof Hmap as [Hnl _]. unfold map.
  rewrite bind_done with (a := tt) (s' := s)
    by (apply assert_true, negb_true_iff, Z.eqb_neq; done).
  destruct (map_walk_spec (2 - level) level s h root vaddr root) as
    [[E Hroom]|(s1 & h1 & t & E & _ & W1 & Ht)]; [done|done|lia|..].
  { by replace (S (level + (2 - level))) with 3%nat by lia. }
  { intros i Hi. apply Hnl. lia. }
  { left. replace (level + (2 - level))%nat with 2%nat in E by lia.
    split; [unfold mbind, M_bind; by rewrite E|done]. }
  right. replace (level + (2 - level))%nat with 2%nat in E by lia.
  rewrite (bind_done _ _ _ _ _ E), store_done.
  pose proof (wk_rep _ _ _ _ _ _ W1) as R1. pose proof (wk_wf _ _ _ _ _ _ W1) as Wf1.
  pose proof (rep_pages_ok _ _ R1) as Hpg.
  destruct (leaf_pte_spec paddr bits Hp Hb Hr) as [Hv Hlf].
  set (idx := nth level (vpns vaddr) 0) in *.
  assert (Hold : branch_of (word_at (fa_ram s1) (t + 8 * idx)) = None)
    by (by eapply walked_target).
  eexists _, h1. split; [done|]. rewrite fa_ram_set. split_and!.
  - by apply fa_rep_set.
  - apply (pt_wf_store_leaf _ _ _ (drop (S level) (vpns vaddr))); auto using branch_of_leaf.
    by apply vpn_idx_ok.
  - apply W1.
  - intros va. rewrite (walk_store_leaf _ h1 _ vaddr level) by done.
    by rewrite (wk_walk _ _ _ _ _ _ W1).
  - intros Q j HQ Hj Hn Hlen e.
    rewrite (ent_store_leaf _ h1 _ (drop (S level) (vpns vaddr))); auto using branch_of_leaf.
    + rewrite decide_False.
      * by apply (wk_no_leaf _ _ _ _ _ _ W1).
      * intros [-> _]. rewrite length_drop in Hlen. cbn in Hlen. lia.
    + by apply vpn_idx_ok.
Qed.

(** *** [id_map_range] *)

(** Only 4 KiB pages so far: no leaf above level 0. *)
Definition small_pages (m : gmap Z Z) (root : Z) : Prop :=
  ∀ Q j, path_ok Q → idx_ok j → (length Q < 2)%nat → no_leaf m root Q j.

Definition page_of (va : Z) : Z := va - va mod PAGE_SIZE.

Lemma small_pages_mappable m h root va :
  pt_wf m root h → small_pages m root → mappable m root va 0.
Proof.
  intros W Hs. split.
  - intros i Hi. apply Hs; [apply vpn_path_ok|apply vpn_idx_ok; lia|].
    rewrite length_drop. cbn. lia.
  - intros e. apply (wf_level0 _ _ _ W); [apply vpn_path_ok|done|apply vpn_idx_ok; lia].
Qed.

(** Below 2 ^ 39 the three indices identify the page. *)
Lemma vpns_eq va va' :
  0 <= va < 2 ^ 39 → 0 <= va' < 2 ^ 39 → vpns va = vpns va' ↔ page_of va = page_of va'.
Proof.
  intros Hv Hv'. unfold vpns, page_of. rewrite PAGE_SIZE_val.
  change 0x1ff with (2 ^ 9 - 1). rewrite !land_ones_mod, !Z.shiftr_div_pow2 by lia.
  split; [intros [= E0 E1 E2]; dlia|intros E].
  assert (va / 4096 = va' / 4096) by dlia. f_equal; [|f_equal; [|f_equal]]; f_equal; dlia.
Qed.

Lemma page_of_aligned a : a mod PAGE_SIZE = 0 → page_of a = a.
Proof. unfold page_of. lia. Qed.

Lemma elem_of_page_range start end_ a :
  start mod PAGE_SIZE = 0 → end_ mod PAGE_SIZE = 0 → a mod PAGE_SIZE = 0 →
  a ∈ page_range start end_ ↔ start <= a < end_.
Proof.
  intros Hs He Ha. unfold page_range. rewrite list_elem_of_fmap. rewrite PAGE_SIZE_val in *.
  setoid_rewrite elem_of_seq. split.
  - intros (k & -> & Hk). dlia.
  - intros Hr. exists (Z.to_nat ((a - start) / 4096)). split; [rewrite Z2Nat.id; dlia|].
    split; [lia|]. apply Z2Nat.inj_lt; dlia.
Qed.

(** From [s], exactly the pages of [d] have been identity-mapped. *)
Definition id_mapped (root bits : Z) (s : St) (h : gmap Z Z) (d : list Z)
    (s' : St) (h' : gmap Z Z) : Prop :=
  fa_rep s' h' ∧ pt_wf (fa_ram s') root h' ∧ small_pages (fa_ram s') root ∧ h ⊆ h' ∧
  ∀ va, 0 <= va < 2 ^ 39 → walk (fa_ram s') root va =
    if decide (page_of va ∈ d) then Some (0%nat, leaf_pte (page_of va) bits)
    else walk (fa_ram s) root va.

Lemma id_map_step root bits s h d s1 h1 a :
  id_mapped root bits s h d s1 h1 → flags_ok bits →
  0 <= a < 2 ^ 39 → a mod PAGE_SIZE = 0 →
  map root a a bits 0 s1 = Panic PUnwrap ∨
  ∃ s2 h2, map root a a bits 0 s1 = Done (tt, s2) ∧
           id_mapped root bits s h (d ++ [a]) s2 h2.
Proof.
  intros (R1 & W1 & Hs1 & Hh & Hw) Hb Ha Ham.
  destruct (map_spec s1 h1 root a a bits 0) as [[E _]|(s2 & h2 & E & R2 & W2 & Hh2 & Hw2 & Hnl)];
    [done|done|lia|lia|done|by eapply small_pages_mappable|by left|].
  right. exists s2, h2. split; [done|]. split_and!; try done.
  - intros Q j HQ Hj HlQ. apply Hnl; [done|done|by apply Hs1|lia].
  - by etransitivity.
  - intros va Hva. rewrite Hw2, Hw, !drop_0 by done.
    destruct (decide (vpns va = vpns a)) as [Ev|Ev].
    + apply vpns_eq in Ev; [|done|done]. rewrite (page_of_aligned a) in Ev by done.
      rewrite Ev, decide_True; [done|]. apply elem_of_app. right. by apply list_elem_of_singleton.
    + rewrite vpns_eq, (page_of_aligned a) in Ev by done.
      assert (Hiff : page_of va ∈ d ++ [a] ↔ page_of va ∈ d)
        by (rewrite elem_of_app, list_elem_of_singleton; tauto).
      by repeat case_decide; try tauto.
Qed.

Lemma page_range_aligned start end_ a :
  start mod PAGE_SIZE = 0 → a ∈ page_range start end_ → a mod PAGE_SIZE = 0.
Proof.
  unfold page_range. intros Hs Ha. apply list_elem_of_fmap in Ha as (k & -> & _).
  by rewrite Z.mod_add by done.
Qed.

Lemma id_map_range_spec s h root start end_ bits :
  fa_rep s h → pt_wf (fa_ram s) root h → small_pages (fa_ram s) root →
  0 <= start → end_ <= 2 ^ 39 → start mod PAGE_SIZE = 0 → end_ mod PAGE_SIZE = 0 →
  flags_ok bits →
  id_map_range root start end_ bits s = Panic PUnwrap ∨
  ∃ s' h', id_map_range root start end_ bits s = Done (tt, s') ∧
    fa_rep s' h' ∧ pt_wf (fa_ram s') root h' ∧ small_pages (fa_ram s') root ∧ h ⊆ h' ∧
    ∀ va, 0 <= va < 2 ^ 39 → walk (fa_ram s') root va =
      if decide (start <= va < end_) then Some (0%nat, leaf_pte (page_of va) bits)
      else walk (fa_ram s) root va.
Proof.
  intros R W Hsm H0s Hend Hs He Hb. unfold id_map_range.
  rewrite (bind_done _ _ s tt s) by (by apply assert_true, Z.eqb_eq).
  rewrite (bind_done _ _ s tt s) by (by apply assert_true, Z.eqb_eq).
  set (l := page_range start end_).
  destruct (for_each_or (λ addr, map root addr addr bits 0)
    (λ rest s', ∃ d h', l = d ++ rest ∧ id_mapped root bits s h d s' h') PUnwrap l s)
    as [E|(s' & E & d & h' & Hd & R' & W' & Hsm' & Hh & Hw)].
  - exists [], h. by split_and!.
  - intros a rest s1 (d & h1 & Hl & Hm).
    assert (Ha : a ∈ l) by (rewrite Hl, elem_of_app; right; constructor).
    pose proof (page_range_aligned _ _ _ Hs Ha) as Ham.
    apply elem_of_page_range in Ha; [|done..].
    destruct (id_map_step _ _ _ _ _ _ _ a Hm Hb) as [E|(s2 & h2 & E & Hm2)];
      [lia|done|by left|]. right. exists s2. split; [done|].
    exists (d ++ [a]), h2. by rewrite <- app_assoc.
  - by left.
  - right. exists s', h'. split_and!; try done. intros va Hva. rewrite Hw by done.
    assert (Hp : page_of va mod PAGE_SIZE = 0) by (unfold page_of; rewrite PAGE_SIZE_val; dlia).
    rewrite app_nil_r in Hd. subst d.
    assert (Hiff : page_of va ∈ l ↔ start <= va < end_).
    { subst l. rewrite elem_of_page_range by done. unfold page_of. rewrite PAGE_SIZE_val in *. dlia. }
    by repeat case_decide; try tauto.
Qed.

(** *** [unmap] *)

(** What [unmap] leaves in a slot: pointers are erased. *)
Definition wipe (e : Z) : Z := match branch_of e with Some _ => 0 | None => e end.

(** The tables the slots [js] of table [t] point to. *)
Definition slot_tables (m : gmap Z Z) (t : Z) (js : list nat) : list Z :=
  omap (λ j, branch_of (word_at m (t + 8 * Z.of_nat j))) js.

(** The tables below slot [i] of the root, in the order they are freed. *)
Definition subtree (m : gmap Z Z) (root : Z) (i : nat) : list Z :=
  match branch_of (word_at m (root + 8 * Z.of_nat i)) with
  | Some t1 => slot_tables m t1 (seq 0 table_len) ++ [t1]
  | None => []
  end.

Definition all_tables (m : gmap Z Z) (root : Z) : list Z :=
  concat (subtree m root <$> seq 0 table_len).

Lemma branch_test e : negb (is_valid e) || negb (is_branch e) =
  match branch_of e with Some _ => false | None => true end.
Proof. unfold branch_of. by destruct (is_valid e), (is_branch e). Qed.

Definition freeable (h : gmap Z Z) (t : Z) : Prop := h !! t = Some 1 ∧ t < fa_end.

Lemma deallocate_addr_spec s h t :
  fa_rep s h → freeable h t →
  ∃ s', deallocate_addr t s = Done (tt, s') ∧ fa_rep s' (delete t h) ∧ fa_ram s' = fa_ram s.
Proof.
  intros R [Hl He]. destruct (rep_pages_ok _ _ R t Hl). unfold deallocate_addr.
  rewrite (proj2 (Z.eqb_neq _ _)) by lia. by apply fa_deallocate_spec with 1.
Qed.

Lemma unmap_lv1_spec s h t j :
  fa_rep s h →
  (∀ t0, branch_of (word_at (fa_ram s) (t + 8 * Z.of_nat j)) = Some t0 → freeable h t0) →
  ∃ s', unmap_lv1 t j s = Done (tt, s') ∧ fa_rep s' (deletes (slot_tables (fa_ram s) t [j]) h) ∧
    ∀ a, word_at (fa_ram s') a =
      if decide (a = t + 8 * Z.of_nat j) then wipe (word_at (fa_ram s) a)
      else word_at (fa_ram s) a.
Proof.
  intros R Hf. unfold unmap_lv1. rewrite (bind_done _ _ _ _ _ (load_done _ _)), branch_test.
  unfold slot_tables. cbn [omap list_omap].
  destruct (branch_of _) as [t0|] eqn:Hb.
  - destruct (deallocate_addr_spec s h t0) as (s1 & E & R1 & Hr); [done|by apply Hf|].
    apply branch_of_Some in Hb as Hb'. destruct Hb' as (_ & _ & Ha).
    rewrite Ha.
    rewrite (bind_done _ _ _ _ _ E), store_done. eexists. split; [done|].
    split; [by apply fa_rep_set|]. intros a. rewrite fa_ram_set, word_at_insert, Hr.
    repeat case_decide; subst; try done. unfold wipe. by rewrite Hb.
  - exists s. split; [done|]. split; [done|]. intros a. case_decide; [|done].
    subst. unfold wipe. by rewrite Hb.
Qed.

Lemma unmap_lv1_loop m0 t js s h :
  fa_rep s h → NoDup js →
  (∀ j, j ∈ js → word_at (fa_ram s) (t + 8 * Z.of_nat j) = word_at m0 (t + 8 * Z.of_nat j)) →
  (∀ j t0, j ∈ js → branch_of (word_at m0 (t + 8 * Z.of_nat j)) = Some t0 → freeable h t0) →
  (∀ j j' t0, j ∈ js → j' ∈ js → branch_of (word_at m0 (t + 8 * Z.of_nat j)) = Some t0 →
     branch_of (word_at m0 (t + 8 * Z.of_nat j')) = Some t0 → j = j') →
  ∃ s', for_each js (unmap_lv1 t) s = Done (tt, s') ∧
    fa_rep s' (deletes (slot_tables m0 t js) h) ∧
    ∀ a, (∀ j, j ∈ js → a ≠ t + 8 * Z.of_nat j) →
         word_at (fa_ram s') a = word_at (fa_ram s) a.
Proof.
  revert s h. induction js as [|j js IH]; intros s h R Hnd Hw Hf Hdist; [by exists s|].
  apply list.NoDup_cons in Hnd as [Hj Hnd]. cbn [for_each].
  destruct (unmap_lv1_spec s h t j R) as (s1 & E & R1 & Hw1).
  { intros t0. rewrite Hw by constructor. apply Hf. constructor. }
  rewrite (bind_done _ _ _ _ _ E).
  assert (Hst : slot_tables (fa_ram s) t [j] = slot_tables m0 t [j])
    by (unfold slot_tables; cbn; by rewrite Hw by constructor).
  rewrite Hst in R1.
  destruct (IH s1 _ R1 Hnd) as (s2 & E2 & R2 & Hw2).
  - intros j' Hj'. rewrite Hw1, decide_False by (intros ?; assert (j = j') by lia; congruence).
    apply Hw. by constructor.
  - intros j' t0 Hj' Hb. destruct (Hf j' t0) as [Hl He]; [by constructor|done|].
    split; [|done]. rewrite lookup_deletes, decide_False; [done|]. unfold slot_tables.
    rewrite list_elem_of_omap. intros (j'' & ->%list_elem_of_singleton & Hb'').
    assert (j = j') by (eapply Hdist; [constructor|by constructor|done|done]). congruence.
  - intros a b t0 Ha Hb. apply Hdist; by constructor.
  - exists s2. split; [done|]. split.
    + revert R2. rewrite <- deletes_app. unfold slot_tables. cbn [omap list_omap].
      by destruct (branch_of _).
    + intros a Ha. rewrite Hw2 by (intros; apply Ha; by constructor).
      rewrite Hw1, decide_False by (apply Ha; constructor). done.
Qed.

Section unmap_tree.
Context (m0 : gmap Z Z) (root : Z) (h0 : gmap Z Z).
Context (W0 : pt_wf m0 root h0) (Hpg : pages_ok h0).

Lemma idx_ok_nat j : (j < table_len)%nat → idx_ok (Z.of_nat j).
Proof. unfold table_len, idx_ok. lia. Qed.

Lemma path1_ok i : (i < table_len)%nat → path_ok [Z.of_nat i].
Proof. intros. split; [cbn; lia|]. repeat constructor; by apply idx_ok_nat. Qed.

Lemma path2_ok i j : (i < table_len)%nat → (j < table_len)%nat → path_ok [Z.of_nat j; Z.of_nat i].
Proof. intros. split; [cbn; lia|]. repeat constructor; by apply idx_ok_nat. Qed.

Lemma tab_path1 i : tab m0 root [Z.of_nat i] = branch_of (word_at m0 (root + 8 * Z.of_nat i)).
Proof. done. Qed.

Lemma elem_of_subtree i t :
  t ∈ subtree m0 root i ↔ tab m0 root [Z.of_nat i] = Some t ∨
    ∃ j, (j < table_len)%nat ∧ tab m0 root [Z.of_nat j; Z.of_nat i] = Some t.
Proof.
  unfold subtree. cbn [tab mbind option_bind].
  destruct (branch_of (word_at m0 (root + 8 * Z.of_nat i))) as [t1|]; cbn [mbind option_bind].
  - rewrite elem_of_app, list_elem_of_singleton. unfold slot_tables. rewrite list_elem_of_omap.
    setoid_rewrite elem_of_seq. split.
    + intros [(j & Hj & Hb)| ->]; [right; exists j; split; [lia|done]|by left].
    + intros [ [= ->] |(j & Hj & Hb)]; [by right|left; exists j; split; [lia|done]].
  - split; [intros Ht; by apply not_elem_of_nil in Ht|].
    intros [?|(? & _ & ?)]; done.
Qed.

(** Different slots of the root have disjoint subtrees. *)
Lemma subtree_disjoint i i' t :
  (i < table_len)%nat → (i' < table_len)%nat →
  t ∈ subtree m0 root i → t ∈ subtree m0 root i' → i = i'.
Proof.
  intros Hi Hi' Ht Ht'. apply elem_of_subtree in Ht, Ht'.
  assert (Hinj := λ P Q HP HQ, wf_inj _ _ _ W0 P Q t HP HQ).
  destruct Ht as [Ht|(j & Hj & Ht)], Ht' as [Ht'|(j' & Hj' & Ht')];
    [pose proof (Hinj _ _ (path1_ok i Hi) (path1_ok i' Hi') Ht Ht')
    |pose proof (Hinj _ _ (path1_ok i Hi) (path2_ok i' j' Hi' Hj') Ht Ht')
    |pose proof (Hinj _ _ (path2_ok i j Hi Hj) (path1_ok i' Hi') Ht Ht')
    |pose proof (Hinj _ _ (path2_ok i j Hi Hj) (path2_ok i' j' Hi' Hj') Ht Ht')];
    simplify_eq; lia.
Qed.

(** A slot of a level-1 table is no slot of the root. *)
Lemma root_slot_ne i i' t1 j :
  (i < table_len)%nat → (i' < table_len)%nat → (j < table_len)%nat →
  tab m0 root [Z.of_nat i] = Some t1 → root + 8 * Z.of_nat i' ≠ t1 + 8 * Z.of_nat j.
Proof.
  intros Hi Hi' Hj Ht E.
  destruct (entry_same_slot m0 h0 root [] [Z.of_nat i] root t1 (Z.of_nat i') (Z.of_nat j));
    auto using path1_ok, idx_ok_nat; [|done]. split; [cbn; lia|constructor].
Qed.

Lemma level1_slot_ne i i' t1 t1' j j' :
  (i < table_len)%nat → (i' < table_len)%nat → (j < table_len)%nat → (j' < table_len)%nat →
  tab m0 root [Z.of_nat i] = Some t1 → tab m0 root [Z.of_nat i'] = Some t1' → i ≠ i' →
  t1' + 8 * Z.of_nat j' ≠ t1 + 8 * Z.of_nat j.
Proof.
  intros Hi Hi' Hj Hj' Ht Ht' Hne E.
  destruct (entry_same_slot m0 h0 root [Z.of_nat i'] [Z.of_nat i] t1' t1
    (Z.of_nat j') (Z.of_nat j)) as [E' _]; auto using path1_ok, idx_ok_nat.
  simplify_eq; lia.
Qed.

Lemma unmap_lv2_spec s h i :
  fa_rep s h → (i < table_len)%nat →
  word_at (fa_ram s) (root + 8 * Z.of_nat i) = word_at m0 (root + 8 * Z.of_nat i) →
  (∀ t1 j, tab m0 root [Z.of_nat i] = Some t1 → (j < table_len)%nat →
     word_at (fa_ram s) (t1 + 8 * Z.of_nat j) = word_at m0 (t1 + 8 * Z.of_nat j)) →
  (∀ t, t ∈ subtree m0 root i → freeable h t) →
  ∃ s', unmap_lv2 root i s = Done (tt, s') ∧ fa_rep s' (deletes (subtree m0 root i) h) ∧
    word_at (fa_ram s') (root + 8 * Z.of_nat i)
      = wipe (word_at m0 (root + 8 * Z.of_nat i)) ∧
    ∀ a, a ≠ root + 8 * Z.of_nat i →
      (∀ t1 j, tab m0 root [Z.of_nat i] = Some t1 → (j < table_len)%nat →
         a ≠ t1 + 8 * Z.of_nat j) →
      word_at (fa_ram s') a = word_at (fa_ram s) a.
Proof.
  intros R Hi Hroot Hsub Hfree. unfold unmap_lv2.
  rewrite (bind_done _ _ _ _ _ (load_done _ _)), branch_test, Hroot.
  pose proof (elem_of_subtree i) as Hel. rewrite tab_path1 in *. unfold subtree, wipe in *.
  destruct (branch_of _) as [t1|] eqn:Hb; [|exists s; by split_and!].
  apply branch_of_Some in Hb as Hb'. destruct Hb' as (_ & _ & ->). cbv zeta.
  destruct (Hfree t1) as [Hl1 He1]; [apply Hel; by left|].
  destruct (rep_pages_ok _ _ R t1 Hl1). rewrite (proj2 (Z.eqb_neq _ _)) by lia.
  destruct (unmap_lv1_loop m0 t1 (seq 0 table_len) s h) as (s1 & E1 & R1 & Hw1); [done|apply NoDup_seq|..].
  { intros j [_ Hj]%elem_of_seq. by apply Hsub. }
  { intros j t0 [_ Hj]%elem_of_seq Hb0. apply Hfree, Hel. right. exists j. split; [lia|].
    cbn. by rewrite Hb. }
  { intros j j' t0 [_ Hj]%elem_of_seq [_ Hj']%elem_of_seq Ht Ht'.
    pose proof (wf_inj _ _ _ W0 _ _ t0 (path2_ok i j Hi Hj) (path2_ok i j' Hi Hj')) as Hinj.
    cbn in Hinj. rewrite Hb in Hinj. cbn in Hinj. specialize (Hinj Ht Ht'). simplify_eq. lia. }
  rewrite (bind_done _ _ _ _ _ E1).
  destruct (deallocate_addr_spec s1 _ t1 R1) as (s2 & E2 & R2 & Hr2).
  { split; [|done]. rewrite lookup_deletes, decide_False; [done|].
    unfold slot_tables. rewrite list_elem_of_omap. intros (j & [_ Hj]%elem_of_seq & Ht).
    pose proof (wf_inj _ _ _ W0 _ _ t1 (path2_ok i j Hi Hj) (path1_ok i Hi)) as Hinj.
    cbn in Hinj. rewrite Hb in Hinj. by specialize (Hinj Ht eq_refl). }
  rewrite (bind_done _ _ _ _ _ E2), store_done. eexists. split; [done|].
  rewrite deletes_app. split; [by apply fa_rep_set|]. rewrite fa_ram_set, Hr2. split.
  - by rewrite word_at_insert, decide_True.
  - intros a Ha Hn. rewrite word_at_insert, decide_False by congruence. apply Hw1.
    intros j [_ Hj]%elem_of_seq. by apply Hn.
Qed.

Lemma unmap_loop is_ s h :
  fa_rep s h → NoDup is_ → (∀ i, i ∈ is_ → (i < table_len)%nat) →
  (∀ i, i ∈ is_ →
     word_at (fa_ram s) (root + 8 * Z.of_nat i) = word_at m0 (root + 8 * Z.of_nat i) ∧
     (∀ t1 j, tab m0 root [Z.of_nat i] = Some t1 → (j < table_len)%nat →
       word_at (fa_ram s) (t1 + 8 * Z.of_nat j) = word_at m0 (t1 + 8 * Z.of_nat j)) ∧
     (∀ t, t ∈ subtree m0 root i → freeable h t)) →
  ∃ s', for_each is_ (unmap_lv2 root) s = Done (tt, s') ∧
    fa_rep s' (deletes (concat (subtree m0 root <$> is_)) h) ∧
    ∀ i, (i < table_len)%nat → word_at (fa_ram s') (root + 8 * Z.of_nat i) =
      if decide (i ∈ is_) then wipe (word_at m0 (root + 8 * Z.of_nat i))
      else word_at (fa_ram s) (root + 8 * Z.of_nat i).
Proof.
  revert s h. induction is_ as [|i is_ IH]; intros s h R Hnd Hlt Hpre.
  { exists s. split_and!; [done|done|]. intros i _. by rewrite decide_False by apply not_elem_of_nil. }
  apply list.NoDup_cons in Hnd as [Hi Hnd]. cbn [for_each].
  assert (Hil : (i < table_len)%nat) by (apply Hlt; constructor).
  destruct (Hpre i) as (P1 & P2 & P3); [constructor|].
  destruct (unmap_lv2_spec s h i R Hil P1 P2 P3) as (s1 & E1 & R1 & Hr & Hfr).
  rewrite (bind_done _ _ _ _ _ E1).
  destruct (IH s1 _ R1 Hnd) as (s2 & E2 & R2 & Hw2).
  - intros k Hk. apply Hlt. by constructor.
  - intros k Hk. assert (Hkl : (k < table_len)%nat) by (apply Hlt; by constructor).
    assert (Hne : i ≠ k) by congruence.
    destruct (Hpre k) as (Q1 & Q2 & Q3); [by constructor|]. split_and!.
    + rewrite Hfr; [done|lia|]. intros t1 j Ht Hj. by apply (root_slot_ne i).
    + intros t1 j Ht Hj. rewrite Hfr; [by apply Q2|..].
      * apply not_eq_sym. by apply (root_slot_ne k).
      * intros t1' j' Ht' Hj'. by apply (level1_slot_ne i k).
    + intros t Ht. destruct (Q3 t Ht). split; [|done].
      rewrite lookup_deletes, decide_False; [done|]. intros Ht'.
      by apply Hne, (subtree_disjoint i k t).
  - exists s2. split; [done|]. split; [rewrite fmap_cons; cbn [concat]; by rewrite deletes_app|].
    intros k Hk. rewrite Hw2 by done.
    destruct (decide (k = i)) as [->|Hki].
    + rewrite decide_False, decide_True by (done || constructor). done.
    + rewrite (Hfr (root + 8 * Z.of_nat k)); [|lia|intros t1 j Ht Hj; by apply (root_slot_ne i)].
      destruct (decide (k ∈ is_)).
      * by rewrite decide_True by by constructor.
      * rewrite decide_False; [done|]. by rewrite elem_of_cons; intros [?|?].
Qed.
End unmap_tree.

Lemma wipe_no_branch e : branch_of (wipe e) = None.
Proof. unfold wipe. by destruct (branch_of e) eqn:E. Qed.

(** The first step of a walk. *)
Lemma walk_step m root va :
  walk m root va =
    let e := word_at m (root + 8 * nth 2 (vpns va) 0) in
    if is_invalid e then None
    else if is_leaf e then Some (2%nat, e) else walk_from m root va 1.
Proof. reflexivity. Qed.

Lemma walk_no_branch m root va :
  (∀ j, idx_ok j → branch_of (word_at m (root + 8 * j)) = None) →
  walk m root va =
    let e := word_at m (root + 8 * nth 2 (vpns va) 0) in
    if is_valid e && is_leaf e then Some (2%nat, e) else None.
Proof.
  intros Hn. rewrite walk_step.
  specialize (Hn (nth 2 (vpns va) 0) ltac:(apply vpn_idx_ok; lia)).
  set (e := word_at m (root + 8 * nth 2 (vpns va) 0)) in *. cbv zeta.
  unfold branch_of, is_branch in Hn. unfold is_invalid.
  by destruct (is_valid e), (is_leaf e).
Qed.

Lemma unmap_spec s h root :
  fa_rep s h → pt_wf (fa_ram s) root h →
  (∀ P t, path_ok P → P ≠ [] → tab (fa_ram s) root P = Some t → t < fa_end) →
  ∃ s', unmap root s = Done (tt, s') ∧
    fa_rep s' (deletes (all_tables (fa_ram s) root) h) ∧
    ∀ j, idx_ok j →
      word_at (fa_ram s') (root + 8 * j) = wipe (word_at (fa_ram s) (root + 8 * j)).
Proof.
  intros R W Hend. pose proof (rep_pages_ok _ _ R) as Hpg.
  destruct (unmap_loop (fa_ram s) root h W Hpg (seq 0 table_len) s h) as (s' & E & R' & Hw);
    [done|apply NoDup_seq|by intros i [_ ?]%elem_of_seq| |].
  - intros i [_ Hi]%elem_of_seq. split_and!; [done|done|]. intros t Ht.
    apply elem_of_subtree in Ht as [Ht|(j & Hj & Ht)].
    + pose proof (path1_ok i Hi). split; [by apply (wf_live _ _ _ W) in Ht|by eapply Hend].
    + pose proof (path2_ok i j Hi Hj). split; [by apply (wf_live _ _ _ W) in Ht|by eapply Hend].
  - exists s'. split; [done|]. split; [done|]. intros j Hj.
    specialize (Hw (Z.to_nat j)). unfold idx_ok, table_len in *.
    rewrite Z2Nat.id, decide_True in Hw by (try apply elem_of_seq; lia). apply Hw. lia.
Qed.

Lemma elem_of_all_tables m root t :
  t ∈ all_tables m root → ∃ P, P ≠ [] ∧ path_ok P ∧ tab m root P = Some t.
Proof.
  unfold all_tables. rewrite list_elem_of_In, in_concat. intros (l & Hl & Ht).
  apply list_elem_of_In, list_elem_of_fmap in Hl as (i & -> & [_ Hi]%elem_of_seq).
  apply list_elem_of_In, elem_of_subtree in Ht as [Ht|(j & Hj & Ht)].
  - exists [Z.of_nat i]. split_and!; auto using path1_ok.
  - exists [Z.of_nat j; Z.of_nat i]. split_and!; auto using path2_ok.
Qed.

(** A zeroed root is a well-formed, empty page table. *)
Lemma tab_empty m root P :
  (∀ j, idx_ok j → word_at m (root + 8 * j) = 0) → path_ok P → P ≠ [] → tab m root P = None.
Proof.
  intros Hz. induction P as [|i P IH]; intros HP Hne; [done|].
  apply path_ok_cons in HP as [HP Hi]. cbn [tab]. destruct P as [|k P].
  - cbn. by rewrite Hz.
  - by rewrite IH.
Qed.

Lemma pt_wf_empty m root h :
  (∀ j, idx_ok j → word_at m (root + 8 * j) = 0) → h !! root = Some 1 →
  pt_wf m root h ∧ small_pages m root ∧ ∀ va, walk m root va = None.
Proof.
  intros Hz Hr.
  assert (Ht : ∀ P t, path_ok P → tab m root P = Some t → P = []).
  { intros [|i P] t HP E; [done|]. by rewrite tab_empty in E. }
  split_and!; [split|..].
  - intros P t HP E. rewrite (Ht P t HP E) in E. by simplify_eq/=.
  - intros P Q t HP HQ E1 E2. by rewrite (Ht P t HP E1), (Ht Q t HQ E2).
  - intros P j e HP Hl Hj E. unfold ent in E. destruct (tab m root P) as [t|] eqn:E'; [|done].
    rewrite (Ht P t HP E') in Hl. done.
  - intros Q j HQ Hj _ e E Hv. unfold ent in E. destruct (tab m root Q) as [t|] eqn:E'; [|done].
    rewrite (Ht Q t HQ E') in E'. simplify_eq/=. by rewrite Hz in Hv.
  - intros va. rewrite walk_no_branch by (intros j Hj; by rewrite Hz).
    by rewrite Hz by (apply vpn_idx_ok; lia).
Qed.

Lemma path_nat j : idx_ok j → ∃ k, (k < table_len)%nat ∧ j = Z.of_nat k.
Proof. unfold idx_ok, table_len. exists (Z.to_nat j). lia. Qed.

Lemma tab_all_tables m root P t :
  path_ok P → P ≠ [] → tab m root P = Some t → t ∈ all_tables m root.
Proof.
  intros HP Hne Ht.
  assert (Hs : ∃ i, (i < table_len)%nat ∧ t ∈ subtree m root i).
  { destruct P as [|j [|i [|]]]; [done|..].
    - apply path_ok_cons in HP as [_ (k & Hk & ->)%path_nat]. exists k. split; [done|].
      apply elem_of_subtree. by left.
    - apply path_ok_cons in HP as [[_ (k & Hk & ->)%path_nat]%path_ok_cons (l & Hl' & ->)%path_nat].
      exists k. split; [done|]. apply elem_of_subtree. right. by exists l.
    - destruct HP as [HP _]. cbn in HP. lia. }
  destruct Hs as (i & Hi & Hin). unfold all_tables. apply list_elem_of_In, in_concat.
  exists (subtree m root i). split; [|by apply list_elem_of_In].
  apply list_elem_of_In, list_elem_of_fmap. exists i. split; [done|]. apply elem_of_seq. lia.
Qed.

(** The root slot decides a walk that ends there. *)
Lemma walk_root_slot_leaf m root va :
  let e := word_at m (root + 8 * nth 2 (vpns va) 0) in
  is_valid e = true → is_leaf e = true → walk m root va = Some (2%nat, e).
Proof.
  intros e Hv Hl. rewrite walk_step. fold e. cbv zeta. unfold is_invalid. by rewrite Hv, Hl.
Qed.

Lemma walk_from_level m root va i k e : walk_from m root va i = Some (k, e) → (k <= i)%nat.
Proof.
  induction i as [|i IH]; cbn [walk_from]; destruct (ent _ _ _ _) as [e'|]; try done; cbn;
    destruct (is_invalid e'); try done; destruct (is_leaf e'); try (intros [= <- _]; lia); try done.
  intros Hw. apply IH in Hw. lia.
Qed.

Lemma walk_root_slot m root va :
  (let e := wipe (word_at m (root + 8 * nth 2 (vpns va) 0)) in
   if is_valid e && is_leaf e then Some (2%nat, e) else None) =
  match walk m root va with Some (2%nat, e) => Some (2%nat, e) | _ => None end.
Proof.
  rewrite walk_step. set (e := word_at m (root + 8 * nth 2 (vpns va) 0)). cbv zeta.
  unfold wipe, is_invalid. destruct (branch_of e) as [t|] eqn:Hb.
  - apply branch_of_Some in Hb as (-> & -> & _). cbn [negb is_valid is_leaf Z.land Z.eqb andb].
    destruct (walk_from m root va 1) as [[k e']|] eqn:E; [|done].
    apply walk_from_level in E. destruct k as [|[|[|]]]; (done || lia).
  - unfold branch_of, is_branch in Hb. by destruct (is_valid e), (is_leaf e).
Qed.
End refinement.
