(* ===== verification/Sv39Props.v ===== *)
(** * Correctness of the Sv39 mapper

    The properties of [Sv39], for every allocator that satisfies the frame
    interface, and their instances on the page-frame allocator of
    [PageFrame]. *)

From S2P Require Import Prelude Linker Frames PageFrame Sv39.

Section properties.
Context {St : Type} `{FrameAllocatorLaws St}.
Implicit Types (s : St) (h : gmap Z Z).

(** C7. After [map] installs a page at any of the three levels, the
    software walk resolves every address of that page to the frame plus the
    offset in the page, and resolves every other address as before; the
    tables stay well formed and no live frame is lost. *)
Theorem map_v2p s h root vaddr paddr bits level s' :
  fa_rep s h → pt_wf (fa_ram s) root h → (level < 3)%nat →
  0 <= paddr < 2 ^ 56 → flags_ok bits → mappable (fa_ram s) root vaddr level →
  map root vaddr paddr bits level s = Done (tt, s') →
  let size := 2 ^ (12 + 9 * Z.of_nat level) in
  (∀ va, drop level (vpns va) = drop level (vpns vaddr) →
     v2p root va s' = Done (Some (paddr - paddr mod size + va mod size), s')) ∧
  (∀ va, drop level (vpns va) ≠ drop level (vpns vaddr) →
     ∃ r, v2p root va s = Done (r, s) ∧ v2p root va s' = Done (r, s')) ∧
  ∃ h', fa_rep s' h' ∧ pt_wf (fa_ram s') root h' ∧ h ⊆ h'.
Proof.
  intros R W Hl Hp Hb Hm E size.
  destruct (map_spec s h root vaddr paddr bits level R W Hl Hp Hb Hm)
    as [[E' _]|(s1 & h' & E' & R' & W' & Hh & Hw & _)]; rewrite E' in E; simplify_eq.
  split_and!.
  - intros va Hva. rewrite (v2p_xlate _ _ _ _ R' W'). unfold xlate.
    rewrite Hw, decide_True by done. cbn. unfold resolve. cbn [fst snd].
    destruct Hb. by rewrite leaf_addr_leaf_pte.
  - intros va Hva. eexists. rewrite (v2p_xlate _ _ _ _ R W), (v2p_xlate _ _ _ _ R' W').
    unfold xlate. by rewrite Hw, decide_False.
  - by exists h'.
Qed.

(** A mapping without any of R, W, X is refused before memory is
    touched. *)
Theorem map_refuses_pointer_flags s root vaddr paddr bits level :
  Z.land bits RWX = 0 → map root vaddr paddr bits level s = Panic PAssert.
Proof. intros E. unfold map, mbind, M_bind. by rewrite E. Qed.

(** C25. [id_map_range] maps every byte of the range to itself with the
    given flags, and leaves every other translation alone. *)
Theorem id_map_range_identity s h root start end_ bits s' :
  fa_rep s h → pt_wf (fa_ram s) root h → small_pages (fa_ram s) root →
  0 <= start → end_ <= 2 ^ 39 → start mod PAGE_SIZE = 0 → end_ mod PAGE_SIZE = 0 →
  flags_ok bits → id_map_range root start end_ bits s = Done (tt, s') →
  ∀ va, 0 <= va < 2 ^ 39 →
    if decide (start <= va < end_)
    then v2p root va s' = Done (Some va, s') ∧
         ∃ e, walk (fa_ram s') root va = Some (0%nat, e) ∧
              ∀ f, 0 <= f < 2 ^ 10 → Z.land e f = Z.land (Z.lor bits VALID) f
    else ∃ r, v2p root va s = Done (r, s) ∧ v2p root va s' = Done (r, s').
Proof.
  intros R W Hsm H0s He Hs1 Hs2 Hb E va Hva.
  destruct (id_map_range_spec s h root start end_ bits R W Hsm H0s He Hs1 Hs2 Hb)
    as [E'|(s1 & h' & E' & R' & W' & _ & _ & Hw)]; rewrite E' in E; simplify_eq.
  specialize (Hw va Hva). rewrite (v2p_xlate _ _ _ _ R' W'). unfold xlate.
  assert (Hpg : 0 <= page_of va < 2 ^ 56) by (unfold page_of; rewrite PAGE_SIZE_val; dlia).
  destruct Hb as [Hb _]. case_decide; rewrite Hw.
  - split.
    + cbn. unfold resolve. cbn [fst snd]. rewrite leaf_addr_leaf_pte by done.
      unfold page_of. rewrite PAGE_SIZE_val. change (2 ^ (12 + 9 * Z.of_nat 0)) with 4096.
      do 3 f_equal. dlia.
    + eexists. split; [done|]. intros f Hf. by apply leaf_pte_flags.
  - eexists. by rewrite (v2p_xlate _ _ _ _ R W).
Qed.

(** C14. [unmap] returns every table below the root to the allocator and
    nothing else; afterwards only the 1 GiB leaves of the root translate. *)
Theorem unmap_frees_every_table s h root :
  fa_rep s h → pt_wf (fa_ram s) root h →
  (∀ P t, path_ok P → P ≠ [] → tab (fa_ram s) root P = Some t → t < fa_end) →
  ∃ s' h', unmap root s = Done (tt, s') ∧ fa_rep s' h' ∧
    (∀ P t, path_ok P → P ≠ [] → tab (fa_ram s) root P = Some t → h' !! t = None) ∧
    (∀ p n, h !! p = Some n →
       (∀ P, path_ok P → P ≠ [] → tab (fa_ram s) root P ≠ Some p) → h' !! p = Some n) ∧
    (∀ va, walk (fa_ram s') root va =
       match walk (fa_ram s) root va with
       | Some (2%nat, e) => Some (2%nat, e)
       | _ => None
       end).
Proof.
  intros R W Hend. destruct (unmap_spec s h root R W Hend) as (s' & E & R' & Hw).
  exists s', (deletes (all_tables (fa_ram s) root) h). split_and!; [done|done|..].
  - intros P t HP Hne Ht. rewrite lookup_deletes, decide_True; [done|].
    by apply tab_all_tables with P.
  - intros p n Hp Hnt. rewrite lookup_deletes, decide_False; [done|].
    intros (P & Hne & HP & Ht)%elem_of_all_tables. by apply (Hnt P).
  - intros va. rewrite walk_no_branch.
    + rewrite Hw by (apply vpn_idx_ok; lia). by rewrite walk_root_slot.
    + intros j Hj. rewrite Hw by done. apply wipe_no_branch.
Qed.

(** C38. Finding: [map] walks through an existing large-page leaf as if it
    were a pointer.  Mapping at level 1 below a 1 GiB leaf overwrites a word
    of the frame the leaf maps, and the address keeps its old translation. *)
Theorem map_below_large_page_writes_into_frame s h root vaddr paddr bits e :
  fa_rep s h → pt_wf (fa_ram s) root h → flags_ok bits →
  word_at (fa_ram s) (root + 8 * nth 2 (vpns vaddr) 0) = e →
  is_valid e = true → is_leaf e = true → 0 < pte_to_addr e →
  let a := pte_to_addr e + 8 * nth 1 (vpns vaddr) 0 in
  a ≠ root + 8 * nth 2 (vpns vaddr) 0 →
  ∃ s', map root vaddr paddr bits 1 s = Done (tt, s') ∧
    word_at (fa_ram s') a = leaf_pte paddr bits ∧
    walk (fa_ram s) root vaddr = Some (2%nat, e) ∧
    walk (fa_ram s') root vaddr = Some (2%nat, e).
Proof.
  intros R W [Hb Hr] He Hv Hl Ha a Hne. unfold map.
  rewrite bind_done with (a := tt) (s' := s)
    by (apply assert_true, negb_true_iff, Z.eqb_neq; done).
  destruct (vpns_bound vaddr 1) as [? _]; [lia|].
  assert (Hwalk : map_walk (vpns vaddr) (root + 8 * nth 2 (vpns vaddr) 0)
                           (rev (seq 1 (2 - 1))) s = Done (a, s)).
  { cbn [Nat.sub seq rev app map_walk].
    rewrite (bind_done _ _ s tt s); [|unfold ensure_table;
      rewrite (bind_done _ _ _ _ _ (load_done _ _)), He; unfold is_invalid; by rewrite Hv].
    rewrite (bind_done _ _ _ _ _ (load_done _ _)), He. cbv zeta. fold a.
    by rewrite (proj2 (Z.eqb_neq a 0)) by lia. }
  rewrite (bind_done _ _ _ _ _ Hwalk), store_done. eexists. split; [done|].
  rewrite fa_ram_set, !walk_root_slot_leaf.
  - rewrite !word_at_insert, decide_True, decide_False by done. by rewrite He.
  - by rewrite word_at_insert, decide_False, He.
  - by rewrite word_at_insert, decide_False, He.
  - by rewrite He.
  - by rewrite He.
Qed.
End properties.

(** ** Witnesses on the sixteen-page heap *)

Module ToyTables.
Import Toy.

(** A zeroed root table on the first data page. *)
Definition root0 : frames := set_descs (mark_run 0 1 (descs heap)) heap.

Lemma rw_ok : flags_ok (bitor READ WRITE).
Proof. by split. Qed.
Lemma rwx_ok : flags_ok RWX.
Proof. by split. Qed.
Lemma read_ok : flags_ok READ.
Proof. by split. Qed.

(** The descriptor table a run leaves, if it returns. *)
Definition descs_after (m : M frames unit) : option (list Z) :=
  match m root0 with Done (_, s) => Some (descs s) | _ => None end.

Lemma descs_after_done m l :
  descs_after m = Some l → ∃ s, m root0 = Done (tt, s) ∧ descs s = l.
Proof.
  unfold descs_after. destruct (m root0) as [[[] s]| | |]; intros; simplify_eq. by exists s.
Qed.

Lemma root0_rep : rep root0 {[base := 1]}.
Proof.
  destruct (allocate_spec _ _ 1 (fresh_rep ∅)) as [[E _]|(i & E & _ & _ & _ & R)];
    [done|done|]. assert (E' : allocate 1 heap = Done (Some base, root0)) by by vm_compute.
  assert (Hb : page_addr i = base) by (unfold heap in E'; congruence).
  change base with (page_addr 0) in Hb. apply (inj page_addr) in Hb as ->. exact R.
Qed.

Lemma root0_wf : pt_wf (ram root0) base {[base := 1]} ∧ small_pages (ram root0) base.
Proof. destruct (pt_wf_empty (ram root0) base {[base := 1]}) as (? & ? & _); done. Qed.

Lemma root0_mappable va level : (level < 3)%nat → mappable (ram root0) base va level.
Proof.
  intros Hl. split.
  - intros i Hi. apply root0_wf; [apply vpn_path_ok|apply vpn_idx_ok; lia|].
    rewrite length_drop. cbn. lia.
  - intros e He. unfold ent in He.
    destruct (tab _ _ _) as [t|] eqn:E; [|done]. cbn in He. by simplify_eq.
Qed.

Lemma map_root0_wf vaddr paddr bits level s :
  (level < 3)%nat → 0 <= paddr < 2 ^ 56 → flags_ok bits →
  map base vaddr paddr bits level root0 = Done (tt, s) →
  ∃ h, fa_rep s h ∧ pt_wf (fa_ram s) base h.
Proof.
  intros Hl Hp Hb E.
  destruct (map_spec root0 {[base := 1]} base vaddr paddr bits level)
    as [[E' _]|(s' & h' & E' & R' & W' & _)];
    [apply root0_rep|apply root0_wf|done|done|done|by apply root0_mappable|congruence|].
  rewrite E' in E. simplify_eq. by exists h'.
Qed.

(** Live pages are among the taken descriptors. *)
Lemma live_taken s h p n l k :
  rep s h → h !! p = Some n → descs s = l ++ replicate k 0 →
  p < base + Z.of_nat (length l) * PAGE_SIZE.
Proof.
  intros (_ & _ & runs & R & ->) Hl Hz. rewrite Hz in R.
  apply held_lookup_Some in Hl as (i & j & -> & Hk & Hr).
  destruct (tr_fits _ _ R _ _ Hr).
  pose proof (tr_taken _ _ R _ _ i Hr ltac:(lia)) as Hd.
  assert (i < length l)%nat.
  { destruct (decide (i < length l)%nat) as [|Hge]; [done|]. exfalso.
    rewrite lookup_app_r in Hd by lia.
    apply lookup_replicate in Hd as [Hd _]. by case_decide. }
  unfold page_addr. change first_page with base. rewrite PAGE_SIZE_val. lia.
Qed.
End ToyTables.

Section witnesses.
Import Toy ToyTables.

Lemma map_v2p_witness :
  let size := 2 ^ (12 + 9 * Z.of_nat 0) in
  ∃ s', map base 0x40201000 0x12345000 (bitor READ WRITE) 0 root0 = Done (tt, s') ∧
  (∀ va, drop 0 (vpns va) = drop 0 (vpns 0x40201000) →
     v2p base va s' = Done (Some (0x12345000 - 0x12345000 mod size + va mod size), s')) ∧
  (∀ va, drop 0 (vpns va) ≠ drop 0 (vpns 0x40201000) →
     ∃ r, v2p base va root0 = Done (r, root0) ∧ v2p base va s' = Done (r, s')) ∧
  ∃ h', fa_rep s' h' ∧ pt_wf (fa_ram s') base h' ∧ {[base := 1]} ⊆ h'.
Proof.
  destruct (descs_after_done (map base 0x40201000 0x12345000 (bitor READ WRITE) 0)
    ([3; 3; 3] ++ replicate 13 0)) as (s' & E & _); [vm_compute; reflexivity|].
  exists s'. split; [exact E|].
  apply (map_v2p root0 {[base := 1]} base 0x40201000 0x12345000 (bitor READ WRITE) 0 s').
  - apply root0_rep.
  - apply root0_wf.
  - lia.
  - lia.
  - apply rw_ok.
  - apply root0_mappable. lia.
  - exact E.
Defined.

Lemma map_refuses_pointer_flags_witness :
  map base 0x1000 0x1000 (bitor USER ACCESSED) 0 root0 = Panic PAssert.
Proof. by apply map_refuses_pointer_flags. Defined.

Lemma id_map_range_identity_witness :
  ∃ s', id_map_range base 0x80000000 0x80002000 RWX root0 = Done (tt, s') ∧
  v2p base 0x80001234 s' = Done (Some 0x80001234, s') ∧
  ∃ e, walk (fa_ram s') base 0x80001234 = Some (0%nat, e) ∧
       ∀ f, 0 <= f < 2 ^ 10 → Z.land e f = Z.land (Z.lor RWX VALID) f.
Proof.
  destruct (descs_after_done (id_map_range base 0x80000000 0x80002000 RWX)
    ([3; 3; 3] ++ replicate 13 0)) as (s' & E & _); [vm_compute; reflexivity|].
  exists s'. split; [exact E|].
  apply (id_map_range_identity root0 {[base := 1]} base 0x80000000 0x80002000 RWX s')
    with (va := 0x80001234).
  - apply root0_rep.
  - apply root0_wf.
  - apply root0_wf.
  - lia.
  - lia.
  - reflexivity.
  - reflexivity.
  - apply rwx_ok.
  - exact E.
  - lia.
Defined.

Lemma unmap_frees_every_table_witness :
  ∃ s (h : gmap Z Z) s' h', map base 0x40201000 0x12345000 (bitor READ WRITE) 0 root0 = Done (tt, s) ∧
    unmap base s = Done (tt, s') ∧ fa_rep s' h' ∧
    (∀ P t, path_ok P → P ≠ [] → tab (fa_ram s) base P = Some t → h' !! t = None) ∧
    (∀ p n, h !! p = Some n →
       (∀ P, path_ok P → P ≠ [] → tab (fa_ram s) base P ≠ Some p) → h' !! p = Some n) ∧
    (∀ va, walk (fa_ram s') base va =
       match walk (fa_ram s) base va with
       | Some (2%nat, e) => Some (2%nat, e)
       | _ => None
       end).
Proof.
  destruct (descs_after_done (map base 0x40201000 0x12345000 (bitor READ WRITE) 0)
    ([3; 3; 3] ++ replicate 13 0)) as (s & E & Hd); [vm_compute; reflexivity|].
  destruct (map_root0_wf 0x40201000 0x12345000 (bitor READ WRITE) 0 s) as (h & R & W);
    [lia|lia|apply rw_ok|exact E|].
  destruct (unmap_frees_every_table s h base R W) as (s' & h' & Hu).
  - intros P t HP _ Ht. pose proof (wf_live _ _ _ W _ _ HP Ht) as Hl.
    pose proof (live_taken _ _ _ _ _ _ R Hl Hd) as Hlt. rewrite PAGE_SIZE_val in Hlt.
    unfold base in Hlt. cbn [app length replicate] in Hlt. change (t < 0x80090000). lia.
  - exists s, h, s', h'. split; [exact E|exact Hu].
Defined.

Lemma map_below_large_page_writes_into_frame_witness :
  let e := leaf_pte 0x80000000 RWX in
  ∃ s s', map base 0x80000000 0x80000000 RWX 2 root0 = Done (tt, s) ∧
    map base 0x80000000 0x1000 READ 1 s = Done (tt, s') ∧
    word_at (fa_ram s') (pte_to_addr e + 8 * nth 1 (vpns 0x80000000) 0) = leaf_pte 0x1000 READ ∧
    walk (fa_ram s) base 0x80000000 = Some (2%nat, e) ∧
    walk (fa_ram s') base 0x80000000 = Some (2%nat, e).
Proof.
  intros e.
  set (s := set_ram {[base + 16 := e]} root0).
  assert (E : map base 0x80000000 0x80000000 RWX 2 root0 = Done (tt, s))
    by (vm_compute; reflexivity).
  destruct (map_root0_wf 0x80000000 0x80000000 RWX 2 s) as (h & R & W);
    [lia|lia|apply rwx_ok|exact E|].
  destruct (map_below_large_page_writes_into_frame s h base 0x80000000 0x1000 READ e)
    as (s' & Hs'); [exact R|exact W|apply read_ok|reflexivity|reflexivity|reflexivity|reflexivity|vm_compute; discriminate|].
  exists s, s'. split; [exact E|exact Hs'].
Defined.
End witnesses.
