(* ===== verification/Sv39Room.v ===== *)
(** * How much memory mapping needs

    Mapping pages allocates a table only where one is missing.  Given the
    list of all tables a set of mappings can need, as many free pages as are
    still missing from it are enough for every mapping of the set to succeed,
    and the balance is kept by each of them; for one mapping, the tables
    missing on its path decide. *)

From S2P Require Import Prelude Linker Frames PageFrame Sv39 Sv39Props.

(** Counting the elements of a list that satisfy a property. *)
Lemma filter_length_one {A} (P Q : A → Prop) `{!∀ x, Decision (P x), !∀ x, Decision (Q x)} l a :
  NoDup l → a ∈ l → P a → ¬ Q a → (∀ x, x ∈ l → x ≠ a → P x ↔ Q x) →
  length (filter P l) = S (length (filter Q l)).
Proof.
  induction l as [|x l IH]; intros Hnd Ha HP HQ Hrest; [by apply not_elem_of_nil in Ha|].
  apply list.NoDup_cons in Hnd as [Hx Hnd]. rewrite !list.filter_cons.
  apply elem_of_cons in Ha as [<-|Ha].
  - rewrite decide_True, decide_False by done. cbn. f_equal. f_equal. apply filter_agree.
    intros y Hy. apply Hrest; [by right|]. intros ->. done.
  - assert (Hxa : x ≠ a) by (intros ->; done).
    assert (Hiff : P x ↔ Q x) by (apply Hrest; [by left|done]).
    assert (IH' : length (filter P l) = S (length (filter Q l)))
      by (apply IH; try done; intros y Hy; apply Hrest; by right).
    repeat case_decide; cbn [length]; tauto || congruence.
Qed.

Section budget.
Context {St : Type} `{FrameAllocatorLaws St} (root : Z) (L : list (list Z)) (extra : nat).
Context (HLnd : NoDup L) (HLok : Forall path_ok L).
Implicit Types (s : St) (h m : gmap Z Z).

Definition missing m : nat := length (filter (λ P, tab m root P = None) L).
(** Room for the missing tables and [extra] pages besides. *)
Definition budget s : Prop := fa_room s (missing (fa_ram s) + extra).

Lemma missing_ext m m' :
  (∀ P, path_ok P → tab m' root P = tab m root P) → missing m' = missing m.
Proof.
  intros Hm. unfold missing. f_equal. apply filter_agree. intros P HP. rewrite Hm; [done|].
  by apply (proj1 (list.Forall_forall _ _) HLok).
Qed.

Lemma missing_link m m' Q z :
  Q ∈ L → tab m root Q = None →
  (∀ P, path_ok P → tab m' root P = if decide (P = Q) then Some z else tab m root P) →
  missing m = S (missing m').
Proof.
  intros HQ HN Hm. unfold missing.
  assert (Hm' : ∀ P, P ∈ L → tab m' root P = if decide (P = Q) then Some z else tab m root P).
  { intros P HP. apply Hm. by apply (proj1 (list.Forall_forall _ _) HLok). }
  apply (filter_length_one _ _ L Q); try done.
  - rewrite Hm', decide_True by done. done.
  - intros P HP Hne. by rewrite Hm', decide_False by done.
Qed.

Lemma ensure_table_budget s h vaddr i t :
  fa_rep s h → pt_wf (fa_ram s) root h → (0 < i < 3)%nat →
  tab (fa_ram s) root (drop (S i) (vpns vaddr)) = Some t →
  budget s → drop i (vpns vaddr) ∈ L →
  ∃ s', ensure_table (t + 8 * nth i (vpns vaddr) 0) s = Done (tt, s') ∧ budget s'.
Proof.
  intros R W Hi Ht Hbud HL. unfold ensure_table.
  rewrite (bind_done _ _ _ _ _ (load_done _ _)). rewrite vpn_path_cons in HL by lia.
  destruct (is_invalid _) eqn:Hv; unfold is_invalid in Hv; [|by exists s].
  apply negb_true_iff in Hv. set (Q := nth i (vpns vaddr) 0 :: _) in *.
  assert (Hnone : tab (fa_ram s) root Q = None).
  { unfold Q. cbn [tab]. rewrite Ht. cbn. by apply branch_of_invalid. }
  assert (Hroom : ∃ n, missing (fa_ram s) = S n).
  { unfold missing. destruct (filter _ L) as [|x l] eqn:E; [|by eexists].
    exfalso. assert (HQ : Q ∈ filter (λ P, tab (fa_ram s) root P = None) L)
      by (apply list_elem_of_filter; done). rewrite E in HQ. by apply not_elem_of_nil in HQ. }
  destruct Hroom as [n Hn]. unfold budget in Hbud. rewrite Hn in Hbud.
  destruct (fa_zallocate_room s h (n + extra) R Hbud) as (z & s1 & E & _ & Hr1).
  destruct (fa_zallocate_spec s h 1 R) as [E'|(z' & s1' & E' & Hz & R1 & Hw)]; [lia|congruence|].
  rewrite E in E'. injection E' as <- <-.
  rewrite (bind_done _ _ _ _ _ E). cbn [unwrap]. rewrite bind_ret, store_done.
  eexists. split; [reflexivity|]. unfold budget. rewrite fa_ram_set. apply fa_room_set.
  destruct (zallocate_agree _ _ _ _ _ R W Hz R1 Hw) as [Ha Hft].
  enough (HS : missing (fa_ram s) = S (missing (<[t + 8 * nth i (vpns vaddr) 0 := table_pte z]> (fa_ram s1))))
    by (eapply fa_room_le; [exact Hr1|lia]).
  apply (missing_link _ _ Q z); [done|done|]. intros P HP.
  assert (HP0 : path_ok (drop (S i) (vpns vaddr))) by apply vpn_path_ok.
  assert (Hidx : idx_ok (nth i (vpns vaddr) 0)) by (apply vpn_idx_ok; lia).
  assert (Hlen : (length (drop (S i) (vpns vaddr)) < 2)%nat) by (rewrite length_drop; cbn; lia).
  rewrite (tab_store_branch _ h root (drop (S i) (vpns vaddr)) _ _ _ (rep_pages_ok _ _ R)
    (pt_wf_agree _ _ _ _ Ha W) HP0 Hlen Hidx); try done.
  - fold Q. case_decide; [done|]. by apply tab_agree.
  - by rewrite (tab_agree (fa_ram s)).
  - by rewrite (Ha (drop (S i) (vpns vaddr)) t).
Qed.

Lemma map_walk_budget k level s h vaddr t :
  fa_rep s h → pt_wf (fa_ram s) root h → (level + k < 3)%nat →
  tab (fa_ram s) root (drop (S (level + k)) (vpns vaddr)) = Some t →
  (∀ i, (level < i <= level + k)%nat →
     no_leaf (fa_ram s) root (drop (S i) (vpns vaddr)) (nth i (vpns vaddr) 0)) →
  budget s → (∀ i, (level < i <= level + k)%nat → drop i (vpns vaddr) ∈ L) →
  ∃ r s', map_walk (vpns vaddr) (t + 8 * nth (level + k) (vpns vaddr) 0) (rev (seq level k)) s
    = Done (r, s') ∧ budget s'.
Proof.
  revert s h t. induction k as [|k IH]; intros s h t R W Hk Ht Hnl Hb HL.
  { rewrite Nat.add_0_r. by eexists _, s. }
  rewrite seq_S, rev_app_distr. cbn [rev app map_walk].
  destruct (ensure_table_budget s h vaddr (level + S k) t) as (s1' & E' & Hb1);
    [done|done|lia|done|done|apply HL; lia|].
  destruct (ensure_table_spec level s h root vaddr (level + S k) t)
    as [[E _]|(s1 & h1 & t1 & E & _ & W1 & Ht1 & Hp)]; [done|done|lia|done|apply Hnl; lia|congruence|].
  rewrite E in E'. injection E' as <-.
  rewrite (bind_done _ _ _ _ _ E), (bind_done _ _ _ _ _ (load_done _ _)), Hp.
  rewrite Nat.add_succ_r in Ht1. cbv zeta.
  destruct (wf_table _ _ _ _ _ (rep_pages_ok _ _ (wk_rep _ _ _ _ _ _ W1))
    (wk_wf _ _ _ _ _ _ W1) (vpn_path_ok _ _) Ht1).
  destruct (vpns_bound vaddr (level + k)); [lia|]. rewrite (proj2 (Z.eqb_neq _ _)) by lia.
  apply (IH s1 h1 t1); [apply W1|apply W1|lia|done| |done|].
  - intros i Hi. apply (wk_no_leaf _ _ _ _ _ _ W1);
      [apply vpn_path_ok|apply vpn_idx_ok; lia|apply Hnl; lia].
  - intros i Hi. apply HL. lia.
Qed.

(** One mapping. *)
Lemma map_budget s h va paddr bits level :
  fa_rep s h → pt_wf (fa_ram s) root h → (level < 3)%nat → mappable (fa_ram s) root va level →
  0 <= paddr < 2 ^ 56 → flags_ok bits → budget s →
  (∀ i, (level < i < 3)%nat → drop i (vpns va) ∈ L) →
  ∃ s', map root va paddr bits level s = Done (tt, s') ∧ budget s'.
Proof.
  intros R W Hl Hmap Hp [Hb Hr] Hbud HL. pose proof Hmap as [Hnl _].
  assert (Hroot : tab (fa_ram s) root (drop (S (level + (2 - level))) (vpns va)) = Some root)
    by (by replace (S (level + (2 - level))) with 3%nat by lia).
  destruct (map_walk_budget (2 - level) level s h va root) as (r & s1 & E & Hb1); try done;
    [lia|intros; apply Hnl; lia|intros; apply HL; lia|].
  destruct (map_walk_spec (2 - level) level s h root va root) as
    [[E' _]|(s1' & h1 & t & E' & _ & W1 & Ht)]; try done; [lia|intros; apply Hnl; lia|congruence|].
  rewrite E in E'. injection E' as -> <-. replace (level + (2 - level))%nat with 2%nat in E by lia.
  unfold map. rewrite bind_done with (a := tt) (s' := s)
    by (apply assert_true, negb_true_iff, Z.eqb_neq; done).
  rewrite (bind_done _ _ _ _ _ E), store_done. eexists. split; [done|].
  unfold budget. rewrite fa_ram_set. apply fa_room_set.
  rewrite (missing_ext (fa_ram s1)); [done|]. intros P _. apply tab_store_leaf.
  - by eapply (walked_target level); [exact W1|lia| |].
  - apply branch_of_leaf. by apply leaf_pte_spec.
Qed.

(** The tables of a page are in the list. *)
Definition listed (a : Z) : Prop := drop 1 (vpns a) ∈ L ∧ drop 2 (vpns a) ∈ L.

Lemma id_map_range_budget s h start end_ bits :
  fa_rep s h → pt_wf (fa_ram s) root h → small_pages (fa_ram s) root →
  0 <= start → end_ <= 2 ^ 39 → start mod PAGE_SIZE = 0 → end_ mod PAGE_SIZE = 0 →
  flags_ok bits → budget s →
  (∀ a, a mod PAGE_SIZE = 0 → start <= a < end_ → listed a) →
  ∃ s', id_map_range root start end_ bits s = Done (tt, s') ∧ budget s'.
Proof.
  intros R W Hsm Hs0 Hend Hs He Hb Hbud HL. unfold id_map_range.
  rewrite (bind_done _ _ s tt s) by (by apply assert_true, Z.eqb_eq).
  rewrite (bind_done _ _ s tt s) by (by apply assert_true, Z.eqb_eq).
  set (l := page_range start end_).
  destruct (for_each_inv (λ addr, map root addr addr bits 0)
    (λ rest s', ∃ d h', l = d ++ rest ∧ id_mapped root bits s h d s' h' ∧ budget s') l s)
    as (s' & E & d & h' & _ & _ & Hb'); [| |by exists s'].
  - exists [], h. split_and!; try done.
  - intros a rest s1 (d & h1 & Hl & Hm & Hb1).
    assert (Ha : a ∈ l) by (rewrite Hl, elem_of_app; right; constructor).
    pose proof (page_range_aligned _ _ _ Hs Ha) as Ham.
    apply elem_of_page_range in Ha; [|done..].
    destruct (HL a Ham Ha) as [HL1 HL2].
    destruct (map_budget s1 h1 a a bits 0) as (s2' & E' & Hb2);
      [apply Hm|apply Hm|lia|eapply small_pages_mappable; apply Hm|lia|done|done| |].
    { intros i Hi. assert (i = 1 ∨ i = 2)%nat as [-> | ->] by lia; done. }
    destruct (id_map_step _ _ _ _ _ _ _ a Hm Hb) as [E|(s2 & h2 & E & Hm2)]; [lia|done|congruence|].
    rewrite E in E'. injection E' as <-. exists s2. split; [done|].
    exists (d ++ [a]), h2. rewrite <- app_assoc. done.
Qed.

End budget.

(** ** What one mapping takes *)

(** The tables below the root on the way to level [level], named by the
    indices that lead to them, outermost first. *)
Definition tables_on_path (vaddr : Z) (level : nat) : list (list Z) :=
  (λ i, drop i (vpns vaddr)) <$> seq (S level) (2 - level).

Lemma tables_on_path_ok vaddr level :
  NoDup (tables_on_path vaddr level) ∧ Forall path_ok (tables_on_path vaddr level).
Proof.
  split.
  - apply NoDup_fmap_2_strong; [|apply NoDup_seq]. intros i j Hi Hj E.
    apply (f_equal length) in E. apply elem_of_seq in Hi, Hj. rewrite !length_drop in E.
    assert (Hlen : length (vpns vaddr) = 3%nat) by done. rewrite Hlen in E. lia.
  - apply list.Forall_forall. intros P HP. apply list_elem_of_fmap in HP as (i & HPi & Hi).
    apply elem_of_seq in Hi. destruct i as [|i]; [lia|]. rewrite HPi. apply vpn_path_ok.
Qed.

Section total.
Context {St : Type} `{FrameAllocatorLaws St}.

(** C26. [map] takes exactly the frames it lacks: on well-formed tables, with
    one free frame for each table missing on the path, it returns, and
    whatever room there was beyond those frames is left; it can fail only by
    running out of frames (the panic of [expect] on the allocation), and only
    when there are fewer than that. *)
Theorem map_total s h root vaddr paddr bits level :
  fa_rep s h → pt_wf (fa_ram s) root h → (level < 3)%nat →
  0 <= paddr < 2 ^ 56 → flags_ok bits → mappable (fa_ram s) root vaddr level →
  let n := missing root (tables_on_path vaddr level) (fa_ram s) in
  (∀ extra, fa_room s (n + extra) →
     ∃ s', map root vaddr paddr bits level s = Done (tt, s') ∧ fa_room s' extra) ∧
  (map root vaddr paddr bits level s = Panic PUnwrap ∧ ¬ fa_room s n ∨
   ∃ s', map root vaddr paddr bits level s = Done (tt, s')).
Proof.
  intros R W Hl Hp Hb Hm n. destruct (tables_on_path_ok vaddr level) as [Hnd Hok].
  assert (Hall : ∀ extra, fa_room s (n + extra) →
    ∃ s', map root vaddr paddr bits level s = Done (tt, s') ∧ fa_room s' extra).
  { intros extra Hroom.
    destruct (map_budget root (tables_on_path vaddr level) extra Hnd Hok s h vaddr paddr bits level)
      as (s' & E & Hr); try done.
    - intros i Hi. apply list_elem_of_fmap. exists i. split; [done|]. apply elem_of_seq. lia.
    - exists s'. split; [done|]. eapply fa_room_le; [exact Hr|lia]. }
  split; [done|].
  destruct (map_spec s h root vaddr paddr bits level R W Hl Hp Hb Hm) as [[E _]|(s1 & h' & E & _)]; [left|eauto].
  split; [done|]. intros Hroom. destruct (Hall 0%nat) as (s' & E' & _); [by rewrite Nat.add_0_r|congruence].
Qed.
End total.

Section witnesses.
Import Toy ToyTables.

(** Two tables are missing below a fresh root; of three free frames one is
    left. *)
Lemma map_total_witness :
  missing base (tables_on_path 0x40201000 0) (fa_ram root0) = 2%nat ∧
  ∃ s', map base 0x40201000 0x12345000 (bitor READ WRITE) 0 root0 = Done (tt, s') ∧ fa_room s' 1.
Proof.
  assert (Hn : missing base (tables_on_path 0x40201000 0) (fa_ram root0) = 2%nat) by reflexivity.
  split; [exact Hn|].
  apply (map_total root0 {[base := 1]} base 0x40201000 0x12345000 (bitor READ WRITE) 0).
  - apply root0_rep.
  - apply root0_wf.
  - lia.
  - lia.
  - apply rw_ok.
  - apply root0_mappable. lia.
  - rewrite Hn. cbv. lia.
Defined.
End witnesses.
