(* ===== verification/BlockDev.v ===== *)
(** * The block-device interface

    The contract between the VirtIO block driver
    ([src/src/drivers/virtio/device.rs], [block_read]) and its client, the
    Minix 3 reader: a successful read fills the caller's buffer with the
    bytes of the disk, and touches no other memory the client owns. *)

From S2P Require Import Prelude Frames Bytes.

Class BlockReader (S : Type) := {
  (** [block_read(dev, buffer, size, offset)] *)
  bd_read : Z → Z → Z → Z → M S bool }.

(** Addresses inside the run of [n] pages at [p]. *)
Definition in_run (p n a : Z) : Prop := p <= a < p + n * PAGE_SIZE.

(** Memory of the live runs of [h] outside the driver's [d], other than the
    one at [buf], is kept. *)
Definition kept (h d : gmap Z Z) (buf : Z) (m m' : gmap Z Z) : Prop :=
  ∀ p n a, h !! p = Some n → d !! p = None → p ≠ buf → in_run p n a →
    byte_at m' a = byte_at m a.

Class BlockReaderLaws (S : Type) `{FrameAllocatorLaws S} `{!BlockReader S} := {
  (** The image behind device [dev], and which transfers it serves. *)
  bd_disk : Z → Z → Z;
  bd_readable : Z → Z → Z → bool;
  bd_disk_byte dev : byteful (bd_disk dev);
  (** The driver is idle and [d] are the runs it owns (its queues). *)
  bd_own : S → gmap Z Z → Prop;
  bd_own_allocate s h d n r s' :
    fa_rep s h → bd_own s d → d ⊆ h → 0 < n →
    fa_allocate n s = Done (r, s') → bd_own s' d;
  bd_own_deallocate s h d p n s' :
    fa_rep s h → bd_own s d → d ⊆ h → h !! p = Some n → p < fa_end → d !! p = None →
    fa_deallocate p s = Done (tt, s') → bd_own s' d;
  (** A client writing its own memory does not disturb the driver. *)
  bd_own_store s d m' :
    bd_own s d →
    (∀ p n a, d !! p = Some n → in_run p n a → byte_at m' a = byte_at (fa_ram s) a) →
    bd_own (fa_set_ram m' s) d;
  (** A transfer of whole sectors into a page of the caller's. *)
  bd_read_spec s h d dev buf size off :
    fa_rep s h → bd_own s d → d ⊆ h → fa_room s 1 →
    h !! buf = Some 1 → d !! buf = None →
    0 < size <= PAGE_SIZE → (512 | size) → (512 | off) → 0 <= off →
    off + size <= 2 ^ 43 →
    ∃ s', bd_read dev buf size off s = Done (bd_readable dev off size, s') ∧
      fa_rep s' h ∧ bd_own s' d ∧ (∀ n, fa_room s n → fa_room s' n) ∧
      kept h d buf (fa_ram s) (fa_ram s') ∧
      (bd_readable dev off size = true →
       ∀ i, 0 <= i < size → byte_at (fa_ram s') (buf + i) = bd_disk dev (off + i)) }.
