(* ===== verification/Minix3.v ===== *)
(** * The Minix 3 reader: [src/src/fs/minix3]

    Superblock, inodes, directory entries and [Fs::read_file] with its four
    levels of indirection, written against the frame allocator and the block
    device.  A Rust function that owns [blocks::Buffer]s runs inside
    [with_buffer], which gives the page back on every return.  The mutable
    locals of [read_file] are the record [cursor]; the closure [copy_zone]
    and the loops over zone pointers thread it, and [flow] says how a
    fragment ended: falling through, [return Ok(written)] or [?] on an
    error. *)

From S2P Require Import Prelude Frames Bytes BlockDev.

(** ** [consts.rs], [error.rs] *)

Definition BLOCK_SIZE : Z := 1024.
Definition MAGIC : Z := 0x4d5a.
Definition ROOT_INODE : Z := 1.
Definition NUM_DIRECT_ZONES : nat := 7.
Definition INDIRECT_PTRS_PER_BLOCK : nat := Z.to_nat (BLOCK_SIZE / 4).
Definition MAX_NAME_LEN : nat := 60.
Definition DIRENT_SIZE : Z := 64.

Inductive FsError : Type :=
| BadMagic | BlockReadFailed | OutOfMemory | InodeOutOfRange | BufferTooSmall.

#[global] Instance FsError_eq_dec : EqDecision FsError.
Proof. solve_decision. Defined.

(** ** [super_block.rs], [inode.rs], [dir_entry.rs]

    The [repr(C)] layouts, as decoders of a source of bytes. *)

Record SuperBlock : Type := {
  ninodes : Z; imap_blocks : Z; zmap_blocks : Z; first_data_zone : Z;
  log_zone_size : Z; max_size : Z; zones_total : Z; magic : Z;
  block_size : Z; disk_version : Z }.

Definition super_block_at (f : Z → Z) (a : Z) : SuperBlock := {|
  ninodes := u32_at f a;
  imap_blocks := u16_at f (a + 6);
  zmap_blocks := u16_at f (a + 8);
  first_data_zone := u16_at f (a + 10);
  log_zone_size := u16_at f (a + 12);
  max_size := u32_at f (a + 16);
  zones_total := u32_at f (a + 20);
  magic := u16_at f (a + 24);
  block_size := u16_at f (a + 28);
  disk_version := u8_at f (a + 30) |}.

Definition TYPE_MASK : Z := 0xf000.
Definition REGULAR : Z := 0x8000.
Definition DIRECTORY : Z := 0x4000.

Record Inode : Type := {
  mode : Z; nlinks : Z; uid : Z; gid : Z; size : Z;
  atime : Z; mtime : Z; ctime : Z; zones : list Z }.

Definition INODE_SIZE : Z := 64.

Definition inode_at (f : Z → Z) (a : Z) : Inode := {|
  mode := u16_at f a;
  nlinks := u16_at f (a + 2);
  uid := u16_at f (a + 4);
  gid := u16_at f (a + 6);
  size := u32_at f (a + 8);
  atime := u32_at f (a + 12);
  mtime := u32_at f (a + 16);
  ctime := u32_at f (a + 20);
  zones := (λ i : nat, u32_at f (a + 24 + 4 * Z.of_nat i)) <$> seq 0 10 |}.

Definition is_dir (i : Inode) : bool := Z.land (mode i) TYPE_MASK =? DIRECTORY.
Definition is_regular (i : Inode) : bool := Z.land (mode i) TYPE_MASK =? REGULAR.

Record DirEntry : Type := { d_inode : Z; d_name : list Z }.

Definition dir_entry_at (f : Z → Z) (a : Z) : DirEntry := {|
  d_inode := u32_at f a;
  d_name := bytes_from f (a + 4) MAX_NAME_LEN |}.

(** [iter().position(|b| *b == 0).unwrap_or(len)] *)
Fixpoint nul_position (l : list Z) : nat :=
  match l with
  | [] => 0
  | b :: l' => if b =? 0 then 0 else S (nul_position l')
  end.

(** [core::str::from_utf8]: one well-formed sequence (Unicode, table 3-7),
    the number of bytes it takes. *)
Definition cont (b : Z) : bool := (0x80 <=? b) && (b <=? 0xbf).
Definition between (lo b hi : Z) : bool := (lo <=? b) && (b <=? hi).

Definition utf8_seq (l : list Z) : option (list Z) :=
  match l with
  | b0 :: l1 =>
      if b0 <? 0x80 then Some l1 else
      match l1 with
      | b1 :: l2 =>
          if between 0xc2 b0 0xdf && cont b1 then Some l2 else
          match l2 with
          | b2 :: l3 =>
              if ((b0 =? 0xe0) && between 0xa0 b1 0xbf ||
                  between 0xe1 b0 0xec && cont b1 ||
                  (b0 =? 0xed) && between 0x80 b1 0x9f ||
                  between 0xee b0 0xef && cont b1) && cont b2
              then Some l3 else
              match l3 with
              | b3 :: l4 =>
                  if ((b0 =? 0xf0) && between 0x90 b1 0xbf ||
                      between 0xf1 b0 0xf3 && cont b1 ||
                      (b0 =? 0xf4) && between 0x80 b1 0x8f) && cont b2 && cont b3
                  then Some l4 else None
              | [] => None
              end
          | [] => None
          end
      | [] => None
      end
  | [] => None
  end.

Fixpoint utf8_fuel (fuel : nat) (l : list Z) : bool :=
  match l, fuel with
  | [], _ => true
  | _, O => false
  | _, S fuel' => match utf8_seq l with Some l' => utf8_fuel fuel' l' | None => false end
  end.
Definition from_utf8 (l : list Z) : option (list Z) :=
  if utf8_fuel (length l) l then Some l else None.

(** ["<bad utf8>"] *)
Definition BAD_UTF8 : list Z := [60; 98; 97; 100; 32; 117; 116; 102; 56; 62].

Definition name_str (e : DirEntry) : list Z :=
  let len := nul_position (d_name e) in
  default BAD_UTF8 (from_utf8 (take len (d_name e))).

(** ** [blocks.rs], [fs.rs] *)

Section fs.
Context `{Profile} {St : Type} `{FrameAllocator St} `{!BlockReader St}.

Definition div_ceil (a b : Z) : Z := (a + b - 1) / b.

(** [Buffer::new] ... [Drop]: the buffer lives as long as [body] runs. *)
Definition buffer_pages (bytes : Z) : Z := Z.max (div_ceil bytes PAGE_SIZE) 1.

Definition with_buffer {A} (bytes : Z) (oom : A) (body : Z → M St A) : M St A :=
  o ← fa_allocate (buffer_pages bytes);
  match o with
  | None => mret oom
  | Some p => a ← body p; fa_deallocate p;; mret a
  end.

Definition memory : M St (Z → Z) := gets (λ s, byte_at (fa_ram s)).

Record Fs : Type := { dev : Z; sb : SuperBlock }.

Definition mount (d : Z) : M St (result Fs FsError) :=
  with_buffer BLOCK_SIZE (Err OutOfMemory) (λ buf,
    ok ← bd_read d buf BLOCK_SIZE BLOCK_SIZE;
    if negb ok then mret (Err BlockReadFailed) else
    f ← memory;
    let sb := super_block_at f buf in
    if negb (magic sb =? MAGIC) then mret (Err BadMagic)
    else mret (Ok {| dev := d; sb := sb |})).

Definition inode_table_offset (fs : Fs) : Z :=
  let blocks_before := 2 + imap_blocks (sb fs) + zmap_blocks (sb fs) in
  blocks_before * BLOCK_SIZE.

Definition read_inode (fs : Fs) (num : Z) : M St (result Inode FsError) :=
  if (num =? 0) || (ninodes (sb fs) <? num) then mret (Err InodeOutOfRange) else
  let inode_off := inode_table_offset fs + (num - 1) * INODE_SIZE in
  let block_off := Z.land inode_off (Z.lnot (BLOCK_SIZE - 1)) in
  let within := inode_off - block_off in
  with_buffer BLOCK_SIZE (Err OutOfMemory) (λ buf,
    ok ← bd_read (dev fs) buf BLOCK_SIZE block_off;
    if negb ok then mret (Err BlockReadFailed) else
    f ← memory;
    mret (Ok (inode_at f (buf + within)))).

Definition read_indirect_zone (fs : Fs) (zone into : Z) : M St (result unit FsError) :=
  ok ← bd_read (dev fs) into BLOCK_SIZE (zone * BLOCK_SIZE);
  mret (if negb ok then Err BlockReadFailed else Ok tt).

(** *** [read_file] *)

Record cursor : Type := Cursor {
  cur_offset : Z; written : Z; logical : Z; out : list Z }.

Inductive flow : Type :=
| Go (c : cursor)                  (** fall through / [Ok(true)] *)
| Stop (c : cursor)                (** [return Ok(written)] / [Ok(false)] *)
| Fail (e : FsError) (c : cursor). (** [?] returned [Err(e)] *)

(** Continue after a fragment that fell through. *)
Definition flow_then (m : M St flow) (k : cursor → M St flow) : M St flow :=
  f ← m; match f with Go c => k c | _ => mret f end.

Definition set_cur (v : Z) (c : cursor) : cursor :=
  Cursor v (written c) (logical c) (out c).

(** [logical += d] *)
Definition advance (d : Z) (c : cursor) : M St cursor :=
  l ← checked 64 (logical c + d);
  mret (Cursor (cur_offset c) (written c) l (out c)).

(** [copy_nonoverlapping(src, out + written, chunk)]: bytes land in the
    slice, anything outside either object is undefined behaviour. *)
Definition copy_out (buf in_block chunk : Z) (c : cursor) : M St (list Z) :=
  if (in_block + chunk <=? PAGE_SIZE) && (written c + chunk <=? Z.of_nat (length (out c)))
  then f ← memory;
       mret (take (Z.to_nat (written c)) (out c)
             ++ bytes_from f (buf + in_block) (Z.to_nat chunk)
             ++ drop (Z.to_nat (written c + chunk)) (out c))
  else undefined.

Section copy_zone.
Context (fs : Fs) (end_ block_buf : Z).

Definition copy_zone (zone : Z) (c : cursor) : M St flow :=
  if zone =? 0 then
    v ← checked 64 (logical c + BLOCK_SIZE);
    let c := set_cur v c in
    mret (if cur_offset c <? end_ then Go c else Stop c)
  else
    let block_start := logical c in
    block_end ← checked 64 (block_start + BLOCK_SIZE);
    if block_end <=? cur_offset c then mret (Go c) else
    ok ← bd_read (dev fs) block_buf BLOCK_SIZE (zone * BLOCK_SIZE);
    if negb ok then mret (Fail BlockReadFailed c) else
    in_block ← checked 64 (cur_offset c - block_start);
    a ← checked 64 (BLOCK_SIZE - in_block);
    b ← checked 64 (end_ - cur_offset c);
    let chunk := Z.min a b in
    out' ← copy_out block_buf in_block chunk c;
    w ← checked 64 (written c + chunk);
    o ← checked 64 (cur_offset c + chunk);
    let c := Cursor o w (logical c) out' in
    mret (if cur_offset c <? end_ then Go c else Stop c).

(** [for i in idx { if cur_offset >= end { return } ; copy_zone(get(i)) }] *)
Fixpoint zone_loop (get : nat → M St Z) (idx : list nat) (c : cursor) : M St flow :=
  match idx with
  | [] => mret (Go c)
  | i :: idx' =>
      if end_ <=? cur_offset c then mret (Stop c) else
      z ← get i;
      flow_then (copy_zone z c) (λ c, c ← advance BLOCK_SIZE c; zone_loop get idx' c)
  end.

(** [ptrs.add(i).read()] *)
Definition ptr_at (buf : Z) (i : nat) : M St Z :=
  f ← memory; mret (u32_at f (buf + 4 * Z.of_nat i)).

Definition direct (inode : Inode) : cursor → M St flow :=
  zone_loop (λ zi, index (zones inode) zi) (seq 0 NUM_DIRECT_ZONES).

Definition zone_table (buf : Z) : cursor → M St flow :=
  zone_loop (ptr_at buf) (seq 0 INDIRECT_PTRS_PER_BLOCK).

Definition fetch (zone into : Z) (c : cursor) (k : M St flow) : M St flow :=
  r ← read_indirect_zone fs zone into;
  match r with Ok _ => k | Err e => mret (Fail e c) end.

Definition SPAN1 : Z := Z.of_nat INDIRECT_PTRS_PER_BLOCK * BLOCK_SIZE.
Definition SPAN2 : Z := Z.of_nat INDIRECT_PTRS_PER_BLOCK * SPAN1.

(** A loop over the pointers of a table of tables: [dz == 0] skips [span]
    bytes and, where [brk] is set, leaves the loop once the window is done. *)
Fixpoint table_loop (buf sub span : Z) (brk : bool) (inner : cursor → M St flow)
    (idx : list nat) (c : cursor) : M St flow :=
  match idx with
  | [] => mret (Go c)
  | i :: idx' =>
      z ← ptr_at buf i;
      if z =? 0 then
        c ← advance span c;
        if brk && (end_ <=? cur_offset c) then mret (Go c)
        else table_loop buf sub span brk inner idx' c
      else
        flow_then (fetch z sub c (inner c)) (λ c,
          table_loop buf sub span brk inner idx' c)
  end.

Definition double_table (brk : bool) (dind_buf ind_buf : Z) : cursor → M St flow :=
  table_loop dind_buf ind_buf SPAN1 brk (zone_table ind_buf) (seq 0 INDIRECT_PTRS_PER_BLOCK).

Definition triple_table (tind_buf dind_buf ind_buf : Z) : cursor → M St flow :=
  table_loop tind_buf dind_buf SPAN2 true (double_table false dind_buf ind_buf)
    (seq 0 INDIRECT_PTRS_PER_BLOCK).

Definition single_indirect (inode : Inode) (ind_buf : Z) (c : cursor) : M St flow :=
  z ← index (zones inode) NUM_DIRECT_ZONES;
  if (cur_offset c <? end_) && negb (z =? 0)
  then fetch z ind_buf c (zone_table ind_buf c)
  else c ← advance SPAN1 c; mret (Go c).

Definition double_indirect (inode : Inode) (dind_buf ind_buf : Z) (c : cursor) : M St flow :=
  z ← index (zones inode) (NUM_DIRECT_ZONES + 1);
  if (cur_offset c <? end_) && negb (z =? 0)
  then fetch z dind_buf c (double_table true dind_buf ind_buf c)
  else mret (Go c).

Definition triple_indirect (inode : Inode) (tind_buf dind_buf ind_buf : Z) (c : cursor)
    : M St flow :=
  z ← index (zones inode) (NUM_DIRECT_ZONES + 2);
  if (cur_offset c <? end_) && negb (z =? 0)
  then fetch z tind_buf c (triple_table tind_buf dind_buf ind_buf c)
  else mret (Go c).
End copy_zone.

Definition read_zones (fs : Fs) (inode : Inode) (end_ block ind dind tind : Z)
    (c : cursor) : M St flow :=
  flow_then (direct fs end_ block inode c) (λ c,
  flow_then (single_indirect fs end_ block inode ind c) (λ c,
  flow_then (double_indirect fs end_ block inode dind ind c) (λ c,
  triple_indirect fs end_ block inode tind dind ind c))).

Definition outcome_of (f : flow) : result Z FsError * list Z :=
  match f with
  | Go c | Stop c => (Ok (written c), out c)
  | Fail e c => (Err e, out c)
  end.

(** The result and the slice [out] after the call. *)
Definition read_file (fs : Fs) (inode : Inode) (offset : Z) (out : list Z)
    : M St (result Z FsError * list Z) :=
  if size inode <=? offset then mret (Ok 0, out) else
  let want := Z.min (Z.of_nat (length out) mod 2 ^ 32) (size inode - offset) in
  if want =? 0 then mret (Ok 0, out) else
  let end_ := offset + want in
  let oom := (Err OutOfMemory, out) in
  with_buffer BLOCK_SIZE oom (λ block_buf,
  with_buffer BLOCK_SIZE oom (λ ind_buf,
  with_buffer BLOCK_SIZE oom (λ dind_buf,
  with_buffer BLOCK_SIZE oom (λ tind_buf,
    f ← read_zones fs inode end_ block_buf ind_buf dind_buf tind_buf
          (Cursor offset 0 0 out);
    mret (outcome_of f))))).
End fs.
