(* ===== verification/Minix3Read.v ===== *)
(** * Correctness of the Minix 3 reader

    Proved against the frame-allocator and block-device interfaces: [mount]
    and [read_inode] decode the right bytes of the image, [read_file]
    returns exactly the requested window of a file without holes through
    every level of indirection, and no operation leaks a page. *)

From S2P Require Import Prelude Frames Bytes BlockDev Minix3.

Section reader.
Context `{Profile} {St : Type} `{FrameAllocatorLaws St}.
Context `{!BlockReader St} `{!BlockReaderLaws St}.

(** The allocator holds [h], of which the idle driver owns [d]. *)
Definition world (s : St) (h d : gmap Z Z) : Prop :=
  fa_rep s h ∧ bd_own s d ∧ d ⊆ h.

(** No memory of the caller changed. *)
Definition stays (h d m m' : gmap Z Z) : Prop :=
  ∀ p n a, h !! p = Some n → d !! p = None → in_run p n a → byte_at m' a = byte_at m a.

Lemma stays_refl h d m : stays h d m m.
Proof. done. Qed.
Lemma stays_trans h d m1 m2 m3 : stays h d m1 m2 → stays h d m2 m3 → stays h d m1 m3.
Proof. intros Ha Hb p n a ???. rewrite (Hb p n a), (Ha p n a); auto. Qed.

Lemma owned_not_fresh (d h : gmap Z Z) p : d ⊆ h → h !! p = None → d !! p = None.
Proof.
  intros Hd Hp. destruct (d !! p) eqn:E; [|done].
  pose proof (lookup_weaken _ _ _ _ E Hd). congruence.
Qed.

Lemma kept_stays (d h hc : gmap Z Z) buf m m' :
  hc ⊆ h → hc !! buf = None → kept h d buf m m' → stays hc d m m'.
Proof.
  intros Hsub Hb Hk p n a Hp Hdp Hin. apply (Hk p n a); try done.
  - by apply (lookup_weaken hc).
  - intros ->. congruence.
Qed.

(** A function that owns a scratch page: it gives the page back whatever the
    body returns, and the caller's memory is as the body leaves it. *)
Lemma with_buffer_ok {A} (E : fault → Prop) (oom : A) body s h d n hc m0 Q :
  world s h d → fa_room s (S n) →
  (∀ buf s1, h !! buf = None → world s1 (<[buf := 1]> h) d → fa_room s1 n →
     fa_ram s1 = fa_ram s →
     wp E (body buf) (λ a s2, world s2 (<[buf := 1]> h) d ∧ fa_room s2 n ∧
       stays hc d m0 (fa_ram s2) ∧ Q a) s1) →
  wp E (with_buffer BLOCK_SIZE oom body)
    (λ a s', world s' h d ∧ fa_room s' (S n) ∧ stays hc d m0 (fa_ram s') ∧ Q a) s.
Proof.
  intros (Hrep & Hown & Hd) Hroom Hbody.
  destruct (fa_allocate_room s h n Hrep Hroom) as (p & s1 & E1 & Hend & Hroom1).
  destruct (fa_allocate_spec s h 1 Hrep ltac:(lia)) as [E1'|(p' & s1' & E1' & Hp & Hrep1 & Hram1)];
    rewrite E1 in E1'; [done|]. injection E1' as <- <-.
  unfold with_buffer. apply wp_bind. change (buffer_pages BLOCK_SIZE) with 1.
  eapply wp_done; [exact E1|]. apply wp_bind. cbn beta iota.
  assert (Hdp : d !! p = None) by (by apply (owned_not_fresh d h)).
  assert (Hd1 : d ⊆ <[p := 1]> h).
  { etrans; [exact Hd|]. by apply insert_subseteq. }
  eapply wp_mono; [apply (Hbody p s1 Hp); [split_and!| |]; try done|].
  { eapply (bd_own_allocate s h d 1); [exact Hrep|exact Hown|done|lia|exact E1]. }
  cbn beta. intros a s2 ((Hrep2 & Hown2 & _) & Hroom2 & Hst & HQ).
  destruct (fa_deallocate_spec s2 _ p 1 Hrep2) as (s3 & E3 & Hrep3 & Hram3);
    [by rewrite lookup_insert_eq|done|].
  apply wp_bind. eapply wp_done; [exact E3|]. apply wp_ret.
  rewrite delete_insert_id in Hrep3 by done. split_and!.
  - split_and!; try done. eapply bd_own_deallocate; [exact Hrep2|exact Hown2|done| |exact Hend|done|exact E3].
    by rewrite lookup_insert_eq.
  - eapply fa_deallocate_room; [exact Hrep2|by rewrite lookup_insert_eq|done|exact Hroom2|exact E3].
  - by rewrite Hram3.
  - done.
Qed.

(** The buffer at [buf] holds the block of the image at byte [off]. *)
Definition holds (dv buf off : Z) (s : St) : Prop :=
  ∀ i, 0 <= i < BLOCK_SIZE → byte_at (fa_ram s) (buf + i) = bd_disk dv (off + i).

Lemma read_block_wp E s h d n dv buf off :
  world s h d → fa_room s (S n) → h !! buf = Some 1 → d !! buf = None →
  (BLOCK_SIZE | off) → 0 <= off <= 2 ^ 42 →
  wp E (bd_read dv buf BLOCK_SIZE off) (λ ok s',
    ok = bd_readable dv off BLOCK_SIZE ∧ world s' h d ∧ fa_room s' (S n) ∧
    kept h d buf (fa_ram s) (fa_ram s') ∧ (ok = true → holds dv buf off s')) s.
Proof.
  intros (Hrep & Hown & Hd) Hroom Hb Hdb [q ->] Hoff.
  destruct (bd_read_spec s h d dv buf BLOCK_SIZE (q * BLOCK_SIZE) Hrep Hown Hd)
    as (s' & E1 & Hrep' & Hown' & Hroom' & Hk & Hf); try done.
  - eapply fa_room_le; [exact Hroom|lia].
  - by exists 2.
  - exists (2 * q). unfold BLOCK_SIZE. lia.
  - lia.
  - unfold BLOCK_SIZE in *. lia.
  - eapply wp_done; [exact E1|]. split_and!; auto. done.
Qed.

(** ** Structures decoded from a block *)

Lemma super_block_ext f g a b :
  (∀ i, 0 <= i < 32 → f (a + i) = g (b + i)) → super_block_at f a = super_block_at g b.
Proof.
  intros Hfg. unfold super_block_at, u32_at, u16_at, u8_at.
  assert (Hle : ∀ k n, 0 <= k → k + Z.of_nat n <= 32 → le n f (a + k) = le n g (b + k)).
  { intros k n ??. apply le_ext. intros i Hi. rewrite <- !Z.add_assoc. apply Hfg. lia. }
  pose proof (Hle 0 4%nat) as Hz. rewrite !Z.add_0_r in Hz. f_equal; auto with lia.
Qed.

Lemma inode_ext f g a b :
  (∀ i, 0 <= i < INODE_SIZE → f (a + i) = g (b + i)) → inode_at f a = inode_at g b.
Proof.
  intros Hfg. unfold inode_at, u32_at, u16_at. unfold INODE_SIZE in Hfg.
  assert (Hle : ∀ k n, 0 <= k → k + Z.of_nat n <= 64 → le n f (a + k) = le n g (b + k)).
  { intros k n ??. apply le_ext. intros i Hi. rewrite <- !Z.add_assoc. apply Hfg. lia. }
  pose proof (Hle 0 2%nat) as Hz. rewrite !Z.add_0_r in Hz. f_equal; auto with lia.
  apply list_fmap_ext. intros i x Hx. apply lookup_seq in Hx as [-> Hi].
  rewrite <- !Z.add_assoc. apply Hle; lia.
Qed.

(** What [mount] and [read_inode] return, read off the image. *)
Definition mount_result (dv : Z) : result Fs FsError :=
  if negb (bd_readable dv BLOCK_SIZE BLOCK_SIZE) then Err BlockReadFailed else
  let sb := super_block_at (bd_disk dv) BLOCK_SIZE in
  if negb (magic sb =? MAGIC) then Err BadMagic else Ok {| dev := dv; sb := sb |}.

Definition inode_offset (fs : Fs) (num : Z) : Z :=
  (2 + imap_blocks (sb fs) + zmap_blocks (sb fs)) * 1024 + (num - 1) * 64.

Definition read_inode_result (fs : Fs) (num : Z) : result Inode FsError :=
  if (num <? 1) || (ninodes (sb fs) <? num) then Err InodeOutOfRange else
  if negb (bd_readable (dev fs) (inode_offset fs num / 1024 * 1024) BLOCK_SIZE)
  then Err BlockReadFailed
  else Ok (inode_at (bd_disk (dev fs)) (inode_offset fs num)).

(** A superblock as [mount] decodes it. *)
Definition wf_sb (b : SuperBlock) : Prop :=
  0 <= ninodes b < 2 ^ 32 ∧ 0 <= imap_blocks b < 2 ^ 16 ∧ 0 <= zmap_blocks b < 2 ^ 16.

Lemma super_block_wf dv a : wf_sb (super_block_at (bd_disk dv) a).
Proof.
  pose proof (bd_disk_byte dv).
  split_and!; cbn [ninodes imap_blocks zmap_blocks super_block_at];
    by (apply u32_range || apply u16_range).
Qed.

Lemma mount_wp E s h d n dv :
  world s h d → fa_room s (S (S n)) →
  wp E (mount dv) (λ r s', world s' h d ∧ fa_room s' (S (S n)) ∧
    stays h d (fa_ram s) (fa_ram s') ∧ r = mount_result dv) s.
Proof.
  intros Hw Hroom. apply with_buffer_ok; [done..|].
  intros buf s1 Hb Hw1 Hroom1 Hram1. apply wp_bind.
  assert (Hdb : d !! buf = None) by (apply (owned_not_fresh d h); [apply Hw|done]).
  eapply wp_mono.
  { eapply read_block_wp; [exact Hw1|done|by rewrite lookup_insert_eq|done| |].
    - by exists 1.
    - unfold BLOCK_SIZE; lia. }
  cbn beta. intros ok s2 (Hok & Hw2 & Hroom2 & Hk & Hh).
  apply kept_stays with (hc := h) in Hk; [|by apply insert_subseteq|done].
  rewrite Hram1 in Hk. unfold mount_result. rewrite <- Hok. destruct ok; cbn [negb].
  - apply wp_bind, wp_gets. cbn beta zeta.
    rewrite (super_block_ext _ (bd_disk dv) buf BLOCK_SIZE).
    2: { intros i Hi. apply Hh; [done|]. unfold BLOCK_SIZE. lia. }
    case_match; by apply wp_ret.
  - by apply wp_ret.
Qed.

Lemma read_inode_wp E s h d n fs num :
  world s h d → fa_room s (S (S n)) → wf_sb (sb fs) → 0 <= num < 2 ^ 32 →
  wp E (read_inode fs num) (λ r s', world s' h d ∧ fa_room s' (S (S n)) ∧
    stays h d (fa_ram s) (fa_ram s') ∧ r = read_inode_result fs num) s.
Proof.
  intros Hw Hroom (Hni & Him & Hzm) Hnum. unfold read_inode, read_inode_result.
  replace (num <? 1) with (num =? 0)
    by (destruct (Z.eqb_spec num 0), (Z.ltb_spec num 1); lia).
  case_match eqn:Hrange; [by apply wp_ret|].
  apply orb_false_elim in Hrange as [Hn0 Hn1].
  apply Z.eqb_neq in Hn0. apply Z.ltb_ge in Hn1.
  change (inode_table_offset fs + (num - 1) * INODE_SIZE) with (inode_offset fs num).
  set (x := inode_offset fs num).
  assert (Hx : 0 <= x < 2 ^ 41) by (unfold x, inode_offset; lia).
  assert (Hblk : Z.land x (Z.lnot (BLOCK_SIZE - 1)) = x / 1024 * 1024).
  { change (BLOCK_SIZE - 1) with (2 ^ 10 - 1). rewrite land_clear_low by lia. dlia. }
  rewrite Hblk. apply with_buffer_ok; [done..|].
  intros buf s1 Hb Hw1 Hroom1 Hram1. apply wp_bind.
  assert (Hdb : d !! buf = None) by (apply (owned_not_fresh d h); [apply Hw|done]).
  eapply wp_mono.
  { eapply read_block_wp; [exact Hw1|done|by rewrite lookup_insert_eq|done| |].
    - by exists (x / 1024).
    - dlia. }
  cbn beta. intros ok s2 (Hok & Hw2 & Hroom2 & Hk & Hh).
  apply kept_stays with (hc := h) in Hk; [|by apply insert_subseteq|done].
  rewrite Hram1 in Hk. rewrite <- Hok. destruct ok; cbn [negb]; [|by apply wp_ret].
  apply wp_bind, wp_gets, wp_ret. split_and!; try done. f_equal.
  assert (Hin : x mod 1024 + 64 <= 1024) by (unfold x, inode_offset; dlia).
  apply inode_ext. unfold INODE_SIZE. intros i Hi.
  rewrite <- Z.add_assoc, Hh by (done || unfold BLOCK_SIZE; dlia). f_equal. dlia.
Qed.
End reader.

(** ** The contents of a file, read off the image *)

Section contents.
Context {St : Type} `{FrameAllocatorLaws St} `{!BlockReader St} `{!BlockReaderLaws St}.
Context (dv : Z) (inode : Inode).

Definition PTRS : Z := 256.

(** Entry [i] of the pointer block [z]. *)
Definition entry (z i : Z) : Z := u32_at (bd_disk dv) (z * BLOCK_SIZE + 4 * i).

Definition root_zone (i : nat) : Z := default 0 (zones inode !! i).

(** The blocks visited to reach block [k] of the file, the data block
    last. *)
Definition path (k : Z) : list Z :=
  if k <? 7 then [root_zone (Z.to_nat k)]
  else let k1 := k - 7 in
  if k1 <? PTRS then [root_zone 7; entry (root_zone 7) k1]
  else let k2 := k1 - PTRS in
  if k2 <? PTRS * PTRS then
    let a := entry (root_zone 8) (k2 / PTRS) in
    [root_zone 8; a; entry a (k2 mod PTRS)]
  else let k3 := k2 - PTRS * PTRS in
    let a := entry (root_zone 9) (k3 / (PTRS * PTRS)) in
    let b := entry a (k3 / PTRS mod PTRS) in
    [root_zone 9; a; b; entry b (k3 mod PTRS)].

Definition zone_of (k : Z) : Z := List.last (path k) 0.

Definition file_byte (x : Z) : Z :=
  bd_disk dv (zone_of (x / BLOCK_SIZE) * BLOCK_SIZE + x mod BLOCK_SIZE).

Definition readable_zone (z : Z) : Prop :=
  z ≠ 0 ∧ bd_readable dv (z * BLOCK_SIZE) BLOCK_SIZE = true.

(** No hole and no bad sector below byte [e]. *)
Definition dense (e : Z) : Prop :=
  ∀ k, 0 <= k → k * BLOCK_SIZE < e → Forall readable_zone (path k).

Definition wf_inode : Prop :=
  length (zones inode) = 10%nat ∧ Forall (λ z, 0 <= z < 2 ^ 32) (zones inode) ∧
  0 <= size inode < 2 ^ 32.

Lemma entry_range z i : 0 <= entry z i < 2 ^ 32.
Proof. apply u32_range, bd_disk_byte. Qed.

Lemma root_zone_range i : wf_inode → 0 <= root_zone i < 2 ^ 32.
Proof.
  intros (_ & Hz & _). unfold root_zone. destruct (zones inode !! i) eqn:E; cbn; [|lia].
  by eapply Forall_lookup_1 in Hz.
Qed.

Lemma root_zone_index i : wf_inode → (i < 10)%nat → zones inode !! i = Some (root_zone i).
Proof.
  intros (Hl & _) Hi. unfold root_zone.
  destruct (lookup_lt_is_Some_2 (zones inode) i) as [z Hz]; [lia|]. by rewrite Hz.
Qed.
End contents.

Lemma inode_at_wf f a : byteful f → wf_inode (inode_at f a).
Proof.
  intros Hf. split_and!; cbn [zones size inode_at].
  - by rewrite length_fmap, length_seq.
  - apply Forall_fmap, list.Forall_forall. intros i _. by apply u32_range.
  - by apply u32_range.
  - by apply u32_range.
Qed.

(** The four ranges of block numbers. *)
Section paths.
Context {St : Type} `{FrameAllocatorLaws St} `{!BlockReader St} `{!BlockReaderLaws St}.
Context (dv : Z) (inode : Inode).

Lemma path_direct k : 0 <= k < 7 → path dv inode k = [root_zone inode (Z.to_nat k)].
Proof. intros Hk. unfold path. by rewrite (proj2 (Z.ltb_lt _ _)) by lia. Qed.

Lemma path_single j : 0 <= j < 256 →
  path dv inode (7 + j) = [root_zone inode 7; entry dv (root_zone inode 7) j].
Proof.
  intros Hj. unfold path. rewrite (proj2 (Z.ltb_ge _ _)) by lia.
  replace (7 + j - 7) with j by lia. cbv zeta. unfold PTRS.
  by rewrite (proj2 (Z.ltb_lt _ _)) by lia.
Qed.

Lemma path_double i j : 0 <= i < 256 → 0 <= j < 256 →
  path dv inode (263 + 256 * i + j) =
  let a := entry dv (root_zone inode 8) i in [root_zone inode 8; a; entry dv a j].
Proof.
  intros Hi Hj. unfold path. rewrite (proj2 (Z.ltb_ge _ 7)) by lia. cbv zeta. unfold PTRS.
  rewrite (proj2 (Z.ltb_ge _ 256)) by lia.
  rewrite (proj2 (Z.ltb_lt _ (256 * 256))) by lia.
  replace (263 + 256 * i + j - 7 - 256) with (i * 256 + j) by lia.
  replace ((i * 256 + j) / 256) with i by dlia.
  by replace ((i * 256 + j) mod 256) with j by dlia.
Qed.

Lemma path_triple a i j : 0 <= a → 0 <= i < 256 → 0 <= j < 256 →
  path dv inode (65799 + 65536 * a + 256 * i + j) =
  let b := entry dv (root_zone inode 9) a in let e := entry dv b i in
  [root_zone inode 9; b; e; entry dv e j].
Proof.
  intros Ha Hi Hj. unfold path. rewrite (proj2 (Z.ltb_ge _ 7)) by lia. cbv zeta. unfold PTRS.
  rewrite (proj2 (Z.ltb_ge _ 256)) by lia.
  rewrite (proj2 (Z.ltb_ge _ (256 * 256))) by lia.
  replace (65799 + 65536 * a + 256 * i + j - 7 - 256 - 256 * 256)
    with (a * 65536 + i * 256 + j) by lia.
  replace ((a * 65536 + i * 256 + j) / (256 * 256)) with a by dlia.
  replace ((a * 65536 + i * 256 + j) / 256 mod 256) with i by dlia.
  by replace ((a * 65536 + i * 256 + j) mod 256) with j by dlia.
Qed.
End paths.

(** ** [read_file] on a file without holes *)

Section read_file.
Context `{Profile} {St : Type} `{FrameAllocatorLaws St}.
Context `{!BlockReader St} `{!BlockReaderLaws St}.
Context (fs : Fs) (inode : Inode) (offset end_ : Z) (out0 : list Z).
Context (h hc d m0 : gmap Z Z) (nroom : nat) (block ind dind tind : Z).
Context (Hinode : wf_inode inode).
Context (Hoff : 0 <= offset < end_) (Hend : end_ < 2 ^ 32).
Context (Hout : end_ - offset <= Z.of_nat (length out0)).
Context (Hdense : dense (dev fs) inode end_).

(** The scratch pages: distinct, live, and nobody else's. *)
Context (Hbufs : NoDup [block; ind; dind; tind]).
Context (Hlive : ∀ b, b ∈ [block; ind; dind; tind] →
  h !! b = Some 1 ∧ d !! b = None ∧ hc !! b = None).
Context (Hsub : hc ⊆ h).

Abbreviation zone_of := (zone_of (dev fs) inode).
Abbreviation entry := (entry (dev fs)).

(** The window copied so far ends at [n]. *)
Definition filled (n : Z) : list Z :=
  bytes_from (file_byte (dev fs) inode) offset (Z.to_nat n) ++ drop (Z.to_nat n) out0.

(** Before block [k]; [mid] after it, before [logical] is advanced. *)
Definition at_block (k l : Z) (c : cursor) : Prop :=
  logical c = l * BLOCK_SIZE ∧ cur_offset c = Z.max offset (k * BLOCK_SIZE) ∧
  cur_offset c < end_ ∧ written c = cur_offset c - offset ∧ out c = filled (written c).
Definition finished (c : cursor) : Prop :=
  written c = end_ - offset ∧ out c = filled (written c).

Definition flow_ok (k l : Z) (f : flow) : Prop :=
  match f with Go c => at_block k l c | Stop c => finished c | Fail _ _ => False end.

(** Machine state inside the function: the pointer blocks listed in [T] are
    loaded. *)
Definition inside (T : list (Z * Z)) (s : St) : Prop :=
  world s h d ∧ fa_room s (S nroom) ∧ stays hc d m0 (fa_ram s) ∧
  Forall (λ bz, bz.1 ∈ [ind; dind; tind] ∧
                holds (dev fs) bz.1 (bz.2 * BLOCK_SIZE) s) T.

Lemma filled_step n k :
  0 <= n → 0 <= k → n + k <= end_ - offset →
  take (Z.to_nat n) (filled n) ++
  bytes_from (file_byte (dev fs) inode) (offset + n) (Z.to_nat k) ++
  drop (Z.to_nat (n + k)) (filled n) = filled (n + k).
Proof.
  intros Hn Hk Hnk. unfold filled.
  pose proof (bytes_from_length (file_byte (dev fs) inode) offset (Z.to_nat n)) as Hl.
  rewrite take_app_length' by done.
  rewrite drop_app_ge by (rewrite Hl; lia). rewrite Hl, drop_drop, app_assoc.
  f_equal; [|f_equal; lia].
  rewrite Z2Nat.inj_add, bytes_from_app by done. do 2 f_equal. lia.
Qed.

(** Blocks of the window have a full path. *)
Lemma path_readable k : 0 <= k → k * BLOCK_SIZE < end_ →
  Forall (readable_zone (dev fs)) (path (dev fs) inode k).
Proof. apply Hdense. Qed.

Lemma path_last_range k : 0 <= zone_of k < 2 ^ 32.
Proof.
  unfold zone_of, path. repeat case_match; cbn [List.last];
    auto using entry_range, root_zone_range.
Qed.

Lemma zone_of_readable k : 0 <= k → k * BLOCK_SIZE < end_ →
  readable_zone (dev fs) (zone_of k).
Proof.
  intros Hk Hke. unfold zone_of. apply Forall_last; [by apply path_readable|].
  unfold path. by repeat case_match.
Qed.

(** Loading block [z] into [buf] keeps the pointer blocks held elsewhere. *)
Lemma load_wp E T s buf z :
  inside T s → buf ∈ [block; ind; dind; tind] → buf ∉ T.*1 →
  0 <= z < 2 ^ 32 → readable_zone (dev fs) z →
  wp E (bd_read (dev fs) buf BLOCK_SIZE (z * BLOCK_SIZE)) (λ ok s',
    ok = true ∧ inside T s' ∧ holds (dev fs) buf (z * BLOCK_SIZE) s') s.
Proof.
  intros (Hw & Hroom & Hst & HT) Hin HnT Hz [_ Hr].
  destruct (Hlive buf Hin) as (Hb & Hdb & Hcb).
  eapply wp_mono.
  { eapply read_block_wp; [done..| |]; [by exists z|unfold BLOCK_SIZE; lia]. }
  cbn beta. intros ok s' (-> & Hw' & Hroom' & Hk & Hh). split_and!; auto.
  split_and!; auto.
  { eapply stays_trans; [exact Hst|]. by apply (kept_stays d h hc buf). }
  apply list.Forall_forall. intros [b zb] Hbz. cbn [fst snd].
  pose proof (proj1 (list.Forall_forall _ _) HT _ Hbz) as [Hbin Hhb]. cbn [fst snd] in *.
  split; [done|]. intros i Hi. rewrite <- Hhb by done.
  destruct (Hlive b ltac:(apply elem_of_cons; by right)) as (Hlb & Hdb' & _).
  destruct (fa_run s h b 1 ltac:(apply Hw) Hlb) as (_ & _ & [q Hq] & _).
  apply (Hk b 1); try done.
  - intros Hbb. apply HnT, list_elem_of_fmap. exists (b, zb). split; [exact (eq_sym Hbb)|exact Hbz].
  - unfold in_run. rewrite PAGE_SIZE_val in *. unfold BLOCK_SIZE in Hi. dlia.
Qed.

Lemma block_not_table T : Forall (λ bz : Z * Z, bz.1 ∈ [ind; dind; tind]) T → block ∉ T.*1.
Proof.
  intros HT Hin. apply list_elem_of_fmap in Hin as ([b z] & Hbz & Hin). cbn in Hbz. subst b.
  pose proof (proj1 (list.Forall_forall _ _) HT _ Hin) as Hb. cbn in Hb.
  apply list.NoDup_cons in Hbufs as [Hn _]. done.
Qed.

Lemma inside_tables T s : inside T s → Forall (λ bz : Z * Z, bz.1 ∈ [ind; dind; tind]) T.
Proof. intros (_ & _ & _ & HT). eapply list.Forall_impl; [exact HT|]. by intros ? [??]. Qed.

(** Block [k] of the window: copied, or skipped when it lies before it. *)
Lemma copy_zone_wp E T s k c :
  inside T s → 0 <= k → at_block k k c →
  wp E (copy_zone fs end_ block (zone_of k) c)
    (λ f s', inside T s' ∧ flow_ok (k + 1) k f) s.
Proof.
  intros Hs Hk (Hl & Hc & Hlt & Hw & Ho).
  assert (Hke : k * BLOCK_SIZE < end_) by lia.
  pose proof (zone_of_readable k Hk Hke) as Hr. pose proof (path_last_range k) as Hz.
  unfold copy_zone. rewrite (proj2 (Z.eqb_neq _ _)) by apply Hr.
  unfold BLOCK_SIZE in * |-.
  apply wp_bind, wp_checked; [unfold BLOCK_SIZE; lia|].
  case_match eqn:Hskip.
  { apply Z.leb_le in Hskip. apply wp_ret. split; [done|]. unfold BLOCK_SIZE in Hskip.
    split_and!; try done; unfold BLOCK_SIZE; lia. }
  apply Z.leb_gt in Hskip. apply wp_bind. eapply wp_mono.
  { eapply load_wp; [exact Hs|by left| |done|done].
    eapply block_not_table, inside_tables, Hs. }
  cbn beta. intros ok s' (-> & Hs' & Hh). cbn [negb]. unfold BLOCK_SIZE in Hskip.
  do 3 (apply wp_bind, wp_checked; [unfold BLOCK_SIZE; lia|]).
  set (chunk := Z.min _ _).
  assert (Hch : 0 < chunk /\ cur_offset c - logical c + chunk <= 1024 /\
                cur_offset c + chunk <= end_)
    by (unfold chunk, BLOCK_SIZE; lia).
  assert (Hcase : cur_offset c + chunk = end_ \/
                  cur_offset c + chunk = (k + 1) * 1024 /\ cur_offset c + chunk < end_)
    by (unfold chunk, BLOCK_SIZE; lia).
  clearbody chunk. apply wp_bind. unfold copy_out.
  assert (Hlen : Z.of_nat (length (out c)) = Z.of_nat (length out0)).
  { rewrite Ho. unfold filled. rewrite length_app, bytes_from_length, length_drop. lia. }
  rewrite (proj2 (andb_true_iff _ _)).
  2: { rewrite PAGE_SIZE_val, Hlen. split; apply Z.leb_le; lia. }
  apply wp_bind, wp_gets, wp_ret.
  do 2 (apply wp_bind, wp_checked; [lia|]). apply wp_ret. split; [done|].
  assert (Hfill : take (Z.to_nat (written c)) (out c) ++
     bytes_from (byte_at (fa_ram s')) (block + (cur_offset c - logical c)) (Z.to_nat chunk) ++
     drop (Z.to_nat (written c + chunk)) (out c) = filled (written c + chunk)).
  { rewrite Ho, <- filled_step by lia. do 2 f_equal.
    apply bytes_from_ext. intros i Hi. rewrite <- Z.add_assoc, Hh by (unfold BLOCK_SIZE; lia).
    unfold file_byte, BLOCK_SIZE.
    assert (Hq : (offset + written c + i) / 1024 = k) by dlia.
    assert (Hm : (offset + written c + i) mod 1024 = cur_offset c - logical c + i) by dlia.
    by rewrite Hq, Hm. }
  rewrite Hfill. cbn [cur_offset written logical out].
  destruct Hcase as [He|[He Hlt']].
  - rewrite (proj2 (Z.ltb_ge _ _)) by lia. split; cbn; [lia|done].
  - rewrite (proj2 (Z.ltb_lt _ _)) by lia.
    split_and!; cbn; try done; unfold BLOCK_SIZE; lia.
Qed.

Lemma advance_wp E T s k c :
  inside T s → 0 <= k → at_block (k + 1) k c →
  wp E (advance BLOCK_SIZE c) (λ c' s', inside T s' ∧ at_block (k + 1) (k + 1) c') s.
Proof.
  intros Hs Hk (Hl & Hc & Hlt & Hw & Ho). unfold advance.
  apply wp_bind, wp_checked; [unfold BLOCK_SIZE in *; lia|]. apply wp_ret.
  split; [done|]. split_and!; cbn; try done. unfold BLOCK_SIZE in *. lia.
Qed.

Lemma flow_then_wp E T m kont s k l k' l' :
  wp E m (λ f s', inside T s' ∧ flow_ok k l f) s →
  (∀ c s', inside T s' → at_block k l c →
     wp E (kont c) (λ f s'', inside T s'' ∧ flow_ok k' l' f) s') →
  wp E (flow_then m kont) (λ f s', inside T s' ∧ flow_ok k' l' f) s.
Proof.
  intros Hm Hk. apply wp_bind. eapply wp_mono; [exact Hm|]. cbn beta.
  intros [c|c|e c] s' [Hs Hf]; [by apply Hk|by apply wp_ret|done].
Qed.

(** A loop over consecutive zone pointers, starting at block [k]. *)
Lemma zone_loop_wp E T get idx s k c :
  (∀ j i s, idx !! j = Some i → inside T s →
     get i s = Done (zone_of (k + Z.of_nat j), s)) →
  inside T s → 0 <= k → at_block k k c →
  wp E (zone_loop fs end_ block get idx c)
    (λ f s', inside T s' ∧ flow_ok (k + Z.of_nat (length idx)) (k + Z.of_nat (length idx)) f) s.
Proof.
  revert s k c. induction idx as [|i idx IH]; intros s k c Hget Hs Hk Hc; cbn [zone_loop length].
  { apply wp_ret. by rewrite Z.add_0_r. }
  destruct Hc as (Hl & Hcur & Hlt & Hw & Ho).
  rewrite (proj2 (Z.leb_gt _ _)) by done. apply wp_bind.
  eapply wp_done; [by apply (Hget 0%nat)|]. rewrite Z.add_0_r.
  eapply flow_then_wp; [by apply copy_zone_wp|]. intros c1 s1 Hs1 Hc1.
  apply wp_bind. eapply wp_mono; [by apply advance_wp|]. cbn beta. intros c2 s2 [Hs2 Hc2].
  replace (k + Z.of_nat (S (length idx))) with (k + 1 + Z.of_nat (length idx)) by lia.
  apply IH; try done; [|lia]. intros j i' s3 Hj Hs3.
  rewrite (Hget (S j) i' s3) by done. do 3 f_equal. lia.
Qed.

Lemma ptr_at_inside T s buf z i :
  inside T s → (buf, z) ∈ T → (i < 256)%nat →
  ptr_at buf i s = Done (entry z (Z.of_nat i), s).
Proof.
  intros (_ & _ & _ & HT) Hin Hi. unfold ptr_at. rewrite (bind_done _ _ s _ s eq_refl).
  pose proof (proj1 (list.Forall_forall _ _) HT _ Hin) as [_ Hh]. cbn [fst snd] in Hh.
  change (Done (u32_at (byte_at (fa_ram s)) (buf + 4 * Z.of_nat i), s) =
          Done (entry z (Z.of_nat i), s)).
  do 2 f_equal. unfold entry, u32_at. apply le_ext. intros j Hj.
  rewrite <- !Z.add_assoc. apply Hh. unfold BLOCK_SIZE. lia.
Qed.

Lemma inside_drop bz T s : inside (bz :: T) s → inside T s.
Proof.
  intros (? & ? & ? & HT). split_and!; try done. by apply list.Forall_cons in HT as [_ ?].
Qed.

Lemma fetch_wp E T s z buf c kont Q :
  inside T s → buf ∈ [ind; dind; tind] → buf ∉ T.*1 →
  0 <= z < 2 ^ 32 → readable_zone (dev fs) z →
  (∀ s', inside ((buf, z) :: T) s' → wp E kont Q s') →
  wp E (fetch fs z buf c kont) Q s.
Proof.
  intros Hs Hb HnT Hz Hr Hk. unfold fetch, read_indirect_zone.
  apply wp_bind, wp_bind. eapply wp_mono.
  { eapply load_wp; [exact Hs|apply elem_of_cons; by right|done..]. }
  cbn beta. intros ok s' (-> & (? & ? & ? & HT) & Hh). apply wp_ret. cbn. apply Hk.
  split_and!; try done. by apply list.Forall_cons.
Qed.

Lemma zone_table_wp E T s z k c :
  inside T s → (ind, z) ∈ T → 0 <= k → at_block k k c →
  (∀ j, 0 <= j < 256 → zone_of (k + j) = entry z j) →
  wp E (zone_table fs end_ block ind c)
    (λ f s', inside T s' ∧ flow_ok (k + 256) (k + 256) f) s.
Proof.
  intros Hs Hin Hk Hc Hz. unfold zone_table.
  change (k + 256) with (k + Z.of_nat (length (seq 0 INDIRECT_PTRS_PER_BLOCK))).
  apply zone_loop_wp; try done. intros j i s1 Hj Hs1.
  apply lookup_seq in Hj as [-> Hj]. change INDIRECT_PTRS_PER_BLOCK with 256%nat in Hj.
  rewrite (ptr_at_inside T s1 ind z) by (done || lia). rewrite Hz by lia. done.
Qed.

(** A loop over the entries of a loaded table of tables, each covering [w]
    blocks, starting at block [k0]. *)
Lemma table_loop_wp E T buf zb sub span brk inner w k0 n : ∀ i0 s c,
  (buf, zb) ∈ T → sub ∈ [ind; dind; tind] → sub ∉ T.*1 →
  0 <= k0 → 0 < w → (i0 + n <= 256)%nat →
  (∀ i, 0 <= i < 256 → (k0 + w * i) * BLOCK_SIZE < end_ →
     readable_zone (dev fs) (entry zb i)) →
  (∀ i s c, 0 <= i < 256 → inside ((sub, entry zb i) :: T) s →
     at_block (k0 + w * i) (k0 + w * i) c →
     wp E (inner c) (λ f s', inside ((sub, entry zb i) :: T) s' ∧
       flow_ok (k0 + w * (i + 1)) (k0 + w * (i + 1)) f) s) →
  inside T s → at_block (k0 + w * Z.of_nat i0) (k0 + w * Z.of_nat i0) c →
  wp E (table_loop fs end_ buf sub span brk inner (seq i0 n) c)
    (λ f s', inside T s' ∧ flow_ok (k0 + w * Z.of_nat (i0 + n)) (k0 + w * Z.of_nat (i0 + n)) f) s.
Proof.
  induction n as [|n IH]; intros i0 s c Hin Hsub' HnT Hk Hw Hn Hr Hinner Hs Hc;
    cbn [seq table_loop].
  { apply wp_ret. by rewrite Nat.add_0_r. }
  apply wp_bind. eapply wp_done; [apply (ptr_at_inside T s buf zb); (done || lia)|].
  assert (Hz : readable_zone (dev fs) (entry zb (Z.of_nat i0))).
  { apply Hr; [lia|]. destruct Hc as (_ & ? & ? & _). lia. }
  rewrite (proj2 (Z.eqb_neq _ _)) by apply Hz.
  eapply flow_then_wp.
  - apply fetch_wp with T; try done; [apply entry_range|]. intros s1 Hs1.
    eapply wp_mono; [by apply (Hinner (Z.of_nat i0)); [lia|..]|].
    cbn beta. intros f s2 [Hs2 Hf]. split; [by eapply inside_drop|exact Hf].
  - intros c1 s1 Hs1 Hc1. replace (i0 + S n)%nat with (S i0 + n)%nat by lia.
    apply IH; try done; [lia|]. by rewrite Nat2Z.inj_succ.
Qed.

Lemma tables_distinct : ind ≠ dind ∧ ind ≠ tind ∧ dind ≠ tind.
Proof.
  apply list.NoDup_cons in Hbufs as [_ Hb]. apply list.NoDup_cons in Hb as [Hi Hb].
  apply list.NoDup_cons in Hb as [Hd _].
  rewrite elem_of_cons, list_elem_of_singleton in Hi.
  rewrite list_elem_of_singleton in Hd. tauto.
Qed.

Lemma at_block_window k l c : at_block k l c → k * BLOCK_SIZE < end_.
Proof. intros (_ & ? & ? & _). lia. Qed.

Lemma direct_wp E s c :
  inside [] s → at_block 0 0 c →
  wp E (direct fs end_ block inode c) (λ f s', inside [] s' ∧ flow_ok 7 7 f) s.
Proof.
  intros Hs Hc. unfold direct.
  change 7 with (0 + Z.of_nat (length (seq 0 NUM_DIRECT_ZONES))).
  apply zone_loop_wp; try done. intros j i s1 Hj _.
  apply lookup_seq in Hj as [-> Hj]. unfold NUM_DIRECT_ZONES in Hj.
  rewrite (index_some _ _ (root_zone inode (0 + j))).
  - unfold zone_of. rewrite path_direct by lia. cbn. do 4 f_equal. lia.
  - apply root_zone_index; [done|lia].
Qed.

(** The guard of the three indirect sections, at a block of the window. *)
Lemma section_guard k l c z :
  at_block k l c → readable_zone (dev fs) z →
  (cur_offset c <? end_) && negb (z =? 0) = true.
Proof.
  intros (_ & _ & Hlt & _) [Hz _]. apply andb_true_iff. split; [by apply Z.ltb_lt|].
  by rewrite (proj2 (Z.eqb_neq _ _)).
Qed.

Lemma single_wp E s c :
  inside [] s → at_block 7 7 c →
  wp E (single_indirect fs end_ block inode ind c)
    (λ f s', inside [] s' ∧ flow_ok 263 263 f) s.
Proof.
  intros Hs Hc. unfold single_indirect. apply wp_bind.
  eapply wp_index; [by apply root_zone_index; [|unfold NUM_DIRECT_ZONES; lia]|].
  pose proof (path_readable 7 ltac:(lia) (at_block_window _ _ _ Hc)) as Hp.
  rewrite (path_single _ _ 0 ltac:(lia)) in Hp. apply list.Forall_cons in Hp as [Hr _].
  rewrite (section_guard 7 7) by done.
  eapply fetch_wp; [exact Hs|by left|apply not_elem_of_nil|by apply root_zone_range|done|].
  intros s1 Hs1. eapply wp_mono.
  { apply (zone_table_wp _ [(ind, root_zone inode 7)] _ (root_zone inode 7) 7);
      [done|by left|lia|done|]. intros j Hj. unfold zone_of. by rewrite path_single. }
  cbn beta. intros f s2 [Hs2 Hf]. split; [by eapply inside_drop|exact Hf].
Qed.

(** Below [dind] loaded with the table [z2], entry [i] covers the 256 blocks
    from [k0 + 256 * i]. *)
Lemma double_table_wp E T brk s z2 k0 c :
  inside T s → (dind, z2) ∈ T → ind ∉ T.*1 → 0 <= k0 → at_block k0 k0 c →
  (∀ i, 0 <= i < 256 → (k0 + 256 * i) * BLOCK_SIZE < end_ →
     readable_zone (dev fs) (entry z2 i)) →
  (∀ i j, 0 <= i < 256 → 0 <= j < 256 →
     zone_of (k0 + 256 * i + j) = entry (entry z2 i) j) →
  wp E (double_table fs end_ block brk dind ind c)
    (λ f s', inside T s' ∧ flow_ok (k0 + 65536) (k0 + 65536) f) s.
Proof.
  intros Hs Hin HnT Hk Hc Hr Hz. unfold double_table.
  change (k0 + 65536) with (k0 + 256 * Z.of_nat (0 + 256)).
  eapply table_loop_wp; try done; try lia; [by left| |by rewrite Z.mul_0_r, Z.add_0_r].
  intros i s1 c1 Hi Hs1 Hc1. replace (k0 + 256 * (i + 1)) with (k0 + 256 * i + 256) by lia.
  eapply zone_table_wp; [done|by left|lia|done|]. intros j Hj. by apply Hz.
Qed.

Lemma double_wp E s c :
  inside [] s → at_block 263 263 c →
  wp E (double_indirect fs end_ block inode dind ind c)
    (λ f s', inside [] s' ∧ flow_ok 65799 65799 f) s.
Proof.
  intros Hs Hc. unfold double_indirect. apply wp_bind.
  eapply wp_index; [by apply root_zone_index; [|unfold NUM_DIRECT_ZONES; lia]|].
  pose proof (path_readable 263 ltac:(lia) (at_block_window _ _ _ Hc)) as Hp.
  rewrite (path_double _ _ 0 0 ltac:(lia) ltac:(lia)) in Hp.
  apply list.Forall_cons in Hp as [Hr _]. rewrite (section_guard 263 263) by done.
  eapply fetch_wp; [exact Hs|by right; left|apply not_elem_of_nil|by apply root_zone_range|done|].
  intros s1 Hs1. eapply wp_mono.
  { apply (double_table_wp _ [(dind, root_zone inode 8)] _ _ (root_zone inode 8) 263); try done.
    - by left.
    - destruct tables_distinct as (? & _ & _). cbn. by rewrite list_elem_of_singleton.
    - intros i Hi Hw.
      pose proof (path_readable (263 + 256 * i) ltac:(lia) Hw) as Hp.
      rewrite <- (Z.add_0_r (263 + 256 * i)), path_double in Hp by lia.
      by inversion_clear Hp as [|? ? _ Hp'']; inversion_clear Hp''.
    - intros i j Hi Hj. unfold zone_of. by rewrite path_double. }
  cbn beta. intros f s2 [Hs2 Hf]. split; [by eapply inside_drop|exact Hf].
Qed.

Lemma triple_wp E s c :
  inside [] s → at_block 65799 65799 c →
  wp E (triple_indirect fs end_ block inode tind dind ind c)
    (λ f s', inside [] s' ∧ flow_ok 16843015 16843015 f) s.
Proof.
  intros Hs Hc. unfold triple_indirect. apply wp_bind.
  eapply wp_index; [by apply root_zone_index; [|unfold NUM_DIRECT_ZONES; lia]|].
  pose proof (path_readable 65799 ltac:(lia) (at_block_window _ _ _ Hc)) as Hp.
  rewrite (path_triple _ _ 0 0 0 ltac:(lia) ltac:(lia) ltac:(lia)) in Hp.
  apply list.Forall_cons in Hp as [Hr _]. rewrite (section_guard 65799 65799) by done.
  destruct tables_distinct as (Hid & Hit & Hdt).
  eapply fetch_wp; [exact Hs|by right; right; left|apply not_elem_of_nil
                   |by apply root_zone_range|done|].
  intros s1 Hs1. eapply wp_mono.
  { unfold triple_table. change INDIRECT_PTRS_PER_BLOCK with 256%nat.
    apply (table_loop_wp E [(tind, root_zone inode 9)] tind (root_zone inode 9) dind SPAN2
             true _ 65536 65799 256 0); try done; try lia.
    - by left.
    - by right; left.
    - cbn. by rewrite list_elem_of_singleton.
    - intros i Hi Hw. pose proof (path_readable (65799 + 65536 * i) ltac:(lia) Hw) as Hp.
      replace (65799 + 65536 * i) with (65799 + 65536 * i + 256 * 0 + 0) in Hp by lia.
      rewrite path_triple in Hp by lia.
      by inversion_clear Hp as [|? ? _ Hp'']; inversion_clear Hp''.
    - intros a s2 c2 Ha Hs2 Hc2.
      replace (65799 + 65536 * (a + 1)) with (65799 + 65536 * a + 65536) by lia.
      eapply double_table_wp; [exact Hs2|by left| |lia|done| |].
      + cbn. rewrite elem_of_cons, list_elem_of_singleton. by intros [?|?].
      + intros i Hi Hw.
        pose proof (path_readable (65799 + 65536 * a + 256 * i) ltac:(lia) Hw) as Hp.
        rewrite <- (Z.add_0_r (65799 + 65536 * a + 256 * i)), path_triple in Hp by lia.
        apply list.Forall_cons in Hp as [_ Hp]. apply list.Forall_cons in Hp as [_ Hp].
        by apply list.Forall_cons in Hp as [? _].
      + intros i j Hi Hj. unfold zone_of. by rewrite path_triple by lia. }
  cbn beta. intros f s2 [Hs2 Hf]. split; [by eapply inside_drop|exact Hf].
Qed.

Lemma read_zones_wp E s c :
  inside [] s → at_block 0 0 c →
  wp E (read_zones fs inode end_ block ind dind tind c)
    (λ f s', inside [] s' ∧ ∃ c', f = Stop c' ∧ finished c') s.
Proof.
  intros Hs Hc. eapply wp_mono.
  { eapply flow_then_wp; [by apply direct_wp|]. intros c1 s1 Hs1 Hc1.
    eapply flow_then_wp; [by apply single_wp|]. intros c2 s2 Hs2 Hc2.
    eapply flow_then_wp; [by apply double_wp|]. intros c3 s3 Hs3 Hc3. by apply triple_wp. }
  cbn beta. intros [c'|c'|e c'] s' [Hs' Hf]; [|by eauto|done].
  apply at_block_window in Hf. unfold BLOCK_SIZE in Hf. lia.
Qed.
End read_file.

(** The number of bytes a read can deliver. *)
Definition window (inode : Inode) (offset : Z) (out : list Z) : Z :=
  Z.max 0 (Z.min (Z.of_nat (length out) mod 2 ^ 32) (size inode - offset)).

(** The four scratch pages of [read_file]. *)
Section buffers.
Context {St : Type} `{FrameAllocatorLaws St} `{!BlockReader St} `{!BlockReaderLaws St}.

Definition four (b1 b2 b3 b4 : Z) (h : gmap Z Z) : gmap Z Z :=
  <[b4:=1]> (<[b3:=1]> (<[b2:=1]> (<[b1:=1]> h))).

Lemma four_buffers {A} E (oom : A) body (s : St) h d n Q :
  world s h d → fa_room s (S (S (S (S (S n))))) →
  (∀ b1 b2 b3 b4 s1,
     let h1 := four b1 b2 b3 b4 h in
     world s1 h1 d → fa_room s1 (S n) → stays h d (fa_ram s) (fa_ram s1) → h ⊆ h1 →
     NoDup [b1; b2; b3; b4] →
     (∀ b, b ∈ [b1; b2; b3; b4] → h1 !! b = Some 1 ∧ d !! b = None ∧ h !! b = None) →
     wp E (body b1 b2 b3 b4) (λ a s2, world s2 h1 d ∧ fa_room s2 (S n) ∧
       stays h d (fa_ram s) (fa_ram s2) ∧ Q a) s1) →
  wp E (with_buffer BLOCK_SIZE oom (λ b1, with_buffer BLOCK_SIZE oom (λ b2,
        with_buffer BLOCK_SIZE oom (λ b3, with_buffer BLOCK_SIZE oom (λ b4,
          body b1 b2 b3 b4)))))
    (λ a s', world s' h d ∧ fa_room s' (S (S (S (S (S n))))) ∧
       stays h d (fa_ram s) (fa_ram s') ∧ Q a) s.
Proof.
  intros Hw Hroom Hbody. assert (Hd : d ⊆ h) by apply Hw.
  apply with_buffer_ok; [done..|]. intros b1 s1 Hb1 Hw1 Hr1 Hm1.
  apply with_buffer_ok; [done..|]. intros b2 s2 Hb2 Hw2 Hr2 Hm2.
  apply with_buffer_ok; [done..|]. intros b3 s3 Hb3 Hw3 Hr3 Hm3.
  apply with_buffer_ok; [done..|]. intros b4 s4 Hb4 Hw4 Hr4 Hm4.
  rewrite Hm3, Hm2, Hm1 in Hm4.
  apply lookup_insert_None in Hb2 as [Hb2 Hn12].
  apply lookup_insert_None in Hb3 as [Hb3 Hn23]. apply lookup_insert_None in Hb3 as [Hb3 Hn13].
  apply lookup_insert_None in Hb4 as [Hb4 Hn34]. apply lookup_insert_None in Hb4 as [Hb4 Hn24].
  apply lookup_insert_None in Hb4 as [Hb4 Hn14].
  apply Hbody; try done.
  - by rewrite Hm4.
  - unfold four.
    repeat (etrans; [|apply insert_subseteq; rewrite ?lookup_insert_ne by done; done]). done.
  - rewrite !list.NoDup_cons, !elem_of_cons. split_and!; try apply base.NoDup_nil_2;
      intros Hin; destruct_or? Hin; try congruence; by apply not_elem_of_nil in Hin.
  - intros b Hin. rewrite !elem_of_cons in Hin.
    assert (Hhb : h !! b = None).
    { destruct_or? Hin; try congruence. by apply not_elem_of_nil in Hin. }
    split_and!; [|by apply (owned_not_fresh d h)|done].
    unfold four. rewrite !lookup_insert. repeat case_decide; try done.
    destruct_or? Hin; try congruence. by apply not_elem_of_nil in Hin.
Qed.
End buffers.

Section read_file_dense.
Context `{Profile} {St : Type} `{FrameAllocatorLaws St}.
Context `{!BlockReader St} `{!BlockReaderLaws St}.

Lemma read_file_wp E (s : St) h d n fs inode offset out :
  let want := window inode offset out in
  world s h d → fa_room s (S (S (S (S (S n))))) → wf_inode inode → 0 <= offset < 2 ^ 32 →
  dense (dev fs) inode (offset + want) →
  wp E (read_file fs inode offset out) (λ r s',
    world s' h d ∧ fa_room s' (S (S (S (S (S n))))) ∧ stays h d (fa_ram s) (fa_ram s') ∧
    r = (Ok want, filled fs inode offset out want)) s.
Proof.
  intros want Hw Hroom Hino Hoff Hdense. unfold read_file.
  assert (Hnil : filled fs inode offset out 0 = out) by done.
  case_match eqn:Hsz.
  { apply Z.leb_le in Hsz. assert (Hwant : want = 0) by (unfold want, window; lia).
    apply wp_ret. rewrite Hwant, Hnil. split_and!; try done. }
  apply Z.leb_gt in Hsz.
  pose proof (Z.mod_pos_bound (Z.of_nat (length out)) (2 ^ 32) ltac:(lia)) as Hmod.
  replace (Z.min (Z.of_nat (length out) mod 2 ^ 32) (size inode - offset)) with want
    by (unfold want, window; lia).
  case_match eqn:Hw0.
  { apply Z.eqb_eq in Hw0. apply wp_ret. rewrite Hw0, Hnil. split_and!; try done. }
  apply Z.eqb_neq in Hw0.
  assert (Hb : 0 < want ∧ want <= Z.of_nat (length out) ∧ want <= size inode - offset).
  { pose proof (Z.mod_le (Z.of_nat (length out)) (2 ^ 32)). unfold want, window in *. lia. }
  apply four_buffers; [done..|].
  intros b1 b2 b3 b4 s1 h1 Hw1 Hr1 Hst1 Hsub1 Hnd Hlive. apply wp_bind. eapply wp_mono.
  - apply (read_zones_wp fs inode offset (offset + want) out h1 h d (fa_ram s) n b1 b2 b3 b4);
      try done; try lia.
    + destruct Hino as (_ & _ & ?). lia.
    + split_and!; cbn; try done; unfold BLOCK_SIZE; lia.
  - cbn beta. intros f s5 [(Hw5 & Hr5 & Hst5 & _) (c & -> & Hwr & Hou)]. apply wp_ret.
    split_and!; try done. cbn. rewrite Hou, Hwr.
    by replace (offset + want - offset) with want by lia.
Qed.
End read_file_dense.

(** ** [read_file] on any image

    Whatever the image and the inode hold, a call that returns has given its
    four pages back, has left the caller's other memory alone and reports at
    most the length of the slice. *)

Definition image_fault (f : fault) : Prop := f = FPanic POverflow ∨ f = FUndefined.

Section read_file_any.
Context `{Profile} {St : Type} `{FrameAllocatorLaws St}.
Context `{!BlockReader St} `{!BlockReaderLaws St}.
Context (fs : Fs) (inode : Inode) (end_ : Z) (len : nat).
Context (h hc d m0 : gmap Z Z) (nroom : nat) (block ind dind tind : Z).
Context (Hinode : wf_inode inode).
Context (Hlive : ∀ b, b ∈ [block; ind; dind; tind] →
  h !! b = Some 1 ∧ d !! b = None ∧ hc !! b = None).
Context (Hsub : hc ⊆ h).

Definition sound (s : St) : Prop :=
  world s h d ∧ fa_room s (S nroom) ∧ stays hc d m0 (fa_ram s).
Definition in_slice (c : cursor) : Prop :=
  length (out c) = len ∧ 0 <= written c <= Z.of_nat len.
Definition flow_in_slice (f : flow) : Prop :=
  match f with Go c | Stop c | Fail _ c => in_slice c end.

Abbreviation wpi m := (wp image_fault m (λ f s', sound s' ∧ flow_in_slice f)).

Lemma checked_fault {A} w z (k : Z → M St A) Q s :
  0 <= w → (∀ v, 0 <= v < 2 ^ w → (0 <= z → v <= z) → wp image_fault (k v) Q s) →
  wp image_fault (checked w z ≫= k) Q s.
Proof. intros Hw Hk. apply wp_bind, wp_checked_any; [done|by left|done]. Qed.

Lemma load_any s buf z :
  sound s → buf ∈ [block; ind; dind; tind] → 0 <= z < 2 ^ 32 →
  wp image_fault (bd_read (dev fs) buf BLOCK_SIZE (z * BLOCK_SIZE)) (λ _ s', sound s') s.
Proof.
  intros (Hw & Hroom & Hst) Hin Hz. destruct (Hlive buf Hin) as (Hb & Hdb & Hcb).
  eapply wp_mono.
  { eapply read_block_wp; [done..| |]; [by exists z|unfold BLOCK_SIZE; lia]. }
  cbn beta. intros ok s' (-> & Hw' & Hroom' & Hk & Hh). split_and!; auto.
  eapply stays_trans; [exact Hst|]. by apply (kept_stays d h hc buf).
Qed.

Lemma copy_zone_any s z c :
  sound s → in_slice c → 0 <= z < 2 ^ 32 → wpi (copy_zone fs end_ block z c) s.
Proof.
  intros Hs Hc Hz. unfold copy_zone. case_match.
  { apply checked_fault; [lia|]. intros v _ _. apply wp_ret. split; [done|].
    cbv zeta. by case_match. }
  apply checked_fault; [lia|]. intros be _ _. case_match; [by apply wp_ret|].
  apply wp_bind. eapply wp_mono; [apply load_any; [done|by left|done]|].
  cbn beta. intros ok s' Hs'. destruct ok; cbn [negb]; [|by apply wp_ret].
  do 3 (apply checked_fault; [lia|]; intros ? ? ?).
  apply wp_bind. unfold copy_out. case_match eqn:Hb; [|by right].
  apply andb_prop in Hb as [_ Hb]. apply Z.leb_le in Hb.
  destruct Hc as [Hlen Hwr]. apply wp_bind, wp_gets, wp_ret.
  do 2 (apply checked_fault; [lia|]; intros ? ? ?).
  apply wp_ret. split; [done|]. set (o := take _ _ ++ _).
  assert (Ho : length o = len).
  { unfold o. rewrite !length_app, bytes_from_length, length_take, length_drop. lia. }
  cbn [cur_offset]. case_match; split; cbn; lia.
Qed.

Lemma advance_any s n c k :
  (∀ c', in_slice c' → wpi (k c') s) → in_slice c → wpi (advance n c ≫= k) s.
Proof.
  intros Hk Hc. unfold advance. apply wp_bind.
  apply checked_fault; [lia|]. intros v _ _. apply wp_ret. by apply Hk.
Qed.

Lemma flow_then_any m k s :
  wpi m s → (∀ c s', sound s' → in_slice c → wpi (k c) s') → wpi (flow_then m k) s.
Proof.
  intros Hm Hk. apply wp_bind. eapply wp_mono; [exact Hm|]. cbn beta.
  intros [c|c|e c] s' [Hs Hf]; [by apply Hk|by apply wp_ret..].
Qed.

Lemma zone_loop_any get idx s c :
  (∀ i s, i ∈ idx → ∃ z, get i s = Done (z, s) ∧ 0 <= z < 2 ^ 32) →
  sound s → in_slice c → wpi (zone_loop fs end_ block get idx c) s.
Proof.
  revert s c. induction idx as [|i idx IH]; intros s c Hget Hs Hc; cbn [zone_loop].
  { by apply wp_ret. }
  case_match; [by apply wp_ret|].
  destruct (Hget i s ltac:(by left)) as (z & Ez & Hz).
  apply wp_bind. eapply wp_done; [exact Ez|].
  apply flow_then_any; [by apply copy_zone_any|]. intros c1 s1 Hs1 Hc1.
  apply advance_any; [|done]. intros c2 Hc2. apply IH; try done.
  intros j s2 Hj. apply Hget. by right.
Qed.

Lemma ptr_any buf i s : ∃ z, ptr_at buf i s = Done (z, s) ∧ 0 <= z < 2 ^ 32.
Proof. eexists. split; [reflexivity|]. apply u32_range, byte_at_byteful. Qed.

Lemma fetch_any s z buf c k :
  sound s → in_slice c → buf ∈ [block; ind; dind; tind] → 0 <= z < 2 ^ 32 →
  (∀ s', sound s' → wpi k s') → wpi (fetch fs z buf c k) s.
Proof.
  intros Hs Hc Hb Hz Hk. unfold fetch, read_indirect_zone. apply wp_bind, wp_bind.
  eapply wp_mono; [by apply load_any|]. cbn beta. intros [] s' Hs'; apply wp_ret; cbn;
    [by apply Hk|]. by split.
Qed.

Lemma table_loop_any buf sub span brk inner idx s c :
  (∀ s c, sound s → in_slice c → wpi (inner c) s) → sub ∈ [block; ind; dind; tind] →
  sound s → in_slice c → wpi (table_loop fs end_ buf sub span brk inner idx c) s.
Proof.
  intros Hin Hsub'. revert s c. induction idx as [|i idx IH]; intros s c Hs Hc; cbn [table_loop].
  { by apply wp_ret. }
  destruct (ptr_any buf i s) as (z & Ez & Hz). apply wp_bind. eapply wp_done; [exact Ez|].
  case_match.
  - apply advance_any; [|done]. intros c1 Hc1. case_match; [by apply wp_ret|by apply IH].
  - apply flow_then_any; [|by auto]. apply fetch_any; auto.
Qed.

(** One of the three indirect sections. *)
Lemma root_zone_any (i : nat) (k : Z → M St flow) s :
  (i < 10)%nat → (∀ z, 0 <= z < 2 ^ 32 → wpi (k z) s) →
  wpi (index (zones inode) i ≫= k) s.
Proof.
  intros Hi Hk. apply wp_bind. eapply wp_index; [by apply root_zone_index|].
  apply Hk. by apply root_zone_range.
Qed.

Lemma zone_table_any buf s c :
  sound s → in_slice c → wpi (zone_table fs end_ block buf c) s.
Proof. intros. apply zone_loop_any; [|done..]. intros i s' _. apply ptr_any. Qed.

Lemma double_table_any brk s c :
  sound s → in_slice c → wpi (double_table fs end_ block brk dind ind c) s.
Proof. intros. apply table_loop_any; [|by right; left|done..]. apply zone_table_any. Qed.

Lemma read_zones_any s c :
  sound s → in_slice c → wpi (read_zones fs inode end_ block ind dind tind c) s.
Proof.
  intros Hs Hc. unfold read_zones.
  apply flow_then_any.
  { apply zone_loop_any; [|done..]. intros i s' Hi. apply elem_of_seq in Hi.
    unfold NUM_DIRECT_ZONES in Hi. eexists. split; [|by apply (root_zone_range inode i)].
    apply index_some, root_zone_index; [done|lia]. }
  clear s c Hs Hc. intros c s Hs Hc. apply flow_then_any.
  { apply root_zone_any; [unfold NUM_DIRECT_ZONES; lia|]. intros z Hz. case_match.
    - apply fetch_any; try done; [by right; left|]. intros. by apply zone_table_any.
    - apply advance_any; [|done]. intros. by apply wp_ret. }
  clear s c Hs Hc. intros c s Hs Hc. apply flow_then_any.
  { apply root_zone_any; [unfold NUM_DIRECT_ZONES; lia|]. intros z Hz.
    case_match; [|by apply wp_ret].
    apply fetch_any; try done; [by right; right; left|]. intros. by apply double_table_any. }
  clear s c Hs Hc. intros c s Hs Hc.
  apply root_zone_any; [unfold NUM_DIRECT_ZONES; lia|]. intros z Hz.
  case_match; [|by apply wp_ret].
  apply fetch_any; try done; [by right; right; right; left|]. intros.
  apply table_loop_any; [apply double_table_any|by right; right; left|done..].
Qed.
End read_file_any.

Lemma read_file_any `{Profile} {St : Type} `{FrameAllocatorLaws St}
    `{!BlockReader St} `{!BlockReaderLaws St} (s : St) h d n fs inode offset out :
  world s h d → fa_room s (S (S (S (S (S n))))) → wf_inode inode →
  wp image_fault (read_file fs inode offset out) (λ r s',
    world s' h d ∧ fa_room s' (S (S (S (S (S n))))) ∧ stays h d (fa_ram s) (fa_ram s') ∧
    length r.2 = length out ∧
    (∀ w, r.1 = Ok w → 0 <= w <= Z.of_nat (length out))) s.
Proof.
  intros Hw Hroom Hino. unfold read_file.
  assert (Hzero : ∀ w, Ok (E:=FsError) 0 = Ok w → 0 <= w <= Z.of_nat (length out))
    by (intros w [= <-]; lia).
  case_match; [apply wp_ret; split_and!; try done|].
  case_match; [apply wp_ret; split_and!; try done|].
  apply four_buffers; [done..|].
  intros b1 b2 b3 b4 s1 h1 Hw1 Hr1 Hst1 Hsub1 Hnd Hlive. apply wp_bind. eapply wp_mono.
  - apply (read_zones_any fs inode _ (length out) h1 h d (fa_ram s) n b1 b2 b3 b4); try done.
    split; cbn; lia.
  - cbn beta. intros f s2 [(Hw2 & Hr2 & Hst2) Hf]. apply wp_ret. split_and!; try done.
    + destruct f; apply Hf.
    + intros w Hok. destruct f; cbn in Hok; simplify_eq; apply Hf.
Qed.

(** ** Properties of the file system *)

Section properties.
Context `{Profile} {St : Type} `{FrameAllocatorLaws St}.
Context `{!BlockReader St} `{!BlockReaderLaws St}.

(** C24. [mount] succeeds exactly when block 1 can be read and carries the
    Minix 3 magic, returns that superblock, and otherwise reports which of
    the two failed; on every branch its buffer is given back and no memory
    of the caller changes. *)
Theorem mount_decodes_superblock (s : St) h d n dv :
  world s h d → fa_room s (2 + n) →
  ∃ s', mount dv s = Done (mount_result dv, s') ∧ world s' h d ∧ fa_room s' (2 + n) ∧
    stays h d (fa_ram s) (fa_ram s').
Proof.
  intros Hw Hroom. pose proof (mount_wp none s h d n dv Hw Hroom) as Hwp.
  apply wp_none in Hwp as (r & s' & E & ? & ? & ? & ->). eauto.
Qed.

(** C23. [read_inode] rejects number 0 and numbers above [ninodes], and
    otherwise returns the 64 bytes of the inode table that belong to the
    inode, however the two bitmaps shift the table; the record never
    straddles the block it reads. *)
Theorem read_inode_decodes_table (s : St) h d n fs num :
  world s h d → fa_room s (2 + n) → wf_sb (sb fs) → 0 <= num < 2 ^ 32 →
  ∃ s', read_inode fs num s = Done (read_inode_result fs num, s') ∧ world s' h d ∧
    fa_room s' (2 + n) ∧ stays h d (fa_ram s) (fa_ram s').
Proof.
  intros Hw Hroom Hsb Hn. pose proof (read_inode_wp none s h d n fs num Hw Hroom Hsb Hn) as Hwp.
  apply wp_none in Hwp as (r & s' & E & ? & ? & ? & ->). eauto.
Qed.

(** C10. [read_file] on a file with no hole and no bad sector below the end of
    the window returns, through direct, single, double and triple indirect
    zones alike, exactly the bytes of the file in the window, clipped to the
    file's size and to the slice; it always terminates, leaves the rest of
    the slice alone and gives back its four buffers. *)
Theorem read_file_returns_window (s : St) h d n fs inode offset out :
  let want := window inode offset out in
  world s h d → fa_room s (5 + n) → wf_inode inode → 0 <= offset < 2 ^ 32 →
  dense (dev fs) inode (offset + want) →
  ∃ s', read_file fs inode offset out s =
      Done ((Ok want, bytes_from (file_byte (dev fs) inode) offset (Z.to_nat want)
                      ++ drop (Z.to_nat want) out), s') ∧
    world s' h d ∧ fa_room s' (5 + n) ∧ stays h d (fa_ram s) (fa_ram s').
Proof.
  intros want Hw Hroom Hi Ho Hd.
  pose proof (read_file_wp none s h d n fs inode offset out Hw Hroom Hi Ho Hd) as Hwp.
  apply wp_none in Hwp as (r & s' & E & ? & ? & ? & ->). eauto.
Qed.

(** C22. On an arbitrary, possibly corrupt image [read_file] never runs
    forever, and whenever it returns, with a count or an error, its four
    buffers are free again, the caller's other memory is intact, the slice
    keeps its length and the count does not exceed it; the only other
    outcomes are an arithmetic overflow panic and an access outside the
    slice. *)
Theorem read_file_on_any_image (s : St) h d n fs inode offset out :
  world s h d → fa_room s (5 + n) → wf_inode inode →
  match read_file fs inode offset out s with
  | Done ((r, out'), s') =>
      world s' h d ∧ fa_room s' (5 + n) ∧ stays h d (fa_ram s) (fa_ram s') ∧
      length out' = length out ∧ (∀ w, r = Ok w → 0 <= w <= Z.of_nat (length out))
  | Panic p => p = POverflow
  | Undefined => True
  | Diverge => False
  end.
Proof.
  intros Hw Hroom Hi. pose proof (read_file_any s h d n fs inode offset out Hw Hroom Hi) as Hwp.
  unfold wp in Hwp. destruct (read_file fs inode offset out s) as [[[r o] s']|p| |].
  - exact Hwp.
  - by destruct Hwp as [[= ->]|E].
  - done.
  - by destruct Hwp as [E|E].
Qed.
End properties.
