(* ===== verification/Minix3Holes.v ===== *)
(** * Files with holes

    A zone pointer of 0 is a hole, and POSIX reads it as zeros.  What
    [read_file] does with one instead: it neither writes nor counts the bytes
    of the hole, so the blocks behind it move to the front of the slice. *)

From S2P Require Import Prelude Frames Bytes BlockDev Minix3 Minix3Read.

#[local] Open Scope Z_scope.

Section holes.
Context `{Profile} {St : Type} `{FrameAllocatorLaws St}.
Context `{!BlockReader St} `{!BlockReaderLaws St}.
Context (fs : Fs) (inode : Inode).

(** What a read of the first [e] bytes takes of direct block [k], and of the
    blocks below [k]. *)
Definition piece (e : Z) (k : nat) : list Z :=
  if root_zone inode k =? 0 then []
  else bytes_from (bd_disk (dev fs)) (root_zone inode k * BLOCK_SIZE)
         (Z.to_nat (Z.min BLOCK_SIZE (e - Z.of_nat k * BLOCK_SIZE))).
Definition packed (e : Z) (k : nat) : list Z := concat (piece e <$> seq 0 k).

(** Every direct block below [e] is a hole or can be read. *)
Definition readable_or_hole (e : Z) : Prop :=
  ∀ k, (k < 7)%nat → Z.of_nat k * BLOCK_SIZE < e →
    root_zone inode k = 0 ∨ readable_zone (dev fs) (root_zone inode k).

Lemma packed_S e k : packed e (S k) = packed e k ++ piece e k.
Proof. unfold packed. rewrite seq_S, fmap_app, concat_app. cbn. by rewrite app_nil_r. Qed.

Lemma piece_length e k :
  Z.of_nat k * BLOCK_SIZE < e →
  Z.of_nat (length (piece e k)) =
  if root_zone inode k =? 0 then 0 else Z.min BLOCK_SIZE (e - Z.of_nat k * BLOCK_SIZE).
Proof.
  intros Hk. unfold piece. destruct (_ =? 0); [done|]. rewrite bytes_from_length. unfold BLOCK_SIZE in *. lia.
Qed.

(** Never more than the window, and less as soon as it has a hole. *)
Lemma packed_length e k :
  (∀ j, (j < k)%nat → Z.of_nat j * BLOCK_SIZE < e) →
  Z.of_nat (length (packed e k)) <= Z.min e (Z.of_nat k * BLOCK_SIZE) `max` 0 ∧
  ((∃ j, (j < k)%nat ∧ root_zone inode j = 0) → Z.of_nat (length (packed e k)) < Z.min e (Z.of_nat k * BLOCK_SIZE)).
Proof.
  induction k as [|k IH]; intros He.
  { cbn. split; [lia|]. intros (j & ? & _). lia. }
  destruct IH as [Hle Hlt]; [auto|]. pose proof (He k ltac:(lia)) as Hk.
  rewrite packed_S, length_app, Nat2Z.inj_add, piece_length by done. unfold BLOCK_SIZE in *.
  split; [destruct (_ =? 0); lia|]. intros (j & Hj & Hz).
  destruct (decide (j = k)) as [->|Hne].
  - rewrite Hz. cbn. lia.
  - assert (Hh : ∃ j, (j < k)%nat ∧ root_zone inode j = 0) by (exists j; split; [lia|done]).
    specialize (Hlt Hh). destruct (_ =? 0); lia.
Qed.

Section loop.
Context (e : Z) (out0 : list Z) (h hc d m0 : gmap Z Z) (nroom : nat) (block ind dind tind : Z).
Context (Hinode : wf_inode inode) (He : 0 < e <= 7 * BLOCK_SIZE) (Hout : e <= Z.of_nat (length out0)).
Context (Hzones : readable_or_hole e).
Context (Hlive : ∀ b, b ∈ [block; ind; dind; tind] → h !! b = Some 1 ∧ d !! b = None ∧ hc !! b = None).
Context (Hsub : hc ⊆ h).

Abbreviation sound s := (sound (St:=St) h hc d m0 nroom s).

(** The slice after [l] was written to its front. *)
Definition fronted (l : list Z) (c : cursor) : Prop :=
  written c = Z.of_nat (length l) ∧ out c = l ++ drop (length l) out0.

Definition at_piece (k : nat) (c : cursor) : Prop :=
  logical c = Z.of_nat k * BLOCK_SIZE ∧ cur_offset c = logical c ∧ cur_offset c < e ∧
  fronted (packed e k) c.

Definition done_with (k : nat) (f : flow) : Prop :=
  match f with
  | Go c => logical c = Z.of_nat k * BLOCK_SIZE ∧ cur_offset c = logical c + BLOCK_SIZE ∧
      cur_offset c < e ∧ fronted (packed e (S k)) c
  | Stop c => (e <= Z.of_nat (S k) * BLOCK_SIZE) ∧ fronted (packed e (S k)) c
  | Fail _ _ => False
  end.

Lemma copied k c l :
  fronted (packed e k) c → Z.of_nat (length (packed e k)) + Z.of_nat (length l) <= Z.of_nat (length out0) →
  take (Z.to_nat (written c)) (out c) ++ l ++ drop (Z.to_nat (written c + Z.of_nat (length l))) (out c) =
  (packed e k ++ l) ++ drop (length (packed e k ++ l)) out0.
Proof.
  intros [Hw Ho] Hl. rewrite Hw, Ho, <- Nat2Z.inj_add, !Nat2Z.id, take_app_length, length_app, <- app_assoc.
  do 2 f_equal. rewrite drop_app_ge by lia. rewrite drop_drop. f_equal. lia.
Qed.

Lemma copy_piece k s c :
  sound s → (k < 7)%nat → at_piece k c →
  wp none (copy_zone fs e block (root_zone inode k) c) (λ f s', sound s' ∧ done_with k f) s.
Proof.
  intros Hs Hk (Hl & Hc & Hlt & Hf).
  assert (Hke : Z.of_nat k * BLOCK_SIZE < e) by lia. unfold BLOCK_SIZE in Hl, Hke, He.
  pose proof (root_zone_range inode k Hinode) as Hz.
  unfold copy_zone. destruct (Z.eqb_spec (root_zone inode k) 0) as [E|E].
  { apply wp_bind, wp_checked; [unfold BLOCK_SIZE; lia|]. apply wp_ret. split; [done|].
    assert (Hsame : packed e (S k) = packed e k).
    { rewrite packed_S. unfold piece. by rewrite E, app_nil_r. }
    cbn [set_cur cur_offset]. unfold done_with, BLOCK_SIZE. rewrite Hsame.
    destruct (Z.ltb_spec (logical c + 1024) e); cbn; split_and!; try done; try lia; apply Hf. }
  destruct (Hzones k Hk Hke) as [?|Hr]; [done|].
  apply wp_bind, wp_checked; [unfold BLOCK_SIZE; lia|].
  rewrite (proj2 (Z.leb_gt _ _)) by (unfold BLOCK_SIZE; lia).
  pose proof Hs as (Hw & Hroom & Hst). destruct (Hlive block ltac:(by left)) as (Hb & Hdb & Hcb).
  apply wp_bind. eapply wp_mono.
  { eapply (read_block_wp none s h d nroom); [done..| |]; [by exists (root_zone inode k)|unfold BLOCK_SIZE; lia]. }
  cbn beta. intros ok s' (-> & Hw' & Hroom' & Hkept & Hh).
  assert (Hs' : sound s').
  { split_and!; auto. eapply stays_trans; [exact Hst|]. by apply (kept_stays d h hc block). }
  destruct Hr as [_ Hr]. rewrite Hr. specialize (Hh Hr). cbn [negb].
  do 3 (apply wp_bind, wp_checked; [unfold BLOCK_SIZE; lia|]).
  replace (cur_offset c - logical c) with 0 by lia. rewrite Z.sub_0_r.
  pose proof (piece_length e k ltac:(unfold BLOCK_SIZE; lia)) as Hpl. rewrite (proj2 (Z.eqb_neq _ _)) in Hpl by done.
  rewrite Hc, Hl. change (Z.of_nat k * 1024) with (Z.of_nat k * BLOCK_SIZE). rewrite <- Hpl.
  destruct (packed_length e k) as [Hsum _]; [intros j Hj; unfold BLOCK_SIZE; lia|].
  pose proof (proj1 Hf) as Hwr. unfold BLOCK_SIZE in Hpl, Hsum.
  apply wp_bind. unfold copy_out. rewrite (proj2 (andb_true_iff _ _)).
  2: { rewrite PAGE_SIZE_val, !Z.leb_le. split; [lia|]. rewrite (proj2 Hf), length_app, length_drop. lia. }
  apply wp_bind, wp_gets, wp_ret.
  assert (Hbytes : bytes_from (byte_at (fa_ram s')) (block + 0) (Z.to_nat (Z.of_nat (length (piece e k)))) = piece e k).
  { rewrite Nat2Z.id. unfold piece at 2. rewrite (proj2 (Z.eqb_neq _ _)) by done.
    replace (length (piece e k)) with (Z.to_nat (Z.min BLOCK_SIZE (e - Z.of_nat k * BLOCK_SIZE)))
      by (unfold BLOCK_SIZE; lia).
    apply bytes_from_ext. intros i Hi. rewrite Z.add_0_r. apply Hh. unfold BLOCK_SIZE in *. lia. }
  rewrite Hbytes, (copied k c (piece e k) Hf) by lia. rewrite <- packed_S.
  do 2 (apply wp_bind, wp_checked; [unfold BLOCK_SIZE; lia|]). apply wp_ret. split; [done|].
  cbn [cur_offset written out logical]. unfold done_with, fronted, BLOCK_SIZE.
  rewrite packed_S, length_app.
  destruct (Z.ltb_spec (Z.of_nat k * 1024 + Z.of_nat (length (piece e k))) e); cbn; split_and!; try done; lia.
Qed.
(** The loop over the direct zones ends with the window. *)
Lemma direct_pieces n : ∀ k s c,
  (k + n = 7)%nat → sound s → at_piece k c →
  wp none (zone_loop fs e block (λ zi, index (zones inode) zi) (seq k n) c)
    (λ f s', sound s' ∧ ∃ c' b, f = Stop c' ∧ (b < 7)%nat ∧
       Z.of_nat b * BLOCK_SIZE < e <= Z.of_nat (S b) * BLOCK_SIZE ∧ fronted (packed e (S b)) c') s.
Proof.
  induction n as [|n IH]; intros k s c Hkn Hs Hc; cbn [seq zone_loop].
  { destruct Hc as (Hl & Hcur & Hlt & _). unfold BLOCK_SIZE in *. lia. }
  pose proof Hc as (Hl & Hcur & Hlt & _). rewrite (proj2 (Z.leb_gt _ _)) by done.
  apply wp_bind. eapply wp_index; [by apply root_zone_index; [|lia]|].
  apply wp_bind. eapply wp_mono; [by apply copy_piece; [|lia|]|]. cbn beta.
  intros [c1|c1|err c1] s1 [Hs1 Hd]; [|apply wp_ret; split; [done|]|done].
  - destruct Hd as (Hl1 & Hc1 & Hlt1 & Hf1). unfold advance. apply wp_bind, wp_bind, wp_checked.
    { unfold BLOCK_SIZE in *. lia. }
    apply wp_ret, IH; [lia|done|]. split_and!; cbn; try done; unfold BLOCK_SIZE in *; lia.
  - exists c1, k. destruct Hd as [Hend Hf]. unfold BLOCK_SIZE in *. split_and!; try done; lia.
Qed.
End loop.

Lemma read_pieces_wp (s : St) h d n out :
  let e := window inode 0 out in
  world s h d → fa_room s (5 + n) → wf_inode inode → e ≠ 0 →
  e <= 7 * BLOCK_SIZE → readable_or_hole e →
  wp none (read_file fs inode 0 out) (λ r s', world s' h d ∧ fa_room s' (5 + n) ∧
    stays h d (fa_ram s) (fa_ram s') ∧ ∃ b, (b < 7)%nat ∧
    Z.of_nat b * BLOCK_SIZE < e <= Z.of_nat (S b) * BLOCK_SIZE ∧
    r = (Ok (Z.of_nat (length (packed e (S b)))), packed e (S b) ++ drop (length (packed e (S b))) out)) s.
Proof.
  intros e Hw Hroom Hino He0 He Hz.
  pose proof (Z.mod_pos_bound (Z.of_nat (length out)) (2 ^ 32) ltac:(lia)) as Hmod.
  pose proof (Z.mod_le (Z.of_nat (length out)) (2 ^ 32)) as Hmle. unfold read_file.
  rewrite (proj2 (Z.leb_gt _ _)) by (unfold e, window in He0; lia). rewrite Z.sub_0_r, Z.add_0_l.
  replace (Z.min _ _) with e by (unfold e, window in *; lia).
  rewrite (proj2 (Z.eqb_neq _ _)) by done. apply four_buffers; [done..|].
  intros b1 b2 b3 b4 s1 h1 Hw1 Hr1 Hst1 Hsub1 _ Hlive. unfold read_zones.
  apply wp_bind. apply wp_bind. eapply wp_mono.
  { apply (direct_pieces e out h1 h d (fa_ram s) n b1 b2 b3 b4 Hino); try done;
      [unfold e, window in *; lia|unfold e, window in *; lia|].
    split_and!; cbn; try done; unfold BLOCK_SIZE; unfold e, window in *; lia. }
  cbn beta. intros f s2 [(Hw2 & Hr2 & Hst2) (c & b & -> & Hb & Hwin & Hwr & Hou)].
  apply wp_ret, wp_ret. split_and!; try done. exists b. cbn. by rewrite Hwr, Hou.
Qed.

(** C39. Finding: holes are skipped, not read as zeros.  A read from the start
    of a file whose window lies in its direct zones returns the parts of the
    window that are stored, one after the other, and the number of their
    bytes: with a hole anywhere in the window the count is short of the
    window, which is clipped to the file's size, and every block behind the
    hole is delivered at the wrong place.  The buffers are given back and no
    other memory changes. *)
Theorem read_file_skips_holes (s : St) h d n out :
  let e := window inode 0 out in
  world s h d → fa_room s (5 + n) → wf_inode inode →
  e <= 7 * BLOCK_SIZE → readable_or_hole e →
  ∃ b s', let data := packed e b in
    read_file fs inode 0 out s =
      Done ((Ok (Z.of_nat (length data)), data ++ drop (length data) out), s') ∧
    (∀ k, (k < b)%nat ↔ Z.of_nat k * BLOCK_SIZE < e) ∧
    ((∃ k, Z.of_nat k * BLOCK_SIZE < e ∧ root_zone inode k = 0) → Z.of_nat (length data) < e) ∧
    world s' h d ∧ fa_room s' (5 + n) ∧ stays h d (fa_ram s) (fa_ram s').
Proof.
  intros e Hw Hroom Hino He Hz.
  pose proof (Z.mod_pos_bound (Z.of_nat (length out)) (2 ^ 32) ltac:(lia)) as Hmod.
  assert (Hz0 : e = 0 → read_file fs inode 0 out s = Done ((Ok 0, out), s)).
  { intros He0. unfold read_file. destruct (Z.leb_spec (size inode) 0) as [|Hsz]; [done|].
    replace (Z.min _ _) with 0 by (unfold e, window in He0; lia). done. }
  destruct (Z.eq_dec e 0) as [He0|He0].
  { exists 0%nat, s. cbn. split_and!; try done; [by apply Hz0| |].
    - intros k. unfold BLOCK_SIZE. lia.
    - intros (k & Hk & _). unfold BLOCK_SIZE in Hk. lia. }
  pose proof (read_pieces_wp s h d n out Hw Hroom Hino He0 He Hz) as Hwp.
  apply wp_none in Hwp as (r & s' & E & Hw' & Hr' & Hst' & b & Hb & Hwin & ->).
  exists (S b), s'. split; [exact E|]. unfold BLOCK_SIZE in *.
  assert (Hk : ∀ k, (k < S b)%nat ↔ Z.of_nat k * 1024 < e) by lia.
  split; [exact Hk|]. split; [|done]. intros (k & Hke & Hk0).
  destruct (packed_length e (S b)) as [_ Hlt]; [unfold BLOCK_SIZE; apply Hk|].
  unfold BLOCK_SIZE in Hlt. specialize (Hlt (ex_intro _ k (conj (proj2 (Hk k) Hke) Hk0))). lia.
Qed.
End holes.
