(* ===== verification/Virtio.v ===== *)
(** * The VirtIO block driver: [src/src/drivers/virtio]

    [spec.rs] (register offsets, ring layouts), [device.rs] (queue state,
    descriptor chains, the status handshake, requests, completion) and
    [bus.rs] (the probe of the eight MMIO slots).

    The rings and the request blocks live in physical memory at the offsets
    of their [repr(C)] layouts.  The device behind the MMIO registers is not
    part of the kernel: it is a parameter, the class [Host], that answers
    register accesses (an access may fault) and may change memory between
    two polls of the driver. *)

From Stdlib Require Import String.
From S2P Require Import Prelude Fmt Frames Bytes.

#[local] Open Scope Z_scope.

(** ** [spec.rs] *)

Definition MMIO_VIRTIO_START : Z := 0x10001000.
Definition MMIO_VIRTIO_END : Z := 0x10008000.
Definition MMIO_VIRTIO_STRIDE : Z := 0x1000.
Definition MMIO_VIRTIO_MAGIC : Z := 0x74726976.
Definition VIRTIO_MMIO_IRQ_BASE : Z := 1.
Definition VIRTIO_RING_SIZE : Z := 8.
Definition VIRTIO_DESC_F_NEXT : Z := 1.
Definition VIRTIO_DESC_F_WRITE : Z := 2.
Definition VIRTIO_BLK_T_IN : Z := 0.
Definition VIRTIO_BLK_T_OUT : Z := 1.
Definition VIRTIO_BLK_F_RO : Z := 5.
Definition VIRTIO_ACKNOWLEDGE : Z := 1.
Definition VIRTIO_DRIVER : Z := 2.
Definition VIRTIO_DRIVER_OK : Z := 4.
Definition VIRTIO_FEATURES_OK : Z := 8.
Definition VIRTIO_FAILED : Z := 128.
Definition VIRTIO_DEVICE_BLOCK : Z := 2.
Definition VIRTIO_DEVICE_ENTROPY : Z := 4.

Inductive MmioOffsets : Type :=
| MagicValue | Version | DeviceId | VendorId | HostFeatures | HostFeaturesSel
| GuestFeatures | GuestFeaturesSel | GuestPageSize | QueueSel | QueueNumMax
| QueueNum | QueueAlign | QueuePfn | QueueNotify | InterruptStatus
| InterruptAck | Status | Config.

Definition val (o : MmioOffsets) : Z :=
  match o with
  | MagicValue => 0x000 | Version => 0x004 | DeviceId => 0x008 | VendorId => 0x00c
  | HostFeatures => 0x010 | HostFeaturesSel => 0x014 | GuestFeatures => 0x020
  | GuestFeaturesSel => 0x024 | GuestPageSize => 0x028 | QueueSel => 0x030
  | QueueNumMax => 0x034 | QueueNum => 0x038 | QueueAlign => 0x03c
  | QueuePfn => 0x040 | QueueNotify => 0x050 | InterruptStatus => 0x060
  | InterruptAck => 0x064 | Status => 0x070 | Config => 0x100
  end.
Definition scaled (o : MmioOffsets) (scale : Z) : Z := val o / scale.
Definition scale32 (o : MmioOffsets) : Z := scaled o 4.

(** [ptr.add(off.scale32())] for a pointer to 32-bit registers. *)
Definition reg (ptr : Z) (o : MmioOffsets) : Z := ptr + 4 * scale32 o.

Definition align_up (value align : Z) : Z :=
  Z.land (value + align - 1) (Z.lnot (align - 1)).

(** Sizes of [Descriptor], [AvailRing], [UsedRing], [Header]. *)
Definition DESC_SIZE : Z := 16.
Definition virtqueue_desc_bytes : Z := DESC_SIZE * VIRTIO_RING_SIZE.
Definition virtqueue_avail_bytes : Z := 2 + 2 + 2 * VIRTIO_RING_SIZE + 2.
Definition virtqueue_used_bytes : Z := 2 + 2 + 8 * VIRTIO_RING_SIZE + 2 + 2.
Definition HEADER_SIZE : Z := 16.

Record Descriptor : Type := { d_addr : Z; d_len : Z; d_flags : Z; d_next : Z }.

Definition descriptor_at (f : Z → Z) (a : Z) : Descriptor := {|
  d_addr := u64_at f a; d_len := u32_at f (a + 8);
  d_flags := u16_at f (a + 12); d_next := u16_at f (a + 14) |}.
Definition put_descriptor (a : Z) (d : Descriptor) (m : gmap Z Z) : gmap Z Z :=
  put_le 2 (a + 14) (d_next d) (put_le 2 (a + 12) (d_flags d)
    (put_le 4 (a + 8) (d_len d) (put_le 8 a (d_addr d) m))).

(** Fields of the rings. *)
Definition avail_idx_addr (avail : Z) : Z := avail + 2.
Definition avail_ring_addr (avail i : Z) : Z := avail + 4 + 2 * i.
Definition used_idx_addr (used : Z) : Z := used + 2.
Definition used_elem_addr (used i : Z) : Z := used + 4 + 8 * i.

(** Fields of [Request] (header, data pointer, status byte). *)
Definition status_addr (req : Z) : Z := req + 24.
Definition put_request (req blktype sector data status : Z) (m : gmap Z Z) : gmap Z Z :=
  put_byte (status_addr req) status (put_le 8 (req + 16) data
    (put_le 8 (req + 8) sector (put_le 4 (req + 4) 0 (put_le 4 req blktype m)))).

(** ** [device.rs]: state *)

Definition MAX_VIRTIO_DEVICES : nat := 8.
Definition STATUS_PENDING : Z := 0xff.

Inductive DeviceType : Type := Block | Entropy | Unknown.

Record QueueState : Type := mk_queue {
  desc : Z; avail : Z; used : Z; free : list bool; req_head : list Z }.
Definition QueueState_empty : QueueState :=
  mk_queue 0 0 0 (replicate (Z.to_nat VIRTIO_RING_SIZE) true)
    (replicate (Z.to_nat VIRTIO_RING_SIZE) 0).

Record BlockDevice : Type := mk_block {
  bdev : Z; queue : QueueState; ack_used_idx : Z; read_only : bool }.
Definition BlockDevice_empty : BlockDevice := mk_block 0 QueueState_empty 0 false.

Definition irq (b : BlockDevice) : option Z :=
  if bdev b =? 0 then None
  else let slot := Z.shiftr (bdev b - MMIO_VIRTIO_START) 12 in
       Some (VIRTIO_MMIO_IRQ_BASE + slot).

Definition dev_slot_from_ptr (ptr : Z) : nat :=
  Z.to_nat (Z.shiftr (ptr - MMIO_VIRTIO_START) 12).

Definition set_queue (q : QueueState) (b : BlockDevice) : BlockDevice :=
  mk_block (bdev b) q (ack_used_idx b) (read_only b).
Definition set_ack (i : Z) (b : BlockDevice) : BlockDevice :=
  mk_block (bdev b) (queue b) i (read_only b).
Definition set_free (l : list bool) (q : QueueState) : QueueState :=
  mk_queue (desc q) (avail q) (used q) l (req_head q).
Definition set_req_head (l : list Z) (q : QueueState) : QueueState :=
  mk_queue (desc q) (avail q) (used q) (free q) l.

(** The device side.  [None] is an access fault. *)
Class Host (T : Type) := {
  host_read : Z → T → option Z * T;
  host_write : Z → Z → T → option T;
  host_tick : T → gmap Z Z → T * gmap Z Z }.

Class Console (S : Type) := { print : string → list arg → M S unit }.

Record virtio (T : Type) : Type := mk_virtio {
  BLOCK_DEVICES : list BlockDevice;
  VIRTIO_DEVICES : list (option DeviceType);
  ACCESS_FAULT_SEEN : bool;
  host : T }.
Arguments mk_virtio {T}.
Arguments BLOCK_DEVICES {T}.
Arguments VIRTIO_DEVICES {T}.
Arguments ACCESS_FAULT_SEEN {T}.
Arguments host {T}.

Definition virtio_init {T} (t : T) : virtio T :=
  mk_virtio (replicate MAX_VIRTIO_DEVICES BlockDevice_empty)
    (replicate MAX_VIRTIO_DEVICES None) false t.

(** ** Descriptor chains *)

(** The scan of [alloc_desc_chain]: descriptors taken so far are in [out];
    the flag says that three were found. *)
Fixpoint scan_free (idx : list nat) (free : list bool) (out : list nat)
    : bool * list bool * list nat :=
  match idx with
  | [] => (false, free, out)
  | i :: idx' =>
      if default false (free !! i) then
        let free := <[i := false]> free in
        let out := out ++ [i] in
        if (length out =? 3)%nat then (true, free, out) else scan_free idx' free out
      else scan_free idx' free out
  end.

Definition alloc_desc_chain (q : QueueState) : option (list nat) * QueueState :=
  match scan_free (seq 0 (Z.to_nat VIRTIO_RING_SIZE)) (free q) [] with
  | (true, l, out) => (Some out, set_free l q)
  | (false, l, out) => (None, set_free (foldl (λ l i, <[i := true]> l) l out) q)
  end.

Section driver.
Context `{Profile} {St T : Type} `{FrameAllocator St} `{Lens St (virtio T)} `{Host T}.
Context `{Console St}.

Definition memory : M St (Z → Z) := gets (λ s, byte_at (fa_ram s)).
Definition write_mem (f : gmap Z Z → gmap Z Z) : M St unit :=
  modify (λ s, fa_set_ram (f (fa_ram s)) s).

(** The loop of [free_desc_chain].  The chain is read from memory the loop
    does not change, so nine rounds over eight descriptors revisit one and
    never end. *)
Fixpoint free_chain_loop (fuel : nat) (desc : Z) (idx : nat) (l : list bool)
    : M St (list bool) :=
  match fuel with
  | O => diverge
  | S fuel' =>
      if (length l <=? idx)%nat then panic PBounds else
      let l := <[idx := true]> l in
      f ← memory;
      let d := descriptor_at f (desc + DESC_SIZE * Z.of_nat idx) in
      if Z.land (d_flags d) VIRTIO_DESC_F_NEXT =? 0 then mret l
      else free_chain_loop fuel' desc (Z.to_nat (d_next d)) l
  end.

Definition free_desc_chain (q : QueueState) (head : nat) : M St QueueState :=
  l ← free_chain_loop (S (Z.to_nat VIRTIO_RING_SIZE)) (desc q) head (free q);
  mret (set_free l q).

(** ** Registers *)

Definition vget : M St (virtio T) := get_state.
Definition set_host (t : T) : M St unit :=
  v ← vget; set_state (mk_virtio (BLOCK_DEVICES v) (VIRTIO_DEVICES v) (ACCESS_FAULT_SEEN v) t).
Definition set_fault (b : bool) : M St unit :=
  v ← vget; set_state (mk_virtio (BLOCK_DEVICES v) (VIRTIO_DEVICES v) b (host v)).

(** [read_volatile] / [write_volatile] of a register.  On an access fault
    the trap handler notes it and skips the instruction, leaving whatever
    the destination register held ([0] here).  (Before the handler is
    installed an access that faults is retried for ever: [Boot.untrapped].) *)
Definition read_volatile (a : Z) : M St Z :=
  v ← vget;
  let '(r, t) := host_read a (host v) in
  set_host t;;
  match r with Some x => mret x | None => set_fault true;; mret 0 end.
Definition write_volatile (a x : Z) : M St unit :=
  v ← vget;
  match host_write a x (host v) with
  | Some t => set_host t
  | None => set_fault true
  end.
Definition take_access_fault : M St bool :=
  v ← vget; set_fault false;; mret (ACCESS_FAULT_SEEN v).

Definition mmio_read32 (ptr : Z) (off : MmioOffsets) : M St (option Z) :=
  set_fault false;;
  x ← read_volatile (reg ptr off);
  faulted ← take_access_fault;
  mret (if faulted : bool then None else Some x).
Definition mmio_write32 (ptr : Z) (off : MmioOffsets) (x : Z) : M St bool :=
  set_fault false;;
  write_volatile (reg ptr off) x;;
  faulted ← take_access_fault;
  mret (negb faulted).

(** ** Completion *)

Definition set_dev (slot : nat) (b : BlockDevice) : M St unit :=
  v ← vget;
  if (slot <? length (BLOCK_DEVICES v))%nat
  then set_state (mk_virtio (<[slot := b]> (BLOCK_DEVICES v)) (VIRTIO_DEVICES v)
                    (ACCESS_FAULT_SEEN v) (host v))
  else panic PBounds.
Definition get_dev (slot : nat) : M St BlockDevice :=
  v ← vget; index (BLOCK_DEVICES v) slot.

(** One round of [pending]'s loop: acknowledge the next used element. *)
Definition complete_one (bd : BlockDevice) : M St BlockDevice :=
  f ← memory;
  let used_idx := ack_used_idx bd mod VIRTIO_RING_SIZE in
  let id := u32_at f (used_elem_addr (used (queue bd)) used_idx) in
  let bd := set_ack ((ack_used_idx bd + 1) mod 2 ^ 16) bd in
  if VIRTIO_RING_SIZE <=? id then mret bd else
  let head := Z.to_nat id in
  let q := set_req_head (<[head := 0]> (req_head (queue bd))) (queue bd) in
  q ← free_desc_chain q head;
  mret (set_queue q bd).

(** [while bd.ack_used_idx != used.idx]: the indices are 16 bits wide. *)
Fixpoint pending_loop (fuel : nat) (bd : BlockDevice) : M St BlockDevice :=
  match fuel with
  | O => diverge
  | S fuel' =>
      f ← memory;
      if ack_used_idx bd =? u16_at f (used_idx_addr (used (queue bd))) then mret bd
      else bd ← complete_one bd; pending_loop fuel' bd
  end.
Definition pending (bd : BlockDevice) : M St BlockDevice :=
  pending_loop (Z.to_nat (2 ^ 16)) bd.

Definition pending_by_irq (n : Z) : M St bool :=
  if n <? VIRTIO_MMIO_IRQ_BASE then mret false else
  let slot := Z.to_nat (n - VIRTIO_MMIO_IRQ_BASE) in
  if (MAX_VIRTIO_DEVICES <=? slot)%nat then mret false else
  bd ← get_dev slot;
  if bdev bd =? 0 then mret false else
  isr ← read_volatile (reg (bdev bd) InterruptStatus);
  if isr =? 0 then mret false else
  bd' ← pending bd;
  set_dev slot bd';;
  write_volatile (reg (bdev bd) InterruptAck) (Z.land isr 0x3);;
  mret true.

(** ** Requests *)

Definition alloc_request : M St (option Z) := fa_allocate 1.
Definition free_request (req : Z) : M St unit :=
  if req =? 0 then mret tt else fa_deallocate req.

(** The device runs concurrently: it may act before each look the driver
    takes at memory. *)
Definition device_runs : M St unit :=
  v ← vget;
  m ← gets fa_ram;
  let '(t, m') := host_tick (host v) m in
  write_mem (λ _, m');;
  set_host t.

(** The loop of [block_op]: [pending], then leave once the status byte of the
    request is no longer [STATUS_PENDING]. *)
Fixpoint poll (fuel : nat) (slot : nat) (req : Z) : M St Z :=
  match fuel with
  | O => diverge
  | S fuel' =>
      device_runs;;
      bd ← get_dev slot;
      bd' ← pending bd;
      set_dev slot bd';;
      device_runs;;
      f ← memory;
      let st := f (status_addr req) in
      if negb (st =? STATUS_PENDING) then mret st else poll fuel' slot req
  end.

(** The chain [head, data, stat] for [req], and its entry in the ring. *)
Definition write_chain (bd : BlockDevice) (head data stat : nat) (req buffer size : Z) (write : bool)
    : M St unit :=
  let q := queue bd in
  let slot_of i := desc q + DESC_SIZE * Z.of_nat i in
  let head_desc := {| d_addr := req; d_len := HEADER_SIZE;
                      d_flags := VIRTIO_DESC_F_NEXT; d_next := Z.of_nat data |} in
  let data_desc := {| d_addr := buffer; d_len := size;
                      d_flags := Z.lor VIRTIO_DESC_F_NEXT (if write then 0 else VIRTIO_DESC_F_WRITE);
                      d_next := Z.of_nat stat |} in
  let status_desc := {| d_addr := status_addr req; d_len := 1;
                        d_flags := VIRTIO_DESC_F_WRITE; d_next := 0 |} in
  write_mem (put_descriptor (slot_of head) head_desc);;
  write_mem (put_descriptor (slot_of data) data_desc);;
  write_mem (put_descriptor (slot_of stat) status_desc).

Definition publish (bd : BlockDevice) (head : nat) : M St unit :=
  let q := queue bd in
  f ← memory;
  let avail_idx := u16_at f (avail_idx_addr (avail q)) in
  write_mem (put_le 2 (avail_ring_addr (avail q) (avail_idx mod VIRTIO_RING_SIZE)) (Z.of_nat head));;
  write_mem (put_le 2 (avail_idx_addr (avail q)) ((avail_idx + 1) mod 2 ^ 16)).

Definition block_op (polls : nat) (dev buffer size offset : Z) (write : bool) : M St bool :=
  if Z.of_nat MAX_VIRTIO_DEVICES <=? dev then mret false else
  let slot := Z.to_nat dev in
  bd ← get_dev slot;
  if bdev bd =? 0 then mret false else
  if read_only bd && write then mret false else
  o ← alloc_request;
  match o with
  | None => mret false
  | Some req =>
      write_mem (put_request req (if write then VIRTIO_BLK_T_OUT else VIRTIO_BLK_T_IN)
                   (offset / 512) buffer STATUS_PENDING);;
      match alloc_desc_chain (queue bd) with
      | (Some [head; data; stat], q) =>
          set_dev slot (set_queue q bd);;
          write_chain bd head data stat req buffer size write;;
          set_dev slot (set_queue (set_req_head (<[head := req]> (req_head q)) q) bd);;
          publish bd head;;
          write_volatile (reg (bdev bd) QueueNotify) 0;;
          st ← poll polls slot req;
          free_request req;;
          mret (st =? 0)
      | (_, q) =>
          set_dev slot (set_queue q bd);;
          free_request req;;
          mret false
      end
  end.

Definition block_read (polls : nat) (dev buffer size offset : Z) : M St bool :=
  block_op polls dev buffer size offset false.
Definition block_write (polls : nat) (dev buffer size offset : Z) : M St bool :=
  block_op polls dev buffer size offset true.

(** ** Lookup *)

Definition first_block_device : M St (option nat) :=
  v ← vget;
  mret (fst <$> list_find (λ b, bdev b ≠ 0) (BLOCK_DEVICES v)).

Definition configured_irqs : M St (list (option Z)) :=
  v ← vget; mret (irq <$> BLOCK_DEVICES v).

(** ** Set-up and probe *)

Definition register_device (ptr : Z) (k : DeviceType) : M St unit :=
  v ← vget;
  let slot := dev_slot_from_ptr ptr in
  if (slot <? length (VIRTIO_DEVICES v))%nat
  then set_state (mk_virtio (BLOCK_DEVICES v) (<[slot := Some k]> (VIRTIO_DEVICES v))
                    (ACCESS_FAULT_SEEN v) (host v))
  else panic PBounds.
Definition register_entropy_device (ptr : Z) : M St unit := register_device ptr Entropy.
Definition register_unknown_device (ptr : Z) : M St unit := register_device ptr Unknown.

(** [if !mmio_write32(..) { return false; }] *)
Definition write_or_fail (ptr : Z) (off : MmioOffsets) (x : Z) (k : M St bool) : M St bool :=
  ok ← mmio_write32 ptr off x;
  if ok : bool then k else mret false.
(** [let Some(x) = mmio_read32(..) else { return false; }] *)
Definition read_or_fail (ptr : Z) (off : MmioOffsets) (k : Z → M St bool) : M St bool :=
  o ← mmio_read32 ptr off;
  match o with Some x => k x | None => mret false end.
(** [print!(msg); let _ = mmio_write32(Status, VIRTIO_FAILED); return false] *)
Definition give_up_device (ptr : Z) (msg : string) : M St bool :=
  print msg [];; mmio_write32 ptr Status VIRTIO_FAILED;; mret false.

Definition used_offset : Z := align_up (virtqueue_desc_bytes + virtqueue_avail_bytes) PAGE_SIZE.
Definition queue_pages : Z :=
  align_up (used_offset + virtqueue_used_bytes) PAGE_SIZE / PAGE_SIZE.

Definition setup_block_device (ptr : Z) : M St bool :=
  let slot := dev_slot_from_ptr ptr in
  write_or_fail ptr Status 0 (
  let status_bits := VIRTIO_ACKNOWLEDGE in
  write_or_fail ptr Status status_bits (
  let status_bits := Z.lor status_bits VIRTIO_DRIVER in
  write_or_fail ptr Status status_bits (
  read_or_fail ptr HostFeatures (λ host_features,
  let guest_features := Z.land host_features (Z.lnot (Z.shiftl 1 VIRTIO_BLK_F_RO)) in
  let read_only := negb (Z.land host_features (Z.shiftl 1 VIRTIO_BLK_F_RO) =? 0) in
  write_or_fail ptr GuestFeatures guest_features (
  let status_bits := Z.lor status_bits VIRTIO_FEATURES_OK in
  write_or_fail ptr Status status_bits (
  read_or_fail ptr Status (λ status_ok,
  if Z.land status_ok VIRTIO_FEATURES_OK =? 0
  then give_up_device ptr "features fail..." else
  write_or_fail ptr QueueSel 0 (
  read_or_fail ptr QueueNumMax (λ qnmax,
  if qnmax <? VIRTIO_RING_SIZE then give_up_device ptr "queue size fail..." else
  write_or_fail ptr QueueNum VIRTIO_RING_SIZE (
  write_or_fail ptr QueueAlign PAGE_SIZE (
  write_or_fail ptr GuestPageSize PAGE_SIZE (
  o ← fa_zallocate queue_pages;
  match o with
  | None => give_up_device ptr "queue alloc fail..."
  | Some queue_mem =>
      write_or_fail ptr QueuePfn (queue_mem mod 2 ^ 32 / PAGE_SIZE) (
      let qstate := mk_queue queue_mem (queue_mem + virtqueue_desc_bytes)
                      (queue_mem + used_offset) (free QueueState_empty)
                      (req_head QueueState_empty) in
      set_dev slot (mk_block ptr qstate 0 read_only);;
      register_device ptr Block;;
      let status_bits := Z.lor status_bits VIRTIO_DRIVER_OK in
      write_or_fail ptr Status status_bits (mret true))
  end)))))))))))).

Definition probe_addrs : list Z :=
  (λ i, MMIO_VIRTIO_START + Z.of_nat i * MMIO_VIRTIO_STRIDE) <$>
    seq 0 (S (Z.to_nat ((MMIO_VIRTIO_END - MMIO_VIRTIO_START) / MMIO_VIRTIO_STRIDE))).

Definition probe_one (addr : Z) : M St unit :=
  print "Virtio probing 0x{:08x}..." [Num addr];;
  o ← mmio_read32 addr MagicValue;
  match o with
  | None => print "fault.\r\n" []
  | Some magicvalue =>
      if negb (magicvalue =? MMIO_VIRTIO_MAGIC) then print "not virtio.\r\n" [] else
      o ← mmio_read32 addr DeviceId;
      match o with
      | None => print "fault.\r\n" []
      | Some deviceid =>
          if deviceid =? 0 then print "not connected.\r\n" [] else
          if deviceid =? VIRTIO_DEVICE_BLOCK then
            print "block device..." [];;
            ok ← setup_block_device addr;
            if ok : bool then print "setup succeeded!\r\n" [] else print "setup failed.\r\n" []
          else if deviceid =? VIRTIO_DEVICE_ENTROPY then
            print "entropy device..." [];;
            register_entropy_device addr;;
            print "discovered.\r\n" []
          else
            register_unknown_device addr;;
            print "unknown device type {}.\r\n" [Num deviceid]
      end
  end.

Definition probe : M St unit := for_each probe_addrs probe_one.
End driver.
