(* ===== verification/VirtioProps.v ===== *)
(** * The VirtIO driver: descriptor chains, completion, interrupts, probe *)

From Stdlib Require Import String.
From S2P Require Import Prelude Frames Bytes Virtio.

#[local] Open Scope Z_scope.

(** ** Descriptor chains *)

(** Reference: the indices still free, in order. *)
Definition free_indices (l : list bool) : list nat :=
  filter (λ i, l !! i = Some true) (seq 0 (Z.to_nat VIRTIO_RING_SIZE)).

Definition set_all (b : bool) (idx : list nat) (l : list bool) : list bool :=
  foldl (λ l i, <[i := b]> l) l idx.

Lemma set_all_lookup b idx l i :
  set_all b idx l !! i =
  if decide (i ∈ idx ∧ (i < length l)%nat) then Some b else l !! i.
Proof.
  unfold set_all. revert l. induction idx as [|j idx IH]; intros l; cbn.
  { rewrite decide_False; [done|]. intros [Hin _]. by apply not_elem_of_nil in Hin. }
  rewrite IH, length_insert, list_lookup_insert.
  destruct (decide (i ∈ idx)) as [Hin|Hin], (decide (j = i)) as [->|Hne],
    (decide (i < length l)%nat) as [Hl|Hl];
    repeat case_decide; rewrite ?elem_of_cons in *; try done; exfalso; intuition congruence.
Qed.

Lemma length_set_all b idx l : length (set_all b idx l) = length l.
Proof.
  unfold set_all. revert l. induction idx as [|j idx IH]; intros l; cbn; [done|].
  by rewrite IH, length_insert.
Qed.

Lemma set_all_app b i1 i2 l : set_all b (i1 ++ i2) l = set_all b i2 (set_all b i1 l).
Proof. apply foldl_app. Qed.

(** What the scan finds in [idx], in order. *)
Lemma scan_free_spec idx l out :
  NoDup idx → (length out < 3)%nat →
  scan_free idx l out =
  let fl := filter (λ i, l !! i = Some true) idx in
  if decide (3 <= length out + length fl)%nat
  then (true, set_all false (take (3 - length out) fl) l, out ++ take (3 - length out) fl)
  else (false, set_all false fl l, out ++ fl).
Proof.
  revert l out. induction idx as [|i idx IH]; intros l out Hnd Hout; cbn [scan_free].
  { cbn. rewrite decide_False by lia. by rewrite app_nil_r. }
  apply list.NoDup_cons in Hnd as [Hi Hnd]. cbv zeta. rewrite list.filter_cons.
  destruct (l !! i) as [[]|] eqn:Eli; cbn [from_option id].
  - rewrite (decide_True (P := Some true = Some true)) by done.
    set (fl := filter _ idx). rewrite length_app. cbn [length].
    assert (Hfl : filter (λ j, <[i:=false]> l !! j = Some true) idx = fl).
    { apply filter_agree. intros j Hj.
      rewrite list_lookup_insert_ne; [done|]. intros ->. done. }
    destruct (Nat.eqb_spec (length out + 1) 3) as [E3|E3].
    + rewrite decide_True by lia.
      replace (3 - length out)%nat with 1%nat by lia. cbn. by destruct fl.
    + rewrite IH by (try done; rewrite length_app; cbn; lia).
      cbv zeta. rewrite Hfl, length_app. cbn [length].
      replace (3 - length out)%nat with (S (3 - (length out + 1)))%nat by lia.
      cbn [take]. rewrite <- !app_assoc. cbn [app].
      repeat case_decide; try (exfalso; lia); done.
  - rewrite (decide_False (P := Some false = Some true)) by done. by rewrite IH.
  - rewrite (decide_False (P := None = Some true)) by done. by rewrite IH.
Qed.

Lemma set_all_undo idx l :
  (∀ i, i ∈ idx → l !! i = Some true) → set_all true idx (set_all false idx l) = l.
Proof.
  intros Hidx. apply list_eq. intros i. rewrite !set_all_lookup, length_set_all.
  repeat case_decide; try done; try tauto. symmetry. apply Hidx. tauto.
Qed.

Lemma free_indices_elem l i : i ∈ free_indices l → l !! i = Some true.
Proof. intros Hi. by apply list_elem_of_filter in Hi as [? _]. Qed.

Lemma alloc_desc_chain_eq q :
  alloc_desc_chain q =
  let fl := free_indices (free q) in
  if decide (3 <= length fl)%nat
  then (Some (take 3 fl), set_free (set_all false (take 3 fl) (free q)) q)
  else (None, q).
Proof.
  unfold alloc_desc_chain. rewrite scan_free_spec; [|apply NoDup_seq|cbn; lia].
  cbv zeta. cbn [length app Nat.add Nat.sub]. unfold free_indices.
  case_decide; [done|]. f_equal.
  change (foldl _ ?l ?o) with (set_all true o l). rewrite set_all_undo.
  - by destruct q.
  - intros i Hi. by apply list_elem_of_filter in Hi as [? _].
Qed.
