(* ===== verification/VirtioQueue.v ===== *)
(** * The virtqueue invariant and the device's side of the contract

    [q_inv] relates the rings in memory to the driver's queue state: which
    chains the device has completed but the driver has not acknowledged, and
    which are in flight.  [DiskHost] states what a VirtIO block device
    documents: notified of a request it completes it after a bounded time,
    and until then, and afterwards, leaves memory alone. *)

From S2P Require Import Prelude Frames Bytes Virtio VirtioProps.

Definition slot_addr (slot : nat) : Z := MMIO_VIRTIO_START + Z.of_nat slot * MMIO_VIRTIO_STRIDE.

(** Queue memory: two pages from [base]. *)
Definition QUEUE_BYTES : Z := 2 * PAGE_SIZE.
Definition avail_of (base : Z) : Z := base + virtqueue_desc_bytes.
Definition used_of (base : Z) : Z := base + used_offset.

Definition chain : Type := nat * nat * nat.
Definition members (c : chain) : list nat := let '(a, b, e) := c in [a; b; e].
Definition head_of (c : chain) : nat := let '(a, _, _) := c in a.

Definition desc_at (f : Z → Z) (base : Z) (i : nat) : Descriptor :=
  descriptor_at f (base + DESC_SIZE * Z.of_nat i).
Definition has_next (d : Descriptor) : bool := negb (Z.land (d_flags d) VIRTIO_DESC_F_NEXT =? 0).

Definition linked (f : Z → Z) (base : Z) (c : chain) : Prop :=
  let '(a, b, e) := c in
  has_next (desc_at f base a) = true ∧ d_next (desc_at f base a) = Z.of_nat b ∧
  has_next (desc_at f base b) = true ∧ d_next (desc_at f base b) = Z.of_nat e ∧
  has_next (desc_at f base e) = false.

Definition taken (cs : list chain) : list nat := cs ≫= members.

Record q_inv (f : Z → Z) (base ack : Z) (fr : list bool) (fin fly : list chain) : Prop := {
  qi_nodup : NoDup (taken (fin ++ fly));
  qi_range : Forall (λ i, (i < 8)%nat) (taken (fin ++ fly));
  qi_len : length fr = 8%nat;
  qi_free : ∀ i, (i < 8)%nat → fr !! i = Some (bool_decide (i ∉ taken (fin ++ fly)));
  qi_linked : Forall (linked f base) (fin ++ fly);
  qi_ack : 0 <= ack < 2 ^ 16;
  qi_elem : ∀ k c, fin !! k = Some c →
    u32_at f (used_elem_addr (used_of base) ((ack + Z.of_nat k) mod 8)) = Z.of_nat (head_of c);
  qi_used : u16_at f (used_idx_addr (used_of base)) = (ack + Z.of_nat (length fin)) mod 2 ^ 16 }.

(** The invariant only looks at the queue's own pages. *)
Lemma desc_at_ext f g base i :
  (i < 8)%nat → (∀ a, base <= a < base + QUEUE_BYTES → g a = f a) →
  desc_at g base i = desc_at f base i.
Proof.
  intros Hi Hfg. unfold QUEUE_BYTES in Hfg. rewrite PAGE_SIZE_val in Hfg.
  unfold desc_at, descriptor_at, u64_at, u32_at, u16_at, DESC_SIZE.
  f_equal; apply le_ext; intros j Hj; apply Hfg; lia.
Qed.

Lemma linked_ext f g base c :
  Forall (λ i, (i < 8)%nat) (members c) →
  (∀ i, i ∈ members c → desc_at g base i = desc_at f base i) →
  linked f base c → linked g base c.
Proof.
  destruct c as [[a b] e]. cbn [members linked]. intros Hr Hd (? & ? & ? & ? & ?).
  rewrite !Hd by (rewrite !elem_of_cons; auto). auto.
Qed.

Lemma taken_members cs c : c ∈ cs → ∀ i, i ∈ members c → i ∈ taken cs.
Proof. intros Hc i Hi. apply list_elem_of_bind. by exists c. Qed.

Lemma q_inv_ext f g base ack fr fin fly :
  q_inv f base ack fr fin fly → (∀ a, base <= a < base + QUEUE_BYTES → g a = f a) →
  q_inv g base ack fr fin fly.
Proof.
  intros [] Hfg. pose proof Hfg as Hb. unfold QUEUE_BYTES in Hb. rewrite PAGE_SIZE_val in Hb.
  change (used_of base) with (base + 4096) in *. split; try done.
  - apply list.Forall_forall. intros c Hc.
    assert (Hr : ∀ i, i ∈ members c → (i < 8)%nat).
    { intros i Hi. eapply (proj1 (list.Forall_forall _ _) qi_range0).
      by eapply taken_members. }
    apply (linked_ext f); [by apply list.Forall_forall| |].
    + intros i Hi. apply desc_at_ext; auto.
    + by apply (proj1 (list.Forall_forall _ _) qi_linked0).
  - intros k c Hk. rewrite <- (qi_elem0 k c Hk). unfold used_elem_addr, u32_at.
    apply le_ext. intros j Hj. apply Hb.
    pose proof (Z.mod_pos_bound (ack + Z.of_nat k) 8). lia.
  - rewrite <- qi_used0. unfold used_idx_addr, u16_at. apply le_ext. intros j Hj.
    apply Hb. lia.
Qed.

(** ** Acknowledging completions *)

Section pending.
Context `{Profile} {St T : Type} `{FrameAllocator St} `{Lens St (virtio T)}.

Definition bytes_of (s : St) : Z → Z := byte_at (fa_ram s).

Lemma chain_step fuel base i l (s : St) :
  (i < length l)%nat → 
  free_chain_loop (S fuel) base i l s =
  if has_next (desc_at (bytes_of s) base i)
  then free_chain_loop fuel base (Z.to_nat (d_next (desc_at (bytes_of s) base i)))
         (<[i := true]> l) s
  else Done (<[i := true]> l, s).
Proof.
  intros Hi. cbn [free_chain_loop]. rewrite (proj2 (Nat.leb_gt _ _)) by done.
  rewrite (bind_done memory _ s (bytes_of s) s) by done. cbv zeta.
  change (descriptor_at (bytes_of s) (base + DESC_SIZE * Z.of_nat i))
    with (desc_at (bytes_of s) base i). unfold has_next. by destruct (_ =? 0).
Qed.

Lemma free_desc_chain_spec q c (s : St) :
  linked (bytes_of s) (desc q) c → Forall (λ i, (i < length (free q))%nat) (members c) →
  free_desc_chain q (head_of c) s =
  Done (set_free (set_all true (members c) (free q)) q, s).
Proof.
  destruct c as [[a b] e]. intros (Ha & Hab & Hb & Hbe & He) Hr. cbn [members head_of] in *.
  apply list.Forall_cons in Hr as [Hra Hr]. apply list.Forall_cons in Hr as [Hrb Hr].
  apply list.Forall_cons in Hr as [Hre _].
  unfold free_desc_chain. erewrite bind_done; [reflexivity|].
  change (S (Z.to_nat VIRTIO_RING_SIZE)) with 9%nat.
  rewrite chain_step, Ha, Hab, Nat2Z.id by done.
  rewrite chain_step, Hb, Hbe, Nat2Z.id by (by rewrite length_insert).
  by rewrite chain_step, He by (by rewrite !length_insert).
Qed.

(** The driver's record of a device whose queue is at [base]. *)
Record dev_at (bd : BlockDevice) (slot : nat) (base : Z) : Prop := {
  da_dev : bdev bd = slot_addr slot;
  da_desc : desc (queue bd) = base;
  da_avail : avail (queue bd) = avail_of base;
  da_used : used (queue bd) = used_of base }.

Lemma taken_app a b : taken (a ++ b) = taken a ++ taken b.
Proof. unfold taken. apply bind_app. Qed.

(** Freeing the oldest completed chain. *)
Lemma q_inv_free f base ack fr c fin fly :
  q_inv f base ack fr (c :: fin) fly →
  q_inv f base ((ack + 1) mod 2 ^ 16) (set_all true (members c) fr) fin fly.
Proof.
  intros []. cbn [app] in *. change (taken (c :: fin ++ fly)) with (members c ++ taken (fin ++ fly)) in *.
  apply list.NoDup_app in qi_nodup0 as (_ & Hdisj & Hnd).
  apply list.Forall_app in qi_range0 as [Hc Hr]. apply list.Forall_cons in qi_linked0 as [_ Hl].
  split; try done.
  - by rewrite length_set_all.
  - intros i Hi. rewrite set_all_lookup, qi_len0. specialize (qi_free0 i Hi).
    destruct (decide (i ∈ members c)) as [Hin|Hin].
    + rewrite decide_True by done. f_equal. symmetry. apply bool_decide_eq_true_2. by apply Hdisj.
    + rewrite decide_False by tauto. rewrite qi_free0. f_equal. apply bool_decide_ext.
      rewrite elem_of_app. tauto.
  - apply Z.mod_pos_bound. lia.
  - intros k c' Hk. rewrite <- (qi_elem0 (S k) c' Hk). f_equal. f_equal.
    rewrite Nat2Z.inj_succ. dlia.
  - rewrite qi_used0. cbn [length]. rewrite Nat2Z.inj_succ. dlia.
Qed.

Lemma complete_one_spec bd slot base c fin fly (s : St) :
  dev_at bd slot base →
  q_inv (bytes_of s) base (ack_used_idx bd) (free (queue bd)) (c :: fin) fly →
  ∃ bd', complete_one bd s = Done (bd', s) ∧ dev_at bd' slot base ∧
    read_only bd' = read_only bd ∧
    q_inv (bytes_of s) base (ack_used_idx bd') (free (queue bd')) fin fly ∧
    ack_used_idx bd' = (ack_used_idx bd + 1) mod 2 ^ 16.
Proof.
  intros [Hdev Hdesc Havail Hused] Hq. pose proof (q_inv_free _ _ _ _ _ _ _ Hq) as Hq'.
  destruct Hq. unfold complete_one. rewrite (bind_done memory _ s (bytes_of s) s) by done.
  cbv zeta. rewrite Hused.
  pose proof (qi_elem0 0%nat c eq_refl) as He. rewrite Z.add_0_r in He.
  change VIRTIO_RING_SIZE with 8. rewrite He.
  assert (Hc : Forall (λ i, (i < 8)%nat) (members c)).
  { apply list.Forall_app in qi_range0 as [? _]. done. }
  assert (Hh : (head_of c < 8)%nat).
  { destruct c as [[a b] e]. by apply list.Forall_cons in Hc as [? _]. }
  rewrite (proj2 (Z.leb_gt _ _)) by lia. rewrite Nat2Z.id.
  erewrite bind_done.
  2: { apply free_desc_chain_spec; cbn.
       - rewrite Hdesc. by apply list.Forall_cons in qi_linked0 as [? _].
       - by rewrite qi_len0. }
  eexists. split; [reflexivity|]. split_and!; try done.
Qed.

Lemma pending_loop_spec fin fly slot base : ∀ fuel bd (s : St),
  (length fin < fuel)%nat → (length fin < Z.to_nat (2 ^ 16))%nat → dev_at bd slot base →
  q_inv (bytes_of s) base (ack_used_idx bd) (free (queue bd)) fin fly →
  ∃ bd', pending_loop fuel bd s = Done (bd', s) ∧ dev_at bd' slot base ∧
    read_only bd' = read_only bd ∧
    q_inv (bytes_of s) base (ack_used_idx bd') (free (queue bd')) [] fly ∧
    ack_used_idx bd' = (ack_used_idx bd + Z.of_nat (length fin)) mod 2 ^ 16.
Proof.
  induction fin as [|c fin IH]; intros [|fuel] bd s Hfuel Hlen Hd Hq; cbn [length] in *; try lia;
    cbn [pending_loop]; rewrite (bind_done memory _ s (bytes_of s) s) by done.
  - rewrite (da_used _ _ _ Hd). pose proof (qi_used _ _ _ _ _ _ Hq) as Hu.
    pose proof (qi_ack _ _ _ _ _ _ Hq) as Ha. cbn [length] in Hu.
    rewrite Z.add_0_r, Z.mod_small in Hu by done. rewrite Hu, Z.eqb_refl.
    exists bd. rewrite Z.add_0_r, Z.mod_small by done. split_and!; done.
  - rewrite (da_used _ _ _ Hd). pose proof (qi_used _ _ _ _ _ _ Hq) as Hu.
    pose proof (qi_ack _ _ _ _ _ _ Hq) as Ha. cbn [length] in Hu. rewrite Hu.
    rewrite (proj2 (Z.eqb_neq _ _)) by dlia.
    destruct (complete_one_spec bd slot base c fin fly s Hd Hq)
      as (bd1 & E1 & Hd1 & Hro1 & Hq1 & Hack1).
    rewrite (bind_done _ _ _ _ _ E1).
    destruct (IH fuel bd1 s ltac:(lia) ltac:(lia) Hd1 Hq1) as (bd2 & E2 & Hd2 & Hro2 & Hq2 & Hack2).
    exists bd2. split_and!; try done; [congruence|]. rewrite Hack2, Hack1. dlia.
Qed.
(** C16. [pending] acknowledges every completion the device has published and
    nothing else: it returns, consumes exactly the used elements between its
    index and the device's (through the 16-bit wrap-around), and gives the
    three descriptors of each completed chain back, while the chains in
    flight keep theirs. *)
Theorem pending_acknowledges_completions fin fly slot base bd (s : St) :
  (length fin < Z.to_nat (2 ^ 16))%nat → dev_at bd slot base →
  q_inv (bytes_of s) base (ack_used_idx bd) (free (queue bd)) fin fly →
  ∃ bd', pending bd s = Done (bd', s) ∧ dev_at bd' slot base ∧
    ack_used_idx bd' = u16_at (bytes_of s) (used_idx_addr (used_of base)) ∧
    (∀ i, (i < 8)%nat → free (queue bd') !! i = Some (bool_decide (i ∉ taken fly))) ∧
    q_inv (bytes_of s) base (ack_used_idx bd') (free (queue bd')) [] fly.
Proof.
  intros Hlen Hd Hq. unfold pending.
  destruct (pending_loop_spec fin fly slot base (Z.to_nat (2 ^ 16)) bd s Hlen Hlen Hd Hq)
    as (bd' & E & Hd' & _ & Hq' & Hack).
  exists bd'. split_and!; try done.
  - by rewrite Hack, (qi_used _ _ _ _ _ _ Hq).
  - intros i Hi. by rewrite (qi_free _ _ _ _ _ _ Hq').
Qed.

(** Descriptor chains: [alloc_desc_chain] takes the three lowest free
    descriptors, or, when fewer than three are free, puts back the ones it
    had taken; freeing an allocated chain once its descriptors are linked
    restores the queue exactly. *)
Lemma desc_chain_roundtrip q (s : St) :
  match alloc_desc_chain q with
  | (None, q') => q' = q ∧ (length (free_indices (free q)) < 3)%nat
  | (Some c, q') =>
      c = take 3 (free_indices (free q)) ∧ length c = 3%nat ∧
      ∀ a b e, c = [a; b; e] → linked (bytes_of s) (desc q) (a, b, e) →
        free_desc_chain q' a s = Done (q, s)
  end.
Proof.
  rewrite alloc_desc_chain_eq. cbv zeta. case_decide as H3; [|split; [done|lia]].
  set (fl := take 3 _). assert (Hfl : ∀ i, i ∈ fl → free q !! i = Some true).
  { intros i Hi. apply free_indices_elem. unfold fl in Hi.
    apply list_elem_of_lookup_1 in Hi as [k Hk]. apply lookup_take_Some in Hk as [Hk _].
    by eapply list_elem_of_lookup_2. }
  split_and!; [done|unfold fl; rewrite length_take; lia|].
  intros a b e Efl Hl. rewrite Efl in *.
  pose proof (free_desc_chain_spec (set_free (set_all false [a; b; e] (free q)) q) (a, b, e) s Hl) as E.
  cbn [head_of members] in E. rewrite E.
  - cbn [free set_free]. rewrite set_all_undo by done. by destruct q.
  - apply list.Forall_forall. intros i Hi. cbn [free set_free]. rewrite length_set_all.
    by eapply lookup_lt_Some, Hfl.
Qed.
End pending.

(** ** Descriptors in memory *)

Definition wf_desc (d : Descriptor) : Prop :=
  0 <= d_addr d < 2 ^ 64 ∧ 0 <= d_len d < 2 ^ 32 ∧ 0 <= d_flags d < 2 ^ 16 ∧
  0 <= d_next d < 2 ^ 16.

Lemma byte_at_put_descriptor a d m b :
  b < a ∨ a + 16 <= b → byte_at (put_descriptor a d m) b = byte_at m b.
Proof.
  intros Hb. unfold put_descriptor.
  repeat (rewrite byte_at_put_le, decide_False by lia). done.
Qed.

Lemma descriptor_put a d m :
  wf_desc d → descriptor_at (byte_at (put_descriptor a d m)) a = d.
Proof.
  destruct d as [addr len fl nx]. unfold wf_desc. cbn [d_addr d_len d_flags d_next].
  intros (H1 & H2 & H3 & H4).
  unfold descriptor_at, put_descriptor, u64_at, u32_at, u16_at. cbn [d_addr d_len d_flags d_next].
  f_equal; repeat (rewrite le_put_le_ne by lia); rewrite le_put_le; by apply Z.mod_small.
Qed.

Lemma desc_put_same base i d m :
  wf_desc d →
  desc_at (byte_at (put_descriptor (base + DESC_SIZE * Z.of_nat i) d m)) base i = d.
Proof. apply descriptor_put. Qed.

Lemma desc_put_other base i j d m :
  i ≠ j →
  desc_at (byte_at (put_descriptor (base + DESC_SIZE * Z.of_nat i) d m)) base j =
  desc_at (byte_at m) base j.
Proof.
  intros Hij. unfold desc_at, descriptor_at, u64_at, u32_at, u16_at, DESC_SIZE.
  f_equal; apply le_ext; intros k Hk; apply byte_at_put_descriptor; lia.
Qed.

(** ** Room for another chain *)

Lemma length_filter_split {A} (P : A → Prop) `{!∀ x, Decision (P x)} (l : list A) :
  (length (filter P l) + length (filter (λ x, ¬ P x) l) = length l)%nat.
Proof.
  induction l as [|x l IH]; [done|]. rewrite !list.filter_cons.
  repeat case_decide; cbn [length]; try tauto; lia.
Qed.

Lemma q_inv_free_indices f base ack fr fin :
  q_inv f base ack fr fin [] → (length fin <= 1)%nat → (3 <= length (free_indices fr))%nat.
Proof.
  intros [] Hlen. unfold free_indices.
  pose proof (length_filter_split (λ i, fr !! i = Some true) (seq 0 (Z.to_nat VIRTIO_RING_SIZE))) as Hs.
  rewrite length_seq in Hs. change (Z.to_nat VIRTIO_RING_SIZE) with 8%nat in *.
  set (busy := filter (λ i, ¬ fr !! i = Some true) (seq 0 8)) in *.
  assert (Hsub : busy ⊆+ taken (fin ++ [])).
  { apply NoDup_submseteq; [apply list.NoDup_filter, NoDup_seq|].
    intros i Hi. apply list_elem_of_filter in Hi as [Hf Hi]. apply elem_of_seq in Hi.
    rewrite qi_free0 in Hf by lia. destruct (decide (i ∈ taken (fin ++ []))); [done|].
    rewrite bool_decide_eq_true_2 in Hf; done. }
  apply submseteq_length in Hsub. rewrite app_nil_r in Hsub.
  assert ((length (taken fin) <= 3)%nat).
  { destruct fin as [|[[? ?] ?] [|]]; cbn in *; lia. }
  lia.
Qed.

Lemma take3 {A} (l : list A) : (3 <= length l)%nat → ∃ a b c, take 3 l = [a; b; c].
Proof. destruct l as [|a [|b [|c l]]]; cbn; try lia. intros _. by exists a, b, c. Qed.

Lemma q_inv_alloc f base ack q fin :
  q_inv f base ack (free q) fin [] → (length fin <= 1)%nat →
  ∃ a b e, alloc_desc_chain q = (Some [a; b; e], set_free (set_all false [a; b; e] (free q)) q) ∧
    NoDup [a; b; e] ∧ Forall (λ i, (i < 8)%nat ∧ i ∉ taken fin) [a; b; e].
Proof.
  intros Hq Hlen. pose proof (q_inv_free_indices _ _ _ _ _ Hq Hlen) as H3.
  rewrite alloc_desc_chain_eq. cbv zeta. rewrite decide_True by done.
  destruct (take3 _ H3) as (a & b & e & Ht). exists a, b, e. rewrite Ht.
  assert (Hsub : ∀ i, i ∈ [a; b; e] → i ∈ free_indices (free q)).
  { intros i Hi. rewrite <- Ht in Hi. apply list_elem_of_lookup_1 in Hi as [k Hk].
    apply lookup_take_Some in Hk as [Hk _]. by eapply list_elem_of_lookup_2. }
  split_and!; [done| |].
  - rewrite <- Ht. eapply sublist_NoDup; [|apply sublist_take]. apply list.NoDup_filter, NoDup_seq.
  - apply list.Forall_forall. intros i Hi. apply Hsub in Hi.
    apply list_elem_of_filter in Hi as [Hf Hi]. apply elem_of_seq in Hi.
    change (Z.to_nat VIRTIO_RING_SIZE) with 8%nat in Hi. split; [lia|].
    destruct Hq. rewrite qi_free0 in Hf by lia. rewrite app_nil_r in Hf.
    injection Hf as Hf. by apply bool_decide_eq_true_1 in Hf.
Qed.

(** ** A request in flight, and what the device does with it *)

Record request : Type := mk_request {
  rq_chain : chain; rq_header : Z; rq_sector : Z; rq_buf : Z; rq_size : Z; rq_status : Z;
  rq_write : bool }.

(** What tells a write from a read: the type in the header, and whether the
    device may write the data descriptor. *)
Definition request_type (write : bool) : Z := if write then VIRTIO_BLK_T_OUT else VIRTIO_BLK_T_IN.
Definition data_flags (write : bool) : Z :=
  Z.lor VIRTIO_DESC_F_NEXT (if write then 0 else VIRTIO_DESC_F_WRITE).

Definition next16 (i : Z) : Z := (i + 1) mod 2 ^ 16.

Definition outside (lo len a : Z) : Prop := a < lo ∨ lo + len <= a.

(** The three areas of memory the device writes do not overlap. *)
Definition separate (base : Z) (r : request) : Prop :=
  (∀ j, 0 <= j < rq_size r → outside base QUEUE_BYTES (rq_buf r + j) ∧ rq_buf r + j ≠ rq_status r) ∧
  outside base QUEUE_BYTES (rq_status r).

(** A request published as entry [i] of the available ring. *)
Definition request_at (f : Z → Z) (base i : Z) (r : request) : Prop :=
  let '(a, b, e) := rq_chain r in
  ((a < 8)%nat ∧ (b < 8)%nat ∧ (e < 8)%nat) ∧
  u16_at f (avail_idx_addr (avail_of base)) = next16 i ∧
  u16_at f (avail_ring_addr (avail_of base) (i mod 8)) = Z.of_nat a ∧
  desc_at f base a = {| d_addr := rq_header r; d_len := HEADER_SIZE;
                        d_flags := VIRTIO_DESC_F_NEXT; d_next := Z.of_nat b |} ∧
  desc_at f base b = {| d_addr := rq_buf r; d_len := rq_size r;
                        d_flags := data_flags (rq_write r); d_next := Z.of_nat e |} ∧
  desc_at f base e = {| d_addr := rq_status r; d_len := 1;
                        d_flags := VIRTIO_DESC_F_WRITE; d_next := 0 |} ∧
  u32_at f (rq_header r) = request_type (rq_write r) ∧ u64_at f (rq_header r + 8) = rq_sector r ∧
  separate base r.

(** Serving it: the data of a read, status byte, used element and used
    index; nothing else. *)
Record served (disk : Z → Z) (ok : bool) (base i : Z) (r : request) (f f' : Z → Z) : Prop := {
  sv_data : ok = true → rq_write r = false → ∀ j, 0 <= j < rq_size r →
    f' (rq_buf r + j) = disk (rq_sector r * 512 + j);
  sv_status : f' (rq_status r) = if ok then 0 else 1;
  sv_elem : u32_at f' (used_elem_addr (used_of base) (i mod 8)) = Z.of_nat (head_of (rq_chain r));
  sv_idx : u16_at f' (used_idx_addr (used_of base)) = next16 i;
  sv_frame : ∀ x, (rq_write r = false → outside (rq_buf r) (rq_size r) x) → x ≠ rq_status r →
    outside (used_elem_addr (used_of base) (i mod 8)) 8 x →
    outside (used_idx_addr (used_of base)) 2 x → f' x = f x }.

(** The contents of the disks after the request: a write that succeeds
    replaces its sectors by the buffer. *)
Definition stored (slot : nat) (r : request) (ok : bool) (f : Z → Z) (disk : nat → Z → Z)
    (k : nat) (a : Z) : Z :=
  if decide (k = slot ∧ rq_write r = true ∧ ok = true ∧
             rq_sector r * 512 <= a < rq_sector r * 512 + rq_size r)
  then f (rq_buf r + (a - rq_sector r * 512)) else disk k a.

Class DiskHost (T : Type) `{Host T} := {
  (** What the disk of a slot holds, and which transfers it serves. *)
  hd_disk : T → nat → Z → Z;
  hd_disk_byte t slot : byteful (hd_disk t slot);
  hd_ok : nat → Z → Z → bool;
  (** The live queue of a slot and the number of requests served (mod 2^16). *)
  hd_queue : T → nat → option (Z * Z);
  (** The slot at work and the ticks until it completes. *)
  hd_busy : T → option (nat * nat);
  hd_latency : nat;
  hd_notify t slot base i :
    hd_busy t = None → hd_queue t slot = Some (base, i) →
    ∃ t' n, host_write (reg (slot_addr slot) QueueNotify) 0 t = Some t' ∧
      hd_busy t' = Some (slot, n) ∧ (n <= hd_latency)%nat ∧
      (∀ k, hd_queue t' k = hd_queue t k) ∧ (∀ k a, hd_disk t' k a = hd_disk t k a);
  hd_rest t m : hd_busy t = None →
    ∃ t', host_tick t m = (t', m) ∧ hd_busy t' = None ∧ (∀ k, hd_queue t' k = hd_queue t k) ∧
      (∀ k a, hd_disk t' k a = hd_disk t k a);
  hd_work t m slot n : hd_busy t = Some (slot, S n) →
    ∃ t', host_tick t m = (t', m) ∧ hd_busy t' = Some (slot, n) ∧
      (∀ k, hd_queue t' k = hd_queue t k) ∧ (∀ k a, hd_disk t' k a = hd_disk t k a);
  hd_serve t m slot base i r :
    hd_busy t = Some (slot, O) → hd_queue t slot = Some (base, i) →
    request_at (byte_at m) base i r →
    ∃ t' m', host_tick t m = (t', m') ∧ hd_busy t' = None ∧
      hd_queue t' slot = Some (base, next16 i) ∧
      (∀ k, k ≠ slot → hd_queue t' k = hd_queue t k) ∧
      (∀ k a, hd_disk t' k a =
         stored slot r (hd_ok slot (rq_sector r) (rq_size r)) (byte_at m) (hd_disk t) k a) ∧
      served (hd_disk t slot) (hd_ok slot (rq_sector r) (rq_size r)) base i r
        (byte_at m) (byte_at m') }.

(** The queue after a chain was written and published. *)
Lemma q_inv_submit f g base ack fr fin a b e :
  q_inv f base ack fr fin [] →
  NoDup [a; b; e] → Forall (λ i, (i < 8)%nat ∧ i ∉ taken fin) [a; b; e] →
  linked g base (a, b, e) →
  (∀ i, (i < 8)%nat → i ∉ [a; b; e] → desc_at g base i = desc_at f base i) →
  (∀ x, used_of base <= x < base + QUEUE_BYTES → g x = f x) →
  q_inv g base ack (set_all false [a; b; e] fr) fin [(a, b, e)].
Proof.
  intros [] Hnd Hfresh Hlink Hdesc Hused. rewrite app_nil_r in *.
  assert (Htk : taken (fin ++ [(a, b, e)]) = taken fin ++ [a; b; e]) by apply taken_app.
  assert (Hfr : ∀ i, i ∈ [a; b; e] → (i < 8)%nat ∧ i ∉ taken fin).
  { intros i Hi. by apply (proj1 (list.Forall_forall _ _) Hfresh). }
  change (used_of base) with (base + 4096) in *. unfold QUEUE_BYTES in Hused.
  rewrite PAGE_SIZE_val in Hused. split; try done.
  - rewrite Htk. apply list.NoDup_app. split_and!; try done.
    intros i Hi Hin. by apply (Hfr i).
  - rewrite Htk. apply list.Forall_app. split; [done|].
    apply list.Forall_forall. intros i Hi. by apply Hfr.
  - by rewrite length_set_all.
  - intros i Hi. rewrite Htk, set_all_lookup, qi_len0, qi_free0 by done.
    destruct (decide (i ∈ [a; b; e])) as [Hin|Hin].
    + rewrite decide_True by done. f_equal. symmetry. apply bool_decide_eq_false_2.
      rewrite elem_of_app. tauto.
    + rewrite decide_False by tauto. f_equal. apply bool_decide_ext.
      rewrite elem_of_app. tauto.
  - apply list.Forall_app. split; [|by apply list.Forall_singleton].
    apply list.Forall_forall. intros c Hc.
    assert (Hr : ∀ i, i ∈ members c → (i < 8)%nat ∧ i ∉ [a; b; e]).
    { intros i Hi. pose proof (taken_members _ _ Hc i Hi) as Hti. split.
      - by apply (proj1 (list.Forall_forall _ _) qi_range0).
      - intros Hin. by apply (Hfr i). }
    apply (linked_ext f).
    + apply list.Forall_forall. intros i Hi. by apply Hr.
    + intros i Hi. apply Hdesc; by apply Hr.
    + by apply (proj1 (list.Forall_forall _ _) qi_linked0).
  - intros k c Hk. rewrite <- (qi_elem0 k c Hk). unfold used_elem_addr, u32_at.
    apply le_ext. intros j Hj. apply Hused.
    pose proof (Z.mod_pos_bound (ack + Z.of_nat k) 8). lia.
  - rewrite <- qi_used0. unfold used_idx_addr, u16_at. apply le_ext. intros j Hj.
    apply Hused. lia.
Qed.

(** The queue after the device served the chain in flight. *)
Lemma q_inv_served disk ok f f' base i r ack fr fin :
  q_inv f base ack fr fin [rq_chain r] → (length fin < 8)%nat →
  i = (ack + Z.of_nat (length fin)) mod 2 ^ 16 →
  separate base r → served disk ok base i r f f' →
  q_inv f' base ack fr (fin ++ [rq_chain r]) [].
Proof.
  intros [] Hlen Hi [Hs1 Hs2] [].
  change (used_of base) with (base + 4096) in *. unfold used_elem_addr, used_idx_addr in *.
  unfold QUEUE_BYTES, outside in *. rewrite PAGE_SIZE_val in *.
  assert (Hbuf : ∀ x, base <= x < base + 8192 → x < rq_buf r ∨ rq_buf r + rq_size r <= x).
  { intros x Hx. destruct (Z.lt_ge_cases x (rq_buf r)); [by left|].
    destruct (Z.lt_ge_cases x (rq_buf r + rq_size r)); [|by right].
    destruct (Hs1 (x - rq_buf r)) as [[?|?] _]; lia. }
  pose proof (Z.mod_pos_bound i 8 ltac:(lia)) as Him.
  assert (Hlow : ∀ x, base <= x < base + 4096 → f' x = f x).
  { intros x Hx. apply sv_frame0; [intros _; apply Hbuf; lia|lia..]. }
  split; rewrite ?app_nil_r; try done.
  - apply list.Forall_forall. intros c Hc.
    assert (Hr : ∀ j, j ∈ members c → (j < 8)%nat).
    { intros j Hj. apply (proj1 (list.Forall_forall _ _) qi_range0). by apply (taken_members _ c). }
    apply (linked_ext f).
    + by apply list.Forall_forall.
    + intros j Hj. unfold desc_at, descriptor_at, u64_at, u32_at, u16_at, DESC_SIZE.
      pose proof (Hr j Hj). f_equal; apply le_ext; intros k Hk; apply Hlow; lia.
    + by apply (proj1 (list.Forall_forall _ _) qi_linked0).
  - intros k c Hk. destruct (decide (k < length fin)%nat) as [Hkl|Hkl].
    + rewrite lookup_app_l in Hk by done. rewrite <- (qi_elem0 k c Hk). unfold u32_at.
      apply le_ext. intros j Hj. pose proof (Z.mod_pos_bound (ack + Z.of_nat k) 8).
      assert ((ack + Z.of_nat k) mod 8 ≠ i mod 8) by (subst i; dlia).
      apply sv_frame0; [intros _; apply Hbuf; lia|lia..].
    + assert (k = length fin).
      { apply lookup_lt_Some in Hk. rewrite length_app in Hk. cbn in Hk. lia. }
      subst k. rewrite lookup_app_r, Nat.sub_diag in Hk by lia. injection Hk as <-.
      rewrite <- sv_elem0. f_equal. unfold used_elem_addr.
      change (used_of base) with (base + 4096). subst i. dlia.
  - change (used_idx_addr (used_of base)) with (base + 4096 + 2).
    rewrite sv_idx0, length_app. cbn [length]. unfold next16. subst i. dlia.
Qed.
