(* ===== verification/VirtioRead.v ===== *)
(** * [block_read] and [block_write] from submission to completion

    For every device that behaves as [DiskHost] documents and every polling
    budget above its latency, [block_read] of a configured slot delivers the
    bytes of the disk, which makes it the block reader of the file system, and
    [block_write] replaces them; of any other slot both fail.  They return
    their request page and leave the queue ready for the next request.  At most one
    completed chain stays unacknowledged between two calls: the device may
    complete between [pending] and the look at the status byte. *)

From S2P Require Import Prelude Frames Bytes BlockDev Virtio VirtioProps VirtioQueue.

Section steps.
Context `{Profile} {St T : Type} `{FrameAllocatorLaws St} `{LensLaws St (virtio T)}.
Context `{!Apart St (virtio T)} `{DiskHost T} (E : fault → Prop).

Definition with_dev (slot : nat) (b : BlockDevice) (v : virtio T) : virtio T :=
  mk_virtio (<[slot := b]> (BLOCK_DEVICES v)) (VIRTIO_DEVICES v) (ACCESS_FAULT_SEEN v) (host v).
Definition with_host (t : T) (v : virtio T) : virtio T :=
  mk_virtio (BLOCK_DEVICES v) (VIRTIO_DEVICES v) (ACCESS_FAULT_SEEN v) t.

Lemma wp_get_dev slot bd Q (s : St) :
  BLOCK_DEVICES (view s) !! slot = Some bd → Q bd s → wp E (get_dev slot) Q s.
Proof. intros Hl HQ. apply wp_bind, wp_gets. by eapply wp_index. Qed.

Lemma wp_set_dev slot bd Q (s : St) :
  (slot < length (BLOCK_DEVICES (view s)))%nat →
  Q tt (put (with_dev slot bd (view s)) s) → wp E (set_dev slot bd) Q s.
Proof.
  intros Hl HQ. apply wp_bind, wp_gets. rewrite (proj2 (Nat.ltb_lt _ _)) by done. exact HQ.
Qed.

Lemma wp_write_mem g Q (s : St) :
  Q tt (fa_set_ram (g (fa_ram s)) s) → wp E (write_mem g) Q s.
Proof. done. Qed.

Lemma wp_memory Q (s : St) : Q (bytes_of s) s → wp E memory Q s.
Proof. done. Qed.

Lemma wp_write_volatile a x t' Q (s : St) :
  host_write a x (host (view s)) = Some t' →
  Q tt (put (with_host t' (view s)) s) → wp E (write_volatile a x) Q s.
Proof.
  intros Hw HQ. apply wp_bind, wp_gets. rewrite Hw. apply wp_bind, wp_gets. exact HQ.
Qed.

Lemma wp_device_runs t' m' Q (s : St) :
  host_tick (host (view s)) (fa_ram s) = (t', m') →
  Q tt (put (with_host t' (view s)) (fa_set_ram m' s)) → wp E device_runs Q s.
Proof.
  intros Hw HQ. apply wp_bind, wp_gets, wp_bind, wp_gets. rewrite Hw.
  apply wp_bind, wp_write_mem, wp_bind, wp_gets. by rewrite ap_set_ram.
Qed.

(** Code that only touches memory and the driver's state: the memory [m] and
    driver state [v] reached from [s0]. *)
Record reaches (s0 : St) (m : gmap Z Z) (v : virtio T) (s : St) : Prop := {
  re_ram : fa_ram s = m;
  re_view : view s = v;
  re_rep : ∀ h, fa_rep s0 h → fa_rep s h;
  re_room : ∀ n, fa_room s0 n → fa_room s n }.

Lemma reaches_refl s : reaches s (fa_ram s) (view s) s.
Proof. done. Qed.

Lemma reaches_put s0 m v s v' : reaches s0 m v s → reaches s0 m v' (put v' s).
Proof.
  intros []. split.
  - by rewrite ap_ram.
  - apply view_put.
  - intros h Hh. by apply ap_rep, re_rep0.
  - intros n Hn. by apply ap_room, re_room0.
Qed.

Lemma reaches_ram s0 m v s m' : reaches s0 m v s → reaches s0 m' v (fa_set_ram m' s).
Proof.
  intros []. split.
  - apply fa_ram_set.
  - by rewrite ap_set_ram.
  - intros h Hh. by apply fa_rep_set, re_rep0.
  - intros n Hn. by apply fa_room_set, re_room0.
Qed.

Lemma wp_write_mem_to s0 m v s g (Q : unit → St → Prop) :
  reaches s0 m v s → (∀ s', reaches s0 (g m) v s' → Q tt s') → wp E (write_mem g) Q s.
Proof.
  intros Hr HQ. apply wp_write_mem, HQ. rewrite (re_ram _ _ _ _ Hr). by eapply reaches_ram.
Qed.

Lemma wp_set_dev_to s0 m v s slot bd (Q : unit → St → Prop) :
  reaches s0 m v s → (slot < length (BLOCK_DEVICES v))%nat →
  (∀ s', reaches s0 m (with_dev slot bd v) s' → Q tt s') → wp E (set_dev slot bd) Q s.
Proof.
  intros Hr Hl HQ. pose proof (re_view _ _ _ _ Hr) as Hv.
  apply wp_set_dev; [by rewrite Hv|]. apply HQ. rewrite Hv. by eapply reaches_put.
Qed.

Lemma wp_write_volatile_to s0 m v s a x t' (Q : unit → St → Prop) :
  reaches s0 m v s → host_write a x (host v) = Some t' →
  (∀ s', reaches s0 m (with_host t' v) s' → Q tt s') → wp E (write_volatile a x) Q s.
Proof.
  intros Hr Hw HQ. pose proof (re_view _ _ _ _ Hr) as Hv.
  eapply wp_write_volatile; [by rewrite Hv|]. apply HQ. rewrite Hv. by eapply reaches_put.
Qed.
End steps.

Section read.
Context `{Profile} {St T : Type} `{FrameAllocatorLaws St} `{LensLaws St (virtio T)}.
Context `{!Apart St (virtio T)} `{DiskHost T} (E : fault → Prop).
Context (slot : nat) (base i0 : Z) (r : request) (req : Z) (ok : bool).
Context (s0 s1 : St) (v0 : virtio T) (h1 : gmap Z Z).
Context (Hslot : (slot < 8)%nat).
Context (Hok : ok = hd_ok slot (rq_sector r) (rq_size r)).
Context (Hstat : rq_status r = status_addr req).
Context (Hbr : ∀ x, rq_buf r <= x < rq_buf r + rq_size r → outside req PAGE_SIZE x).

(** What holds of the driver while the request at [req] is under way. *)
Record common (s : St) (bd : BlockDevice) (fin fly : list chain) (j : Z) : Prop := {
  c_rep : fa_rep s h1;
  c_room : ∀ n, fa_room s1 n → fa_room s n;
  c_len : length (BLOCK_DEVICES (view s)) = 8%nat;
  c_dev : BLOCK_DEVICES (view s) !! slot = Some bd;
  c_at : dev_at bd slot base;
  c_ro : read_only <$> BLOCK_DEVICES v0 !! slot = Some (read_only bd);
  c_others : ∀ k, k ≠ slot → BLOCK_DEVICES (view s) !! k = BLOCK_DEVICES v0 !! k;
  c_queue : hd_queue (host (view s)) slot = Some (base, j);
  c_queues : ∀ k, k ≠ slot → hd_queue (host (view s)) k = hd_queue (host v0) k;
  c_inv : q_inv (bytes_of s) base (ack_used_idx bd) (free (queue bd)) fin fly;
  c_idx : j = (ack_used_idx bd + Z.of_nat (length fin)) mod 2 ^ 16;
  c_avail : u16_at (bytes_of s) (avail_idx_addr (avail_of base)) = next16 i0;
  c_frame : ∀ x, (rq_write r = false → outside (rq_buf r) (rq_size r) x) → outside base QUEUE_BYTES x →
    outside req PAGE_SIZE x → bytes_of s x = bytes_of s0 x }.

Record busy (n : nat) (fin : list chain) (s : St) (bd : BlockDevice) : Prop := {
  b_common : common s bd fin [rq_chain r] i0;
  b_fin : (length fin <= 1)%nat;
  b_busy : hd_busy (host (view s)) = Some (slot, n);
  b_req : request_at (bytes_of s) base i0 r;
  b_status : bytes_of s (rq_status r) = STATUS_PENDING;
  b_disk : ∀ k a, hd_disk (host (view s)) k a = hd_disk (host v0) k a }.

Record finished (fin : list chain) (s : St) (bd : BlockDevice) : Prop := {
  f_common : common s bd fin [] (next16 i0);
  f_fin : (length fin <= 2)%nat;
  f_busy : hd_busy (host (view s)) = None;
  f_status : bytes_of s (rq_status r) = if ok then 0 else 1;
  f_data : ok = true → rq_write r = false → ∀ j, 0 <= j < rq_size r →
    bytes_of s (rq_buf r + j) = hd_disk (host v0) slot (rq_sector r * 512 + j);
  f_disk : ∀ k a, hd_disk (host (view s)) k a = stored slot r ok (bytes_of s0) (hd_disk (host v0)) k a }.

(** The memory read through a state that only changed elsewhere. *)
Lemma bytes_of_put t (s : St) : bytes_of (put (T:=virtio T) t s) = bytes_of s.
Proof. unfold bytes_of. by rewrite ap_ram. Qed.
Lemma bytes_of_set m (s : St) : bytes_of (fa_set_ram m s) = byte_at m.
Proof. unfold bytes_of. by rewrite fa_ram_set. Qed.

(** Replacing the host only. *)
Lemma common_host s bd fin fly j t' :
  common s bd fin fly j →
  (∀ k, hd_queue t' k = hd_queue (host (view s)) k) →
  common (put (with_host t' (view s)) (fa_set_ram (fa_ram s) s)) bd fin fly j.
Proof.
  intros [] Hq. split; rewrite ?view_put, ?bytes_of_put, ?bytes_of_set; cbn [with_host BLOCK_DEVICES host];
    rewrite ?Hq; try done.
  - by apply ap_rep, fa_rep_set.
  - intros n Hn. by apply ap_room, fa_room_set, c_room0.
  - intros k Hk. rewrite Hq. auto.
Qed.

Lemma tick_work n fin s bd (Q : unit → St → Prop) :
  busy (S n) fin s bd → (∀ s', busy n fin s' bd → Q tt s') → wp E device_runs Q s.
Proof.
  intros [Hc Hf Hb Hr Hs Hk] HQ.
  destruct (hd_work (host (view s)) (fa_ram s) slot n Hb) as (t' & Et & Hb' & Hq & Hdk).
  eapply wp_device_runs; [exact Et|]. apply HQ.
  split; rewrite ?view_put, ?bytes_of_put, ?bytes_of_set; try done; [by apply common_host|].
  intros k a. cbn [with_host host]. by rewrite Hdk.
Qed.

Lemma tick_rest fin s bd (Q : unit → St → Prop) :
  finished fin s bd → (∀ s', finished fin s' bd → Q tt s') → wp E device_runs Q s.
Proof.
  intros [Hc Hf Hb Hs Hd Hk] HQ.
  destruct (hd_rest (host (view s)) (fa_ram s) Hb) as (t' & Et & Hb' & Hq & Hdk).
  eapply wp_device_runs; [exact Et|]. apply HQ.
  split; rewrite ?view_put, ?bytes_of_put, ?bytes_of_set; try done; [by apply common_host|].
  intros k a. cbn [with_host host]. by rewrite Hdk.
Qed.

Lemma tick_serve fin s bd (Q : unit → St → Prop) :
  busy 0 fin s bd → (∀ s', finished (fin ++ [rq_chain r]) s' bd → Q tt s') →
  wp E device_runs Q s.
Proof.
  intros [Hc Hf Hb Hr Hs Hdisk] HQ.
  destruct (hd_serve (host (view s)) (fa_ram s) slot base i0 r Hb (c_queue _ _ _ _ _ Hc) Hr)
    as (t' & m' & Et & Hb' & Hq & Hqs & Hst & Hsv).
  eapply wp_device_runs; [exact Et|]. apply HQ. rewrite <- Hok in Hsv, Hst.
  assert (Hsep : separate base r) by (destruct (rq_chain r) as [[??]?] eqn:Ec;
    unfold request_at in Hr; rewrite Ec in Hr; tauto).
  pose proof (q_inv_served _ _ _ _ _ _ _ _ _ _ (c_inv _ _ _ _ _ Hc) ltac:(lia)
    (c_idx _ _ _ _ _ Hc) Hsep Hsv) as Hinv.
  destruct Hc, Hsv. pose proof Hsep as [Hs1 Hs2].
  pose proof (Z.mod_pos_bound i0 8 ltac:(lia)) as Him.
  unfold outside, QUEUE_BYTES, used_elem_addr, used_idx_addr in *.
  change (used_of base) with (base + 4096) in *. rewrite PAGE_SIZE_val in *.
  split; rewrite ?view_put, ?bytes_of_put, ?bytes_of_set; try done.
  2: { rewrite length_app. cbn. lia. }
  2: { intros Ho Hw j Hj. rewrite <- Hdisk. by apply sv_data. }
  2: { intros k a. cbn [with_host host]. rewrite Hst. unfold stored. rewrite Hdisk. case_decide as Hd; [|done].
       destruct Hd as (-> & Hw & _ & Ha). apply c_frame0; [congruence| |].
       - apply (Hs1 (a - rq_sector r * 512)). lia.
       - apply Hbr. lia. }
  split; rewrite ?view_put, ?bytes_of_put, ?bytes_of_set; cbn [with_host BLOCK_DEVICES host];
    try done.
  - by apply ap_rep, fa_rep_set.
  - intros n Hn. by apply ap_room, fa_room_set, c_room0.
  - intros k Hk. rewrite Hqs by done. auto.
  - rewrite c_idx0, length_app. unfold next16. cbn [length]. dlia.
  - rewrite <- c_avail0. unfold u16_at, avail_idx_addr. change (avail_of base) with (base + 128).
    apply le_ext. intros j Hj. apply sv_frame; [intros _|lia..].
    destruct (Z.lt_ge_cases (base + 128 + 2 + j) (rq_buf r)); [by left|].
    destruct (Z.lt_ge_cases (base + 128 + 2 + j) (rq_buf r + rq_size r)); [|by right].
    destruct (Hs1 (base + 128 + 2 + j - rq_buf r)) as [[?|?] _]; lia.
  - intros x Hx1 Hx2 Hx3. rewrite <- c_frame0 by (rewrite ?PAGE_SIZE_val; done).
    unfold outside, QUEUE_BYTES in *. rewrite PAGE_SIZE_val in *.
    apply sv_frame; [done| |lia..]. rewrite Hstat. unfold status_addr. lia.
Qed.

(** [pending] on the device in the table: everything completed is
    acknowledged, nothing else moves. *)
Lemma pending_step {A} s bd fin fly j (k : M St A) Q :
  common s bd fin fly j → (length fin < 8)%nat →
  (∀ s' bd', common s' bd' [] fly j → bytes_of s' = bytes_of s →
     host (view s') = host (view s) → wp E k Q s') →
  wp E (bd ← get_dev slot; bd' ← pending bd; set_dev slot bd';; k) Q s.
Proof.
  intros Hc Hlen Hk. pose proof Hc as []. apply wp_bind. eapply wp_get_dev; [done|].
  destruct (pending_loop_spec fin fly slot base (Z.to_nat (2 ^ 16)) bd s)
    as (bd' & Ep & Hat & Hro & Hinv & Hack); try done; try lia.
  apply wp_bind. eapply wp_done; [exact Ep|]. apply wp_bind.
  apply wp_set_dev; [lia|]. apply (Hk _ bd'); rewrite ?view_put, ?bytes_of_put; try done.
  split; rewrite ?view_put, ?bytes_of_put; cbn [with_dev BLOCK_DEVICES host]; try done.
  - by apply ap_rep.
  - intros n Hn. by apply ap_room, c_room0.
  - by rewrite length_insert.
  - apply list_lookup_insert_eq. lia.
  - by rewrite Hro.
  - intros x Hx. rewrite list_lookup_insert_ne by done. auto.
  - rewrite c_idx0, Hack. cbn [length]. dlia.
Qed.

Lemma poll_spec fuel : ∀ n fin s bd,
  busy n fin s bd → (n < fuel)%nat →
  wp E (poll fuel slot req) (λ st s', st = (if ok then 0 else 1) ∧
    ∃ fin' bd', finished fin' s' bd' ∧ (length fin' <= 1)%nat) s.
Proof.
  assert (Hexit : ∀ fuel' fin s bd, finished fin s bd → (length fin <= 1)%nat →
    wp E (f ← memory; let st := f (status_addr req) in
          if negb (st =? STATUS_PENDING) then mret st else poll fuel' slot req)
      (λ st s', st = (if ok then 0 else 1) ∧
         ∃ fin' bd', finished fin' s' bd' ∧ (length fin' <= 1)%nat) s).
  { intros fuel' fin s bd Hf Hl. apply wp_bind, wp_memory. cbv zeta.
    rewrite <- Hstat, (f_status _ _ _ Hf).
    replace (negb _) with true by (by destruct ok). apply wp_ret. eauto 6. }
  induction fuel as [|fuel IH]; intros n fin s bd Hb Hn; [lia|]. cbn [poll].
  apply wp_bind. destruct n as [|n].
  - eapply tick_serve; [done|]. intros s2 Hf2. eapply pending_step; [apply Hf2| |].
    { destruct Hb. rewrite length_app. cbn. lia. }
    intros s3 bd3 Hc3 Hm3 Hh3. apply wp_bind. eapply (tick_rest [] s3 bd3).
    { destruct Hf2. split; rewrite ?Hm3, ?Hh3; try done. cbn. lia. }
    intros s4 Hf4. eapply Hexit; [exact Hf4|cbn; lia].
  - eapply tick_work; [done|]. intros s2 Hb2. pose proof Hb2 as [Hc2 Hl2 Hbusy2 Hr2 Hs2].
    eapply pending_step; [apply Hc2|lia|]. intros s3 bd3 Hc3 Hm3 Hh3.
    assert (Hb3 : busy n [] s3 bd3).
    { split; rewrite ?Hm3, ?Hh3; try done. cbn. lia. }
    apply wp_bind. destruct n as [|n].
    + eapply tick_serve; [exact Hb3|]. intros s4 Hf4. eapply Hexit; [exact Hf4|cbn; lia].
    + eapply tick_work; [exact Hb3|]. intros s4 Hb4. apply wp_bind, wp_memory. cbv zeta.
      rewrite <- Hstat, (b_status _ _ _ _ Hb4). eapply (IH n); [exact Hb4|lia].
Qed.
End read.

Lemma outside_swap lo len lo' len' x :
  (∀ y, lo' <= y < lo' + len' → outside lo len y) → lo <= x < lo + len → outside lo' len' x.
Proof.
  intros Hy Hx. unfold outside in *.
  destruct (Z.lt_ge_cases x lo'), (Z.lt_ge_cases x (lo' + len'));
    [by left|by left| |by right]. destruct (Hy x); lia.
Qed.

(** ** Publishing a request, as a transformation of memory *)

Lemma put_request_frame req ty sector buf m x :
  outside req PAGE_SIZE x →
  byte_at (put_request req ty sector buf STATUS_PENDING m) x = byte_at m x.
Proof.
  unfold outside. rewrite PAGE_SIZE_val. intros Hx. unfold put_request, status_addr.
  rewrite byte_at_put_byte by done. rewrite decide_False by lia.
  repeat (rewrite byte_at_put_le, decide_False by lia). done.
Qed.

Section submit.
Context (base req buf sz sector i : Z) (a b e : nat) (w : bool).
Context (Ha : (a < 8)%nat) (Hb : (b < 8)%nat) (He : (e < 8)%nat) (Hnd : NoDup [a; b; e]).
Context (Hreq : 0 <= req < 2 ^ 63) (Hbuf : 0 <= buf < 2 ^ 64) (Hsz : 0 <= sz < 2 ^ 32).
Context (Hsec : 0 <= sector < 2 ^ 64) (Hi : 0 <= i < 2 ^ 16).
Context (Hqr : ∀ x, req <= x < req + PAGE_SIZE → outside base QUEUE_BYTES x).
Context (Hqb : ∀ x, buf <= x < buf + sz → outside base QUEUE_BYTES x).
Context (Hbr : ∀ x, buf <= x < buf + sz → outside req PAGE_SIZE x).

Definition the_request : request := mk_request (a, b, e) req sector buf sz (status_addr req) w.

Definition head_desc : Descriptor :=
  {| d_addr := req; d_len := HEADER_SIZE; d_flags := VIRTIO_DESC_F_NEXT; d_next := Z.of_nat b |}.
Definition data_desc : Descriptor :=
  {| d_addr := buf; d_len := sz;
     d_flags := data_flags w; d_next := Z.of_nat e |}.
Definition status_desc : Descriptor :=
  {| d_addr := status_addr req; d_len := 1; d_flags := VIRTIO_DESC_F_WRITE; d_next := 0 |}.

Definition chain_mem (m : gmap Z Z) : gmap Z Z :=
  put_descriptor (base + DESC_SIZE * Z.of_nat e) status_desc
   (put_descriptor (base + DESC_SIZE * Z.of_nat b) data_desc
     (put_descriptor (base + DESC_SIZE * Z.of_nat a) head_desc
       (put_request req (request_type w) sector buf STATUS_PENDING m))).
Definition publish_mem (m : gmap Z Z) : gmap Z Z :=
  put_le 2 (avail_idx_addr (avail_of base)) (next16 i)
    (put_le 2 (avail_ring_addr (avail_of base) (i mod 8)) (Z.of_nat a) m).

(** Every byte written lies in the request page or in the queue's
    descriptor and available areas. *)
Lemma chain_mem_frame m x :
  outside base 128 x → 
  byte_at (chain_mem m) x =
  byte_at (put_request req (request_type w) sector buf STATUS_PENDING m) x.
Proof.
  unfold outside, chain_mem, DESC_SIZE. intros Hx.
  by rewrite !byte_at_put_descriptor by lia.
Qed.

Lemma publish_mem_frame m x :
  outside (base + 128) 22 x → byte_at (publish_mem m) x = byte_at m x.
Proof.
  unfold outside, publish_mem, avail_idx_addr, avail_ring_addr.
  change (avail_of base) with (base + 128). intros Hx.
  pose proof (Z.mod_pos_bound i 8 ltac:(lia)).
  by rewrite !byte_at_put_le, !decide_False by lia.
Qed.

Lemma submit_frame m x :
  outside base PAGE_SIZE x → outside req PAGE_SIZE x →
  byte_at (publish_mem (chain_mem m)) x = byte_at m x.
Proof.
  unfold outside. rewrite PAGE_SIZE_val. intros Hx1 Hx2.
  rewrite publish_mem_frame, chain_mem_frame by (unfold outside; lia).
  apply put_request_frame. unfold outside. rewrite PAGE_SIZE_val. lia.
Qed.

(** Descriptors after the three writes. *)
Lemma submit_descs m :
  let f := byte_at (publish_mem (chain_mem m)) in
  desc_at f base a = head_desc ∧ desc_at f base b = data_desc ∧ desc_at f base e = status_desc ∧
  ∀ k, (k < 8)%nat → k ∉ [a; b; e] → desc_at f base k = desc_at (byte_at m) base k.
Proof.
  intros f. rewrite !list.NoDup_cons, !elem_of_cons in Hnd.
  destruct Hnd as (Hna & Hnb & _).
  assert (Hp : ∀ k, (k < 8)%nat → desc_at f base k = desc_at (byte_at (chain_mem m)) base k).
  { intros k Hk. unfold f, desc_at, descriptor_at, u64_at, u32_at, u16_at, DESC_SIZE.
    f_equal; apply le_ext; intros j Hj; apply publish_mem_frame; unfold outside; lia. }
  assert (Hwf : wf_desc head_desc ∧ wf_desc data_desc ∧ wf_desc status_desc).
  { unfold wf_desc, head_desc, data_desc, status_desc, status_addr.
    cbn [d_addr d_len d_flags d_next].
    unfold HEADER_SIZE, VIRTIO_DESC_F_NEXT, VIRTIO_DESC_F_WRITE.
    assert (data_flags w = 1 ∨ data_flags w = 3) by (destruct w; auto). lia. }
  destruct Hwf as (Hw1 & Hw2 & Hw3). rewrite !Hp by done. unfold chain_mem. split_and!.
  - rewrite !desc_put_other by (intros ->; tauto). by apply desc_put_same.
  - rewrite desc_put_other by (intros ->; tauto). by apply desc_put_same.
  - by apply desc_put_same.
  - intros k Hk Hnk. rewrite !elem_of_cons in Hnk. rewrite Hp by done.
    unfold chain_mem. rewrite !desc_put_other by (intros ->; tauto).
    unfold desc_at, descriptor_at, u64_at, u32_at, u16_at, DESC_SIZE.
    f_equal; apply le_ext; intros j Hj; apply put_request_frame;
      unfold outside, QUEUE_BYTES in *; rewrite PAGE_SIZE_val in *;
      match goal with |- ?x < req ∨ _ => 
        destruct (Z.lt_ge_cases x req), (Z.lt_ge_cases x (req + 4096));
        [by left|by left| |by right]; destruct (Hqr x); lia end.
Qed.

Lemma submit_status m : byte_at (publish_mem (chain_mem m)) (status_addr req) = STATUS_PENDING.
Proof.
  assert (Hr : outside base QUEUE_BYTES (status_addr req))
    by (apply Hqr; unfold status_addr; rewrite PAGE_SIZE_val; lia).
  unfold outside, QUEUE_BYTES in Hr. rewrite PAGE_SIZE_val in Hr.
  rewrite publish_mem_frame, chain_mem_frame by (unfold outside; lia).
  unfold put_request. rewrite byte_at_put_byte by done. by rewrite decide_True.
Qed.

Lemma submit_header m :
  let f := byte_at (publish_mem (chain_mem m)) in
  u32_at f req = request_type w ∧ u64_at f (req + 8) = sector.
Proof.
  assert (Hf : ∀ x, req <= x < req + 16 →
    byte_at (publish_mem (chain_mem m)) x =
    byte_at (put_le 8 (req + 8) sector (put_le 4 (req + 4) 0 (put_le 4 req (request_type w) m))) x).
  { intros x Hx. assert (Hr : outside base QUEUE_BYTES x) by (apply Hqr; rewrite PAGE_SIZE_val; lia).
    unfold outside, QUEUE_BYTES in Hr. rewrite PAGE_SIZE_val in Hr.
    rewrite publish_mem_frame, chain_mem_frame by (unfold outside; lia).
    unfold put_request, status_addr. rewrite byte_at_put_byte by done.
    rewrite decide_False by lia. by rewrite byte_at_put_le, decide_False by lia. }
  cbv zeta. unfold u32_at, u64_at. split.
  - erewrite le_ext; [|intros j Hj; apply Hf; lia].
    rewrite !le_put_le_ne by lia. rewrite le_put_le. by destruct w.
  - erewrite le_ext; [|intros j Hj; apply Hf; lia].
    rewrite le_put_le. by apply Z.mod_small.
Qed.

Lemma submit_request m : request_at (byte_at (publish_mem (chain_mem m))) base i the_request.
Proof.
  destruct (submit_descs m) as (Hda & Hdb & Hde & _). destruct (submit_header m) as [Hh1 Hh2].
  unfold request_at. cbn [the_request rq_chain rq_header rq_sector rq_buf rq_size rq_status rq_write].
  pose proof (Z.mod_pos_bound i 8 ltac:(lia)).
  split_and!; try done.
  - unfold publish_mem, u16_at. rewrite le_put_le. apply Z.mod_small. unfold next16.
    apply Z.mod_pos_bound. lia.
  - unfold publish_mem, u16_at, avail_ring_addr, avail_idx_addr.
    rewrite le_put_le_ne by lia. rewrite le_put_le. apply Z.mod_small. lia.
  - split; cbn [the_request rq_size rq_buf rq_status].
    + intros j Hj. split; [apply Hqb; lia|].
      assert (Ho : outside req PAGE_SIZE (buf + j)) by (apply Hbr; lia).
      unfold outside, status_addr in *. rewrite PAGE_SIZE_val in Ho. lia.
    + apply Hqr. unfold status_addr. rewrite PAGE_SIZE_val. lia.
Qed.

Lemma submit_q_inv m ack fr fin :
  q_inv (byte_at m) base ack fr fin [] →
  Forall (λ k, (k < 8)%nat ∧ k ∉ taken fin) [a; b; e] →
  q_inv (byte_at (publish_mem (chain_mem m))) base ack (set_all false [a; b; e] fr) fin [(a, b, e)].
Proof.
  intros Hq Hf. destruct (submit_descs m) as (Hda & Hdb & Hde & Hother).
  eapply q_inv_submit; [exact Hq|done|done| |exact Hother|].
  - unfold linked. rewrite Hda, Hdb, Hde. split_and!; try reflexivity.
    unfold has_next, data_desc. cbn [d_flags]. by destruct w.
  - intros x Hx. change (used_of base) with (base + 4096) in Hx.
    unfold QUEUE_BYTES in *. rewrite PAGE_SIZE_val in *. apply submit_frame.
    + unfold outside. rewrite PAGE_SIZE_val. lia.
    + unfold outside. rewrite PAGE_SIZE_val.
      destruct (Z.lt_ge_cases x req), (Z.lt_ge_cases x (req + 4096));
        [by left|by left| |by right]. destruct (Hqr x); lia.
Qed.
End submit.

(** ** The driver at rest, and [block_read] as a block reader *)

Section instance.
Context `{Profile} {St T : Type} `{FrameAllocatorLaws St} `{LensLaws St (virtio T)}.
Context `{!Apart St (virtio T)} `{DiskHost T}.

(** The slots set up at boot and the queue each was given. *)
Context (conf : nat → option Z) (polls : nat).
Context (Hinj : ∀ i j base, conf i = Some base → conf j = Some base → i = j).
Context (Hpolls : (hd_latency < polls)%nat).

Record idle_at (f : Z → Z) (v : virtio T) (slot : nat) (base : Z)
    (bd : BlockDevice) (i : Z) (fin : list chain) : Prop := {
  ia_dev : BLOCK_DEVICES v !! slot = Some bd;
  ia_at : dev_at bd slot base;
  ia_queue : hd_queue (host v) slot = Some (base, i);
  ia_inv : q_inv f base (ack_used_idx bd) (free (queue bd)) fin [];
  ia_len : (length fin <= 1)%nat;
  ia_idx : i = (ack_used_idx bd + Z.of_nat (length fin)) mod 2 ^ 16;
  ia_avail : u16_at f (avail_idx_addr (avail_of base)) = i }.

Definition slot_idle (f : Z → Z) (v : virtio T) (slot : nat) (base : Z) : Prop :=
  ∃ bd i fin, idle_at f v slot base bd i fin.

(** The driver is idle, [d] are its queues and the disks hold [img]. *)
Definition own (img : nat → Z → Z) (s : St) (d : gmap Z Z) : Prop :=
  length (BLOCK_DEVICES (view s)) = 8%nat ∧ hd_busy (host (view s)) = None ∧
  (∀ slot, (slot < 8)%nat →
    match conf slot with
    | None => ∃ bd, BLOCK_DEVICES (view s) !! slot = Some bd ∧ bdev bd = 0
    | Some base => d !! base = Some 2 ∧ slot_idle (bytes_of s) (view s) slot base
    end) ∧
  ∀ slot a, hd_disk (host (view s)) slot a = img slot a.

Lemma slot_idle_ext f g (v v' : virtio T) slot base :
  slot_idle f v slot base →
  BLOCK_DEVICES v' !! slot = BLOCK_DEVICES v !! slot →
  hd_queue (host v') slot = hd_queue (host v) slot →
  (∀ x, base <= x < base + QUEUE_BYTES → g x = f x) → slot_idle g v' slot base.
Proof.
  clear Hpolls. intros (bd & i & fin & []) Hd Hq Hfg. exists bd, i, fin. split; try congruence; try done.
  - by eapply q_inv_ext.
  - rewrite <- ia_avail0. unfold u16_at. apply le_ext. intros j Hj. apply Hfg.
    unfold avail_idx_addr, QUEUE_BYTES. change (avail_of base) with (base + 128).
    rewrite PAGE_SIZE_val. lia.
Qed.

Lemma own_ext img s s' d :
  own img s d → view s' = view s (T:=virtio T) → fa_ram s' = fa_ram s → own img s' d.
Proof. unfold own, bytes_of. intros Ho -> ->. done. Qed.

(** It is at rest whatever else happened behind the registers. *)
Lemma own_host img s s' d :
  own img s d → BLOCK_DEVICES (view (T:=virtio T) s') = BLOCK_DEVICES (view s) → fa_ram s' = fa_ram s →
  hd_busy (host (view s')) = hd_busy (host (view s)) →
  (∀ k, hd_queue (host (view s')) k = hd_queue (host (view s)) k) →
  (∀ k a, hd_disk (host (view s')) k a = hd_disk (host (view s)) k a) → own img s' d.
Proof.
  clear Hpolls. intros (Hlen & Hb & Hall & Hdisk) Eb Em Ey Eq Ed. unfold own, bytes_of. rewrite Eb, Em, Ey.
  split_and!; [done|done| |intros; by rewrite Ed].
  intros slot Hs. specialize (Hall slot Hs). destruct (conf slot) as [base|]; [|done].
  destruct Hall as [Hd Hidle]. split; [done|]. eapply slot_idle_ext; [exact Hidle|by rewrite Eb|apply Eq|done].
Qed.

Lemma own_slot img s d slot base :
  own img s d → (slot < 8)%nat → conf slot = Some base → d !! base = Some 2.
Proof. intros (_ & _ & Hall & _) Hs Hc. specialize (Hall slot Hs). rewrite Hc in Hall. apply Hall. Qed.

Definition readable (dev off size : Z) : bool :=
  if 8 <=? dev then false else
  match conf (Z.to_nat dev) with
  | None => false
  | Some _ => hd_ok (Z.to_nat dev) (off / 512) size
  end.

(** Where the pages involved lie. *)
Record layout (base req buf size : Z) : Prop := {
  lo_req : 0 < req < 2 ^ 63; lo_buf : 0 <= buf < 2 ^ 63;
  lo_qr : ∀ x, req <= x < req + PAGE_SIZE → outside base QUEUE_BYTES x;
  lo_qb : ∀ x, buf <= x < buf + size → outside base QUEUE_BYTES x;
  lo_br : ∀ x, buf <= x < buf + size → outside req PAGE_SIZE x }.

Lemma runs_outside s (h : gmap Z Z) p n p' n' x :
  fa_rep (S:=St) s h → h !! p = Some n → h !! p' = Some n' → p ≠ p' →
  p <= x < p + n * PAGE_SIZE → outside p' (n' * PAGE_SIZE) x.
Proof.
  intros Hrep Hp Hp' Hne Hx. unfold outside.
  destruct (fa_disjoint s h p n p' n' Hrep Hp Hp' Hne); lia.
Qed.

Lemma layout_of s (h : gmap Z Z) base req buf size :
  fa_rep (S:=St) s h → h !! base = Some 2 → h !! req = Some 1 → h !! buf = Some 1 →
  base ≠ req → base ≠ buf → buf ≠ req → size <= PAGE_SIZE → layout base req buf size.
Proof.
  intros Hrep Hb Hr Hf Hbr Hbf Hfr Hsz.
  destruct (fa_run s h req 1 Hrep Hr) as (_ & ? & _ & ?).
  destruct (fa_run s h buf 1 Hrep Hf) as (_ & ? & _ & ?).
  rewrite PAGE_SIZE_val in *. unfold QUEUE_BYTES.
  split; try lia; intros x Hx; rewrite ?PAGE_SIZE_val in *.
  - change (2 * 4096) with (2 * PAGE_SIZE).
    eapply (runs_outside s h req 1); try done; rewrite PAGE_SIZE_val; lia.
  - change (2 * 4096) with (2 * PAGE_SIZE).
    eapply (runs_outside s h buf 1); try done; rewrite PAGE_SIZE_val; lia.
  - change 4096 with (1 * PAGE_SIZE).
    eapply (runs_outside s h buf 1); try done; rewrite PAGE_SIZE_val; lia.
Qed.

(** The device has been notified of the request. *)
Lemma submitted_busy (s1 s2 : St) h1 slot base bd i fin req buf size off a b e w t' n :
  let q := set_free (set_all false [a; b; e] (free (queue bd))) (queue bd) in
  let bd1 := set_queue (set_req_head (<[a := req]> (req_head q)) q) bd in
  let r := the_request req buf size (off / 512) a b e w in
  fa_rep s1 h1 → (slot < 8)%nat → length (BLOCK_DEVICES (view s1)) = 8%nat →
  idle_at (bytes_of s1) (view s1) slot base bd i fin → layout base req buf size →
  0 < size <= PAGE_SIZE → 0 <= off < 2 ^ 64 →
  NoDup [a; b; e] → Forall (λ k, (k < 8)%nat ∧ k ∉ taken fin) [a; b; e] →
  hd_busy t' = Some (slot, n) → (∀ k, hd_queue t' k = hd_queue (host (view s1)) k) →
  (∀ k x, hd_disk t' k x = hd_disk (host (view s1)) k x) →
  reaches s1 (publish_mem base i a (chain_mem base req buf size (off / 512) a b e w (fa_ram s1)))
    (with_host t' (with_dev slot bd1 (with_dev slot (set_queue q bd) (view s1)))) s2 →
  busy slot base i r req s1 s1 (view s1) h1 n fin s2 bd1.
Proof.
  intros q bd1 r Hrep Hslot Hlen [] [] Hsize Hoff Hnd Hfr Hbz Hqs Hdk [Hm2 Hv2 Hrep2 Hroom2].
  rewrite PAGE_SIZE_val in Hsize.
  assert (Hi : 0 <= i < 2 ^ 16) by (rewrite ia_idx0; apply Z.mod_pos_bound; lia).
  assert (Hsec : 0 <= off / 512 < 2 ^ 64) by dlia.
  pose proof Hfr as Hfr'. rewrite !list.Forall_cons in Hfr'.
  destruct Hfr' as ([Ha _] & [Hb _] & [He _] & _).
  assert (Hby : bytes_of s2 = byte_at (publish_mem base i a
      (chain_mem base req buf size (off / 512) a b e w (fa_ram s1)))) by (unfold bytes_of; by rewrite Hm2).
  split; rewrite ?Hv2, ?Hby; try done.
  2: { apply submit_request; try done; lia. }
  2: { by apply submit_status. }
  split; rewrite ?Hv2, ?Hby; cbn [with_host host BLOCK_DEVICES with_dev]; try done.
  - by apply Hrep2.
  - by rewrite !length_insert.
  - apply list_lookup_insert_eq. rewrite length_insert. lia.
  - destruct ia_at0. by split.
  - by rewrite ia_dev0.
  - intros x Hx. by rewrite !list_lookup_insert_ne.
  - by rewrite Hqs.
  - apply submit_q_inv; try done; lia.
  - unfold publish_mem, u16_at. rewrite le_put_le. apply Z.mod_small. unfold next16.
    apply Z.mod_pos_bound. lia.
  - intros x Hx1 Hx2 Hx3. apply submit_frame; try done.
    unfold outside, QUEUE_BYTES in *. rewrite PAGE_SIZE_val in *. lia.
Qed.

(** From the request page just allocated to the reply of the device. *)
Lemma serve_wp {A} E (s1 : St) h1 slot base bd i fin req buf size off a b e w (k : Z → M St A) Q :
  let q := set_free (set_all false [a; b; e] (free (queue bd))) (queue bd) in
  let r := the_request req buf size (off / 512) a b e w in
  fa_rep s1 h1 → (slot < 8)%nat → length (BLOCK_DEVICES (view s1)) = 8%nat →
  hd_busy (host (view s1)) = None →
  idle_at (bytes_of s1) (view s1) slot base bd i fin → layout base req buf size →
  0 < size <= PAGE_SIZE → 0 <= off < 2 ^ 64 →
  NoDup [a; b; e] → Forall (λ k, (k < 8)%nat ∧ k ∉ taken fin) [a; b; e] →
  (∀ st s' fin' bd', st = (if hd_ok slot (off / 512) size then 0 else 1) →
     finished slot base i r req (hd_ok slot (off / 512) size) s1 s1 (view s1) h1 fin' s' bd' →
     (length fin' <= 1)%nat → wp E (k st) Q s') →
  wp E (write_mem (put_request req (request_type w) (off / 512) buf STATUS_PENDING);;
        set_dev slot (set_queue q bd);;
        write_chain bd a b e req buf size w;;
        set_dev slot (set_queue (set_req_head (<[a := req]> (req_head q)) q) bd);;
        publish bd a;;
        write_volatile (reg (bdev bd) QueueNotify) 0;;
        st ← poll polls slot req; k st) Q s1.
Proof.
  intros q r Hrep Hslot Hlen Hbusy Hidle Hlay Hsize Hoff Hnd Hfr Hk. pose proof Hidle as [].
  pose proof Hlay as []. pose proof ia_at0 as [Hdev Hdesc Hav Hus].
  pose proof Hfr as Hfr'. rewrite !list.Forall_cons in Hfr'.
  destruct Hfr' as ([Ha _] & [Hb _] & [He _] & _).
  destruct (hd_notify (host (view s1)) slot base i Hbusy ia_queue0) as (t' & n & Ew & Hbz & Hn & Hqs & Hdk).
  pose proof (reaches_refl s1) as Hr0.
  apply wp_bind. eapply wp_write_mem_to; [exact Hr0|]. clear Hr0. intros s2 Hr0.
  apply wp_bind. eapply wp_set_dev_to; [exact Hr0|lia|]. clear s2 Hr0. intros s2 Hr0.
  apply wp_bind. unfold write_chain. rewrite Hdesc.
  do 2 (apply wp_bind; eapply wp_write_mem_to; [exact Hr0|]; clear s2 Hr0; intros s2 Hr0).
  eapply wp_write_mem_to; [exact Hr0|]. clear s2 Hr0. intros s2 Hr0.
  apply wp_bind. eapply wp_set_dev_to; [exact Hr0|cbn; rewrite length_insert; lia|].
  clear s2 Hr0. intros s2 Hr0.
  set (v2 := with_dev slot _ _) in Hr0.
  assert (Hr2 : reaches s1 (chain_mem base req buf size (off / 512) a b e w (fa_ram s1)) v2 s2)
    by exact Hr0. clear Hr0.
  assert (Hidx : u16_at (bytes_of s2) (avail_idx_addr (avail_of base)) = i).
  { rewrite <- ia_avail0. unfold bytes_of, u16_at, avail_idx_addr. rewrite (re_ram _ _ _ _ Hr2).
    change (avail_of base) with (base + 128). apply le_ext. intros j Hj.
    rewrite chain_mem_frame by (done || unfold outside; lia). apply put_request_frame.
    apply (outside_swap base QUEUE_BYTES); [done|].
    unfold QUEUE_BYTES. rewrite PAGE_SIZE_val. lia. }
  apply wp_bind. unfold publish. rewrite Hav. apply wp_bind, wp_memory. rewrite Hidx.
  apply wp_bind. eapply wp_write_mem_to; [exact Hr2|]. clear s2 Hidx Hr2. intros s2 Hr2.
  eapply wp_write_mem_to; [exact Hr2|]. clear s2 Hr2. intros s2 Hr0.
  assert (Hr2 : reaches s1 (publish_mem base i a
      (chain_mem base req buf size (off / 512) a b e w (fa_ram s1))) v2 s2) by exact Hr0.
  clear Hr0. apply wp_bind. rewrite Hdev. eapply wp_write_volatile_to; [exact Hr2|exact Ew|].
  clear s2 Hr2. intros s2 Hr2.
  pose proof (submitted_busy s1 s2 h1 slot base bd i fin req buf size off a b e w t' n
    Hrep Hslot Hlen Hidle Hlay Hsize Hoff Hnd Hfr Hbz Hqs Hdk Hr2) as Hbz2.
  apply wp_bind. eapply wp_mono.
  { apply (poll_spec E slot base i r req (hd_ok slot (off / 512) size) s1 s1 (view s1) h1
             Hslot eq_refl eq_refl lo_br0 polls n fin s2 _ Hbz2). lia. }
  cbn beta. intros st s3 (Hst & fin' & bd' & Hf & Hl). by eapply Hk.
Qed.

(** ** The disks after a request *)

Definition written (slot : nat) (off size : Z) (f : Z → Z) (buf : Z) (img : nat → Z → Z)
    (k : nat) (a : Z) : Z :=
  if decide (k = slot ∧ off <= a < off + size) then f (buf + (a - off)) else img k a.

(** A successful write replaces its sectors; nothing else changes a disk. *)
Definition disk_after (w ok : bool) (slot : nat) (off size : Z) (f : Z → Z) (buf : Z)
    (img : nat → Z → Z) : nat → Z → Z :=
  if w && ok then written slot off size f buf img else img.

Lemma stored_after slot req buf size off a b e w ok f img k x :
  (512 | off) →
  stored slot (the_request req buf size (off / 512) a b e w) ok f img k x =
  disk_after w ok slot off size f buf img k x.
Proof.
  intros [q ->]. unfold stored, disk_after, written. cbn [the_request rq_write rq_sector rq_size rq_buf].
  rewrite Z.div_mul by lia. destruct w, ok; cbn [andb]; repeat case_decide; destruct_and?; try done; tauto.
Qed.

(** Memory of the live runs of [h] outside the driver's is kept, except, when
    reading, the buffer. *)
Definition kept_by (w : bool) (h d : gmap Z Z) (buf : Z) (m m' : gmap Z Z) : Prop :=
  ∀ p n a, h !! p = Some n → d !! p = None → (w = false → p ≠ buf) → in_run p n a →
    byte_at m' a = byte_at m a.

Lemma kept_by_refl w h d buf m : kept_by w h d buf m m.
Proof. done. Qed.

Lemma kept_by_read h d buf m m' : kept_by false h d buf m m' → kept h d buf m m'.
Proof. intros Hk p n a Hp Hd Hne. by apply (Hk p n a). Qed.

(** A device whose driver refuses writes. *)
Definition protected (s : St) (slot : nat) : bool :=
  default false (read_only <$> BLOCK_DEVICES (view s) !! slot).

(** The driver's invariant after a request was served and its page given
    back. *)
Lemma own_finished img s1 s' slot base i r req ok h1 fin bd d :
  (slot < 8)%nat → conf slot = Some base → own img s1 d → fa_rep s1 h1 → d ⊆ h1 →
  h1 !! req = Some 1 → d !! req = None → h1 !! rq_buf r = Some 1 → d !! rq_buf r = None →
  rq_size r <= PAGE_SIZE →
  finished slot base i r req ok s1 s1 (view s1) h1 fin s' bd → (length fin <= 1)%nat →
  own (stored slot r ok (bytes_of s1) img) s' d.
Proof.
  intros Hslot Hconf Hown Hrep Hd Hreq Hdreq Hbuf Hdbuf Hsz [[] Hf Hb Hs _ Hdk] Hl.
  pose proof Hown as (Hlen & Hbusy & Hall & Hdisk).
  split_and!; try done.
  2: { intros k a. rewrite Hdk. unfold stored. by rewrite Hdisk. }
  intros k Hk. specialize (Hall k Hk).
  destruct (decide (k = slot)) as [->|Hne].
  - rewrite Hconf in Hall |- *. split; [apply Hall|]. exists bd, (next16 i), fin. by split.
  - destruct (conf k) as [base'|] eqn:Ek; [|by rewrite c_others0].
    destruct Hall as [Hd' Hidle]. split; [done|].
    assert (Hbb : base' ≠ base) by (intros ->; by eapply Hne, Hinj).
    assert (Hlook : h1 !! base' = Some 2) by (by eapply lookup_weaken).
    assert (Hlook2 : h1 !! base = Some 2).
    { eapply lookup_weaken; [|exact Hd]. by apply (own_slot img s1 d slot). }
    eapply slot_idle_ext; [exact Hidle|auto|auto|]. intros x Hx. apply c_frame0.
    + intros _. assert (Ho : outside (rq_buf r) (1 * PAGE_SIZE) x).
      { eapply (runs_outside s1 h1 base' 2); [done..| |exact Hx]. intros ->. congruence. }
      unfold outside in *. lia.
    + eapply (runs_outside s1 h1 base' 2); [done..|exact Hx].
    + rewrite <- (Z.mul_1_l PAGE_SIZE).
      eapply (runs_outside s1 h1 base' 2); [done..| |exact Hx]. intros ->. congruence.
Qed.

(** The runs of the caller keep their contents, the buffer of a read apart. *)
Lemma finished_kept s1 s' slot base i r req ok h d fin bd :
  fa_rep s1 (<[req := 1]> h) → d ⊆ h → h !! req = None → d !! base = Some 2 →
  h !! rq_buf r = Some 1 → rq_size r <= PAGE_SIZE →
  finished slot base i r req ok s1 s1 (view s1) (<[req := 1]> h) fin s' bd →
  kept_by (rq_write r) h d (rq_buf r) (fa_ram s1) (fa_ram s').
Proof.
  intros Hrep Hd Hreq Hdb Hbuf Hsz [[] _ _ _ _ _] p n x Hpn Hdp Hne Hx.
  change (bytes_of s' x = bytes_of s1 x).
  assert (Hb : <[req := 1]> h !! base = Some 2).
  { rewrite lookup_insert_ne; [by eapply lookup_weaken|]. intros <-.
    pose proof (lookup_weaken _ _ _ _ Hdb Hd). congruence. }
  assert (Hp1 : <[req := 1]> h !! p = Some n) by (rewrite lookup_insert_ne; [done|congruence]).
  assert (Hf1 : <[req := 1]> h !! rq_buf r = Some 1) by (rewrite lookup_insert_ne; [done|congruence]).
  apply c_frame0.
  - intros Hw. specialize (Hne Hw).
    assert (Ho : outside (rq_buf r) (1 * PAGE_SIZE) x) by (by eapply (runs_outside s1 _ p n)).
    unfold outside in *. lia.
  - eapply (runs_outside s1 _ p n); try done. congruence.
  - rewrite <- (Z.mul_1_l PAGE_SIZE).
    eapply (runs_outside s1 _ p n); try done; [apply lookup_insert_eq|congruence].
Qed.

(** Write protection is decided at set-up. *)
Lemma finished_protected s1 s' slot base i r req ok h1 fin bd k :
  finished slot base i r req ok s1 s1 (view s1) h1 fin s' bd → protected s' k = protected s1 k.
Proof.
  intros [[] _ _ _ _ _]. unfold protected. destruct (decide (k = slot)) as [->|Hk].
  - by rewrite c_dev0, c_ro0.
  - by rewrite c_others0.
Qed.

(** Giving the request page back restores the room there was. *)
Lemma room_returned s s1 s3 s4 h h3 req :
  fa_rep s h → fa_room s 1 → fa_allocate 1 s = Done (Some req, s1) →
  (∀ n, fa_room s1 n → fa_room s3 n) →
  fa_rep s3 h3 → h3 !! req = Some 1 → req < fa_end → fa_deallocate req s3 = Done (tt, s4) →
  ∀ n, fa_room s n → fa_room s4 n.
Proof.
  intros R Hone Ea Hr R3 Hq Hend Ed n Hn.
  assert (Hback : ∀ m, fa_room s (S m) → fa_room s4 (S m)).
  { intros m Hm. destruct (fa_allocate_room s h m R Hm) as (? & ? & E' & _ & Hr').
    rewrite Ea in E'. injection E' as <- <-. eapply (fa_deallocate_room s3 h3 req m); eauto. }
  destruct n as [|n]; [|by apply Hback]. eapply fa_room_le; [by apply Hback|lia].
Qed.

(** What a request that ended with [ok] leaves behind. *)
Record replied (img : nat → Z → Z) (h d : gmap Z Z) (w ok : bool) (slot : nat) (buf size off : Z)
    (s s' : St) : Prop := {
  rp_rep : fa_rep s' h;
  rp_own : own (disk_after w ok slot off size (bytes_of s) buf img) s' d;
  rp_room : ∀ n, fa_room s n → fa_room s' n;
  rp_kept : kept_by w h d buf (fa_ram s) (fa_ram s');
  rp_protected : ∀ k, protected s' k = protected s k;
  rp_data : w = false → ok = true → ∀ j, 0 <= j < size →
    byte_at (fa_ram s') (buf + j) = img slot (off + j) }.

Lemma replied_refused img h d w slot buf size off s :
  fa_rep s h → own img s d → replied img h d w false slot buf size off s s.
Proof. intros Hrep Hown. split; try done. unfold disk_after. by rewrite andb_false_r. Qed.

(** The reply, once the request page is given back. *)
Lemma request_returned E img s s1 s3 h d slot base i req buf size off a b e w fin bd st :
  fa_rep s h → fa_room s 1 → fa_allocate 1 s = Done (Some req, s1) →
  fa_rep s1 (<[req := 1]> h) → fa_ram s1 = fa_ram s → req < fa_end → h !! req = None →
  own img s1 d → d ⊆ h → d !! base = Some 2 → conf slot = Some base → (slot < 8)%nat →
  h !! buf = Some 1 → d !! buf = None → size <= PAGE_SIZE → (512 | off) →
  st = (if hd_ok slot (off / 512) size then 0 else 1) →
  finished slot base i (the_request req buf size (off / 512) a b e w) req
    (hd_ok slot (off / 512) size) s1 s1 (view s1) (<[req := 1]> h) fin s3 bd →
  (length fin <= 1)%nat →
  wp E (free_request req;; mret (st =? 0)) (λ ok s',
    ok = hd_ok slot (off / 512) size ∧ replied img h d w ok slot buf size off s s') s3.
Proof.
  intros Hrep Hroom Ea Hrep1 Hram1 Hend Hp Hown1 Hd Hdb Hconf Hslot Hbuf Hdbuf Hsize Hoff512 Hst Hfin Hl.
  set (ok := hd_ok slot (off / 512) size) in *. set (r := the_request _ _ _ _ _ _ _ _) in *.
  assert (Hd1 : d ⊆ <[req := 1]> h) by (etrans; [exact Hd|by apply insert_subseteq]).
  assert (Hdreq : d !! req = None) by (by eapply lookup_weaken_None).
  assert (Hreq1 : <[req := 1]> h !! req = Some 1) by apply lookup_insert_eq.
  assert (Hbuf1 : <[req := 1]> h !! buf = Some 1) by (rewrite lookup_insert_ne; [done|congruence]).
  pose proof (own_finished img s1 s3 slot base i r req ok _ fin bd d Hslot Hconf Hown1 Hrep1 Hd1
    Hreq1 Hdreq Hbuf1 Hdbuf Hsize Hfin Hl) as (Ho1 & Ho2 & Ho3 & Ho4).
  pose proof (finished_kept s1 s3 slot base i r req ok h d fin bd Hrep1 Hd Hp Hdb Hbuf Hsize Hfin) as Hkept.
  pose proof (λ k, finished_protected _ _ _ _ _ _ _ _ _ _ _ k Hfin) as Hprot.
  destruct Hfin as [[] _ _ _ Hdata _].
  destruct (fa_run _ _ _ _ Hrep1 Hreq1) as (_ & Hpos & _ & _).
  destruct (fa_deallocate_spec s3 _ req 1 c_rep0 Hreq1 Hend) as (s4 & E4 & Hrep4 & Hram4).
  rewrite delete_insert_id in Hrep4 by done.
  apply wp_bind. unfold free_request. rewrite (proj2 (Z.eqb_neq _ _)) by lia.
  eapply wp_done; [exact E4|]. apply wp_ret.
  pose proof (ap_deallocate (T:=virtio T) _ _ _ _ E4) as Hv4.
  pose proof (ap_allocate (T:=virtio T) _ _ _ _ Ea) as Hv1.
  assert (Est : (st =? 0) = ok) by (subst st; by destruct ok). rewrite Est. split; [done|].
  split; [done| |by eapply (room_returned s s1 s3 s4)|by rewrite Hram4, <- Hram1| |].
  - apply (own_ext _ s3); [|done..]. split_and!; try done.
    intros k x. rewrite Ho4. unfold r. rewrite stored_after by done. unfold bytes_of. by rewrite Hram1.
  - intros k. etrans; [unfold protected; by rewrite Hv4|]. fold (protected s3 k).
    rewrite Hprot. unfold protected. by rewrite Hv1.
  - intros Hw Hok j Hj. rewrite Hram4. etrans; [exact (Hdata Hok Hw j Hj)|]. cbn.
    destruct Hown1 as (_ & _ & _ & Hdk). rewrite Hdk. f_equal. destruct Hoff512 as [q ->].
    rewrite Z.div_mul by lia. lia.
Qed.

(** The configured case. *)
Lemma block_op_configured E img (s : St) h d dev base bd i fin buf size off w :
  let slot := Z.to_nat dev in
  fa_rep s h → own img s d → d ⊆ h → fa_room s 1 → h !! buf = Some 1 → d !! buf = None →
  0 < size <= PAGE_SIZE → (512 | off) → 0 <= off < 2 ^ 64 → dev < 8 →
  conf slot = Some base → d !! base = Some 2 → idle_at (bytes_of s) (view s) slot base bd i fin →
  read_only bd && w = false →
  wp E (block_op polls dev buf size off w) (λ ok s',
    ok = hd_ok slot (off / 512) size ∧ replied img h d w ok slot buf size off s s') s.
Proof.
  intros slot Hrep Hown Hd Hroom Hbuf Hdbuf Hsize Hoff512 Hoff Hdev Hconf Hdb Hidle Hro. pose proof Hidle as [].
  assert (Hslot : (slot < 8)%nat) by lia.
  pose proof Hown as (Hlen & Hbusy & _). unfold block_op. change (Z.of_nat MAX_VIRTIO_DEVICES) with 8.
  rewrite (proj2 (Z.leb_gt _ _)) by done. cbv zeta. fold slot.
  apply wp_bind. eapply wp_get_dev; [done|].
  assert (Hnn : (bdev bd =? 0) = false).
  { apply Z.eqb_neq. rewrite (da_dev _ _ _ ia_at0).
    unfold slot_addr, MMIO_VIRTIO_START, MMIO_VIRTIO_STRIDE. lia. }
  rewrite Hnn, Hro.
  destruct (fa_allocate_room s h 0 Hrep Hroom) as (req & s1 & Ea & Hend & _).
  destruct (fa_allocate_spec s h 1 Hrep ltac:(lia)) as [Ea'|(p & s1' & Ea' & Hp & Hrep1 & Hram1)];
    rewrite Ea in Ea'; [done|]. injection Ea' as <- <-.
  apply wp_bind. eapply wp_done; [exact Ea|]. cbn beta iota.
  pose proof (ap_allocate (T:=virtio T) _ _ _ _ Ea) as Hv1.
  assert (Hown1 : own img s1 d) by (by eapply own_ext).
  assert (Hd1 : d ⊆ <[req := 1]> h) by (etrans; [exact Hd|by apply insert_subseteq]).
  assert (Hdreq : d !! req = None) by (by eapply lookup_weaken_None).
  assert (Hreq1 : <[req := 1]> h !! req = Some 1) by apply lookup_insert_eq.
  assert (Hbr : buf ≠ req) by congruence.
  assert (Hbuf1 : <[req := 1]> h !! buf = Some 1) by (by rewrite lookup_insert_ne).
  assert (Hlay : layout base req buf size).
  { eapply (layout_of s1); try done; [by eapply lookup_weaken|congruence..|lia]. }
  destruct (q_inv_alloc _ _ _ (queue bd) _ ia_inv0 ia_len0) as (a & b & e & Eal & Hnd & Hfr).
  assert (Hlen1 : length (BLOCK_DEVICES (view s1)) = 8%nat) by (by rewrite Hv1).
  assert (Hbusy1 : hd_busy (host (view s1)) = None) by (by rewrite Hv1).
  assert (Hidle1 : idle_at (bytes_of s1) (view s1) slot base bd i fin)
    by (unfold bytes_of; by rewrite Hv1, Hram1).
  rewrite Eal. cbv beta iota.
  refine (serve_wp E s1 (<[req := 1]> h) slot base bd i fin req buf size off a b e w _ _
    Hrep1 Hslot Hlen1 Hbusy1 Hidle1 Hlay Hsize Hoff Hnd Hfr _).
  intros st s3 fin' bd' Hst Hfin Hl.
  apply (request_returned E img s s1 s3 h d slot base i req buf size off a b e w fin' bd'); try done.
  apply Hsize.
Qed.

(** Which writes are served. *)
Definition writable (s : St) (dev off size : Z) : bool :=
  readable dev off size && negb (protected s (Z.to_nat dev)).
Definition accepted (w : bool) (s : St) (dev off size : Z) : bool :=
  if w then writable s dev off size else readable dev off size.

Lemma block_op_wp E img (s : St) h d dev buf size off w :
  fa_rep s h → own img s d → d ⊆ h → fa_room s 1 → h !! buf = Some 1 → d !! buf = None →
  0 < size <= PAGE_SIZE → (512 | off) → 0 <= off < 2 ^ 64 →
  wp E (block_op polls dev buf size off w) (λ ok s',
    ok = accepted w s dev off size ∧ replied img h d w ok (Z.to_nat dev) buf size off s s') s.
Proof.
  intros Hrep Hown Hd Hroom Hbuf Hdbuf Hsize Hoff512 Hoff.
  pose proof Hown as (Hlen & Hbusy & Hall & Hdisk).
  set (slot := Z.to_nat dev).
  assert (Hno : ∀ ok, ok = false → accepted w s dev off size = false →
    wp E (mret ok) (λ ok s', ok = accepted w s dev off size ∧ replied img h d w ok slot buf size off s s') s).
  { intros ok -> Ha. apply wp_ret. rewrite Ha. split; [done|]. by apply replied_refused. }
  destruct (Z.leb_spec 8 dev) as [Hdev|Hdev].
  { unfold block_op. change (Z.of_nat MAX_VIRTIO_DEVICES) with 8.
    rewrite (proj2 (Z.leb_le _ _)) by done. apply Hno; [done|].
    unfold accepted, writable, readable. rewrite (proj2 (Z.leb_le _ _)) by done. by destruct w. }
  assert (Hslot : (slot < 8)%nat) by lia. specialize (Hall slot Hslot). cbv zeta.
  assert (Hacc : ∀ bd, BLOCK_DEVICES (view s) !! slot = Some bd → accepted w s dev off size =
    match conf slot with None => false | Some _ => hd_ok slot (off / 512) size && negb (read_only bd && w) end).
  { intros bd Hbd. unfold accepted, writable, readable, protected. fold slot. rewrite Hbd.
    rewrite (proj2 (Z.leb_gt _ _)) by done. cbn [fmap option_fmap option_map default from_option id].
    destruct (conf slot), w; rewrite ?andb_true_r, ?andb_false_r; cbn [negb]; by rewrite ?andb_true_r. }
  destruct (conf slot) as [base|] eqn:Hconf.
  - destruct Hall as (Hdb & bd & i & fin & Hidle). pose proof (ia_dev _ _ _ _ _ _ _ Hidle) as Hbd.
    rewrite (Hacc bd Hbd). destruct (read_only bd && w) eqn:Hro.
    + unfold block_op. change (Z.of_nat MAX_VIRTIO_DEVICES) with 8.
      rewrite (proj2 (Z.leb_gt _ _)) by done. apply wp_bind. eapply wp_get_dev; [done|].
      rewrite Hro. rewrite andb_false_r. destruct (_ =? 0); apply wp_ret; (split; [done|by apply replied_refused]).
    + rewrite andb_true_r. by apply (block_op_configured E img s h d dev base bd i fin).
  - destruct Hall as (bd & Hbd & Hnull). rewrite (Hacc bd Hbd).
    unfold block_op. change (Z.of_nat MAX_VIRTIO_DEVICES) with 8.
    rewrite (proj2 (Z.leb_gt _ _)) by done. apply wp_bind. eapply wp_get_dev; [done|].
    rewrite Hnull. apply wp_ret. split; [done|by apply replied_refused].
Qed.

#[export] Instance virtio_reader : BlockReader St := {| bd_read := block_read polls |}.

(** Any fixed contents of the disks make the driver a block reader of them. *)
#[export] Program Instance virtio_reader_laws (img : nat → Z → Z) (Himg : ∀ slot, byteful (img slot)) :
    BlockReaderLaws St := {|
  bd_disk dev := img (Z.to_nat dev);
  bd_readable := readable;
  bd_own := own img |}.
Next Obligation. intros img Himg dev. apply Himg. Qed.
Next Obligation.
  intros img _ s h d n r s' Hrep Hown Hd Hn Ea. eapply own_ext; [done|by eapply ap_allocate|].
  destruct (fa_allocate_spec s h n Hrep Hn) as [E'|(p & s2 & E' & _ & _ & Hm)];
    rewrite Ea in E'; by injection E' as -> ->.
Qed.
Next Obligation.
  intros img _ s h d p n s' Hrep Hown Hd Hp Hlt Hdp Ed. eapply own_ext; [done|by eapply ap_deallocate|].
  destruct (fa_deallocate_spec s h p n Hrep Hp Hlt) as (s2 & E' & _ & Hm).
  rewrite Ed in E'. by injection E' as ->.
Qed.
Next Obligation.
  intros img _ s d m' (Hlen & Hbusy & Hall & Hdisk) Hm. unfold own. rewrite ap_set_ram, bytes_of_set.
  split_and!; try done. intros slot Hslot. specialize (Hall slot Hslot).
  destruct (conf slot) as [base|]; [|done]. destruct Hall as [Hd Hidle]. split; [done|].
  eapply slot_idle_ext; [exact Hidle|done..|]. intros a Ha. by apply (Hm base 2).
Qed.
Next Obligation.
  intros img _ s h d dev buf size off Hrep Hown Hd Hroom Hb Hdb Hsz _ Ho Ho0 Ho1.
  pose proof (block_op_wp none img s h d dev buf size off false Hrep Hown Hd Hroom Hb Hdb Hsz Ho ltac:(lia))
    as Hwp.
  apply wp_none in Hwp as (b & s' & Eb & -> & []).
  exists s'. split_and!; try done; [by apply kept_by_read|by apply rp_data0].
Qed.

(** C5. A block read is correct end to end: given an idle driver and a device
    that completes each request within [hd_latency] looks, the call returns
    (in fewer than [polls] rounds), with success exactly when the slot is
    configured and the device can serve the sectors; then the buffer holds
    the bytes of the disk at the offset, every other run of the caller's is
    unchanged, the request page is free again, the driver is idle and the
    disks hold what they held. *)
Theorem block_read_delivers_sectors (img : nat → Z → Z) (s : St) h d dev buf size off :
  fa_rep s h → own img s d → d ⊆ h → fa_room s 1 → h !! buf = Some 1 → d !! buf = None →
  0 < size <= PAGE_SIZE → (512 | off) → 0 <= off < 2 ^ 64 →
  ∃ s', block_read polls dev buf size off s = Done (readable dev off size, s') ∧
    fa_rep s' h ∧ own img s' d ∧ (∀ n, fa_room s n → fa_room s' n) ∧
    kept h d buf (fa_ram s) (fa_ram s') ∧
    (readable dev off size = true → ∀ j, 0 <= j < size →
       byte_at (fa_ram s') (buf + j) = img (Z.to_nat dev) (off + j)).
Proof.
  intros Hrep Hown Hd Hroom Hb Hdb Hsz Ho Ho'.
  pose proof (block_op_wp none img s h d dev buf size off false Hrep Hown Hd Hroom Hb Hdb Hsz Ho Ho') as Hwp.
  apply wp_none in Hwp as (b & s' & E & -> & []).
  exists s'. split_and!; try done; [by apply kept_by_read|by apply rp_data0].
Qed.

(** A block write, on every branch: refused without effect when the slot is
    empty or write-protected, and by a device that cannot serve the sectors;
    otherwise the sectors at the offset, and no other byte of any disk, now
    hold the buffer.  All memory of the caller's is kept. *)
Lemma block_write_stores (img : nat → Z → Z) (s : St) h d dev buf size off :
  fa_rep s h → own img s d → d ⊆ h → fa_room s 1 → h !! buf = Some 1 → d !! buf = None →
  0 < size <= PAGE_SIZE → (512 | off) → 0 <= off < 2 ^ 64 →
  ∃ s', block_write polls dev buf size off s = Done (writable s dev off size, s') ∧
    replied img h d true (writable s dev off size) (Z.to_nat dev) buf size off s s'.
Proof.
  intros Hrep Hown Hd Hroom Hb Hdb Hsz Ho Ho'.
  pose proof (block_op_wp none img s h d dev buf size off true Hrep Hown Hd Hroom Hb Hdb Hsz Ho Ho') as Hwp.
  apply wp_none in Hwp as (b & s' & E & -> & Hr). by exists s'.
Qed.

(** C6. Writing sectors and reading them back: a write to a configured slot
    the driver may write and the device can serve succeeds, as does a later
    read of the same sectors, which returns the bytes that were in the
    buffer when they were written; every byte of the disks outside the
    sectors, and all memory of the caller's other than the buffer read into,
    is as it was; the driver is idle and its request pages free again. *)
Theorem block_write_read_roundtrip (img : nat → Z → Z) (s : St) h d dev buf buf' size off :
  fa_rep s h → own img s d → d ⊆ h → fa_room s 1 →
  h !! buf = Some 1 → d !! buf = None → h !! buf' = Some 1 → d !! buf' = None →
  0 < size <= PAGE_SIZE → (512 | off) → 0 <= off < 2 ^ 64 →
  writable s dev off size = true →
  ∃ s1 s2 img', block_write polls dev buf size off s = Done (true, s1) ∧
    block_read polls dev buf' size off s1 = Done (true, s2) ∧
    (∀ j, 0 <= j < size → byte_at (fa_ram s2) (buf' + j) = byte_at (fa_ram s) (buf + j)) ∧
    (∀ k a, k ≠ Z.to_nat dev ∨ outside off size a → img' k a = img k a) ∧
    kept h d buf' (fa_ram s) (fa_ram s2) ∧
    fa_rep s2 h ∧ own img' s2 d ∧ (∀ n, fa_room s n → fa_room s2 n).
Proof.
  intros Hrep Hown Hd Hroom Hb Hdb Hb' Hdb' Hsz Ho Ho' Hw.
  destruct (block_write_stores img s h d dev buf size off Hrep Hown Hd Hroom Hb Hdb Hsz Ho Ho')
    as (s1 & E1 & Hr1). rewrite Hw in E1, Hr1. destruct Hr1 as [R1 O1 Rm1 K1 _ _].
  set (img' := disk_after _ _ _ _ _ _ _ _) in O1.
  pose proof (block_op_wp none img' s1 h d dev buf' size off false R1 O1 Hd (Rm1 _ Hroom) Hb' Hdb' Hsz Ho Ho') as Hwp.
  apply wp_none in Hwp as (b & s2 & E2 & -> & Hr2).
  assert (Hrd : accepted false s1 dev off size = true).
  { unfold writable in Hw. by apply andb_true_iff in Hw as [? _]. }
  rewrite Hrd in E2, Hr2. destruct Hr2 as [R2 O2 Rm2 K2 _ D2].
  exists s1, s2, img'. split_and!; try done.
  - intros j Hj. rewrite D2 by done. unfold img', disk_after, written. cbn [andb].
    rewrite decide_True by (split; [done|lia]). unfold bytes_of. f_equal. lia.
  - intros k a Ha. unfold img', disk_after, written. cbn [andb]. rewrite decide_False; [done|].
    unfold outside in Ha. lia.
  - intros p n a Hp Hdp Hne Hin. rewrite (K2 p n a) by done. by apply (K1 p n a).
  - auto.
Qed.
End instance.
