(* ===== verification/VirtioBus.v ===== *)
(** * The probe of the VirtIO bus

    [probe] against an arbitrary machine: whatever the registers answer,
    fault or refuse, the probe returns, and the driver's tables describe
    queues that exist. *)

From Stdlib Require Import String.
From S2P Require Import Prelude Frames Bytes Virtio VirtioProps VirtioQueue VirtioRead.

#[local] Open Scope Z_scope.

(** What the driver relies on of [print!]: it returns, and leaves memory, the
    heap and the driver's tables alone. *)
Class ConsoleLaws (S T : Type) `{FrameAllocatorLaws S} `{Lens S (virtio T)} `{Console S} : Prop := {
  print_keeps f args (s : S) :
    ∃ s', print f args s = Done (tt, s') ∧
      BLOCK_DEVICES (view (T:=virtio T) s') = BLOCK_DEVICES (view s) ∧
      VIRTIO_DEVICES (view (T:=virtio T) s') = VIRTIO_DEVICES (view s) ∧
      fa_ram s' = fa_ram s ∧ (∀ h, fa_rep s h → fa_rep s' h) }.

(** Slots and addresses. *)
Lemma dev_slot_roundtrip slot : dev_slot_from_ptr (slot_addr slot) = slot.
Proof.
  unfold dev_slot_from_ptr, slot_addr, MMIO_VIRTIO_STRIDE. rewrite Z.shiftr_div_pow2 by lia.
  change (2 ^ 12) with 0x1000.
  replace (MMIO_VIRTIO_START + Z.of_nat slot * 0x1000 - MMIO_VIRTIO_START)
    with (Z.of_nat slot * 0x1000) by lia.
  rewrite Z.div_mul by lia. lia.
Qed.

Lemma slot_addr_pos slot : slot_addr slot ≠ 0.
Proof. unfold slot_addr, MMIO_VIRTIO_START, MMIO_VIRTIO_STRIDE. lia. Qed.

Lemma probe_addrs_slots : probe_addrs = slot_addr <$> seq 0 8.
Proof. reflexivity. Qed.

(** An all-zero queue is a valid idle queue. *)
Lemma fresh_queue_inv f b :
  u16_at f (used_idx_addr (used_of b)) = 0 → q_inv f b 0 (replicate 8 true) [] [].
Proof.
  intros Hu. split; try done; try apply base.NoDup_nil_2.
  intros i Hi. rewrite lookup_replicate_2 by done. by f_equal.
Qed.

Section bus.
Context `{Profile} {St T : Type} `{FrameAllocatorLaws St} `{LensLaws St (virtio T)}.
Context `{!Apart St (virtio T)} `{Host T} `{Console St} `{!ConsoleLaws St T}.

(** The driver's record of one slot: empty, or a live queue of its own. *)
Definition slot_ok (s : St) (h : gmap Z Z) (slot : nat) : Prop :=
  ∃ bd, BLOCK_DEVICES (view s) !! slot = Some bd ∧
    (bdev bd = 0 ∨
     ∃ base, dev_at bd slot base ∧ h !! base = Some queue_pages ∧ ack_used_idx bd = 0 ∧
       VIRTIO_DEVICES (view s) !! slot = Some (Some Block) ∧
       q_inv (bytes_of s) base 0 (free (queue bd)) [] [] ∧
       u16_at (bytes_of s) (avail_idx_addr (avail_of base)) = 0).

Definition own_queues (v : virtio T) : Prop :=
  ∀ i j b c, i ≠ j → BLOCK_DEVICES v !! i = Some b → BLOCK_DEVICES v !! j = Some c →
    bdev b ≠ 0 → bdev c ≠ 0 → desc (queue b) ≠ desc (queue c).

(** The bus once the slots below [k] were probed. *)
Record bus_ok (h0 m0 : gmap Z Z) (k : nat) (h : gmap Z Z) (s : St) : Prop := {
  bu_rep : fa_rep s h;
  bu_sub : h0 ⊆ h;
  bu_mem : ∀ p n a, h0 !! p = Some n → p <= a < p + n * PAGE_SIZE →
    word_at (fa_ram s) a = word_at m0 a;
  bu_len : length (BLOCK_DEVICES (view s)) = 8%nat ∧ length (VIRTIO_DEVICES (view s)) = 8%nat;
  bu_slot : ∀ slot, (slot < 8)%nat → slot_ok s h slot;
  bu_own : own_queues (view s);
  bu_rest : ∀ j bd, (k <= j)%nat → BLOCK_DEVICES (view s) !! j = Some bd → bdev bd = 0 }.

(** Everything but the device side and the access-fault flag is kept. *)
Record same_bus (s s' : St) : Prop := {
  sm_blocks : BLOCK_DEVICES (view s') = BLOCK_DEVICES (view s);
  sm_kinds : VIRTIO_DEVICES (view s') = VIRTIO_DEVICES (view s);
  sm_ram : fa_ram s' = fa_ram s;
  sm_rep : ∀ h, fa_rep s h → fa_rep s' h }.

Lemma same_bus_refl s : same_bus s s.
Proof. by split. Qed.
Lemma same_bus_trans s1 s2 s3 : same_bus s1 s2 → same_bus s2 s3 → same_bus s1 s3.
Proof. intros [] []. split; try congruence. auto. Qed.

Lemma bus_ok_same h0 m0 k h s s' : bus_ok h0 m0 k h s → same_bus s s' → bus_ok h0 m0 k h s'.
Proof.
  intros [] [Hb Hk Hm Hr]. split; auto.
  - intros p n a Hp Ha. rewrite Hm. eauto.
  - by rewrite Hb, Hk.
  - intros slot Hs. unfold slot_ok, bytes_of. rewrite Hb, Hk, Hm. by apply bu_slot0.
  - unfold own_queues. by rewrite Hb.
  - intros j bd. rewrite Hb. apply bu_rest0.
Qed.

(** Register accesses and printing. *)
Lemma put_same (s : St) v :
  BLOCK_DEVICES v = BLOCK_DEVICES (view s) → VIRTIO_DEVICES v = VIRTIO_DEVICES (view s) →
  same_bus s (put (T:=virtio T) v s).
Proof. intros ??. split; rewrite ?view_put, ?ap_ram; try done. intros. by apply ap_rep. Qed.

Lemma set_fault_same b (s : St) :
  ∃ s', set_fault (T:=T) b s = Done (tt, s') ∧ same_bus s s'.
Proof. eexists. split; [reflexivity|]. by apply put_same. Qed.

Lemma set_host_same t (s : St) : ∃ s', set_host (T:=T) t s = Done (tt, s') ∧ same_bus s s'.
Proof. eexists. split; [reflexivity|]. by apply put_same. Qed.

Lemma take_fault_same (s : St) :
  ∃ b s', take_access_fault (T:=T) s = Done (b, s') ∧ same_bus s s'.
Proof. eexists _, _. split; [reflexivity|]. by apply put_same. Qed.

Lemma read_volatile_host a (s : St) :
  let '(r, t) := host_read a (host (view s)) in
  ∃ s', read_volatile (T:=T) a s = Done (default 0 r, s') ∧ same_bus s s' ∧ host (view (T:=virtio T) s') = t.
Proof.
  unfold read_volatile, vget. rewrite bind_get. destruct (host_read a _) as [[x|] t].
  - eexists. split; [reflexivity|]. split; [by apply put_same|]. by rewrite view_put.
  - eexists. split; [reflexivity|]. split; [|by rewrite !view_put].
    rewrite !view_put, put_put. by apply put_same.
Qed.

Lemma write_volatile_host a x (s : St) :
  ∃ s', write_volatile (T:=T) a x s = Done (tt, s') ∧ same_bus s s' ∧
    host (view (T:=virtio T) s') = default (host (view s)) (host_write a x (host (view s))).
Proof.
  unfold write_volatile, vget. rewrite bind_get. destruct (host_write a x _) as [t|];
    (eexists; split; [reflexivity|]; split; [by apply put_same|by rewrite view_put]).
Qed.

Lemma read_volatile_same a (s : St) :
  ∃ x s', read_volatile (T:=T) a s = Done (x, s') ∧ same_bus s s'.
Proof.
  pose proof (read_volatile_host a s) as Hr. destruct (host_read a _) as [r t].
  destruct Hr as (s' & E & B & _). eauto.
Qed.

Lemma write_volatile_same a x (s : St) :
  ∃ s', write_volatile (T:=T) a x s = Done (tt, s') ∧ same_bus s s'.
Proof. destruct (write_volatile_host a x s) as (s' & E & B & _). eauto. Qed.

Lemma mmio_read32_same ptr off (s : St) :
  ∃ o s', mmio_read32 (T:=T) ptr off s = Done (o, s') ∧ same_bus s s'.
Proof.
  unfold mmio_read32.
  destruct (set_fault_same false s) as (s1 & E1 & B1). rewrite (bind_done _ _ _ _ _ E1).
  destruct (read_volatile_same (reg ptr off) s1) as (x & s2 & E2 & B2).
  rewrite (bind_done _ _ _ _ _ E2).
  destruct (take_fault_same s2) as (b & s3 & E3 & B3). rewrite (bind_done _ _ _ _ _ E3).
  eexists _, s3. split; [done|]. eapply same_bus_trans; [|done]. by eapply same_bus_trans.
Qed.

Lemma mmio_write32_same ptr off x (s : St) :
  ∃ b s', mmio_write32 (T:=T) ptr off x s = Done (b, s') ∧ same_bus s s'.
Proof.
  unfold mmio_write32.
  destruct (set_fault_same false s) as (s1 & E1 & B1). rewrite (bind_done _ _ _ _ _ E1).
  destruct (write_volatile_same (reg ptr off) x s1) as (s2 & E2 & B2).
  rewrite (bind_done _ _ _ _ _ E2).
  destruct (take_fault_same s2) as (b & s3 & E3 & B3). rewrite (bind_done _ _ _ _ _ E3).
  eexists _, s3. split; [done|]. eapply same_bus_trans; [|done]. by eapply same_bus_trans.
Qed.

Lemma print_same f args (s : St) : ∃ s', print f args s = Done (tt, s') ∧ same_bus s s'.
Proof.
  destruct (print_keeps (T:=T) f args s) as (s' & E & Hb & Hk & Hm & Hr). exists s'.
  by split; [|split].
Qed.

(** ** Conditions that only look at the bus *)

Definition stable (P : St → Prop) : Prop := ∀ s s', P s → same_bus s s' → P s'.

Lemma wp_print (P : St → Prop) f args s : stable P → P s → wp none (print f args) (λ _, P) s.
Proof. intros HP Hs. destruct (print_same f args s) as (s' & E & Hb). eapply wp_done; eauto. Qed.

Lemma wp_print_then {A} (P : St → Prop) f args (k : M St A) Q s :
  stable P → P s → (∀ s, P s → wp none k Q s) → wp none (print f args;; k) Q s.
Proof. intros HP Hs Hk. apply wp_bind. eapply wp_mono; [by apply wp_print|]. auto. Qed.

Lemma wp_read32 {A} (P : St → Prop) ptr off (k : option Z → M St A) Q s :
  stable P → P s → (∀ o s, P s → wp none (k o) Q s) →
  wp none (mmio_read32 (T:=T) ptr off ≫= k) Q s.
Proof.
  intros HP Hs Hk. destruct (mmio_read32_same ptr off s) as (o & s' & E & Hb).
  apply wp_bind. eapply wp_done; eauto.
Qed.

Lemma wp_write32 {A} (P : St → Prop) ptr off x (k : bool → M St A) Q s :
  stable P → P s → (∀ b s, P s → wp none (k b) Q s) →
  wp none (mmio_write32 (T:=T) ptr off x ≫= k) Q s.
Proof.
  intros HP Hs Hk. destruct (mmio_write32_same ptr off x s) as (o & s' & E & Hb).
  apply wp_bind. eapply wp_done; eauto.
Qed.

Lemma wp_write_or_fail (P J : St → Prop) ptr off x k s :
  stable P → P s → (∀ s, P s → J s) → (∀ s, P s → wp none k (λ _, J) s) →
  wp none (write_or_fail (T:=T) ptr off x k) (λ _, J) s.
Proof. intros HP Hs HJ Hk. eapply wp_write32; [done..|]. intros [] s' Hs'; [by apply Hk|by apply HJ]. Qed.

Lemma wp_read_or_fail (P J : St → Prop) ptr off k s :
  stable P → P s → (∀ s, P s → J s) → (∀ x s, P s → wp none (k x) (λ _, J) s) →
  wp none (read_or_fail (T:=T) ptr off k) (λ _, J) s.
Proof. intros HP Hs HJ Hk. eapply wp_read32; [done..|]. intros [x|] s' Hs'; [by apply Hk|by apply HJ]. Qed.

Lemma wp_give_up (P : St → Prop) ptr msg s :
  stable P → P s → wp none (give_up_device (T:=T) ptr msg) (λ _, P) s.
Proof.
  intros HP Hs. eapply wp_print_then; [done..|]. intros s1 Hs1. by eapply wp_write32.
Qed.

(** ** Setting up a device *)

Definition bus (h0 m0 : gmap Z Z) (k : nat) (s : St) : Prop := ∃ h, bus_ok h0 m0 k h s.

Lemma bus_stable h0 m0 k : stable (bus h0 m0 k).
Proof. intros s s' [h Hb] Hs. exists h. by eapply bus_ok_same. Qed.

(** A queue run just allocated: zeroed, and not yet any device's. *)
Definition fresh_queue (h0 m0 : gmap Z Z) (k : nat) (p : Z) (s : St) : Prop :=
  ∃ h, bus_ok h0 m0 k h s ∧ h !! p = Some queue_pages ∧
    (∀ slot bd, BLOCK_DEVICES (view s) !! slot = Some bd → bdev bd ≠ 0 → desc (queue bd) ≠ p) ∧
    (∀ a, p <= a < p + QUEUE_BYTES → byte_at (fa_ram s) a = 0).

Lemma fresh_queue_stable h0 m0 k p : stable (fresh_queue h0 m0 k p).
Proof.
  intros s s' (h & Hb & Hp & Hn & Hz) Hs. exists h. destruct Hs eqn:Es.
  split_and!; [by eapply bus_ok_same|done| |].
  - intros slot bd. rewrite sm_blocks0. apply Hn.
  - rewrite sm_ram0. apply Hz.
Qed.

Lemma bus_mono h0 m0 k k' s : (k <= k')%nat → bus h0 m0 k s → bus h0 m0 k' s.
Proof.
  intros Hk [h []]. exists h. split; try done. intros j bd Hj. apply bu_rest0. lia.
Qed.

Lemma zallocate_bytes (s : St) h n :
  fa_rep s h → 0 < n →
  fa_zallocate n s = Done (None, s) ∨
  ∃ p s', fa_zallocate n s = Done (Some p, s') ∧ h !! p = None ∧ fa_rep s' (<[p := n]> h) ∧
    (∀ a, ¬ (p <= a < p + n * PAGE_SIZE) → word_at (fa_ram s') a = word_at (fa_ram s) a) ∧
    ∀ a, byte_at (fa_ram s') a =
      if decide (p <= a < p + n * PAGE_SIZE) then 0 else byte_at (fa_ram s) a.
Proof.
  intros Hrep Hn. destruct (fa_zallocate_spec s h n Hrep Hn) as [E|(p & s' & E & Hp & Hrep' & Hw)];
    [by left|]. right. exists p, s'. split_and!; try done.
  { intros a Ha. rewrite Hw, decide_False; [done|]. tauto. }
  intros a.
  destruct (fa_run s' _ p n Hrep' (lookup_insert_eq _ _ _)) as (_ & _ & [q ->] & _).
  rewrite PAGE_SIZE_val in *. unfold byte_at. rewrite Hw.
  repeat case_decide; try done; try (exfalso; dlia). by rewrite Z.shiftr_0_l.
Qed.

Lemma queue_fresh h0 m0 k s :
  bus h0 m0 k s →
  wp none (fa_zallocate queue_pages) (λ o s', match o with
    | None => bus h0 m0 k s' | Some p => fresh_queue h0 m0 k p s' end) s.
Proof.
  intros [h Hb]. pose proof Hb as [].
  destruct (zallocate_bytes s h queue_pages bu_rep0 ltac:(done)) as [E|(p & s' & E & Hp & Hrep' & Hz0 & Hz)].
  { eapply wp_done; [exact E|]. by exists h. }
  eapply wp_done; [exact E|]. pose proof (ap_zallocate (T:=virtio T) _ _ _ _ E) as Hv.
  assert (Hold : ∀ q n a, h !! q = Some n → q <= a < q + n * PAGE_SIZE →
            byte_at (fa_ram s') a = byte_at (fa_ram s) a ∧
            word_at (fa_ram s') a = word_at (fa_ram s) a).
  { intros q n a Hq Ha. enough (Hout : ¬ (p <= a < p + queue_pages * PAGE_SIZE)).
    { split; [by rewrite Hz, decide_False|by apply Hz0]. }
    intros Hin. assert (Hne : p ≠ q) by congruence.
    assert (Hq' : <[p := queue_pages]> h !! q = Some n) by (by rewrite lookup_insert_ne).
    destruct (fa_disjoint s' _ p queue_pages q n Hrep' (lookup_insert_eq _ _ _) Hq' Hne); lia. }
  exists (<[p := queue_pages]> h). split_and!.
  - split; rewrite ?Hv; try done.
    + etrans; [exact bu_sub0|by apply insert_subseteq].
    + intros q n a Hq Ha. pose proof (lookup_weaken _ _ _ _ Hq bu_sub0) as Hq'.
      rewrite (proj2 (Hold q n a Hq' Ha)). eauto.
    + intros slot Hs. destruct (bu_slot0 slot Hs) as (bd & Hbd & Hcase). exists bd. rewrite Hv.
      split; [done|]. destruct Hcase as [?|(base & Ha & Hh & Hk & Hd & Hq & Hav)]; [by left|right].
      exists base. split_and!; try done.
      * rewrite lookup_insert_ne; [done|congruence].
      * eapply q_inv_ext; [exact Hq|]. intros a Ha'. by apply (Hold base queue_pages a).
      * rewrite <- Hav. unfold u16_at, bytes_of. apply le_ext. intros j Hj.
        apply (Hold base queue_pages _ Hh). unfold avail_idx_addr.
        change (avail_of base) with (base + 128). change (queue_pages * PAGE_SIZE) with 8192. lia.
  - by rewrite lookup_insert_eq.
  - intros slot bd. rewrite Hv. intros Hbd Hne <-.
    assert (Hs : (slot < 8)%nat) by (apply lookup_lt_Some in Hbd; lia).
    destruct (bu_slot0 slot Hs) as (bd' & Hbd' & Hcase). rewrite Hbd in Hbd'. injection Hbd' as <-.
    destruct Hcase as [?|(base & Ha & Hh & _)]; [done|].
    rewrite (da_desc _ _ _ Ha) in Hp. congruence.
  - intros a Ha. by rewrite Hz, decide_True.
Qed.

(** Recording the device. *)
Lemma record_device h0 m0 p slot ro s :
  (slot < 8)%nat → fresh_queue h0 m0 slot p s →
  let q := mk_queue p (p + virtqueue_desc_bytes) (p + used_offset)
             (free QueueState_empty) (req_head QueueState_empty) in
  wp none (set_dev (T:=T) slot (mk_block (slot_addr slot) q 0 ro);;
           register_device (T:=T) (slot_addr slot) Block) (λ _, bus h0 m0 (S slot)) s.
Proof.
  intros Hs (h & [Hrep Hsub Hmem [Hl1 Hl2] Hslot Hown Hrest] & Hp & Hnew & Hz) q.
  unfold set_dev, register_device, vget. rewrite dev_slot_roundtrip.
  apply wp_bind, wp_bind. eapply wp_done; [reflexivity|]. cbn beta.
  rewrite (proj2 (Nat.ltb_lt _ _)) by lia. eapply wp_done; [reflexivity|]. cbn beta.
  apply wp_bind. eapply wp_done; [reflexivity|]. cbn beta.
  rewrite view_put. cbn [VIRTIO_DEVICES BLOCK_DEVICES ACCESS_FAULT_SEEN host].
  rewrite (proj2 (Nat.ltb_lt _ _)) by lia. eapply wp_done; [reflexivity|]. cbn beta.
  set (v := mk_virtio _ _ _ _). set (s' := put v _).
  assert (Hv : view (T:=virtio T) s' = v) by apply view_put.
  assert (Hm : fa_ram s' = fa_ram s) by (unfold s'; by rewrite !ap_ram).
  exists h. split; rewrite ?Hv, ?Hm; cbn [BLOCK_DEVICES VIRTIO_DEVICES v]; try done.
  - unfold s'. by do 2 apply ap_rep.
  - by rewrite !length_insert.
  - intros k Hk. destruct (decide (k = slot)) as [->|Hne].
    + eexists. rewrite Hv. cbn [BLOCK_DEVICES VIRTIO_DEVICES v].
      rewrite !list_lookup_insert_eq by lia. split; [done|right]. exists p.
      unfold bytes_of. rewrite Hm.
      assert (Hzz : ∀ o, 0 <= o <= 8190 → u16_at (byte_at (fa_ram s)) (p + o) = 0).
      { intros o Ho. unfold u16_at.
        rewrite (le_ext 2 _ (λ _, 0) _ 0); [reflexivity|]. intros j Hj. apply Hz.
        unfold QUEUE_BYTES. rewrite PAGE_SIZE_val. lia. }
      split_and!; try done.
      * apply fresh_queue_inv. unfold used_idx_addr. change (used_of p) with (p + 4096).
        rewrite <- Z.add_assoc. by apply Hzz.
      * unfold avail_idx_addr. change (avail_of p) with (p + 128).
        rewrite <- Z.add_assoc. by apply Hzz.
    + destruct (Hslot k Hk) as (bd & Hbd & Hcase). exists bd. rewrite Hv.
      cbn [BLOCK_DEVICES VIRTIO_DEVICES v]. rewrite !list_lookup_insert_ne by done.
      unfold bytes_of. by rewrite Hm.
  - intros i j b c Hij. cbn [BLOCK_DEVICES v]. rewrite !list_lookup_insert.
    repeat case_decide; intros Hi Hj Hb Hc; simplify_eq; try (exfalso; lia).
    + intros E. by apply (Hnew j c Hj Hc).
    + intros E. by apply (Hnew i b Hi Hb).
    + by apply (Hown i j).
  - intros j bd Hj. rewrite list_lookup_insert_ne by lia. apply Hrest. lia.
Qed.

Ltac wstep P := first
  [ apply (wp_write_or_fail P); [done|done|by auto|]
  | apply (wp_read_or_fail P); [done|done|by auto|] ].

Lemma setup_wp h0 m0 slot s :
  (slot < 8)%nat → bus h0 m0 slot s →
  wp none (setup_block_device (T:=T) (slot_addr slot)) (λ _, bus h0 m0 (S slot)) s.
Proof.
  intros Hs Hb. pose proof (bus_stable h0 m0 slot) as Hst.
  pose proof (bus_stable h0 m0 (S slot)) as HstS.
  assert (Hnext : ∀ s, bus h0 m0 slot s → bus h0 m0 (S slot) s)
    by (intros ? ?; by apply (bus_mono _ _ slot); [lia|]).
  unfold setup_block_device. rewrite dev_slot_roundtrip.
  do 3 (wstep (bus h0 m0 slot); intros ? ?). wstep (bus h0 m0 slot). intros feats ? ?. cbv zeta.
  do 2 (wstep (bus h0 m0 slot); intros ? ?). wstep (bus h0 m0 slot). intros st ? ?. case_match; [apply wp_give_up; auto|].
  wstep (bus h0 m0 slot). intros ? ?. wstep (bus h0 m0 slot). intros qn ? ?. case_match; [apply wp_give_up; auto|].
  do 3 (wstep (bus h0 m0 slot); intros ? ?). apply wp_bind. eapply wp_mono; [by apply queue_fresh|].
  cbn beta. intros [p|] sq Hsq; [|apply wp_give_up; auto].
  eapply (wp_write_or_fail (fresh_queue h0 m0 slot p)); [apply fresh_queue_stable|done| |].
  { intros sf (h & ? & _). apply Hnext. by exists h. }
  intros sf Hsf. pose proof (record_device h0 m0 p slot
    (negb (Z.land feats (Z.shiftl 1 VIRTIO_BLK_F_RO) =? 0)) sf Hs Hsf) as Hrec.
  cbv zeta in Hrec. unfold wp in Hrec |- *. rewrite <- bind_assoc. unfold mbind at 1, M_bind at 1.
  destruct ((set_dev _ _;; register_device _ _) sf) as [[[] sr]| | |]; try done.
  change (wp none (write_or_fail (T:=T) (slot_addr slot) Status
    (Z.lor (Z.lor (Z.lor VIRTIO_ACKNOWLEDGE VIRTIO_DRIVER) VIRTIO_FEATURES_OK) VIRTIO_DRIVER_OK)
    (mret true)) (λ _, bus h0 m0 (S slot)) sr).
  wstep (bus h0 m0 (S slot)). intros se Hse. by apply wp_ret.
Qed.

(** A slot that is not a block device. *)
Lemma register_wp h0 m0 slot k s :
  (slot < 8)%nat → bus h0 m0 slot s →
  wp none (register_device (T:=T) (slot_addr slot) k) (λ _, bus h0 m0 slot) s.
Proof.
  intros Hs [h [Hrep Hsub Hmem [Hl1 Hl2] Hslot Hown Hrest]].
  unfold register_device, vget. rewrite dev_slot_roundtrip.
  apply wp_bind. eapply wp_done; [reflexivity|]. cbn beta.
  rewrite (proj2 (Nat.ltb_lt _ _)) by lia. eapply wp_done; [reflexivity|]. cbn beta.
  exists h. split; rewrite ?view_put, ?ap_ram; cbn [BLOCK_DEVICES VIRTIO_DEVICES]; try done.
  - by apply ap_rep.
  - by rewrite length_insert.
  - intros j Hj. destruct (Hslot j Hj) as (bd & Hbd & Hcase). exists bd.
    rewrite view_put. unfold bytes_of. rewrite ap_ram. cbn [BLOCK_DEVICES VIRTIO_DEVICES].
    split; [done|]. destruct (decide (j = slot)) as [->|Hne]; [left; by eapply Hrest|].
    by rewrite list_lookup_insert_ne.
Qed.

Lemma probe_one_wp h0 m0 slot s :
  (slot < 8)%nat → bus h0 m0 slot s →
  wp none (probe_one (T:=T) (slot_addr slot)) (λ _, bus h0 m0 (S slot)) s.
Proof.
  intros Hs Hb. pose proof (bus_stable h0 m0 slot) as Hst.
  pose proof (bus_stable h0 m0 (S slot)) as HstS.
  assert (Hnext : ∀ s, bus h0 m0 slot s → bus h0 m0 (S slot) s)
    by (intros ? ?; by apply (bus_mono _ _ slot); [lia|]).
  assert (Hsay : ∀ m a s, bus h0 m0 slot s → wp none (print m a) (λ _, bus h0 m0 (S slot)) s)
    by (intros; apply wp_print; auto).
  unfold probe_one. eapply wp_print_then; [exact Hst|done|]. intros sa Ha.
  eapply wp_read32; [exact Hst|done|]. intros [magic|] sb Hsb; [|by apply Hsay].
  case_match; [by apply Hsay|].
  eapply wp_read32; [exact Hst|done|]. intros [id|] sc Hsc; [|by apply Hsay].
  case_match; [by apply Hsay|]. case_match; [|case_match].
  - eapply wp_print_then; [exact Hst|done|]. intros sd Hsd. apply wp_bind.
    eapply wp_mono; [by apply setup_wp|]. cbn beta. intros [] se Hse; by apply wp_print.
  - eapply wp_print_then; [exact Hst|done|]. intros sd Hsd. apply wp_bind.
    eapply wp_mono; [by apply register_wp|]. cbn beta. auto.
  - apply wp_bind. eapply wp_mono; [by apply register_wp|]. cbn beta. auto.
Qed.

Lemma probe_from h0 m0 n k s :
  (k + n <= 8)%nat → bus h0 m0 k s →
  wp none (for_each (slot_addr <$> seq k n) (probe_one (T:=T))) (λ _, bus h0 m0 (k + n)) s.
Proof.
  revert k s. induction n as [|n IH]; intros k s Hk Hb; cbn [seq fmap list_fmap for_each].
  - rewrite Nat.add_0_r. by apply wp_ret.
  - apply wp_bind. eapply wp_mono; [apply probe_one_wp; [lia|done]|]. cbn beta.
    intros _ s1 Hs1. replace (k + S n)%nat with (S k + n)%nat by lia. apply IH; [lia|done].
Qed.

Lemma probe_spec (s : St) h :
  fa_rep s h → BLOCK_DEVICES (view (T:=virtio T) s) = replicate 8 BlockDevice_empty →
  length (VIRTIO_DEVICES (view (T:=virtio T) s)) = 8%nat →
  ∃ s' h', probe (T:=T) s = Done (tt, s') ∧ bus_ok h (fa_ram s) 8 h' s'.
Proof.
  intros Hrep Hv Hk.
  assert (Hnull : ∀ j bd, BLOCK_DEVICES (view (T:=virtio T) s) !! j = Some bd → bdev bd = 0).
  { intros j bd. rewrite Hv. intros Hj. by apply lookup_replicate in Hj as [-> _]. }
  assert (Hb : bus h (fa_ram s) 0 s).
  { exists h. split; try done.
    - by rewrite Hv, length_replicate.
    - intros slot Hs.
      destruct (lookup_lt_is_Some_2 (BLOCK_DEVICES (view (T:=virtio T) s)) slot) as [bd Hbd].
      { by rewrite Hv, length_replicate. }
      exists bd. split; [done|left; by eapply Hnull].
    - intros i j b c _ Hi _ Hb. by apply Hnull in Hi.
    - intros j bd _. apply Hnull. }
  pose proof (probe_from h (fa_ram s) 8 0 s ltac:(lia) Hb) as Hwp. rewrite <- probe_addrs_slots in Hwp.
  apply wp_none in Hwp as ([] & s' & E & h' & Hb'). by exists s', h'.
Qed.

(** A configured slot and its interrupt line. *)
Lemma irq_at b j : bdev b = slot_addr j → irq b = Some (Z.of_nat j + VIRTIO_MMIO_IRQ_BASE).
Proof.
  intros Hd. unfold irq. rewrite Hd, (proj2 (Z.eqb_neq _ _)) by apply slot_addr_pos.
  unfold slot_addr, MMIO_VIRTIO_STRIDE, VIRTIO_MMIO_IRQ_BASE. rewrite Z.shiftr_div_pow2 by lia.
  f_equal. change (2 ^ 12) with 0x1000. dlia.
Qed.

Lemma bus_irq (s : St) h0 m0 k h j b :
  bus_ok h0 m0 k h s → BLOCK_DEVICES (view s) !! j = Some b → bdev b ≠ 0 →
  bdev b = slot_addr j ∧ irq b = Some (1 + Z.of_nat j) ∧ (j < 8)%nat.
Proof.
  intros Hb Hj Hne. assert (Hlt : (j < 8)%nat).
  { apply lookup_lt_Some in Hj. by rewrite (proj1 (bu_len _ _ _ _ _ Hb)) in Hj. }
  destruct (bu_slot _ _ _ _ _ Hb j Hlt) as (bd & Hbd & Hc). rewrite Hj in Hbd. injection Hbd as <-.
  destruct Hc as [?|(base & Ha & _)]; [done|]. pose proof (da_dev _ _ _ Ha) as Hd.
  split_and!; [done| |done]. rewrite (irq_at b j Hd). f_equal. unfold VIRTIO_MMIO_IRQ_BASE. lia.
Qed.


(** C17. The bus probe is safe on any machine: whatever the registers of the
    eight slots answer, wherever an access faults, [probe] returns without a
    panic, changes no memory that was in use, and leaves every slot either
    empty or describing a block device at that slot's own address with a live
    two-page queue of its own, idle and with its ring indices at zero, which
    no other slot shares. *)
Theorem probe_configures_bus (s : St) h :
  fa_rep s h → BLOCK_DEVICES (view (T:=virtio T) s) = replicate 8 BlockDevice_empty →
  length (VIRTIO_DEVICES (view (T:=virtio T) s)) = 8%nat →
  ∃ s' h', probe (T:=T) s = Done (tt, s') ∧ bus_ok h (fa_ram s) 8 h' s'.
Proof. apply probe_spec. Qed.

(** Devices are recorded at the slot of their registers. *)
Definition placed (v : virtio T) : Prop :=
  length (BLOCK_DEVICES v) = 8%nat ∧
  ∀ slot bd, BLOCK_DEVICES v !! slot = Some bd → bdev bd = 0 ∨ bdev bd = slot_addr slot.

Lemma bus_placed h0 m0 h (s : St) : bus_ok h0 m0 8 h s → placed (view s).
Proof.
  intros Hb. split; [apply Hb|]. intros slot bd Hl.
  destruct (decide (bdev bd = 0)) as [|Hne]; [by left|right].
  by destruct (bus_irq _ _ _ _ _ slot bd Hb Hl Hne).
Qed.



End bus.
