(* ===== verification/VirtioSetup.v ===== *)
(** * What a VirtIO disk does while it is being set up

    The device side of the handshake of [setup_block_device]
    ([src/src/drivers/virtio/device.rs]), as the legacy MMIO transport of the
    VirtIO specification documents it: the registers of a slot hold what was
    last written, writing 0 to the status resets the device, and setting
    [DRIVER_OK] brings up the queue the registers describe, empty. *)

From S2P Require Import Prelude Frames Bytes Virtio VirtioProps VirtioQueue.

#[local] Open Scope Z_scope.

#[export] Instance MmioOffsets_eq_dec : EqDecision MmioOffsets.
Proof. solve_decision. Defined.

(** What a disk driver at rest knows of its disks is unaffected by the
    registers of other devices, which lie below the bus. *)
Record same_disks {T} `{DiskHost T} (t t' : T) : Prop := {
  sd_busy : hd_busy t' = hd_busy t;
  sd_queue k : hd_queue t' k = hd_queue t k;
  sd_disk k a : hd_disk t' k a = hd_disk t k a }.

#[export] Instance same_disks_preorder {T} `{DiskHost T} : PreOrder (same_disks (T:=T)).
Proof. split; [by split|]. intros t1 t2 t3 [] []. split; congruence. Qed.

Class DiskAside (T : Type) `{DiskHost T} : Prop := {
  da_read a t : a < MMIO_VIRTIO_START → same_disks t (host_read a t).2;
  da_write a x t t' : a < MMIO_VIRTIO_START → host_write a x t = Some t' → same_disks t t' }.

Class SetupRegs (T : Type) := {
  (** Slots that hold a device. *)
  hd_present : nat → bool;
  (** The value last written to a register of a slot. *)
  hd_reg : T → nat → MmioOffsets → Z }.

(** Two states of the bus the driver cannot tell apart. *)
Record same_setup {T} `{DiskHost T} `{!SetupRegs T} (t t' : T) : Prop := {
  ss_busy : hd_busy t' = hd_busy t;
  ss_queue k : hd_queue t' k = hd_queue t k;
  ss_reg k o : hd_reg t' k o = hd_reg t k o;
  ss_disk k a : hd_disk t' k a = hd_disk t k a }.

#[export] Instance same_setup_preorder {T} `{DiskHost T} `{!SetupRegs T} : PreOrder (same_setup (T:=T)).
Proof. split; [by split|]. intros t1 t2 t3 [] []. split; congruence. Qed.

Class DiskSetup (T : Type) `{DiskHost T} `{!SetupRegs T} : Prop := {
  (** Reading a register changes nothing the driver relies on, and neither do
      the registers of other devices, which lie below the bus. *)
  hs_read a t : same_setup t (host_read a t).2;
  hs_elsewhere a x t t' : a < MMIO_VIRTIO_START → host_write a x t = Some t' → same_setup t t';
  (** An empty slot faults, an occupied one takes writes; only its own queue
      is concerned, only a notification makes it work, and no register write,
      a reset included, changes what the disk holds. *)
  hs_absent slot o t : hd_present slot = false → (host_read (reg (slot_addr slot) o) t).1 = None;
  hs_write slot o x t : hd_present slot = true →
    ∃ t', host_write (reg (slot_addr slot) o) x t = Some t' ∧
      (∀ k, k ≠ slot → hd_queue t' k = hd_queue t k) ∧
      (hd_busy t = None → o ≠ QueueNotify → hd_busy t' = None) ∧
      (∀ k a, hd_disk t' k a = hd_disk t k a);
  hs_config slot o x t t' : hd_present slot = true → o ≠ Status →
    host_write (reg (slot_addr slot) o) x t = Some t' →
    hd_queue t' slot = hd_queue t slot ∧
    ∀ o', hd_reg t' slot o' = if decide (o' = o) then x else hd_reg t slot o';
  (** The status register. *)
  hs_reset slot t t' : hd_present slot = true →
    host_write (reg (slot_addr slot) Status) 0 t = Some t' → hd_queue t' slot = None;
  hs_status slot x t t' : hd_present slot = true → x ≠ 0 → Z.land x VIRTIO_DRIVER_OK = 0 →
    host_write (reg (slot_addr slot) Status) x t = Some t' →
    hd_queue t' slot = hd_queue t slot ∧ ∀ o, o ≠ Status → hd_reg t' slot o = hd_reg t slot o;
  hs_driver_ok slot x t t' : hd_present slot = true → Z.land x VIRTIO_DRIVER_OK ≠ 0 →
    hd_queue t slot = None → hd_reg t slot QueueSel = 0 →
    hd_reg t slot QueueNum = VIRTIO_RING_SIZE → hd_reg t slot QueueAlign = PAGE_SIZE →
    hd_reg t slot QueuePfn ≠ 0 →
    host_write (reg (slot_addr slot) Status) x t = Some t' →
    hd_queue t' slot = Some (hd_reg t slot QueuePfn * hd_reg t slot GuestPageSize, 0) }.

#[export] Instance setup_aside {T} `{DiskSetup T} : DiskAside T.
Proof.
  split.
  - intros a t _. destruct (hs_read a t). by split.
  - intros a x t t' Ha E. destruct (hs_elsewhere a x t t' Ha E). by split.
Qed.
