(* ===== verification/Hart.v ===== *)
(** * The hart: trap frames, control registers, the trap vector

    [src/src/arch/riscv64/trap_frame.rs], the control-register side of
    [trap.rs] and [paging.rs], and the register traffic of
    [asm/trap.S].  A pointer to a trap frame is symbolic: the kernel's own
    static frame or the frame inside a slot of the process table. *)

From S2P Require Import Prelude Frames.

(** ** [trap_frame.rs] *)

Record TrapFrame : Type := mk_frame {
  regs : list Z; fregs : list Z; satp : Z; trap_stack : Z; hartid : Z }.

Definition TrapFrame_empty : TrapFrame :=
  mk_frame (replicate 32 0) (replicate 32 0) 0 0 0.

Definition set_regs (r : list Z) (f : TrapFrame) : TrapFrame :=
  mk_frame r (fregs f) (satp f) (trap_stack f) (hartid f).
Definition set_trap_stack (a : Z) (f : TrapFrame) : TrapFrame :=
  mk_frame (regs f) (fregs f) (satp f) a (hartid f).
Definition set_satp (a : Z) (f : TrapFrame) : TrapFrame :=
  mk_frame (regs f) (fregs f) a (trap_stack f) (hartid f).
Definition set_hartid (a : Z) (f : TrapFrame) : TrapFrame :=
  mk_frame (regs f) (fregs f) (satp f) (trap_stack f) a.

(** A [*mut TrapFrame]. *)
Inductive frame_ptr : Type := KernelFrame | SlotFrame (i : nat).

#[global] Instance frame_ptr_eq_dec : EqDecision frame_ptr.
Proof. solve_decision. Defined.

(** ** Control registers and statics of [trap.rs] *)

Inductive EscState : Type := Idle | EscSeen | CsiOpen.

(** [CLINT_MTIME] advances by itself: no handler reads it twice, the theorems
    quantify over its value at each trap, and between traps it is free
    ([Machine.ms_run]). *)
Record hart : Type := mk_hart {
  TRAP_STACK_TOP : Z;
  TRAP_FRAME : TrapFrame;
  ESC_STATE : EscState;
  mscratch : frame_ptr;
  mie : Z;
  CLINT_MTIME : Z;       (** the CLINT's clock as the code running now reads it *)
  CLINT_MTIMECMP : Z;
  mtvec : bool }.        (** [mtvec] points at [m_trap_vector] *)

Definition hart_reset : hart := mk_hart 0 TrapFrame_empty Idle KernelFrame 0 0 0 false.

Definition set_mscratch (p : frame_ptr) (c : hart) : hart :=
  mk_hart (TRAP_STACK_TOP c) (TRAP_FRAME c) (ESC_STATE c) p (mie c) (CLINT_MTIME c) (CLINT_MTIMECMP c) (mtvec c).
Definition set_kernel_frame (f : TrapFrame) (c : hart) : hart :=
  mk_hart (TRAP_STACK_TOP c) f (ESC_STATE c) (mscratch c) (mie c) (CLINT_MTIME c) (CLINT_MTIMECMP c) (mtvec c).
Definition set_stack_top (a : Z) (c : hart) : hart :=
  mk_hart a (TRAP_FRAME c) (ESC_STATE c) (mscratch c) (mie c) (CLINT_MTIME c) (CLINT_MTIMECMP c) (mtvec c).
Definition set_esc (e : EscState) (c : hart) : hart :=
  mk_hart (TRAP_STACK_TOP c) (TRAP_FRAME c) e (mscratch c) (mie c) (CLINT_MTIME c) (CLINT_MTIMECMP c) (mtvec c).
Definition set_mie (v : Z) (c : hart) : hart :=
  mk_hart (TRAP_STACK_TOP c) (TRAP_FRAME c) (ESC_STATE c) (mscratch c) v (CLINT_MTIME c) (CLINT_MTIMECMP c) (mtvec c).
Definition set_mtimecmp (v : Z) (c : hart) : hart :=
  mk_hart (TRAP_STACK_TOP c) (TRAP_FRAME c) (ESC_STATE c) (mscratch c) (mie c) (CLINT_MTIME c) v (mtvec c).

Definition set_mtvec (c : hart) : hart :=
  mk_hart (TRAP_STACK_TOP c) (TRAP_FRAME c) (ESC_STATE c) (mscratch c) (mie c) (CLINT_MTIME c)
    (CLINT_MTIMECMP c) true.

(** ** [paging.rs] *)

Definition make_satp_sv39 (root_table_addr : Z) : Z :=
  let root_ppn := Z.shiftr root_table_addr 12 in
  Z.lor (Z.shiftl 8 60) root_ppn.

(** The fields the MMU reads back from [satp]. *)
Definition satp_mode (v : Z) : Z := Z.shiftr v 60.
Definition satp_ppn (v : Z) : Z := Z.land v (2 ^ 44 - 1).

(** [satp] selects Sv39 and points at the root table. *)
Lemma make_satp_fields a :
  0 <= a < 2 ^ 56 → (PAGE_SIZE | a) →
  satp_mode (make_satp_sv39 a) = 8 ∧ satp_ppn (make_satp_sv39 a) * PAGE_SIZE = a ∧
  0 <= make_satp_sv39 a < 2 ^ 64.
Proof.
  intros Ha [q ->]. rewrite PAGE_SIZE_val in *. unfold make_satp_sv39, satp_mode, satp_ppn.
  rewrite (Z.shiftr_div_pow2 (q * 4096)) by lia. change (2 ^ 12) with 4096. rewrite Z.div_mul by lia.
  rewrite Z.shiftl_mul_pow2 by lia. rewrite (lor_add_low 8 q 60) by lia.
  rewrite Z.shiftr_div_pow2, land_ones_mod by lia. split_and!; dlia.
Qed.

(** What the [mret] at the end of [enter_sv39] leaves: the translation
    register, the privilege mode (1 is supervisor), the PC and [mstatus]. *)
Record privilege : Type := mk_privilege {
  p_satp : Z; p_mode : Z; p_pc : Z; p_mstatus : Z }.

Definition MSTATUS_MIE : Z := Z.shiftl 1 3.
Definition MSTATUS_MPIE : Z := Z.shiftl 1 7.

(** [mret]: the mode comes from [mstatus.MPP], [MIE] from [MPIE]; [MPIE] is
    set and [MPP] becomes user. *)
Definition mret_to (satp mepc mstatus : Z) : privilege :=
  mk_privilege satp (Z.land (Z.shiftr mstatus 11) 3) mepc
    (Z.lor MSTATUS_MPIE (if Z.testbit mstatus 7 then MSTATUS_MIE else 0)).

Definition enter_sv39 (satp_val s_entry : Z) : privilege :=
  mret_to satp_val s_entry (Z.lor (Z.shiftl 1 11) (Z.shiftl 1 7)).
