(* ===== verification/Process.v ===== *)
(** * Processes: [src/src/process/process.rs], [table.rs]

    The static process table, the PID counter, spawning, the round-robin
    scheduler and exit. *)

From S2P Require Import Prelude Frames Hart.

Definition STACK_PAGES : Z := 2.
Definition MAX_PROCESSES : nat := 16.

Inductive ProcessState : Type := Running | Dead.

#[global] Instance ProcessState_eq_dec : EqDecision ProcessState.
Proof. solve_decision. Defined.

Record Process : Type := mk_process {
  frame : TrapFrame; stack : Z; pc : Z; pid : Z; state : ProcessState }.

Definition set_pc (a : Z) (p : Process) : Process :=
  mk_process (frame p) (stack p) a (pid p) (state p).
Definition set_frame (f : TrapFrame) (p : Process) : Process :=
  mk_process f (stack p) (pc p) (pid p) (state p).

Definition running (o : option Process) : bool :=
  match o with Some p => bool_decide (state p = Running) | None => false end.

Record table : Type := mk_table {
  slots : list (option Process); current : option nat; NEXT_PID : Z }.

Definition table_init : table := mk_table (replicate MAX_PROCESSES None) None 1.

Inductive SpawnError : Type := TableFull | OutOfMemory.

(** The first empty slot, as [slots.iter_mut()] meets it. *)
Definition first_none (l : list (option Process)) : option nat :=
  fst <$> list_find (λ o, o = None) l.

(** The slots in the order [schedule] tries them. *)
Definition candidates (n start : nat) : list nat :=
  (λ offset, ((start + offset) mod n)%nat) <$> seq 0 n.

(** [for offset in 0..n]: the first candidate that can run. *)
Fixpoint pick (l : list (option Process)) (cand : list nat) : option (nat * Process) :=
  match cand with
  | [] => None
  | i :: cand' =>
      match l !! i with
      | Some (Some p) => if bool_decide (state p = Running) then Some (i, p) else pick l cand'
      | _ => pick l cand'
      end
  end.

(** Stash [epc] as the resume PC of the current process. *)
Definition save_pc (epc : Z) (t : table) : list (option Process) :=
  match current t with
  | Some idx =>
      match slots t !! idx with
      | Some (Some p) =>
          if bool_decide (state p = Running) then <[idx := Some (set_pc epc p)]> (slots t)
          else slots t
      | _ => slots t
      end
  | None => slots t
  end.

(** [schedule] on the table itself. *)
Definition schedule_table (epc : Z) (t : table) : option (frame_ptr * Z) * table :=
  let l := save_pc epc t in
  let n := length l in
  let start := match current t with Some i => ((i + 1) mod n)%nat | None => O end in
  match pick l (candidates n start) with
  | Some (i, p) => (Some (SlotFrame i, pc p), mk_table l (Some i) (NEXT_PID t))
  | None => (None, mk_table l None (NEXT_PID t))
  end.

(** [exit_current] on the table. *)
Definition exit_table (t : table) : option Z * table :=
  match current t with
  | None => (None, t)
  | Some idx =>
      match slots t !! idx with
      | Some (Some p) => (Some (pid p), mk_table (<[idx := None]> (slots t)) None (NEXT_PID t))
      | _ => (None, t)
      end
  end.

(** [NEXT_PID.fetch_add] and the search for a slot: the process given all
    but its PID. *)
Definition spawn_table (mk : Z → Process) (t : table) : result Z SpawnError * table :=
  let pid := NEXT_PID t in
  let next := (NEXT_PID t + 1) mod 2 ^ 16 in
  match first_none (slots t) with
  | Some i => (Ok pid, mk_table (<[i := Some (mk pid)]> (slots t)) (current t) next)
  | None => (Err TableFull, mk_table (slots t) (current t) next)
  end.

Section process.
Context {St : Type} `{FrameAllocator St} `{Lens St table} `{Lens St hart}.

Definition trap_stack_top : M St Z := c ← get_state (T:=hart); mret (TRAP_STACK_TOP c).

Definition spawn_kernel (entry : Z) : M St (result Z SpawnError) :=
  o ← fa_zallocate STACK_PAGES;
  match o with
  | None => mret (Err OutOfMemory)
  | Some stack =>
      let stack_top := stack + STACK_PAGES * PAGE_SIZE in
      top ← trap_stack_top;
      let frame := set_hartid 0 (set_trap_stack top
        (set_regs (<[2%nat := stack_top]> (regs TrapFrame_empty)) TrapFrame_empty)) in
      t ← get_state (T:=table);
      let '(r, t') := spawn_table (λ pid, mk_process frame stack entry pid Running) t in
      set_state t';; mret r
  end.

(** [table.slots[idx]] for the current process, bounds check included. *)
Definition check_current (t : table) : M St unit :=
  match current t with
  | Some i => if (i <? length (slots t))%nat then mret tt else panic PBounds
  | None => mret tt
  end.

Definition schedule (epc : Z) : M St (option (frame_ptr * Z)) :=
  t ← get_state (T:=table);
  check_current t;;
  let '(r, t') := schedule_table epc t in
  set_state t';; mret r.

Definition exit_current : M St (option Z) :=
  t ← get_state (T:=table);
  check_current t;;
  let '(r, t') := exit_table t in
  set_state t';; mret r.
End process.

(** ** Invariant *)

(** The process in slot [i], if it can run. *)
Definition runnable (t : table) (i : nat) : Prop := running (mjoin (slots t !! i)) = true.

#[global] Instance runnable_dec t i : Decision (runnable t i).
Proof. unfold runnable. apply _. Defined.

Record wf_table (t : table) : Prop := {
  wf_len : length (slots t) = MAX_PROCESSES;
  wf_cur : ∀ i, current t = Some i → runnable t i;
  wf_pid : 0 <= NEXT_PID t < 2 ^ 16 }.

Lemma runnable_lookup t i :
  runnable t i ↔ ∃ p, slots t !! i = Some (Some p) ∧ state p = Running.
Proof.
  unfold runnable, running. destruct (slots t !! i) as [[p|]|]; cbn.
  - rewrite bool_decide_eq_true. split; [eauto|]. by intros (? & [= ->] & ?).
  - split; [done|]. by intros (? & ? & _).
  - split; [done|]. by intros (? & ? & _).
Qed.

Lemma runnable_lt t i : wf_table t → runnable t i → (i < 16)%nat.
Proof.
  intros Hwf Hr. apply runnable_lookup in Hr as (p & Hp & _).
  apply lookup_lt_Some in Hp. by rewrite (wf_len _ Hwf) in Hp.
Qed.

(** Saving the PC touches only the current process's PC. *)
Lemma save_pc_lookup epc t i :
  save_pc epc t !! i =
  if decide (current t = Some i ∧ runnable t i)
  then (λ o, set_pc epc <$> o) <$> slots t !! i else slots t !! i.
Proof.
  case_decide as Hd.
  - destruct Hd as [Hc Hr]. apply runnable_lookup in Hr as (p & Hp & Hs).
    unfold save_pc. rewrite Hc, Hp, bool_decide_eq_true_2 by done.
    by rewrite list_lookup_insert_eq by (by eapply lookup_lt_Some).
  - unfold save_pc. destruct (current t) as [idx|] eqn:Ec; [|done].
    destruct (slots t !! idx) as [[p|]|] eqn:Ei; try done. case_bool_decide; [|done].
    rewrite list_lookup_insert_ne; [done|]. intros ->. apply Hd. split; [done|].
    apply runnable_lookup. eauto.
Qed.

Lemma length_save_pc epc t : length (save_pc epc t) = length (slots t).
Proof.
  unfold save_pc. destruct (current t); [|done].
  destruct (slots t !! n) as [[p|]|]; try done. case_bool_decide; [|done].
  apply length_insert.
Qed.

Lemma save_pc_runnable epc t i :
  running (mjoin (save_pc epc t !! i)) = running (mjoin (slots t !! i)).
Proof.
  rewrite save_pc_lookup. case_decide; [|done]. by destruct (slots t !! i) as [[p|]|].
Qed.

(** ** The scheduler's choice *)

Lemma pick_some l cand i p :
  pick l cand = Some (i, p) ↔
  ∃ k, cand !! k = Some i ∧ l !! i = Some (Some p) ∧ state p = Running ∧
    ∀ k' j, (k' < k)%nat → cand !! k' = Some j → running (mjoin (l !! j)) = false.
Proof.
  induction cand as [|c cand IH]; cbn [pick].
  { split; [done|]. by intros (k & Hk & _). }
  assert (Hskip : running (mjoin (l !! c)) = false →
    (∃ k, cand !! k = Some i ∧ l !! i = Some (Some p) ∧ state p = Running ∧
       ∀ k' j, (k' < k)%nat → cand !! k' = Some j → running (mjoin (l !! j)) = false) ↔
    (∃ k, (c :: cand) !! k = Some i ∧ l !! i = Some (Some p) ∧ state p = Running ∧
       ∀ k' j, (k' < k)%nat → (c :: cand) !! k' = Some j → running (mjoin (l !! j)) = false)).
  { intros Hc. split.
    - intros (k & ? & ? & ? & Hlt). exists (S k). split_and!; try done.
      intros [|k'] j Hk' Hj; [by injection Hj as <-|]. apply (Hlt k'); [lia|done].
    - intros ([|k] & Hk & Hp & Hs & Hlt).
      + injection Hk as ->. rewrite Hp in Hc. cbn in Hc. by rewrite bool_decide_eq_true_2 in Hc.
      + exists k. split_and!; try done. intros k' j Hk' Hj. apply (Hlt (S k')); [lia|done]. }
  destruct (l !! c) as [[q|]|] eqn:Ec.
  - destruct (bool_decide (state q = Running)) eqn:Eb.
    + apply bool_decide_eq_true_1 in Eb. split.
      * intros [= <- <-]. exists O. split_and!; try done. intros. lia.
      * intros ([|k] & Hk & Hp & Hs & Hlt); [injection Hk as ->; congruence|].
        specialize (Hlt O c ltac:(lia) eq_refl). rewrite Ec in Hlt. cbn in Hlt.
        by rewrite bool_decide_eq_true_2 in Hlt.
    + rewrite IH. apply Hskip. done.
  - rewrite IH. by apply Hskip.
  - rewrite IH. by apply Hskip.
Qed.

Lemma pick_none l cand :
  pick l cand = None ↔ ∀ i, i ∈ cand → running (mjoin (l !! i)) = false.
Proof.
  induction cand as [|c cand IH]; cbn [pick].
  { split; [|done]. intros _ i Hi. by apply not_elem_of_nil in Hi. }
  assert (Hskip : running (mjoin (l !! c)) = false →
    (∀ i, i ∈ cand → running (mjoin (l !! i)) = false) ↔
    (∀ i, i ∈ c :: cand → running (mjoin (l !! i)) = false)).
  { intros Hc. split; intros Ha i Hi.
    - apply elem_of_cons in Hi as [->|Hi]; auto.
    - apply Ha, elem_of_cons. by right. }
  destruct (l !! c) as [[q|]|] eqn:Ec; [destruct (bool_decide _) eqn:Eb|..].
  - split; [done|]. intros Ha. specialize (Ha c ltac:(by left)). rewrite Ec in Ha. cbn in Ha. congruence.
  - rewrite IH. by apply Hskip.
  - rewrite IH. by apply Hskip.
  - rewrite IH. by apply Hskip.
Qed.

Definition start_of (t : table) : nat :=
  match current t with Some i => ((i + 1) mod 16)%nat | None => O end.

Lemma start_of_lt t : (start_of t < 16)%nat.
Proof. unfold start_of. destruct (current t); [|lia]. apply Nat.mod_upper_bound. lia. Qed.

Lemma candidates_lookup start k i :
  candidates 16 start !! k = Some i ↔ (k < 16)%nat ∧ i = ((start + k) mod 16)%nat.
Proof.
  unfold candidates. rewrite list_lookup_fmap, fmap_Some. split.
  - intros (j & Hj & ->). apply lookup_seq in Hj as [-> ?]. done.
  - intros [Hk ->]. exists k. by rewrite lookup_seq_lt by done.
Qed.

(** [schedule] takes the first process that can run after the current one,
    in cyclic order, or reports that there is none. *)
Lemma schedule_cases epc t :
  wf_table t →
  (∃ k p, let i := ((start_of t + k) mod 16)%nat in
     schedule_table epc t =
       (Some (SlotFrame i, pc p), mk_table (save_pc epc t) (Some i) (NEXT_PID t)) ∧
     (k < 16)%nat ∧ save_pc epc t !! i = Some (Some p) ∧ runnable t i ∧
     ∀ k', (k' < k)%nat → ¬ runnable t ((start_of t + k') mod 16)%nat) ∨
  (schedule_table epc t = (None, mk_table (slots t) None (NEXT_PID t)) ∧
   current t = None ∧ ∀ i, ¬ runnable t i).
Proof.
  intros Hwf. pose proof (wf_len _ Hwf) as Hlen. change MAX_PROCESSES with 16%nat in Hlen.
  unfold schedule_table. rewrite length_save_pc, Hlen. fold (start_of t).
  destruct (pick _ _) as [[i p]|] eqn:Ep.
  - left. apply pick_some in Ep as (k & Hk & Hp & Hs & Hmin).
    apply candidates_lookup in Hk as [Hk ->]. exists k, p. cbv zeta.
    split; [done|]. split; [done|]. split; [done|].
    assert (Hrun : ∀ j, running (mjoin (save_pc epc t !! j)) = true ↔ runnable t j).
    { intros j. by rewrite save_pc_runnable. }
    split.
    + apply Hrun. rewrite Hp. cbn. by apply bool_decide_eq_true_2.
    + intros k' Hk' Hr. apply Hrun in Hr.
      rewrite (Hmin k' ((start_of t + k') mod 16)%nat) in Hr; [done|done|].
      apply candidates_lookup. split; [lia|done].
  - right. rewrite pick_none in Ep.
    assert (Hno : ∀ i, ¬ runnable t i).
    { intros i Hr. pose proof (runnable_lt t i Hwf Hr) as Hi.
      pose proof (start_of_lt t) as Hs.
      assert (Hc : i ∈ candidates 16 (start_of t)).
      { apply list_elem_of_lookup. exists ((i + 16 - start_of t) mod 16)%nat.
        apply candidates_lookup. split; [apply Nat.mod_upper_bound; lia|].
        rewrite Nat.Div0.add_mod_idemp_r.
        replace (start_of t + (i + 16 - start_of t))%nat with (i + 1 * 16)%nat by lia.
        rewrite Nat.Div0.mod_add. symmetry. by apply Nat.mod_small. }
      specialize (Ep i Hc). rewrite save_pc_runnable in Ep. unfold runnable in Hr. congruence. }
    assert (Hcur : current t = None).
    { destruct (current t) as [i|] eqn:Ec; [|done]. by apply (wf_cur _ Hwf), Hno in Ec. }
    split_and!; try done. unfold save_pc. by rewrite Hcur.
Qed.

Lemma schedule_runnable epc t i : runnable (schedule_table epc t).2 i ↔ runnable t i.
Proof.
  unfold schedule_table, runnable. destruct (pick _ _) as [[j p]|]; cbn [snd slots];
    by rewrite save_pc_runnable.
Qed.

Lemma schedule_wf epc t : wf_table t → wf_table (schedule_table epc t).2.
Proof.
  intros Hwf. pose proof Hwf as [Hlen Hcur Hpid]. split.
  - unfold schedule_table. destruct (pick _ _) as [[j p]|]; cbn; by rewrite length_save_pc.
  - intros i Hi. apply schedule_runnable.
    destruct (schedule_cases epc t Hwf) as [(k & p & E & _ & _ & Hr & _)|(E & _)];
      rewrite E in Hi; cbn in Hi; [|done]. by injection Hi as <-.
  - unfold schedule_table. by destruct (pick _ _) as [[j p]|].
Qed.

Lemma exit_wf t : wf_table t → wf_table (exit_table t).2.
Proof.
  intros Hwf. unfold exit_table. destruct (current t) as [idx|] eqn:Ec; [|done].
  destruct (slots t !! idx) as [[p|]|]; cbn; try done.
  destruct Hwf as [Hlen Hcur Hpid]. split; cbn; try done. by rewrite length_insert.
Qed.

Lemma first_none_some l i :
  first_none l = Some i → l !! i = Some None ∧ ∀ j, (j < i)%nat → l !! j ≠ Some None.
Proof.
  unfold first_none. intros Hf. apply fmap_Some in Hf as ([k o] & Hf & ->).
  apply list_find_Some in Hf as (Hk & -> & Hmin). split; [done|].
  intros j Hj Hn. by eapply Hmin.
Qed.

Lemma first_none_none l : first_none l = None ↔ ∀ i, l !! i ≠ Some None.
Proof.
  unfold first_none. rewrite fmap_None, list_find_None. rewrite list.Forall_forall. split.
  - intros Ha i Hi. by eapply Ha; [by eapply list_elem_of_lookup_2|].
  - intros Ha o Ho ->. apply list_elem_of_lookup in Ho as [i Hi]. by apply (Ha i).
Qed.

Lemma spawn_lookup t i p j :
  slots t !! j = Some (Some p) → first_none (slots t) = Some i → i ≠ j.
Proof. intros Hj Hi ->. apply first_none_some in Hi as [Hi _]. congruence. Qed.

Lemma spawn_wf mk t : wf_table t → wf_table (spawn_table mk t).2.
Proof.
  intros [Hlen Hcur Hpid]. unfold spawn_table.
  destruct (first_none (slots t)) as [i|] eqn:Ef; split; cbn;
    try (by apply Z.mod_pos_bound); try done.
  - by rewrite length_insert.
  - intros j Hj. apply runnable_lookup. destruct (proj1 (runnable_lookup _ _) (Hcur j Hj)) as (p & Hp & Hs).
    exists p. cbn. split; [|done]. rewrite list_lookup_insert_ne; [done|].
    by eapply spawn_lookup.
Qed.

(** The slot round-robin order puts next. *)
Definition next_slot (t : table) : option nat :=
  fst <$> pick (slots t) (candidates 16 (start_of t)).

Lemma pick_fst_ext l l' cand :
  (∀ i, running (mjoin (l !! i)) = running (mjoin (l' !! i))) →
  fst <$> pick l cand = fst <$> pick l' cand.
Proof.
  intros Hl. induction cand as [|c cand IH]; [done|]. cbn [pick]. specialize (Hl c).
  destruct (l !! c) as [[p|]|], (l' !! c) as [[p'|]|]; cbn in Hl;
    repeat (case_bool_decide; try done); done.
Qed.

Lemma schedule_next epc t :
  wf_table t → current (schedule_table epc t).2 = next_slot t.
Proof.
  intros Hwf. unfold next_slot, schedule_table. rewrite length_save_pc, (wf_len _ Hwf).
  fold (start_of t). change MAX_PROCESSES with 16%nat.
  rewrite (pick_fst_ext _ (save_pc epc t)) by (intros; by rewrite save_pc_runnable).
  by destruct (pick (save_pc epc t) _) as [[j p]|].
Qed.
