(* ===== verification/ProcessProps.v ===== *)
(** * The scheduler is fair and resumes processes where they stopped *)

From S2P Require Import Prelude Frames Hart Process.

(** A series of [schedule] calls, one per trap, each with the PC the trap
    was taken at; the replies in order. *)
Fixpoint schedules (epcs : list Z) (t : table) : list (option (frame_ptr * Z)) * table :=
  match epcs with
  | [] => ([], t)
  | epc :: epcs' =>
      let '(r, t1) := schedule_table epc t in
      let '(rs, t2) := schedules epcs' t1 in (r :: rs, t2)
  end.

(** How many candidates [schedule] tries before slot [j]. *)
Definition distance (t : table) (j : nat) : nat := ((j + 16 - start_of t) mod 16)%nat.

Lemma distance_hit t j : (j < 16)%nat → ((start_of t + distance t j) mod 16 = j)%nat.
Proof.
  intros Hj. unfold distance. pose proof (start_of_lt t).
  rewrite Nat.Div0.add_mod_idemp_r.
  replace (start_of t + (j + 16 - start_of t))%nat with (j + 1 * 16)%nat by lia.
  rewrite Nat.Div0.mod_add. by apply Nat.mod_small.
Qed.

(** Each call either runs [j] or moves at least one slot closer to it. *)
Lemma schedule_closer epc t j :
  wf_table t → runnable t j →
  let '(r, t') := schedule_table epc t in
  (∃ a, r = Some (SlotFrame j, a)) ∨ (distance t' j < distance t j)%nat.
Proof.
  intros Hwf Hr. pose proof (runnable_lt t j Hwf Hr) as Hj.
  pose proof (start_of_lt t) as Hst. pose proof (distance_hit t j Hj) as Hd.
  assert (Hdlt : (distance t j < 16)%nat) by (apply Nat.mod_upper_bound; lia).
  destruct (schedule_cases epc t Hwf) as [(k & p & E & Hk & Hp & Hrun & Hmin)|(E & _ & Hno)];
    rewrite E; [|by apply Hno in Hr].
  destruct (decide (k = distance t j)) as [->|Hne]; [left; rewrite Hd; eauto|].
  assert (Hlt : (k < distance t j)%nat).
  { destruct (decide (k < distance t j)%nat); [done|]. exfalso.
    apply (Hmin (distance t j)); [lia|]. by rewrite Hd. }
  right. set (i := ((start_of t + k) mod 16)%nat).
  assert (Hi : ((i + 1) mod 16 = (start_of t + k + 1) mod 16)%nat)
    by (unfold i; by rewrite Nat.Div0.add_mod_idemp_l).
  assert (Hs' : start_of (mk_table (save_pc epc t) (Some i) (NEXT_PID t)) = ((i + 1) mod 16)%nat)
    by done.
  unfold distance at 1. rewrite Hs', Hi. clear Hs' Hi.
  assert (Hj' : j = ((start_of t + distance t j) mod 16)%nat) by done.
  revert Hlt Hdlt Hj'. generalize (distance t j) as n. intros n Hlt Hdlt ->.
  pose proof (Nat.mod_upper_bound (start_of t + k + 1) 16 ltac:(lia)).
  pose proof (Nat.mod_upper_bound (start_of t + n) 16 ltac:(lia)).
  pose proof (Nat.div_mod (start_of t + k + 1) 16 ltac:(lia)).
  pose proof (Nat.div_mod (start_of t + n) 16 ltac:(lia)).
  set (x := ((start_of t + n) mod 16 + 16 - (start_of t + k + 1) mod 16)%nat) in *.
  pose proof (Nat.div_mod x 16 ltac:(lia)). pose proof (Nat.mod_upper_bound x 16 ltac:(lia)).
  lia.
Qed.

Lemma schedules_reach n : ∀ epcs t j,
  wf_table t → runnable t j → (distance t j < length epcs)%nat → (length epcs <= n)%nat →
  ∃ a, Some (SlotFrame j, a) ∈ (schedules epcs t).1.
Proof.
  induction n as [|n IH]; intros [|epc epcs] t j Hwf Hr Hd Hn; cbn [length] in Hd, Hn; try lia.
  cbn [schedules]. pose proof (schedule_closer epc t j Hwf Hr) as Hc.
  pose proof (schedule_wf epc t Hwf) as Hwf1. pose proof (schedule_runnable epc t j) as Hr1.
  destruct (schedule_table epc t) as [r t1]. cbn [snd] in *.
  destruct (schedules epcs t1) as [rs t2] eqn:Es. destruct Hc as [[a ->]|Hlt].
  - exists a. cbn. by left.
  - destruct (IH epcs t1 j) as [a Ha]; [done|by apply Hr1|lia|lia|].
    exists a. cbn. right. by rewrite Es in Ha.
Qed.

(** The PC saved in a slot. *)
Definition saved_pc (t : table) (i : nat) : option Z := pc <$> mjoin (slots t !! i).

(** The PC a call returns is the saved one of the slot it returns. *)
Lemma schedule_reply epc t i a :
  wf_table t → (schedule_table epc t).1 = Some (SlotFrame i, a) →
  saved_pc (schedule_table epc t).2 i = Some a ∧ current (schedule_table epc t).2 = Some i.
Proof.
  intros Hwf. destruct (schedule_cases epc t Hwf) as [(k & p & E & _ & Hp & _)|(E & _)];
    [revert E Hp; cbv zeta; generalize ((start_of t + k) mod 16)%nat; intros i0 E Hp|];
    rewrite E; cbn [fst snd current]; [|done]. intros [= <- <-]. unfold saved_pc.
  cbn [slots]. by rewrite Hp.
Qed.

(** ** Claims *)

(** C13. The round-robin scheduler is fair: whatever traps occur, a process
    that can run is given the CPU within the next sixteen calls of
    [schedule]. *)
Theorem scheduler_fair t j epcs :
  wf_table t → runnable t j → length epcs = MAX_PROCESSES →
  ∃ a, Some (SlotFrame j, a) ∈ (schedules epcs t).1.
Proof.
  intros Hwf Hr Hlen. apply (schedules_reach 16); try done; rewrite Hlen; [|done].
  by apply Nat.mod_upper_bound.
Qed.

(** ** Life of the process table *)

(** Tables reachable from boot, with the number of spawns so far. *)
Inductive reachable : nat → table → Prop :=
| reach_init : reachable 0 table_init
| reach_spawn n t mk : reachable n t →
    (∀ k, pid (mk k) = k ∧ state (mk k) = Running) → reachable (S n) (spawn_table mk t).2
| reach_schedule n t epc : reachable n t → reachable n (schedule_table epc t).2
| reach_exit n t : reachable n t → reachable n (exit_table t).2.

Lemma reachable_wf n t : reachable n t → wf_table t.
Proof.
  induction 1; auto using spawn_wf, schedule_wf, exit_wf.
  by split.
Qed.

Lemma reachable_next n t : reachable n t → NEXT_PID t = (Z.of_nat n + 1) mod 2 ^ 16.
Proof.
  induction 1 as [|n t mk _ IH _|n t epc _ IH|n t _ IH]; [done|..].
  - unfold spawn_table. rewrite Nat2Z.inj_succ.
    destruct (first_none (slots t)); cbn; rewrite IH; dlia.
  - unfold schedule_table. by destruct (pick _ _) as [[??]|].
  - unfold exit_table. destruct (current t); [|done].
    by destruct (slots t !! n0) as [[?|]|].
Qed.

Definition live_pid (t : table) (i : nat) : option Z := pid <$> mjoin (slots t !! i).

Lemma live_pid_schedule epc t i : live_pid (schedule_table epc t).2 i = live_pid t i.
Proof.
  unfold live_pid. assert (Hs : slots (schedule_table epc t).2 = save_pc epc t)
    by (unfold schedule_table; by destruct (pick _ _) as [[??]|]).
  rewrite Hs, save_pc_lookup. case_decide; [|done]. by destruct (slots t !! i) as [[p|]|].
Qed.

Lemma live_pid_exit t i k : live_pid (exit_table t).2 i = Some k → live_pid t i = Some k.
Proof.
  unfold live_pid, exit_table. destruct (current t) as [idx|]; [|done].
  destruct (slots t !! idx) as [[p|]|] eqn:E; try done. cbn [snd slots].
  destruct (decide (idx = i)) as [->|Hne]; [|by rewrite list_lookup_insert_ne].
  by rewrite list_lookup_insert_eq by (by eapply lookup_lt_Some).
Qed.

Lemma live_pid_spawn mk t i k :
  (∀ k, pid (mk k) = k) → live_pid (spawn_table mk t).2 i = Some k →
  live_pid t i = Some k ∨ (k = NEXT_PID t ∧ first_none (slots t) = Some i).
Proof.
  intros Hmk. unfold live_pid, spawn_table.
  destruct (first_none (slots t)) as [j|] eqn:E; cbn [snd slots]; [|by left].
  destruct (decide (j = i)) as [->|Hne]; [|rewrite list_lookup_insert_ne by done; by left].
  pose proof (proj1 (first_none_some _ _ E)) as Hj.
  rewrite list_lookup_insert_eq by (by eapply lookup_lt_Some). cbn.
  intros [= <-]. right. by rewrite Hmk.
Qed.

Lemma reachable_pid_range n t i k :
  reachable n t → Z.of_nat n < 2 ^ 16 - 1 → live_pid t i = Some k → 1 <= k <= Z.of_nat n.
Proof.
  intros Hr Hn. revert i k. induction Hr as [|n t mk Hr IH Hmk|n t epc Hr IH|n t Hr IH]; intros i k Hk.
  - unfold live_pid, table_init in Hk. cbn [slots] in Hk.
    destruct (replicate MAX_PROCESSES None !! i) as [o|] eqn:E; [|done].
    apply lookup_replicate in E as [-> _]. done.
  - apply live_pid_spawn in Hk as [Hk|[-> _]]; [|..|by intros; apply Hmk].
    + specialize (IH ltac:(lia) i k Hk). lia.
    + rewrite (reachable_next n t Hr). rewrite Z.mod_small; lia.
  - rewrite live_pid_schedule in Hk. by apply (IH Hn i).
  - apply live_pid_exit in Hk. by apply (IH Hn i).
Qed.

(** C28. Process identifiers: in every table reachable from boot by spawning,
    scheduling and exiting, with fewer than 65535 spawns, two slots never
    hold the same PID and no PID is the reserved 0. *)
Theorem live_pids_unique n t i j k :
  reachable n t → Z.of_nat n < 2 ^ 16 - 1 →
  live_pid t i = Some k → live_pid t j = Some k → i = j ∧ k ≠ 0.
Proof.
  intros Hr Hn Hi Hj. split; [|pose proof (reachable_pid_range n t i k Hr Hn Hi); lia].
  revert i j k Hi Hj. induction Hr as [|n t mk Hr IH Hmk|n t epc Hr IH|n t Hr IH]; intros i j k Hi Hj.
  - pose proof (reachable_pid_range 0 table_init i k reach_init Hn Hi). lia.
  - assert (Hmk' : ∀ k, pid (mk k) = k) by (intros; apply Hmk).
    assert (Hfresh : ∀ x, live_pid t x ≠ Some (NEXT_PID t)).
    { intros x Hx. apply (reachable_pid_range n t x) in Hx; [|done|lia].
      rewrite (reachable_next n t Hr), Z.mod_small in Hx; lia. }
    apply live_pid_spawn in Hi as [Hi|[Ei Hi]]; [..|done];
      apply live_pid_spawn in Hj as [Hj|[Ej Hj]]; try done.
    + by apply (IH ltac:(lia) i j k).
    + subst k. by apply Hfresh in Hi.
    + subst k. by apply Hfresh in Hj.
    + congruence.
  - rewrite live_pid_schedule in Hi, Hj. by apply (IH Hn i j k).
  - apply live_pid_exit in Hi, Hj. by apply (IH Hn i j k).
Qed.

(** After 65535 spawns the counter wraps: the next process gets the
    reserved PID 0. *)
Theorem pid_counter_wraps n t mk i :
  reachable n t → Z.of_nat n = 2 ^ 16 - 1 → first_none (slots t) = Some i →
  (spawn_table mk t).1 = Ok 0.
Proof.
  intros Hr Hn Hf. unfold spawn_table. rewrite Hf. cbn [fst].
  by rewrite (reachable_next n t Hr), Hn.
Qed.

(** ** Spawning and exiting in the kernel *)

Section kernel.
Context {St : Type} `{FrameAllocatorLaws St} `{LensLaws St table} `{!Apart St table}.
Context `{LensLaws St hart} `{!Apart St hart}.

(** The process a spawn creates. *)
Definition new_process (entry stk top k : Z) : Process :=
  mk_process (mk_frame (<[2%nat := stk + 2 * PAGE_SIZE]> (replicate 32 0)) (replicate 32 0) 0 top 0)
    stk entry k Running.

(** With memory for the stack, spawning is [spawn_table] beside it. *)
Lemma spawn_kernel_run (s : St) entry stk s1 :
  fa_zallocate STACK_PAGES s = Done (Some stk, s1) →
  let o := spawn_table (new_process entry stk (TRAP_STACK_TOP (view (T:=hart) s))) (view (T:=table) s) in
  spawn_kernel entry s = Done (o.1, put o.2 s1).
Proof.
  intros E. unfold spawn_kernel. rewrite (bind_done _ _ _ _ _ E).
  pose proof (ap_zallocate (T:=table) _ _ _ _ E) as Ht.
  pose proof (ap_zallocate (T:=hart) _ _ _ _ E) as Hh.
  cbn beta iota. unfold trap_stack_top. rewrite bind_assoc, bind_get, bind_ret, bind_get, Ht, Hh.
  change (λ pid, mk_process _ _ _ pid _) with (new_process entry stk (TRAP_STACK_TOP (view (T:=hart) s))).
  by destruct (spawn_table _ _).
Qed.

(** C27. [spawn_kernel] on every branch: out of memory changes nothing; else a
    fresh zeroed two-page stack is taken, the PID counter advances, and
    either the first empty slot receives a process whose stack pointer is the
    top of that stack, whose PC is the entry point and whose trap stack is
    the kernel's, every other slot being kept, or, when all slots are in
    use, the call fails with [TableFull]. *)
Theorem spawn_kernel_spec (s : St) h entry :
  fa_rep s h →
  let t := view (T:=table) s in
  spawn_kernel entry s = Done (Err OutOfMemory, s) ∨
  ∃ stk s' r, spawn_kernel entry s = Done (r, s') ∧ h !! stk = None ∧
    fa_rep s' (<[stk := STACK_PAGES]> h) ∧
    (∀ a, word_at (fa_ram s') a =
       if decide (stk <= a < stk + 2 * PAGE_SIZE ∧ (a - stk) mod 8 = 0) then 0
       else word_at (fa_ram s) a) ∧
    NEXT_PID (view (T:=table) s') = (NEXT_PID t + 1) mod 2 ^ 16 ∧
    current (view (T:=table) s') = current t ∧
    match first_none (slots t) with
    | Some i => r = Ok (NEXT_PID t) ∧
        slots (view (T:=table) s') =
          <[i := Some (new_process entry stk (TRAP_STACK_TOP (view (T:=hart) s)) (NEXT_PID t))]> (slots t)
    | None => r = Err TableFull ∧ slots (view (T:=table) s') = slots t
    end.
Proof.
  intros Hrep t.
  destruct (fa_zallocate_spec s h STACK_PAGES Hrep ltac:(done)) as [E|(p & s1 & E & Hp & Hrep1 & Hz)].
  { left. unfold spawn_kernel. by rewrite (bind_done _ _ _ _ _ E). }
  right. pose proof (spawn_kernel_run s entry p s1 E) as Hrun. cbv zeta in Hrun. fold t in Hrun.
  eexists p, _, _. split; [exact Hrun|]. rewrite view_put, ap_ram. unfold spawn_table.
  destruct (first_none (slots t)) as [i|]; cbn [fst snd slots NEXT_PID current];
    split_and!; try done; by apply ap_rep.
Qed.

(** The stack of a process that could not be given a slot is not freed:
    with a full table [spawn_kernel] reports failure, yet the two pages it
    took stay allocated. *)
Theorem spawn_into_full_table_leaks (s : St) h entry :
  fa_rep s h → first_none (slots (view (T:=table) s)) = None →
  (∃ p s', fa_zallocate STACK_PAGES s = Done (Some p, s')) →
  ∃ p s', spawn_kernel entry s = Done (Err TableFull, s') ∧
    h !! p = None ∧ fa_rep s' (<[p := 2]> h).
Proof.
  intros Hrep Hfull (p0 & s0 & E0).
  destruct (fa_zallocate_spec s h STACK_PAGES Hrep ltac:(done))
    as [E|(p & s1 & E & Hp & Hrep1 & Hz)]; [congruence|].
  pose proof (spawn_kernel_run s entry p s1 E) as Hrun. cbv zeta in Hrun.
  unfold spawn_table in Hrun. rewrite Hfull in Hrun.
  exists p. eexists. split; [exact Hrun|]. split; [done|]. by apply ap_rep.
Qed.

(** C36. [exit_current] frees the slot of the current process, which can then
    no longer be scheduled, keeps every other process, and reports its PID;
    the pages of its stack stay allocated. *)
Theorem exit_frees_slot_not_stack (s : St) h i p :
  fa_rep s h → wf_table (view s) → current (view s) = Some i →
  slots (view s) !! i = Some (Some p) →
  ∃ s', exit_current s = Done (Some (pid p), s') ∧ wf_table (view s') ∧
    current (view s') = None ∧ ¬ runnable (view s') i ∧
    (∀ j, j ≠ i → slots (view s') !! j = slots (view s) !! j) ∧
    fa_rep s' h.
Proof.
  intros Hrep Hwf Hc Hp. unfold exit_current.
  rewrite bind_get.
  assert (Hlt : (i < length (slots (view s)))%nat) by (by eapply lookup_lt_Some).
  unfold check_current. rewrite Hc, (proj2 (Nat.ltb_lt _ _)) by done. rewrite bind_ret.
  pose proof (exit_wf _ Hwf) as Hwf'. revert Hwf'. unfold exit_table. rewrite Hc, Hp.
  intros Hwf'. rewrite bind_set.
  eexists. split; [reflexivity|]. rewrite view_put. cbn [current slots snd].
  split_and!; try done.
  - unfold runnable. cbn [slots]. by rewrite list_lookup_insert_eq.
  - intros j Hj. by rewrite list_lookup_insert_ne.
  - by apply ap_rep.
Qed.
End kernel.

(** ** Witnesses *)

Definition sample_proc (pc pid : Z) : Process := mk_process TrapFrame_empty 0 pc pid Running.

(** Slots 0 and 2 hold processes, the first is running. *)
Definition sample_table : table :=
  mk_table (<[2%nat := Some (sample_proc 0x300 2)]>
    (<[0%nat := Some (sample_proc 0x100 1)]> (replicate 16 None))) (Some 0%nat) 3.

Lemma sample_wf : wf_table sample_table.
Proof. split; [done| |done]. by intros i [= <-]. Qed.

(** Spawning, running and exiting one process after another. *)
Lemma churn n : reachable n (mk_table (replicate 16 None) None ((Z.of_nat n + 1) mod 2 ^ 16)).
Proof.
  induction n as [|n IH]; [apply reach_init|].
  apply (reach_spawn _ _ (sample_proc 0)) in IH; [|done].
  apply (reach_schedule _ _ 0), reach_exit in IH.
  replace ((Z.of_nat (S n) + 1) mod 2 ^ 16) with (((Z.of_nat n + 1) mod 2 ^ 16 + 1) mod 2 ^ 16) by dlia.
  exact IH.
Qed.

Lemma scheduler_fair_witness :
  ∃ a, Some (SlotFrame 2, a) ∈ (schedules (replicate 16 0x104) sample_table).1.
Proof. apply scheduler_fair; [apply sample_wf|reflexivity|reflexivity]. Defined.

Lemma live_pids_unique_witness :
  let t := (spawn_table (sample_proc 0x200) (spawn_table (sample_proc 0x100) table_init).2).2 in
  live_pid t 1 = Some 2 ∧ 1%nat = 1%nat ∧ 2 ≠ 0.
Proof.
  intros t. split; [reflexivity|]. apply (live_pids_unique 2 t 1 1 2); try reflexivity.
  apply reach_spawn; [apply reach_spawn; [apply reach_init|]|]; intros k; split; reflexivity.
Defined.

Lemma pid_counter_wraps_witness :
  (spawn_table (sample_proc 0) (mk_table (replicate 16 None) None
     ((Z.of_nat (Z.to_nat 65535) + 1) mod 2 ^ 16))).1 = Ok 0.
Proof.
  apply (pid_counter_wraps (Z.to_nat 65535) _ _ 0); [apply churn| |reflexivity].
  rewrite Z2Nat.id; lia.
Defined.
