(* ===== verification/Uart.v ===== *)
(** * UART and PLIC drivers: [src/src/drivers/uart], [src/src/drivers/plic]

    Both drivers reach their registers through the volatile accesses of
    [Virtio]; the devices behind them are the same [Host]. *)

From S2P Require Import Prelude Frames Virtio.

(** ** [uart/mod.rs] *)

Definition UART_BASE : Z := 0x10000000.
Definition RBR_THR : Z := 0.
Definition IER : Z := 1.
Definition FCR : Z := 2.
Definition LCR : Z := 3.
Definition LSR : Z := 5.
Definition LSR_DATA_READY : Z := Z.shiftl 1 0.
Definition LSR_THR_EMPTY : Z := Z.shiftl 1 5.
Definition LCR_8BITS : Z := 3.
Definition FCR_ENABLE : Z := 1.
Definition IER_RX_ENABLE : Z := 1.

(** ** [plic/mod.rs] *)

Definition PLIC_PRIORITY : Z := 0x0c000000.
Definition PLIC_ENABLE_HART0_M : Z := 0x0c002000.
Definition PLIC_THRESHOLD_HART0_M : Z := 0x0c200000.
Definition PLIC_CLAIM_HART0_M : Z := 0x0c200004.
Definition UART0_IRQ : Z := 10.

Section drivers.
Context `{Profile} {St T : Type} `{Lens St (virtio T)} `{Host T}.

Definition uart_read (base offset : Z) : M St Z := read_volatile (base + offset).
Definition uart_write (base offset value : Z) : M St unit := write_volatile (base + offset) value.

Definition uart_init (base : Z) : M St unit :=
  uart_write base LCR LCR_8BITS;;
  uart_write base FCR FCR_ENABLE;;
  uart_write base IER IER_RX_ENABLE.

(** [while LSR & THR_EMPTY == 0 {}], then the byte. *)
Fixpoint uart_put (polls : nat) (base byte : Z) : M St unit :=
  match polls with
  | O => diverge
  | S polls' =>
      l ← uart_read base LSR;
      if Z.land l LSR_THR_EMPTY =? 0 then uart_put polls' base byte
      else uart_write base RBR_THR byte
  end.

Definition uart_get (base : Z) : M St (option Z) :=
  l ← uart_read base LSR;
  if Z.land l LSR_DATA_READY =? 0 then mret None
  else b ← uart_read base RBR_THR; mret (Some b).

Fixpoint uart_get_blocking (polls : nat) (base : Z) : M St Z :=
  match polls with
  | O => diverge
  | S polls' =>
      o ← uart_get base;
      match o with Some b => mret b | None => uart_get_blocking polls' base end
  end.

Definition write_str (polls : nat) (base : Z) (s : list Z) : M St unit :=
  for_each s (uart_put polls base).

(** [1 << id] on [u32]: the amount must be below 32. *)
Definition shl32 (id : Z) : M St Z :=
  if id <? 32 then mret (Z.shiftl 1 id)
  else if overflow_checks then panic POverflow else mret (Z.shiftl 1 (id mod 32)).

Definition plic_enable (id : Z) : M St unit :=
  prev ← read_volatile PLIC_ENABLE_HART0_M;
  b ← shl32 id;
  write_volatile PLIC_ENABLE_HART0_M (Z.lor prev b).

Definition plic_set_priority (id prio : Z) : M St unit :=
  write_volatile (PLIC_PRIORITY + 4 * id) (Z.land prio 7).

Definition plic_set_threshold (tsh : Z) : M St unit :=
  write_volatile PLIC_THRESHOLD_HART0_M (Z.land tsh 7).

Definition plic_next : M St (option Z) :=
  claim ← read_volatile PLIC_CLAIM_HART0_M;
  mret (if claim =? 0 then None else Some claim).

Definition plic_complete (id : Z) : M St unit := write_volatile PLIC_CLAIM_HART0_M id.
End drivers.
