(* ===== verification/Console.v ===== *)
(** * The console: [src/src/console] over [src/src/drivers/uart]

    [print!] constructs a UART handle and writes the rendered text through
    it, waiting for the transmitter before every byte.  On a device that
    behaves as the 16550 documents every byte of every message is
    transmitted, once and in order; printing returns, and reaches no register
    but the UART's.  The other components are verified against that
    ([Kernel.print_runs]). *)

From Stdlib Require Import String.
From S2P Require Import Prelude Fmt Frames Virtio Uart.

#[local] Open Scope Z_scope.

(** [console_writer()]: the handle is the MMIO base. *)
Definition console_writer : Z := UART_BASE.

(** [write!(console_writer(), ..)]: the pieces of the text go to [write_str]
    one after the other. *)
Definition console_print `{Profile} {St T : Type} `{Lens St (virtio T)} `{Host T}
    (polls : nat) (f : string) (args : list arg) : M St unit :=
  write_str polls console_writer (render f args).

(** What the driver relies on of the UART: the transmitter is busy for at
    most [ua_latency] looks at the line status; an idle transmitter takes the
    byte written to it.  (What a busy one does with it is left open.) *)
Class UartHost (T : Type) `{Host T} := {
  ua_sent : T → list Z;
  ua_busy : T → nat;
  ua_latency : nat;
  ua_lsr t : ∃ l t', host_read (UART_BASE + LSR) t = (Some l, t') ∧
    (Z.land l LSR_THR_EMPTY =? 0) = negb (ua_busy t =? 0)%nat ∧
    ua_busy t' = pred (ua_busy t) ∧ ua_sent t' = ua_sent t;
  ua_thr t b : ua_busy t = 0%nat → ∃ t', host_write (UART_BASE + RBR_THR) b t = Some t' ∧
    ua_sent t' = ua_sent t ++ [b] ∧ (ua_busy t' <= ua_latency)%nat }.

(** A UART on which printing always works: it is never busy for longer than
    that, and its configuration registers can be written. *)
Class UartReady (T : Type) `{UartHost T} : Prop := {
  ur_bounded t : (ua_busy t <= ua_latency)%nat;
  ur_config o x t : o ∈ [LCR; FCR; IER] → is_Some (host_write (UART_BASE + o) x t) }.

(** Register traffic below the VirtIO bus: what printing does to the
    devices. *)
Inductive talked {T} `{Host T} : T → T → Prop :=
| talk_refl t : talked t t
| talk_read a t t' : talked (host_read a t).2 t' → a < MMIO_VIRTIO_START → talked t t'
| talk_write a x t t1 t' :
    host_write a x t = Some t1 → talked t1 t' → a < MMIO_VIRTIO_START → talked t t'.

#[export] Instance talked_preorder {T} `{Host T} : PreOrder (talked (T:=T)).
Proof.
  split; [intros t; apply talk_refl|]. intros t1 t2 t3 H12 H23.
  induction H12; [done|by eapply talk_read; eauto|by eapply talk_write; eauto].
Qed.

(** Whatever such traffic keeps step by step it keeps. *)
Lemma talked_keeps {T} `{Host T} (R : relation T) `{!PreOrder R} :
  (∀ a t, a < MMIO_VIRTIO_START → R t (host_read a t).2) →
  (∀ a x t t', a < MMIO_VIRTIO_START → host_write a x t = Some t' → R t t') →
  ∀ t t', talked t t' → R t t'.
Proof. 
  intros Hr Hw t t' Ht. induction Ht as [|a t t' _ IH Ha|a x t t1 t' E _ IH Ha]; [done| |].
  - etrans; [by apply Hr|exact IH].
  - etrans; [by eapply Hw|exact IH].
Qed.

Section transmit.
Context `{Profile} {St T : Type} `{LensLaws St (virtio T)} `{UartHost T}.
Context (polls : nat) (Hpolls : (ua_latency < polls)%nat).
Implicit Types (s : St).

(** [s'] is [s] with other devices behind the registers. *)
Definition only_host (t' : T) (s s' : St) : Prop :=
  s' = put (T:=virtio T) (mk_virtio (BLOCK_DEVICES (view s)) (VIRTIO_DEVICES (view s))
             (ACCESS_FAULT_SEEN (view s)) t') s.

Lemma only_host_step t1 t2 s s1 s2 :
  only_host t1 s s1 → only_host t2 s1 s2 → only_host t2 s s2.
Proof. unfold only_host. intros -> ->. by rewrite !view_put, put_put. Qed.

Lemma only_host_host t s s1 : only_host t s s1 → host (view (T:=virtio T) s1) = t.
Proof. unfold only_host. intros ->. by rewrite view_put. Qed.

Lemma put_byte_run n b s :
  (ua_busy (host (view s)) < n)%nat →
  ∃ t' s', uart_put (T:=T) n UART_BASE b s = Done (tt, s') ∧ only_host t' s s' ∧
    ua_sent t' = ua_sent (host (view s)) ++ [b] ∧ (ua_busy t' <= ua_latency)%nat ∧
    talked (host (view s)) t'.
Proof.
  revert s. induction n as [|n IH]; intros s Hn; [lia|]. cbn [uart_put].
  destruct (ua_lsr (host (view s))) as (l & t1 & E1 & Hl & Hb1 & Ho1).
  assert (Er : ∃ s1, uart_read (T:=T) UART_BASE LSR s = Done (l, s1) ∧ only_host t1 s s1).
  { unfold uart_read, read_volatile, vget. rewrite bind_get, E1. eexists. split; [reflexivity|done]. }
  destruct Er as (s1 & Er & Hs1). rewrite (bind_done _ _ _ _ _ Er), Hl.
  pose proof (only_host_host _ _ _ Hs1) as Ht1.
  assert (Htalk : ∀ t', talked t1 t' → talked (host (view s)) t').
  { intros t' Ht'. apply (talk_read (UART_BASE + LSR)); [|done]. by rewrite E1. }
  destruct (Nat.eqb_spec (ua_busy (host (view s))) 0) as [Hz|Hz]; cbn [negb].
  - destruct (ua_thr t1 b) as (t2 & E2 & Ho2 & Hb2); [by rewrite Hb1, Hz|].
    exists t2. unfold uart_write, write_volatile, vget. rewrite bind_get, Ht1, E2. eexists.
    split; [reflexivity|]. split; [by eapply only_host_step|]. rewrite Ho2, Ho1. split_and!; [done|done|].
    apply Htalk. by eapply talk_write; [exact E2|apply talk_refl|].
  - destruct (IH s1) as (t2 & s2 & E2 & Hs2 & Ho2 & Hb2 & Hk2); [rewrite Ht1, Hb1; lia|].
    exists t2, s2. split; [done|]. split; [by eapply only_host_step|]. rewrite Ho2, Ht1, Ho1.
    split_and!; [done|done|]. apply Htalk. by rewrite Ht1 in Hk2.
Qed.

Lemma write_str_run l s :
  (ua_busy (host (view s)) <= ua_latency)%nat →
  ∃ t' s', write_str (T:=T) polls UART_BASE l s = Done (tt, s') ∧ only_host t' s s' ∧
    ua_sent t' = ua_sent (host (view s)) ++ l ∧ (ua_busy t' <= ua_latency)%nat ∧
    talked (host (view s)) t'.
Proof.
  revert s. induction l as [|b l IH]; intros s Hb.
  { exists (host (view s)), s. split; [done|]. split; [|rewrite app_nil_r; by split_and!].
    unfold only_host. destruct (view s) as [bl vd af h] eqn:E. cbn. by rewrite <- E, put_view. }
  destruct (put_byte_run polls b s) as (t1 & s1 & E1 & Hs1 & Ho1 & Hb1 & Hk1); [lia|].
  pose proof (only_host_host _ _ _ Hs1) as Ht1.
  destruct (IH s1) as (t2 & s2 & E2 & Hs2 & Ho2 & Hb2 & Hk2); [by rewrite Ht1|].
  exists t2, s2. unfold write_str. cbn [for_each]. rewrite (bind_done _ _ _ _ _ E1).
  split; [done|]. split; [by eapply only_host_step|]. rewrite Ho2, Ht1, Ho1, <- app_assoc.
  split_and!; [done|done|]. rewrite Ht1 in Hk2. by etrans.
Qed.

(** C30. Nothing printed is lost: playing any log of messages on a UART that
    is busy for a bounded time after each byte transmits exactly the rendered
    text of the messages, byte for byte and in order, always returns, and
    changes nothing but the devices. *)
Theorem console_transmits log s :
  (ua_busy (host (view s)) <= ua_latency)%nat →
  ∃ t' s', for_each log (λ m, console_print (T:=T) polls m.1 m.2) s = Done (tt, s') ∧
    only_host t' s s' ∧
    ua_sent t' = ua_sent (host (view s)) ++ concat ((λ m, render m.1 m.2) <$> log).
Proof.
  revert s. induction log as [|[f args] log IH]; intros s Hb.
  { destruct (write_str_run [] s Hb) as (t' & s' & E & Hs' & Ho & _). injection E as <-.
    exists t', s. by split_and!. }
  destruct (write_str_run (render f args) s Hb) as (t1 & s1 & E1 & Hs1 & Ho1 & Hb1 & _).
  pose proof (only_host_host _ _ _ Hs1) as Ht1.
  destruct (IH s1) as (t2 & s2 & E2 & Hs2 & Ho2); [by rewrite Ht1|].
  exists t2, s2. cbn [for_each fmap list_fmap concat fst snd].
  unfold console_print at 1. change console_writer with UART_BASE.
  rewrite (bind_done _ _ _ _ _ E1). split; [done|]. split; [by eapply only_host_step|].
  by rewrite Ho2, Ht1, Ho1, <- app_assoc.
Qed.
End transmit.
