(* ===== verification/Trap.v ===== *)
(** * Traps and system calls

    [src/src/arch/riscv64/trap.rs] (installation, the dispatcher [m_trap],
    external interrupts, the console's escape-sequence parser),
    [src/src/process/syscall.rs] and the register traffic of
    [src/src/arch/riscv64/asm/trap.S]. *)

From Stdlib Require Import String.
From S2P Require Import Prelude Fmt Frames Bytes BlockDev Minix3 Virtio Uart Hart Process.

#[local] Open Scope Z_scope.

Definition TRAP_STACK_PAGES : Z := 4.
Definition MIE_MTIE : Z := Z.shiftl 1 7.
Definition MIE_MEIE : Z := Z.shiftl 1 11.
Definition TIMER_TICK : Z := 10000000.

(** ** The escape-sequence parser of [echo_uart]: next state and what is
    printed (a format string and its arguments). *)
Definition esc_step (st : EscState) (c : Z) : EscState * list (string * list arg) :=
  match st with
  | Idle =>
      if (c =? 0x08) || (c =? 0x7f) then (Idle, [("\x08 \x08"%string, [])])
      else if (c =? 13) || (c =? 10) then (Idle, [("\r\n"%string, [])])
      else if c =? 0x1b then (EscSeen, [])
      else (Idle, [("{}"%string, [Chr c])])
  | EscSeen => (if c =? 91 then CsiOpen else Idle, [])
  | CsiOpen =>
      (Idle,
       if c =? 65 then [("up arrow!\r\n"%string, [])]
       else if c =? 66 then [("down arrow!\r\n"%string, [])]
       else if c =? 67 then [("right arrow!\r\n"%string, [])]
       else if c =? 68 then [("left arrow!\r\n"%string, [])]
       else [])
  end.

Section trap.
Context `{Profile} {St T : Type} `{FrameAllocator St} `{!BlockReader St}.
Context `{Lens St (virtio T)} `{Host T} `{Console St} `{Lens St table} `{Lens St hart}.

Definition on_hart (f : hart → hart) : M St unit := c ← get_state (T:=hart); set_state (f c).

(** ** Installation *)

Definition install (satp : Z) : M St unit :=
  o ← fa_zallocate TRAP_STACK_PAGES;
  trap_stack ← unwrap o;
  let stack_top := trap_stack + TRAP_STACK_PAGES * PAGE_SIZE in
  on_hart (λ c, set_mtvec (set_mscratch KernelFrame (set_kernel_frame
    (set_hartid 0 (set_trap_stack stack_top (set_satp satp (TRAP_FRAME c))))
    (set_stack_top stack_top c)))).

(** [mtimecmp = mtime + TIMER_TICK] *)
Definition rearm_timer : M St unit :=
  c ← get_state (T:=hart);
  v ← checked 64 (CLINT_MTIME c + TIMER_TICK);
  set_state (set_mtimecmp v c).

Definition enable_interrupts : M St unit :=
  rearm_timer;; on_hart (set_mie (Z.lor MIE_MEIE MIE_MTIE)).

(** ** External interrupts *)

Definition echo_uart : M St unit :=
  o ← uart_get UART_BASE;
  match o with
  | None => mret tt
  | Some c =>
      k ← get_state (T:=hart);
      let '(st, out) := esc_step (ESC_STATE k) c in
      for_each out (λ m, print m.1 m.2);;
      on_hart (set_esc st)
  end.

Definition handle_external : M St unit :=
  o ← plic_next;
  match o with
  | None => mret tt
  | Some id =>
      (if id =? UART0_IRQ then echo_uart
       else served ← pending_by_irq id;
            if served : bool then mret tt
            else print "non-UART external interrupt: {}\r\n" [Num id]);;
      plic_complete id
  end.

(** ** Frames *)

(** Reading and writing [*frame_ptr].  A pointer into an empty slot
    dangles. *)
Definition load_frame (p : frame_ptr) : M St TrapFrame :=
  match p with
  | KernelFrame => c ← get_state (T:=hart); mret (TRAP_FRAME c)
  | SlotFrame i =>
      t ← get_state (T:=table);
      match slots t !! i with Some (Some q) => mret (frame q) | _ => undefined end
  end.
Definition store_frame (p : frame_ptr) (f : TrapFrame) : M St unit :=
  match p with
  | KernelFrame => on_hart (set_kernel_frame f)
  | SlotFrame i =>
      t ← get_state (T:=table);
      match slots t !! i with
      | Some (Some q) =>
          set_state (mk_table (<[i := Some (set_frame f q)]> (slots t)) (current t) (NEXT_PID t))
      | _ => undefined
      end
  end.

Definition reg_of (n : nat) (f : TrapFrame) : Z := default 0 (regs f !! n).

(** ** System calls *)

(** [core::slice::from_raw_parts_mut(buffer, size)] lent to [read_file].  The
    pointer comes unchecked from the caller: null, or outside the pages of the
    heap, where the slice would overlap the kernel's own statics or stack, it
    is undefined. *)
Definition with_slice {A} (buffer size : Z) (k : list Z → M St (A * list Z)) : M St A :=
  if (buffer =? 0) || (negb (size =? 0) && negb (fa_memory (S:=St) buffer size)) then undefined else
  f ← gets (λ s, byte_at (fa_ram s));
  r ← k (bytes_from f buffer (Z.to_nat size));
  modify (λ s, fa_set_ram
    (copy_bytes (Z.to_nat size) buffer (slice_at r.2) 0 (fa_ram s)) s);;
  mret r.1.

(** Syscall 63: the byte count, or 0 on any failure. *)
Definition sys_read (dev inode buffer size offset : Z) : M St Z :=
  r ← mount dev;
  match r with
  | Err _ => mret 0
  | Ok fs =>
      r ← read_inode fs inode;
      match r with
      | Err _ => mret 0
      | Ok node =>
          r ← with_slice buffer size (read_file fs node offset);
          mret (match r with Ok n => n | Err _ => 0 end)
      end
  end.

Definition do_syscall (epc : Z) (p : frame_ptr) : M St Z :=
  f ← load_frame p;
  let num := reg_of 10 f in
  if num =? 1 then checked 64 (epc + 4)
  else if num =? 63 then
    v ← sys_read (reg_of 11 f) (reg_of 12 f mod 2 ^ 32) (reg_of 13 f)
          (reg_of 14 f mod 2 ^ 32) (reg_of 15 f mod 2 ^ 32);
    f ← load_frame p;
    store_frame p (set_regs (<[10%nat := v]> (regs f)) f);;
    checked 64 (epc + 4)
  else if num =? 93 then
    o ← exit_current;
    (match o with Some k => print "process {} exited\r\n" [Num k] | None => mret tt end);;
    o ← schedule epc;
    match o with
    | Some (next_frame, next_pc) => on_hart (set_mscratch next_frame);; mret next_pc
    | None => diverge
    end
  else
    print "unknown syscall {}\r\n" [Num num];;
    checked 64 (epc + 4).

(** ** The dispatcher *)

Definition timer_trap (epc : Z) : M St Z :=
  rearm_timer;;
  o ← schedule epc;
  match o with
  | Some (next_frame, next_pc) => on_hart (set_mscratch next_frame);; mret next_pc
  | None => mret epc
  end.

Definition set_access_fault : M St unit := set_fault true.

Definition m_trap (epc tval cause hart_id : Z) (p : frame_ptr) : M St Z :=
  let is_async := Z.land (Z.shiftr cause 63) 1 =? 1 in
  let cause_num := Z.land cause 0xfff in
  if is_async then
    if cause_num =? 3 then print "machine software interrupt cpu#{}\r\n" [Num hart_id];; mret epc
    else if cause_num =? 7 then timer_trap epc
    else if cause_num =? 11 then handle_external;; mret epc
    else panic PExplicit
  else
    if cause_num =? 2 then panic PExplicit
    else if (cause_num =? 8) || (cause_num =? 9) then do_syscall epc p
    else if cause_num =? 11 then panic PExplicit
    else if cause_num =? 12 then
      print "instruction page fault cpu#{} epc=0x{:x} tval=0x{:x}\r\n" [Num hart_id; Num epc; Num tval];;
      checked 64 (epc + 4)
    else if cause_num =? 13 then
      print "load page fault cpu#{} epc=0x{:x} tval=0x{:x}\r\n" [Num hart_id; Num epc; Num tval];;
      checked 64 (epc + 4)
    else if (cause_num =? 5) || (cause_num =? 7) then
      set_access_fault;; checked 64 (epc + 4)
    else if cause_num =? 15 then
      print "store page fault cpu#{} epc=0x{:x} tval=0x{:x}\r\n" [Num hart_id; Num epc; Num tval];;
      checked 64 (epc + 4)
    else panic PExplicit.

(** ** [trap.S]: the processor's registers [x0..x31] and PC around a trap *)

Record cpu : Type := mk_cpu { x : list Z; cpc : Z }.

(** [save_gp 1..31]: [x0] is not stored. *)
Definition save_gps (x : list Z) (f : TrapFrame) : TrapFrame :=
  set_regs (take 1 (regs f) ++ drop 1 x) f.
(** [load_gp 1..31]: [x0] stays zero. *)
Definition load_gps (f : TrapFrame) : list Z := 0 :: drop 1 (regs f).

(** The vector: [Vector] shows that the assembly saves and restores exactly
    this, and that [m_trap] runs on the stack its frame names. *)
Definition trap_vector (cause tval : Z) (c : cpu) : M St cpu :=
  k ← get_state (T:=hart);
  let p := mscratch k in
  f ← load_frame p;
  store_frame p (save_gps (x c) f);;
  pc' ← m_trap (cpc c) tval cause 0 p;
  k ← get_state (T:=hart);
  f ← load_frame (mscratch k);
  mret (mk_cpu (load_gps f) pc').
End trap.
