(* ===== verification/Vector.v ===== *)
(** * The trap vector, instruction by instruction

    [src/src/arch/riscv64/asm/trap.S] as the list of instructions its macros
    expand to, on a core with thirty-two registers, the control registers it
    uses and memory.  The two halves of the vector, before and after
    [call m_trap], are shown to do what [Trap.trap_vector] says of them:
    [save_gps] into the frame [mscratch] points at, the arguments of
    [m_trap], the switch to the trap stack, and [load_gps] from the frame
    [mscratch] points at when [m_trap] returns. *)

From S2P Require Import Prelude Frames Hart Trap.

#[local] Open Scope Z_scope.

(** ** The instructions the vector uses *)

Inductive csr : Type := Mscratch | Mepc | Mtval | Mcause | Mhartid | Mstatus.

#[export] Instance csr_eq_dec : EqDecision csr.
Proof. solve_decision. Defined.

Inductive instr : Type :=
| Csrrw (rd : nat) (c : csr) (rs : nat)
| Csrr (rd : nat) (c : csr)
| Csrw (c : csr) (rs : nat)
| Mv (rd rs : nat)
| Sd (rs : nat) (off : Z) (base : nat)
| Ld (rd : nat) (off : Z) (base : nat).

Record core : Type := mk_core { gpr : list Z; csrs : csr → Z; mem : gmap Z Z }.

Definition rd_gpr (c : core) (n : nat) : Z := default 0 (gpr c !! n).

(** [x0] ignores writes. *)
Definition wr_gpr (n : nat) (v : Z) (c : core) : core :=
  if (n =? 0)%nat then c else mk_core (<[n := v]> (gpr c)) (csrs c) (mem c).
Definition wr_csr (k : csr) (v : Z) (c : core) : core :=
  mk_core (gpr c) (λ k', if decide (k' = k) then v else csrs c k') (mem c).
Definition wr_mem (a v : Z) (c : core) : core := mk_core (gpr c) (csrs c) (<[a := v]> (mem c)).

Definition effective (c : core) (off : Z) (base : nat) : Z := (rd_gpr c base + off) mod 2 ^ 64.

Definition exec (i : instr) (c : core) : core :=
  match i with
  | Csrrw rd k rs => wr_gpr rd (csrs c k) (wr_csr k (rd_gpr c rs) c)
  | Csrr rd k => wr_gpr rd (csrs c k) c
  | Csrw k rs => wr_csr k (rd_gpr c rs) c
  | Mv rd rs => wr_gpr rd (rd_gpr c rs) c
  | Sd rs off base => wr_mem (effective c off base) (rd_gpr c rs) c
  | Ld rd off base => wr_gpr rd (word_at (mem c) (effective c off base)) c
  end.

Fixpoint run (l : list instr) (c : core) : core :=
  match l with [] => c | i :: l' => run l' (exec i c) end.

(** ** [m_trap_vector] *)

Abbreviation sp := 2%nat.
Abbreviation a0 := 10%nat.
Abbreviation a1 := 11%nat.
Abbreviation a2 := 12%nat.
Abbreviation a3 := 13%nat.
Abbreviation a4 := 14%nat.
Abbreviation a5 := 15%nat.
Abbreviation t5 := 30%nat.
Abbreviation t6 := 31%nat.

Definition REG_SIZE : Z := 8.
Definition save_gp (basereg i : nat) : instr := Sd i (Z.of_nat i * REG_SIZE) basereg.
Definition load_gp (basereg i : nat) : instr := Ld i (Z.of_nat i * REG_SIZE) basereg.

(** Up to [call m_trap]. *)
Definition m_trap_vector_entry : list instr :=
  [Csrrw t6 Mscratch t6] ++
  (save_gp t6 <$> seq 1 30) ++
  [Mv t5 t6; Csrr t6 Mscratch; save_gp t5 31; Csrw Mscratch t5;
   Csrr a0 Mepc; Csrr a1 Mtval; Csrr a2 Mcause; Csrr a3 Mhartid; Csrr a4 Mstatus; Mv a5 t5;
   Ld sp 520 a5].

(** From its return to [mret]. *)
Definition m_trap_vector_exit : list instr :=
  [Csrw Mepc a0; Csrr t6 Mscratch] ++ (load_gp t6 <$> seq 1 31).

(** The [TrapFrame] at an address, by the offsets of [trap_frame.rs]. *)
Definition words_from (m : gmap Z Z) (p : Z) (n : nat) : list Z :=
  (λ i, word_at m (p + Z.of_nat i * 8)) <$> seq 0 n.
Definition frame_at (m : gmap Z Z) (p : Z) : TrapFrame :=
  mk_frame (words_from m p 32) (words_from m (p + 256) 32) (word_at m (p + 512))
    (word_at m (p + 520)) (word_at m (p + 528)).

Lemma run_app l l' c : run (l ++ l') c = run l' (run l c).
Proof. revert c. induction l as [|i l IH]; intros c; [done|]. apply IH. Qed.

Lemma words_from_lookup m p n i :
  (i < n)%nat → words_from m p n !! i = Some (word_at m (p + Z.of_nat i * 8)).
Proof. intros Hi. unfold words_from. by rewrite list_lookup_fmap, lookup_seq_lt. Qed.

Lemma length_words_from m p n : length (words_from m p n) = n.
Proof. unfold words_from. by rewrite length_fmap, length_seq. Qed.

(** A register file: thirty-two registers, [x0] zero. *)
Definition wf_core (c : core) : Prop := length (gpr c) = 32%nat ∧ gpr c !! 0%nat = Some 0.

(** A frame that does not wrap around the address space. *)
Definition in_space (p : Z) : Prop := 0 <= p ∧ p + 536 <= 2 ^ 64.

Lemma effective_at c off base p :
  rd_gpr c base = p → in_space p → 0 <= off <= 528 → effective c off base = p + off.
Proof. unfold effective, in_space. intros -> Hp Ho. apply Z.mod_small. lia. Qed.

(** Saving registers [i], [i + 1], ..., one after the other. *)
Lemma run_saves base p n : ∀ i c,
  rd_gpr c base = p → in_space p → (i + n <= 32)%nat →
  let c' := run (save_gp base <$> seq i n) c in
  gpr c' = gpr c ∧ csrs c' = csrs c ∧
  (∀ j, (i <= j < i + n)%nat → word_at (mem c') (p + Z.of_nat j * 8) = rd_gpr c j) ∧
  ∀ a, (∀ j, (i <= j < i + n)%nat → a ≠ p + Z.of_nat j * 8) → word_at (mem c') a = word_at (mem c) a.
Proof.
  induction n as [|n IH]; intros i c Hb Hp Hi; [cbn; split_and!; try done; lia|].
  assert (E : exec (save_gp base i) c = wr_mem (p + Z.of_nat i * 8) (rd_gpr c i) c).
  { cbn [exec save_gp]. unfold REG_SIZE. by rewrite (effective_at c _ base p) by (done || lia). }
  cbn [seq fmap list_fmap run]. rewrite E.
  destruct (IH (S i) (wr_mem (p + Z.of_nat i * 8) (rd_gpr c i) c)) as (Eg & Ec & Hin & Hout); [done|done|lia|].
  cbn zeta. split; [exact Eg|]. split; [exact Ec|]. split.
  - intros j Hj. destruct (decide (j = i)) as [->|Hne]; [|apply Hin; lia].
    rewrite Hout by (intros; lia). cbn. by rewrite word_at_insert, decide_True.
  - intros a Ha. rewrite Hout by (intros; apply Ha; lia). cbn.
    rewrite word_at_insert, decide_False; [done|]. intros Ei. apply (Ha i); [lia|done].
Qed.

(** Loading them; the base register itself may be the last one loaded. *)
Lemma run_loads base p n : ∀ i c,
  rd_gpr c base = p → in_space p → length (gpr c) = 32%nat → (0 < i)%nat → (i + n <= S base)%nat → (base < 32)%nat →
  let c' := run (load_gp base <$> seq i n) c in
  csrs c' = csrs c ∧ mem c' = mem c ∧ length (gpr c') = 32%nat ∧
  ∀ j, gpr c' !! j = if decide (i <= j < i + n)%nat then Some (word_at (mem c) (p + Z.of_nat j * 8)) else gpr c !! j.
Proof.
  induction n as [|n IH]; intros i c Hb Hp Hl Hi Hn Hbase.
  { cbn. split_and!; try done. intros j. by rewrite decide_False by lia. }
  set (c1 := mk_core (<[i := word_at (mem c) (p + Z.of_nat i * 8)]> (gpr c)) (csrs c) (mem c)).
  assert (E : exec (load_gp base i) c = c1).
  { cbn [exec load_gp]. unfold REG_SIZE, wr_gpr. rewrite (effective_at c _ base p) by (done || lia).
    by rewrite (proj2 (Nat.eqb_neq _ _)) by lia. }
  cbn [seq fmap list_fmap run]. rewrite E.
  assert (Hc1 : ∀ j, gpr c1 !! j = if decide (j = i) then Some (word_at (mem c) (p + Z.of_nat i * 8)) else gpr c !! j).
  { intros j. unfold c1. cbn [gpr]. case_decide as Hj; [subst j; apply list_lookup_insert_eq; lia|].
    by apply list_lookup_insert_ne. }
  destruct (decide (n = 0%nat)) as [->|Hn0].
  { cbn [seq fmap list_fmap run]. split_and!; try done; [unfold c1; cbn; by rewrite length_insert|].
    intros j. rewrite Hc1. repeat case_decide; try lia; subst; done. }
  destruct (IH (S i) c1) as (Ec & Em & El & Hg);
    [|done|unfold c1; cbn; by rewrite length_insert|lia|lia|done|].
  { unfold rd_gpr. by rewrite Hc1, decide_False by lia. }
  cbn zeta. split; [exact Ec|]. split; [exact Em|]. split; [exact El|].
  intros j. rewrite Hg, Hc1. repeat case_decide; try lia; subst; done.
Qed.

(** What the entry leaves: the registers in the frame and nowhere else, the
    arguments of [m_trap] in [a0] to [a5], and the trap stack in [sp]. *)
Record vector_entered (p : Z) (c c' : core) : Prop := {
  ve_frame : frame_at (mem c') p = save_gps (gpr c) (frame_at (mem c) p);
  ve_mem a : a < p ∨ p + 256 <= a → word_at (mem c') a = word_at (mem c) a;
  ve_scratch : csrs c' Mscratch = p;
  ve_args : rd_gpr c' <$> [a0; a1; a2; a3; a4; a5] =
    [csrs c Mepc; csrs c Mtval; csrs c Mcause; csrs c Mhartid; csrs c Mstatus; p];
  ve_stack : rd_gpr c' sp = trap_stack (frame_at (mem c) p) }.

Lemma save_gps_frame m m' p g :
  length g = 32%nat → (∀ j, (1 <= j < 32)%nat → word_at m' (p + Z.of_nat j * 8) = default 0 (g !! j)) →
  (∀ a, (∀ j, (1 <= j < 32)%nat → a ≠ p + Z.of_nat j * 8) → word_at m' a = word_at m a) →
  frame_at m' p = save_gps g (frame_at m p).
Proof.
  intros Hg Hin Hout. unfold frame_at, save_gps, set_regs. cbn [regs fregs satp trap_stack hartid].
  assert (Hf : words_from m' (p + 256) 32 = words_from m (p + 256) 32).
  { apply list_fmap_ext. intros j i _. apply Hout. intros k Hk. lia. }
  rewrite Hf. rewrite !(Hout (p + _)) by (intros; lia). f_equal. apply list_eq. intros i.
  destruct (Nat.lt_ge_cases i 32) as [Hi|Hi].
  2: { rewrite !lookup_ge_None_2; [done|rewrite length_app, length_take, length_drop, length_words_from; lia|].
       by rewrite length_words_from. }
  rewrite words_from_lookup by done. destruct i as [|i].
  - rewrite Hout by (intros; lia). done.
  - rewrite Hin by lia. rewrite lookup_app_r by (rewrite length_take, length_words_from; lia).
    rewrite length_take, length_words_from, lookup_drop. replace (1 + (S i - 1 `min` 32))%nat with (S i) by lia.
    destruct (g !! S i) as [v|] eqn:E; [done|]. apply lookup_ge_None_1 in E. lia.
Qed.

Lemma vector_entry p c :
  wf_core c → in_space p → csrs c Mscratch = p → vector_entered p c (run m_trap_vector_entry c).
Proof.
  intros [Hl H0] Hp Hs. unfold m_trap_vector_entry. rewrite !run_app.
  set (c1 := run [Csrrw t6 Mscratch t6] c).
  assert (Hg1 : ∀ j, rd_gpr c1 j = if decide (j = t6) then p else rd_gpr c j).
  { intros j. unfold rd_gpr, c1. cbn. rewrite Hs. case_decide as Hj; [subst j; by rewrite list_lookup_insert_eq by lia|].
    by rewrite list_lookup_insert_ne by congruence. }
  destruct (run_saves t6 p 30 1 c1) as (Eg & Ec & Hin & Hout); [by rewrite Hg1|done|lia|].
  set (c2 := run (save_gp t6 <$> seq 1 30) c1) in *.
  assert (Hl2 : length (gpr c2) = 32%nat) by (rewrite Eg; unfold c1; cbn; by rewrite length_insert).
  assert (Hg2 : ∀ j, rd_gpr c2 j = if decide (j = t6) then p else rd_gpr c j)
    by (intros j; rewrite <- Hg1; unfold rd_gpr; by rewrite Eg).
  assert (Hc2 : ∀ k, csrs c2 k = if decide (k = Mscratch) then rd_gpr c t6 else csrs c k).
  { intros k. rewrite Ec. unfold c1. cbn. done. }
  assert (Hmem : mem c1 = mem c) by done. rewrite Hmem in Hout.
  clearbody c2. clear Eg Ec. clearbody c1. destruct c2 as [g k m]. cbn in Hl2, Hin, Hout.
  do 32 (destruct g as [|? g]; [discriminate|]). destruct g; [|discriminate].
  pose proof (Hg2 t6) as H31. rewrite decide_True in H31 by done. cbn in H31.
  match type of H31 with ?z = _ => subst z end.
  cbn -[word_at frame_at effective decide Z.add Z.mul Z.pow].
  assert (Hx : k Mscratch = default 0 (gpr c !! t6)) by (by specialize (Hc2 Mscratch)).
  unfold REG_SIZE, effective, rd_gpr. cbn [gpr lookup list_lookup default mem]. unfold id.
  unfold in_space in Hp. rewrite !Z.mod_small by lia.
  set (m' := <[_ := _]> m).
  assert (Hm' : ∀ a, word_at m' a = if decide (a = p + Z.of_nat 31 * 8) then default 0 (gpr c !! t6) else word_at m a).
  { intros a. unfold m'. rewrite word_at_insert, Hx. repeat case_decide; done || lia. }
  assert (Hsaved : ∀ a, (∀ j, (1 <= j < 32)%nat → a ≠ p + Z.of_nat j * 8) → word_at m' a = word_at (mem c) a).
  { intros a Ha. rewrite Hm', decide_False by (apply Ha; lia). apply Hout. intros j Hj. apply Ha. lia. }
  split; cbn [mem gpr csrs].
  - apply save_gps_frame; [done| |exact Hsaved]. intros j Hj. rewrite Hm'. case_decide as Hd.
    + by replace j with t6 by lia.
    + rewrite Hin by lia. by rewrite Hg1, decide_False by lia.
  - intros a Ha. apply Hsaved. intros. lia.
  - by rewrite decide_True.
  - cbn -[decide]. by rewrite !decide_False, !Hc2 by done.
  - cbn. rewrite Hsaved; [done|]. intros. lia.
Qed.

(** Leaving: the registers of the frame [mscratch] points at, the resume PC
    in [mepc], nothing else touched. *)
Lemma vector_exit p c :
  wf_core c → in_space p → csrs c Mscratch = p →
  let c' := run m_trap_vector_exit c in
  gpr c' = load_gps (frame_at (mem c) p) ∧ csrs c' Mepc = rd_gpr c a0 ∧
  csrs c' Mscratch = p ∧ mem c' = mem c.
Proof.
  intros [Hl H0] Hp Hs. unfold m_trap_vector_exit. rewrite run_app.
  set (c1 := run [Csrw Mepc a0; Csrr t6 Mscratch] c).
  assert (Hb : rd_gpr c1 t6 = p).
  { unfold rd_gpr, c1. cbn. by rewrite list_lookup_insert_eq by lia. }
  destruct (run_loads t6 p 31 1 c1) as (Ec & Em & El & Hg);
    [done|done|unfold c1; cbn; by rewrite length_insert|lia|lia|lia|].
  cbv zeta. rewrite Ec, Em. split; [|by split_and!]. apply list_eq. intros i. rewrite Hg.
  unfold load_gps, frame_at. cbn [regs]. case_decide as Hi.
  - destruct i as [|i]; [lia|]. rewrite lookup_cons, lookup_drop, words_from_lookup by lia. done.
  - destruct i as [|i].
    + unfold c1. cbn. by rewrite list_lookup_insert_ne.
    + rewrite !lookup_ge_None_2; [done|cbn [length]; rewrite length_drop, length_words_from; lia|].
      unfold c1. cbn. rewrite length_insert. lia.
Qed.

(** C40. The assembly of the trap vector does what the model of a trap says:
    entered with [mscratch] pointing at a frame, it stores [x1..x31] as they
    were at the trap in that frame and nothing anywhere else, passes the trap
    registers and the frame to [m_trap], and runs it on the trap stack the
    frame names; when [m_trap] returns it leaves with the PC it returned and
    every register loaded from the frame [mscratch] then points at. *)
Theorem vector_saves_and_restores p c p' c' :
  wf_core c → in_space p → csrs c Mscratch = p →
  wf_core c' → in_space p' → csrs c' Mscratch = p' →
  vector_entered p c (run m_trap_vector_entry c) ∧
  let c'' := run m_trap_vector_exit c' in
  gpr c'' = load_gps (frame_at (mem c') p') ∧ csrs c'' Mepc = rd_gpr c' a0 ∧
  csrs c'' Mscratch = p' ∧ mem c'' = mem c'.
Proof. intros. split; [by apply vector_entry|by apply vector_exit]. Qed.

(** A core interrupted by the timer, its frame at 0x80001000: the registers
    survive the vector. *)
Definition sample : core := mk_core (Z.of_nat <$> seq 0 32)
  (λ k, match k with Mscratch => 0x80001000 | Mepc => 0x80000100 | Mcause => 2 ^ 63 + 7 | _ => 0 end)
  {[0x80001000 + 520 := 0x80090000]}.

Lemma vector_saves_and_restores_witness :
  let c := run m_trap_vector_entry sample in
  rd_gpr c sp = 0x80090000 ∧ rd_gpr c a2 = 2 ^ 63 + 7 ∧
  gpr (run m_trap_vector_exit c) = gpr sample ∧ csrs (run m_trap_vector_exit c) Mepc = 0x80000100.
Proof.
  destruct (vector_saves_and_restores 0x80001000 sample 0x80001000 (run m_trap_vector_entry sample))
    as [[Hf _ _ Ha Hsp] (Hg & Hpc & _)].
  - split; reflexivity.
  - split; discriminate.
  - reflexivity.
  - split; reflexivity.
  - split; discriminate.
  - vm_compute. reflexivity.
  - split; [exact Hsp|]. split; [exact (f_equal (λ l, default 0 (l !! 2%nat)) Ha)|].
    split; [rewrite Hg, Hf; reflexivity|].
    rewrite Hpc. exact (f_equal (λ l, default 0 (l !! 0%nat)) Ha).
Defined.
