(* ===== verification/Words.v ===== *)
(** * Machine words

    The integers of the model are unbounded, those of the kernel are 64 bits
    wide.  What the [read] call leaves in a register is one of them, whatever
    the disk holds and whatever the block driver answers. *)

From S2P Require Import Prelude Frames Bytes BlockDev Minix3 Trap.

#[local] Open Scope Z_scope.

Definition word (z : Z) : Prop := 0 <= z < 2 ^ 64.

(** Every result of [m] satisfies [P]. *)
Definition yields {S A} (P : A → Prop) (m : M S A) : Prop := ∀ s a s', m s = Done (a, s') → P a.

Section yields.
Context `{Profile} {S : Type}.

Lemma yields_ret {A} (P : A → Prop) a : P a → yields P (mret (M:=M S) a).
Proof. by intros Ha s b s' [= <- <-]. Qed.
Lemma yields_none {A} (P : A → Prop) (m : M S A) : (∀ s r, m s ≠ Done r) → yields P m.
Proof. intros Hm s a s' E. by destruct (Hm s (a, s')). Qed.
Lemma yields_bind {A B} (P : A → Prop) (Q : B → Prop) (m : M S A) (f : A → M S B) :
  yields P m → (∀ a, P a → yields Q (f a)) → yields Q (m ≫= f).
Proof. intros Hm Hf s b s' E. apply bind_done_inv in E as (a & s1 & E1 & E2). eapply Hf; [|done]. by eapply Hm. Qed.
Lemma yields_then {A B} (Q : B → Prop) (m : M S A) (f : A → M S B) :
  (∀ a, yields Q (f a)) → yields Q (m ≫= f).
Proof. intros Hf. by apply (yields_bind (λ _, True)). Qed.
Lemma yields_if {A} (P : A → Prop) (b : bool) (m m' : M S A) :
  yields P m → yields P m' → yields P (if b then m else m').
Proof. by destruct b. Qed.
Lemma yields_checked z : yields word (checked (S:=S) 64 z).
Proof.
  intros s v s' E. apply checked_mod in E as [-> _]. unfold word. apply Z.mod_pos_bound. lia.
Qed.
End yields.

Section read.
Context `{Profile} {St : Type} `{FrameAllocator St} `{!BlockReader St}.

Definition fits (c : cursor) : Prop := word (written c).
Definition flow_fits (f : flow) : Prop := match f with Go c | Stop c | Fail _ c => fits c end.
Abbreviation sound := (yields (S:=St) flow_fits).

Lemma advance_fits n c : fits c → yields (S:=St) fits (advance n c).
Proof. intros Hc. apply yields_then. intros l. by apply yields_ret. Qed.

Lemma flow_then_fits (m : M St flow) k : sound m → (∀ c, fits c → sound (k c)) → sound (flow_then m k).
Proof.
  intros Hm Hk. eapply yields_bind; [exact Hm|]. intros [c|c|e c] Hc; [by apply Hk|by apply yields_ret..].
Qed.

Lemma copy_zone_fits fs e b z c : fits c → sound (copy_zone fs e b z c).
Proof.
  intros Hc. unfold copy_zone. apply yields_if.
  - apply yields_then. intros v. apply yields_ret. by destruct (_ <? _).
  - apply yields_then. intros l. apply yields_if; [by apply yields_ret|].
    apply yields_then. intros ok. apply yields_if; [by apply yields_ret|].
    do 4 (apply yields_then; intros ?). eapply yields_bind; [apply yields_checked|]. intros w Hw.
    apply yields_then. intros o. apply yields_ret. by destruct (_ <? _).
Qed.

Lemma zone_loop_fits fs e b get idx : ∀ c, fits c → sound (zone_loop fs e b get idx c).
Proof.
  induction idx as [|i idx IH]; intros c Hc; cbn [zone_loop]; [by apply yields_ret|].
  apply yields_if; [by apply yields_ret|]. apply yields_then. intros z.
  apply flow_then_fits; [by apply copy_zone_fits|]. intros c' Hc'.
  eapply yields_bind; [by apply advance_fits|]. auto.
Qed.

Lemma fetch_fits fs z b c k : fits c → sound k → sound (fetch fs z b c k).
Proof. intros Hc Hk. apply yields_then. intros [u|er]; [done|by apply yields_ret]. Qed.

Lemma table_loop_fits fs e buf sub sp brk inner idx :
  (∀ c, fits c → sound (inner c)) → ∀ c, fits c → sound (table_loop fs e buf sub sp brk inner idx c).
Proof.
  intros Hi. induction idx as [|i idx IH]; intros c Hc; cbn [table_loop]; [by apply yields_ret|].
  apply yields_then. intros z. apply yields_if.
  - eapply yields_bind; [by apply advance_fits|]. intros c' Hc'. apply yields_if; [by apply yields_ret|auto].
  - apply flow_then_fits; [apply fetch_fits; auto|auto].
Qed.

Lemma read_zones_fits fs node e b i d t c : fits c → sound (read_zones fs node e b i d t c).
Proof.
  assert (Hz : ∀ buf c, fits c → sound (zone_table fs e b buf c)) by (intros; by apply zone_loop_fits).
  assert (Hd : ∀ brk c, fits c → sound (double_table fs e b brk d i c))
    by (intros; apply table_loop_fits; auto).
  intros Hc. apply flow_then_fits; [by apply zone_loop_fits|]. intros c1 H1.
  apply flow_then_fits; [|intros c2 H2; apply flow_then_fits; [|intros c3 H3]];
    (apply yields_then; intros z; apply yields_if).
  - by apply fetch_fits; auto.
  - eapply yields_bind; [by apply advance_fits|]. intros. by apply yields_ret.
  - by apply fetch_fits; auto.
  - by apply yields_ret.
  - apply fetch_fits; [done|]. apply table_loop_fits; auto.
  - by apply yields_ret.
Qed.

Definition count_fits (r : result Z FsError * list Z) : Prop := ∀ n, r.1 = Ok n → word n.

Lemma with_buffer_yields {A} (P : A → Prop) n oom body :
  P oom → (∀ b, yields P (body b)) → yields P (with_buffer (St:=St) n oom body).
Proof.
  intros Ho Hb. apply yields_then. intros [p|]; [|by apply yields_ret].
  eapply yields_bind; [apply Hb|]. intros a Ha. apply yields_then. intros _. by apply yields_ret.
Qed.

Lemma read_file_fits fs node off out : yields count_fits (read_file (St:=St) fs node off out).
Proof.
  assert (Hzero : count_fits (Ok 0, out)) by (by intros n [= <-]).
  unfold read_file. do 2 (apply yields_if; [by apply yields_ret|]).
  do 4 (apply with_buffer_yields; [done|intros ?]).
  eapply yields_bind; [by apply read_zones_fits|]. intros [c|c|e c] Hc; apply yields_ret; by intros n [= <-].
Qed.

(** The count [read] returns. *)
Lemma sys_read_word d i b n o : yields word (sys_read (St:=St) d i b n o).
Proof.
  apply yields_then. intros [fs|e]; [|by apply yields_ret].
  apply yields_then. intros [node|e]; [|by apply yields_ret].
  assert (Hs : yields (λ r, ∀ n, r = Ok n → word n) (with_slice b n (read_file fs node o))).
  { unfold with_slice. apply yields_if; [by apply yields_none|]. apply yields_then. intros f.
    eapply yields_bind; [apply read_file_fits|]. intros r Hr. apply yields_then. intros _. by apply yields_ret. }
  eapply yields_bind; [exact Hs|]. intros [m|e] Hm; apply yields_ret; [by apply Hm|done].
Qed.
End read.
