(* ===== verification/Kernel.v ===== *)
(** * The kernel's state

    The page-frame allocator beside the statics of the other components:
    the VirtIO tables and the machine behind the MMIO registers, the process
    table, and the hart's registers and trap statics.  Printing reaches the
    UART among the devices.  The instances connect every component to its
    part; the components do not interfere with the allocator
    ([Frames.beside_apart]) or with one another (the projections below). *)

From Stdlib Require Import String.
From S2P Require Import Prelude Fmt Frames BlockDev PageFrame Virtio VirtioRead VirtioBus Hart Process Uart Console.

#[local] Open Scope Z_scope.

Record rest (T : Type) : Type := mk_rest {
  k_virtio : virtio T; k_table : table; k_hart : hart }.
Arguments mk_rest {T}.
Arguments k_virtio {T}.
Arguments k_table {T}.
Arguments k_hart {T}.

Section lenses.
Context {T : Type}.

#[export] Instance virtio_lens : Lens (rest T) (virtio T) := {|
  view := k_virtio; put v r := mk_rest v (k_table r) (k_hart r) |}.
#[export] Instance virtio_lens_laws : LensLaws (rest T) (virtio T).
Proof. by split; [| |intros []]. Qed.

#[export] Instance table_lens : Lens (rest T) table := {|
  view := k_table; put t r := mk_rest (k_virtio r) t (k_hart r) |}.
#[export] Instance table_lens_laws : LensLaws (rest T) table.
Proof. by split; [| |intros []]. Qed.

#[export] Instance hart_lens : Lens (rest T) hart := {|
  view := k_hart; put c r := mk_rest (k_virtio r) (k_table r) c |}.
#[export] Instance hart_lens_laws : LensLaws (rest T) hart.
Proof. by split; [| |intros []]. Qed.
End lenses.

Definition kernel (T : Type) : Type := frames * rest T.

(** The fuel of the console's busy-wait: how often [Uart::put] looks at the
    line status before the model counts it as spinning for ever. *)
Class Spins : Type := { spins : nat }.

(** [print!]: the rendered text goes byte by byte to the UART. *)
#[export] Instance kernel_console `{Profile} {T} `{Host T} `{Spins} : Console (kernel T) := {|
  print := console_print spins |}.

(** A machine on which printing returns: its UART answers as documented, and
    the wait is given more looks than it ever needs. *)
Class ConsoleReady (T : Type) `{Host T} `{!UartHost T} `{Spins} : Prop := {
  cr_uart :: UartReady T;
  cr_spins : (ua_latency < spins)%nat }.

Definition prints (T : Type) `{Host T} `{Spins} : Prop := ∃ U : UartHost T, ConsoleReady T.

(** Other devices behind the registers, everything else the same. *)
Definition with_bus {T} (t : T) (s : kernel T) : kernel T :=
  (s.1, mk_rest (mk_virtio (BLOCK_DEVICES (k_virtio s.2)) (VIRTIO_DEVICES (k_virtio s.2))
    (ACCESS_FAULT_SEEN (k_virtio s.2)) t) (k_table s.2) (k_hart s.2)).

Section console.
Context `{Profile} {T : Type} `{Host T} `{!UartHost T} `{Spins} `{!ConsoleReady T}.

(** Printing transmits the text and talks to nothing but the UART. *)
Lemma print_runs f args (s : kernel T) :
  ∃ t', print f args s = Done (tt, with_bus t' s) ∧ talked (host (k_virtio s.2)) t' ∧
    ua_sent t' = ua_sent (host (k_virtio s.2)) ++ render f args.
Proof.
  destruct (write_str_run (St:=kernel T) (T:=T) spins cr_spins (render f args) s (ur_bounded _))
    as (t' & s' & E & Hs & Ho & _ & Hk).
  exists t'. split; [|done]. etrans; [exact E|]. by rewrite Hs.
Qed.

#[export] Instance kernel_console_laws `{Linker.Linker} `{!HeapOk} : ConsoleLaws (kernel T) T.
Proof.
  split. intros f args s. destruct (print_runs f args s) as (t' & E & _).
  eexists. split; [exact E|]. by split_and!.
Qed.
End console.

(** Whatever the UART does, printing reaches only the devices and the
    access-fault flag. *)
Definition aside {T} (s : kernel T) : frames * table * hart := (s.1, k_table s.2, k_hart s.2).

Lemma print_aside `{Profile} {T} `{Host T} `{Spins} f args (s : kernel T) u s' :
  print f args s = Done (u, s') → aside s' = aside s.
Proof.
  assert (Hr : ∀ a (s : kernel T) v s', read_volatile (T:=T) a s = Done (v, s') → aside s' = aside s).
  { intros a s1 v s2. unfold read_volatile, vget. rewrite bind_get.
    destruct (host_read a _) as [[?|] t]; by intros [= _ <-]. }
  assert (Hw : ∀ a x (s : kernel T) v s', write_volatile (T:=T) a x s = Done (v, s') → aside s' = aside s).
  { intros a x s1 v s2. unfold write_volatile, vget. rewrite bind_get.
    destruct (host_write a x _) as [t|]; by intros [= _ <-]. }
  assert (Hp : ∀ n b (s : kernel T) v s', uart_put (T:=T) n UART_BASE b s = Done (v, s') → aside s' = aside s).
  { induction n as [|n IH]; intros b s1 v s2 E; [done|]. cbn [uart_put] in E.
    apply bind_done_inv in E as (l & s3 & E3 & E). apply Hr in E3 as <-.
    destruct (_ =? 0); [by eapply IH|by eapply Hw]. }
  change (write_str (T:=T) spins UART_BASE (render f args) s = Done (u, s') → aside s' = aside s).
  unfold write_str. generalize (render f args). intros l. revert s.
  induction l as [|b l IH]; intros s E; [by injection E as _ <-|]. cbn [for_each] in E.
  apply bind_done_inv in E as (v & s1 & E1 & E). apply Hp in E1 as <-. by apply IH.
Qed.
#[global] Opaque console_print.

(** Statics before [kinit]. *)
Definition kernel_reset {T} (f : frames) (t : T) : kernel T :=
  (f, mk_rest (virtio_init t) table_init hart_reset).
