(* ===== verification/Ramdisk.v ===== *)
(** * A concrete machine: a VirtIO block device and a serial port

    An instance of the device contracts [DiskHost], [DiskSetup] and
    [UartHost]: one disk in slot 0, an image and the bytes written over it,
    set up through its registers and serving each request a fixed number of
    ticks after the notification; and a UART that is busy for one look at its
    status after each byte.  It shows that the contracts can be met and lets
    whole reads, writes and messages be executed. *)

From S2P Require Import Prelude Frames Bytes Virtio VirtioProps VirtioQueue VirtioSetup Uart Console Kernel.

(** ** The serial port *)

Record port : Type := mk_port { port_sent : list Z; port_wait : bool }.

Definition port_read (a : Z) (u : port) : option Z * port :=
  if a =? UART_BASE + LSR
  then (Some (if port_wait u then 0 else LSR_THR_EMPTY), mk_port (port_sent u) false)
  else (if (UART_BASE <=? a) && (a <? UART_BASE + 8) then Some 0 else None, u).

(** A byte written while the transmitter is busy is lost. *)
Definition port_write (a x : Z) (u : port) : option port :=
  if a =? UART_BASE + RBR_THR
  then Some (if port_wait u then u else mk_port (port_sent u ++ [x]) true)
  else if (UART_BASE <=? a) && (a <? UART_BASE + 8) then Some u else None.

(** ** The disk *)

Section ramdisk.
Context (img : Z → Z) (sectors : Z) (delay : nat).

Record ramdisk : Type := mk_ramdisk {
  rd_store : gmap Z Z; rd_status : Z; rd_regs : gmap Z Z; rd_queue : option (Z * Z); rd_work : option nat;
  rd_port : port }.

(** After a reset of the disk: what was written stays. *)
Definition rd_fresh (store : gmap Z Z) (u : port) : ramdisk := mk_ramdisk store 0 ∅ None None u.

Definition with_port (u : port) (t : ramdisk) : ramdisk :=
  mk_ramdisk (rd_store t) (rd_status t) (rd_regs t) (rd_queue t) (rd_work t) u.

Definition image (t : ramdisk) (a : Z) : Z := default (img a) (rd_store t !! a) mod 256.

Lemma image_byteful t : byteful (image t).
Proof. intros a. apply Z.mod_pos_bound. lia. Qed.

Definition sector_ok (sector size : Z) : bool := sector * 512 + size <=? sectors * 512.

(** Entry [i] of the available ring: the chain's descriptors. *)
Definition entry_head (base i : Z) (f : Z → Z) : Z :=
  u16_at f (avail_ring_addr (avail_of base) (i mod 8)).
Definition entry_descs (base i : Z) (f : Z → Z) : Descriptor * Descriptor * Descriptor :=
  let d0 := desc_at f base (Z.to_nat (entry_head base i f)) in
  let d1 := desc_at f base (Z.to_nat (d_next d0)) in
  let d2 := desc_at f base (Z.to_nat (d_next d1)) in
  (d0, d1, d2).

(** Sector, data descriptor, direction and outcome of an entry. *)
Definition entry_write (base i : Z) (f : Z → Z) : bool :=
  let '(d0, _, _) := entry_descs base i f in u32_at f (d_addr d0) =? VIRTIO_BLK_T_OUT.
Definition entry_sector (base i : Z) (f : Z → Z) : Z :=
  let '(d0, _, _) := entry_descs base i f in u64_at f (d_addr d0 + 8).
Definition entry_ok (base i : Z) (f : Z → Z) : bool :=
  let '(_, d1, _) := entry_descs base i f in sector_ok (entry_sector base i f) (d_len d1).

(** Transfer the data of a read and write the status byte. *)
Definition transfer (t : ramdisk) (base i : Z) (m : gmap Z Z) : gmap Z Z :=
  let f := byte_at m in
  let '(d0, d1, d2) := entry_descs base i f in
  let ok := entry_ok base i f in
  let m := if ok && negb (entry_write base i f)
    then copy_bytes (Z.to_nat (d_len d1)) (d_addr d1) (image t) (entry_sector base i f * 512) m else m in
  put_byte (d_addr d2) (if ok then 0 else 1) m.

(** Take the data of a write. *)
Fixpoint overlay (n : nat) (from : Z) (f : Z → Z) (src : Z) (store : gmap Z Z) : gmap Z Z :=
  match n with
  | O => store
  | S n' => <[from + Z.of_nat n' := f (src + Z.of_nat n')]> (overlay n' from f src store)
  end.
Definition absorb (t : ramdisk) (base i : Z) (f : Z → Z) : gmap Z Z :=
  let '(_, d1, _) := entry_descs base i f in
  if entry_ok base i f && entry_write base i f
  then overlay (Z.to_nat (d_len d1)) (entry_sector base i f * 512) f (d_addr d1) (rd_store t)
  else rd_store t.

(** Publish the entry in the used ring. *)
Definition push_used (base i : Z) (m : gmap Z Z) : gmap Z Z :=
  let f := byte_at m in
  let '(d0, d1, d2) := entry_descs base i f in
  put_le 2 (used_idx_addr (used_of base)) (next16 i)
    (put_le 8 (used_elem_addr (used_of base) (i mod 8))
       (entry_head base i f + d_len d1 * 2 ^ 32) m).

(** The queue the registers describe. *)
Definition rd_reg (t : ramdisk) (o : MmioOffsets) : Z := default 0 (rd_regs t !! val o).
Definition rd_described (t : ramdisk) : option (Z * Z) :=
  Some (rd_reg t QueuePfn * rd_reg t GuestPageSize, 0).

(** The slot and the register offset of an address, if it is slot 0. *)
Definition slot0_reg (a : Z) : option Z :=
  if (MMIO_VIRTIO_START <=? a) && (a <? MMIO_VIRTIO_START + MMIO_VIRTIO_STRIDE)
  then Some (a - MMIO_VIRTIO_START) else None.

Definition rd_read (a : Z) (t : ramdisk) : option Z * ramdisk :=
  match slot0_reg a with
  | None => let '(r, u) := port_read a (rd_port t) in (r, with_port u t)
  | Some o => (Some (
      if o =? val MagicValue then MMIO_VIRTIO_MAGIC
      else if o =? val DeviceId then VIRTIO_DEVICE_BLOCK
      else if o =? val QueueNumMax then 1024
      else if o =? val Status then rd_status t
      else if o =? val InterruptStatus then 1 else 0), t)
  end.

Definition rd_write (a x : Z) (t : ramdisk) : option ramdisk :=
  match slot0_reg a with
  | None => (λ u, with_port u t) <$> port_write a x (rd_port t)
  | Some o => Some (
      if o =? val Status then
        if x =? 0 then rd_fresh (rd_store t) (rd_port t)
        else mk_ramdisk (rd_store t) x (rd_regs t)
          (match rd_queue t with
           | Some q => Some q
           | None => if Z.land x VIRTIO_DRIVER_OK =? 0 then None else rd_described t
           end) (rd_work t) (rd_port t)
      else mk_ramdisk (rd_store t) (rd_status t) (<[o := x]> (rd_regs t)) (rd_queue t)
             (if o =? val QueueNotify then Some delay else rd_work t) (rd_port t))
  end.

Definition rd_tick (t : ramdisk) (m : gmap Z Z) : ramdisk * gmap Z Z :=
  match rd_work t, rd_queue t with
  | Some (S n), _ => (mk_ramdisk (rd_store t) (rd_status t) (rd_regs t) (rd_queue t) (Some n) (rd_port t), m)
  | Some O, Some (base, i) =>
      (mk_ramdisk (absorb t base i (byte_at m)) (rd_status t) (rd_regs t) (Some (base, next16 i)) None
         (rd_port t),
       push_used base i (transfer t base i m))
  | _, _ => (mk_ramdisk (rd_store t) (rd_status t) (rd_regs t) (rd_queue t) None (rd_port t), m)
  end.

#[export] Instance rd_host : Host ramdisk := {|
  host_read := rd_read; host_write := rd_write; host_tick := rd_tick |}.

(** The chain of a published request, as the device reads it. *)
Lemma entry_of_request f base i r :
  request_at f base i r →
  entry_head base i f = Z.of_nat (head_of (rq_chain r)) ∧
  ∃ d0 d1 d2, entry_descs base i f = (d0, d1, d2) ∧ d_addr d0 = rq_header r ∧
    d_addr d1 = rq_buf r ∧ d_len d1 = rq_size r ∧ d_addr d2 = rq_status r.
Proof.
  unfold request_at, entry_descs, entry_head. destruct (rq_chain r) as [[a b] e].
  intros (_ & _ & Hh & Ha & Hb & He & _ & _ & _). rewrite Hh, Nat2Z.id. split; [done|].
  rewrite Ha. cbn [d_next]. rewrite Nat2Z.id, Hb. cbn [d_next]. rewrite Nat2Z.id, He.
  eexists _, _, _. split_and!; done.
Qed.

Lemma rq_size_nonneg f base i r : byteful f → request_at f base i r → 0 <= rq_size r < 2 ^ 32.
Proof.
  intros Hf. unfold request_at. destruct (rq_chain r) as [[a b] e].
  intros (_ & _ & _ & _ & Hb & _). apply (f_equal d_len) in Hb. cbn in Hb.
  rewrite <- Hb. by apply u32_range.
Qed.

Lemma entry_fields f base i r :
  request_at f base i r →
  entry_write base i f = rq_write r ∧ entry_sector base i f = rq_sector r ∧
  entry_ok base i f = sector_ok (rq_sector r) (rq_size r).
Proof.
  intros Hr. destruct (entry_of_request _ _ _ _ Hr) as (_ & d0 & d1 & d2 & Ed & H0 & H1 & H2 & H3).
  assert (Hh : u32_at f (rq_header r) = request_type (rq_write r) ∧
               u64_at f (rq_header r + 8) = rq_sector r).
  { unfold request_at in Hr. destruct (rq_chain r) as [[??]?]. tauto. }
  destruct Hh as [Hty Hsec].
  unfold entry_ok, entry_write, entry_sector. rewrite Ed, H0, H2, Hty, Hsec.
  by destruct (rq_write r).
Qed.

(** What [transfer] writes. *)
Lemma transfer_spec t base i r m :
  request_at (byte_at m) base i r →
  let ok := sector_ok (rq_sector r) (rq_size r) in
  ∀ x, byte_at (transfer t base i m) x =
    if decide (x = rq_status r) then if ok then 0 else 1
    else if decide (ok = true ∧ rq_write r = false ∧ rq_buf r <= x < rq_buf r + rq_size r)
    then image t (rq_sector r * 512 + (x - rq_buf r)) else byte_at m x.
Proof.
  intros Hr ok x. pose proof (rq_size_nonneg _ _ _ _ (byte_at_byteful m) Hr) as Hsz.
  destruct (entry_of_request _ _ _ _ Hr) as (_ & d0 & d1 & d2 & Ed & H0 & H1 & H2 & H3).
  destruct (entry_fields _ _ _ _ Hr) as (Hw & Hsec & Hok).
  unfold transfer. rewrite Ed, H1, H2, H3, Hw, Hsec, Hok. fold ok.
  rewrite byte_at_put_byte by (destruct ok; lia).
  destruct (decide (rq_status r = x)) as [->|Hne]; [by rewrite decide_True|].
  rewrite (decide_False (P := x = rq_status r)) by congruence.
  destruct ok, (rq_write r); cbn [andb negb]; try (rewrite decide_False; [done|intros (? & ? & _); done]).
  rewrite byte_at_copy_bytes by apply image_byteful. rewrite Z2Nat.id by lia.
  repeat case_decide; try done; tauto.
Qed.

(** What the disk holds afterwards. *)
Lemma overlay_lookup n from f src store a :
  overlay n from f src store !! a =
  if decide (from <= a < from + Z.of_nat n) then Some (f (src + (a - from))) else store !! a.
Proof.
  induction n as [|n IH]; cbn [overlay]; [by rewrite decide_False by lia|].
  destruct (decide (a = from + Z.of_nat n)) as [->|Hne].
  - rewrite lookup_insert_eq, decide_True by lia. do 2 f_equal. lia.
  - rewrite lookup_insert_ne, IH by done. repeat case_decide; done || lia.
Qed.

Lemma absorb_spec t base i r m a t' :
  request_at (byte_at m) base i r → rd_store t' = absorb t base i (byte_at m) →
  image t' a = stored 0 r (sector_ok (rq_sector r) (rq_size r)) (byte_at m) (λ _, image t) 0%nat a.
Proof.
  intros Hr Ht'. pose proof (rq_size_nonneg _ _ _ _ (byte_at_byteful m) Hr) as Hsz.
  destruct (entry_of_request _ _ _ _ Hr) as (_ & d0 & d1 & d2 & Ed & H0 & H1 & H2 & H3).
  destruct (entry_fields _ _ _ _ Hr) as (Hw & Hsec & Hok).
  unfold image, absorb, stored in *. rewrite Ht', Ed, H1, H2, Hw, Hsec, Hok.
  destruct (sector_ok _ _), (rq_write r); cbn [andb];
    try (rewrite decide_False; [done|intros (_ & ? & ? & _); done]).
  rewrite overlay_lookup, Z2Nat.id by lia. repeat case_decide; destruct_and?; try done; try tauto.
  apply Z.mod_small, byte_at_byteful.
Qed.

Lemma entry_ext f g base i r :
  request_at f base i r → (∀ x, base <= x < base + QUEUE_BYTES → g x = f x) →
  entry_head base i g = entry_head base i f ∧ entry_descs base i g = entry_descs base i f.
Proof.
  intros Hr Hfg. pose proof Hfg as Hb. unfold QUEUE_BYTES in Hb. rewrite PAGE_SIZE_val in Hb.
  assert (Hh : entry_head base i g = entry_head base i f).
  { unfold entry_head, u16_at, avail_ring_addr. change (avail_of base) with (base + 128).
    apply le_ext. intros j Hj. apply Hb. pose proof (Z.mod_pos_bound i 8). lia. }
  split; [done|]. unfold entry_descs. rewrite Hh.
  unfold request_at, entry_head in *. destruct (rq_chain r) as [[a b] e].
  destruct Hr as ((Ha & Hb' & He) & _ & Hhd & Hda & Hdb & Hde & _).
  rewrite Hhd, Nat2Z.id, (desc_at_ext f g), Hda by done. cbn [d_next].
  rewrite Nat2Z.id, (desc_at_ext f g), Hdb by done. cbn [d_next].
  by rewrite Nat2Z.id, (desc_at_ext f g), Hde by done.
Qed.

Lemma serve_ok t base i r m :
  request_at (byte_at m) base i r →
  served (image t) (sector_ok (rq_sector r) (rq_size r)) base i r
    (byte_at m) (byte_at (push_used base i (transfer t base i m))).
Proof.
  intros Hr. pose proof (rq_size_nonneg _ _ _ _ (byte_at_byteful m) Hr) as Hsz.
  pose proof (transfer_spec t base i r m Hr) as Ht. cbv zeta in Ht.
  assert (Hsep : separate base r) by (unfold request_at in Hr;
    destruct (rq_chain r) as [[??]?]; tauto). destruct Hsep as [Hs1 Hs2].
  unfold outside, QUEUE_BYTES in Hs1, Hs2. rewrite PAGE_SIZE_val in Hs1, Hs2.
  assert (Hbuf : ∀ x, base <= x < base + 8192 → ¬ (rq_buf r <= x < rq_buf r + rq_size r)).
  { intros x Hx Hin. destruct (Hs1 (x - rq_buf r)) as [[?|?] _]; lia. }
  assert (Hq : ∀ x, base <= x < base + QUEUE_BYTES → byte_at (transfer t base i m) x = byte_at m x).
  { unfold QUEUE_BYTES. rewrite PAGE_SIZE_val. intros x Hx. rewrite Ht.
    rewrite decide_False by lia. rewrite decide_False; [done|]. intros (_ & _ & ?). by apply (Hbuf x). }
  destruct (entry_ext _ _ _ _ _ Hr Hq) as [Hh Hd].
  destruct (entry_of_request _ _ _ _ Hr) as (Eh & d0 & d1 & d2 & Ed & H0 & H1 & H2 & H3).
  unfold push_used. rewrite Hd, Ed, Hh, Eh, H2. set (m1 := transfer t base i m) in *.
  pose proof (Z.mod_pos_bound i 8 ltac:(lia)) as Him.
  assert (Hframe : ∀ x, outside (used_elem_addr (used_of base) (i mod 8)) 8 x →
    outside (used_idx_addr (used_of base)) 2 x →
    byte_at (put_le 2 (used_idx_addr (used_of base)) (next16 i)
      (put_le 8 (used_elem_addr (used_of base) (i mod 8))
         (Z.of_nat (head_of (rq_chain r)) + rq_size r * 2 ^ 32) m1)) x = byte_at m1 x).
  { intros x Hx1 Hx2. unfold outside in *. by rewrite !byte_at_put_le, !decide_False by lia. }
  unfold used_elem_addr, used_idx_addr, outside in *.
  change (used_of base) with (base + 4096) in *. split.
  - intros Hok Hw j Hj. destruct (Hs1 j Hj) as [Ho Hne]. rewrite Hframe by lia.
    rewrite Ht, decide_False by done. rewrite decide_True by (split_and!; done || lia). f_equal. lia.
  - rewrite Hframe by lia. by rewrite Ht, decide_True.
  - change (used_elem_addr (used_of base) (i mod 8)) with (base + 4096 + 4 + 8 * (i mod 8)).
    unfold u32_at. rewrite le_put_le_ne by lia.
    rewrite (le_ext 4 _ (byte_at (put_le 4 (base + 4096 + 4 + 8 * (i mod 8))
      (Z.of_nat (head_of (rq_chain r))) m1)) _ (base + 4096 + 4 + 8 * (i mod 8))).
    2: { intros j Hj. rewrite !byte_at_put_le, !decide_True by lia.
         replace (base + 4096 + 4 + 8 * (i mod 8) + j - (base + 4096 + 4 + 8 * (i mod 8))) with j by lia.
         assert (Hj' : j = 0 ∨ j = 1 ∨ j = 2 ∨ j = 3) by lia.
         destruct Hj' as [->|[->|[-> | ->]]]; cbn [Z.pow Z.pow_pos Pos.iter Z.mul Pos.mul]; dlia. }
    rewrite le_put_le. apply Z.mod_small.
    assert ((head_of (rq_chain r) < 8)%nat); [|lia].
    unfold request_at in Hr. destruct (rq_chain r) as [[??]?]. cbn. lia.
  - unfold u16_at, used_idx_addr. change (used_of base) with (base + 4096).
    rewrite le_put_le. apply Z.mod_small. unfold next16. apply Z.mod_pos_bound. lia.
  - intros x Hx1 Hx2 Hx3 Hx4. unfold outside, used_elem_addr, used_idx_addr in *.
    change (used_of base) with (base + 4096) in *.
    rewrite Hframe by lia. rewrite Ht, decide_False by done. rewrite decide_False; [done|].
    intros (_ & Hw & ?). destruct (Hx1 Hw); lia.
Qed.

Lemma slot0_notify : slot0_reg (reg (slot_addr 0) QueueNotify) = Some (val QueueNotify).
Proof. reflexivity. Qed.

#[export] Program Instance rd_disk : DiskHost ramdisk := {|
  hd_disk t k := if (k =? 0)%nat then image t else λ _, 0;
  hd_ok _ := sector_ok;
  hd_queue t k := if (k =? 0)%nat then rd_queue t else None;
  hd_busy t := pair 0%nat <$> rd_work t;
  hd_latency := delay |}.
Next Obligation. intros t [|slot]; [apply image_byteful|]. intros a. cbn. lia. Qed.
Next Obligation.
  intros t slot base i Hb Hq. destruct slot as [|slot]; [|done].
  eexists _, delay. split; [reflexivity|]. by split_and!.
Qed.
Next Obligation.
  intros [by_ st rg q w u] m Hb. destruct w as [n|]; [done|]. eexists. by split_and!.
Qed.
Next Obligation.
  intros [by_ st rg q w u] m slot n Hb. destruct w as [k|]; [|done]. cbn in Hb. injection Hb as <- ->.
  eexists. by split_and!.
Qed.
Next Obligation.
  intros [by_ st rg q w u] m slot base i r Hb Hq Hr. destruct w as [k|]; [|done].
  cbn in Hb. injection Hb as <- ->. cbn in Hq. subst q.
  eexists _, _. split; [reflexivity|]. split_and!; try done.
  - by intros [|k] Hk.
  - intros [|k] a; [|done]. refine (absorb_spec (mk_ramdisk by_ st rg (Some (base, i)) (Some 0%nat) u) base i r m a _ Hr _); reflexivity.
  - by apply serve_ok.
Qed.

(** The handshake. *)
#[export] Instance rd_setup_regs : SetupRegs ramdisk := {|
  hd_present k := (k =? 0)%nat;
  hd_reg t k o := if (k =? 0)%nat then rd_reg t o else 0 |}.

Lemma slot0_reg_of o : slot0_reg (reg (slot_addr 0) o) = Some (val o).
Proof. by destruct o. Qed.

Lemma val_inj o o' : val o = val o' → o = o'.
Proof. by destruct o, o'. Qed.

#[export] Instance rd_setup : DiskSetup ramdisk.
Proof.
  split.
  - intros a t. cbn. unfold rd_read. destruct (slot0_reg a); [done|]. by destruct (port_read _ _).
  - intros a x t t' Ha. cbn. unfold rd_write, slot0_reg.
    rewrite (proj2 (Z.leb_gt _ _)) by done. cbn [andb]. by destruct (port_write _ _ _); intros [= <-].
  - intros slot o t Hp. cbn. unfold rd_read, slot0_reg. destruct slot as [|slot]; [done|].
    assert (Ho : 0 <= scale32 o) by (by destruct o).
    assert (Ha : MMIO_VIRTIO_START + MMIO_VIRTIO_STRIDE <= reg (slot_addr (S slot)) o)
      by (unfold reg, slot_addr, MMIO_VIRTIO_STRIDE; lia).
    rewrite (proj2 (Z.ltb_ge _ _)), andb_false_r by done.
    unfold MMIO_VIRTIO_START, MMIO_VIRTIO_STRIDE in Ha. unfold port_read, UART_BASE, LSR.
    rewrite (proj2 (Z.eqb_neq _ _)), (proj2 (Z.ltb_ge _ (_ + 8))), andb_false_r by lia. done.
  - intros [|slot] o x t Hp; [|done]. cbn. unfold rd_write. rewrite slot0_reg_of. eexists. split; [reflexivity|].
    split_and!; [by intros [|k]| |].
    2: { intros [|k] a; [|done]. cbn -[val Z.eqb image]. unfold image. by destruct (val o =? val Status), (x =? 0). }
    intros Hb Ho. destruct (rd_work t) eqn:Hw; [done|].
    assert (Hn : (val o =? val QueueNotify) = false) by (apply Z.eqb_neq; intros E; by apply val_inj in E).
    destruct (val o =? val Status); [by destruct (x =? 0)|]. by rewrite Hn.
  - intros [|slot] o x t t' Hp Ho; [|done]. cbn. unfold rd_write. rewrite slot0_reg_of.
    rewrite (proj2 (Z.eqb_neq _ _)) by (intros E; by apply val_inj in E). intros [= <-].
    split; [done|]. intros o'. unfold rd_reg. cbn [rd_regs]. case_decide as Hd; [subst o'; by rewrite lookup_insert_eq|].
    rewrite lookup_insert_ne; [done|]. intros E. by apply val_inj in E.
  - intros [|slot] t t' Hp; [|done]. cbn. unfold rd_write. rewrite slot0_reg_of. by intros [= <-].
  - intros [|slot] x t t' Hp Hx Hok; [|done]. cbn. unfold rd_write. rewrite slot0_reg_of. cbn [val Z.eqb Pos.eqb].
    rewrite (proj2 (Z.eqb_neq _ _)) by done. intros [= <-]. cbn. split; [|done].
    destruct (rd_queue t); [done|]. by rewrite Hok.
  - intros [|slot] x t t' Hp Hok Hq Hsel Hnum Hal Hpfn; [|done]. cbn. unfold rd_write. rewrite slot0_reg_of.
    cbn [val Z.eqb Pos.eqb]. rewrite (proj2 (Z.eqb_neq x 0)) by (by intros ->). intros [= <-]. cbn in *.
    rewrite Hq. by rewrite (proj2 (Z.eqb_neq _ _)).
Qed.

(** Printing works. *)
#[export] Program Instance rd_uart : UartHost ramdisk := {|
  ua_sent t := port_sent (rd_port t);
  ua_busy t := if port_wait (rd_port t) then 1%nat else 0%nat;
  ua_latency := 1 |}.
Next Obligation. intros t. eexists _, _. split; [reflexivity|]. by destruct (port_wait (rd_port t)). Qed.
Next Obligation.
  intros t b Hb. destruct (port_wait (rd_port t)) eqn:Hw; [cbn in Hb; by rewrite Hw in Hb|].
  eexists. split; [reflexivity|]. cbn. rewrite Hw. cbn. split; [done|lia].
Qed.

#[export] Instance rd_ready : UartReady ramdisk.
Proof.
  split.
  - intros t. cbn. destruct (port_wait _); lia.
  - intros o x t Ho. rewrite !elem_of_cons in Ho. destruct_or? Ho; subst; try by eexists.
    by apply not_elem_of_nil in Ho.
Qed.
End ramdisk.

(** The console's wait needs two looks. *)
Definition two_looks : Spins := {| spins := 2 |}.
