(* ===== verification/TrapProps.v ===== *)
(** * Traps preserve the contexts of processes

    The trap vector, the dispatcher and the scheduler together: seen from
    the processes, an interrupt never changes the registers or the PC of any
    of them, only which one is on the CPU. *)

From Stdlib Require Import String.
From S2P Require Import Prelude Fmt Frames Bytes BlockDev Minix3 PageFrame Virtio VirtioQueue VirtioRead Uart Hart Process ProcessProps Console Trap Words Kernel.

#[local] Open Scope Z_scope.

Section contexts.
Context `{Profile} `{Linker.Linker} {T : Type} `{Host T} `{!BlockReader (kernel T)}.
Abbreviation St := (kernel T).

(** What the scheduler and the trap vector read of the state. *)
Definition sched_part (s : St) : table * frame_ptr * TrapFrame * Z :=
  (k_table s.2, mscratch (k_hart s.2), TRAP_FRAME (k_hart s.2), TRAP_STACK_TOP (k_hart s.2)).

(** Code that leaves all of it alone. *)
Definition keeps {A} (m : M St A) : Prop :=
  ∀ s a s', m s = Done (a, s') → sched_part s' = sched_part s.

Lemma keeps_ret {A} (a : A) : keeps (mret a).
Proof. by intros s b s' [= _ <-]. Qed.
Lemma keeps_panic {A} p : keeps (A:=A) (panic p).
Proof. done. Qed.
Lemma keeps_undefined {A} : keeps (A:=A) undefined.
Proof. done. Qed.
Lemma keeps_diverge {A} : keeps (A:=A) diverge.
Proof. done. Qed.
Lemma keeps_gets {A} (f : St → A) : keeps (gets f).
Proof. by intros s b s' [= _ <-]. Qed.
Lemma keeps_get_state {X} `{Lens St X} : keeps (get_state (T:=X)).
Proof. apply keeps_gets. Qed.
Lemma keeps_bind {A B} (m : M St A) (f : A → M St B) :
  keeps m → (∀ a, keeps (f a)) → keeps (m ≫= f).
Proof.
  intros Hm Hf s b s' E. apply bind_done_inv in E as (a & s1 & E1 & E2).
  rewrite (Hf _ _ _ _ E2). by apply (Hm _ _ _ E1).
Qed.
Lemma keeps_index {A} (l : list A) i : keeps (index l i).
Proof. unfold index. destruct (l !! i); [apply keeps_ret|apply keeps_panic]. Qed.
Lemma keeps_checked w z : keeps (checked w z).
Proof.
  unfold checked. destruct (in_width w z); [apply keeps_ret|].
  destruct overflow_checks; [apply keeps_panic|apply keeps_ret].
Qed.
Lemma keeps_set_virtio (v : virtio T) : keeps (set_state v).
Proof. by intros s [] s' [= <-]. Qed.
Lemma keeps_write_mem g : keeps (write_mem g).
Proof. by intros s [] s' [= <-]. Qed.
Lemma keeps_if {A} (b : bool) (m m' : M St A) : keeps m → keeps m' → keeps (if b then m else m').
Proof. by destruct b. Qed.
End contexts.

Create HintDb keeps.
#[export] Hint Resolve keeps_ret keeps_panic keeps_undefined keeps_diverge keeps_gets
  keeps_get_state keeps_index keeps_checked keeps_set_virtio keeps_write_mem : keeps.

Ltac solve_keeps :=
  repeat first
    [ progress intros | solve [auto 1 with keeps] | simple apply keeps_bind | simple apply keeps_if
    | match goal with |- context [match ?e with _ => _ end] => destruct e end ].

Section interrupts.
Context `{Profile} `{Linker.Linker} {T : Type} `{Host T} `{Spins} `{!BlockReader (kernel T)}.
Abbreviation St := (kernel T).

Lemma keeps_read_volatile a : keeps (read_volatile (St:=St) a).
Proof. unfold read_volatile, set_host, set_fault, vget. solve_keeps. Qed.
Lemma keeps_write_volatile a v : keeps (write_volatile (St:=St) a v).
Proof. unfold write_volatile, set_host, set_fault, vget. solve_keeps. Qed.
Lemma keeps_for_each {A} (l : list A) (f : A → M St unit) :
  (∀ x, keeps (f x)) → keeps (for_each l f).
Proof. intros Hf. induction l; cbn; solve_keeps. Qed.
Lemma keeps_print f a : keeps (print (S:=St) f a).
Proof. intros s u s' E. apply print_aside in E. unfold sched_part. by injection E as _ -> ->. Qed.
Lemma keeps_get_dev i : keeps (get_dev (St:=St) i).
Proof. unfold get_dev, vget. solve_keeps. Qed.
Lemma keeps_set_dev i b : keeps (set_dev (St:=St) i b).
Proof. unfold set_dev, vget. solve_keeps. Qed.
Lemma keeps_free_chain fuel d : ∀ i l, keeps (free_chain_loop (St:=St) fuel d i l).
Proof.
  induction fuel as [|fuel IH]; intros i l; cbn [free_chain_loop]; unfold Virtio.memory; solve_keeps.
Qed.
#[local] Hint Resolve keeps_read_volatile keeps_write_volatile keeps_print keeps_get_dev keeps_set_dev
  keeps_free_chain : keeps.

Lemma keeps_pending_loop fuel : ∀ bd, keeps (pending_loop (St:=St) fuel bd).
Proof.
  induction fuel as [|fuel IH]; intros bd; cbn [pending_loop];
    unfold complete_one, free_desc_chain, Virtio.memory; solve_keeps.
Qed.
Lemma keeps_pending_by_irq n : keeps (pending_by_irq (St:=St) n).
Proof.
  unfold pending_by_irq, pending. pose proof keeps_pending_loop. solve_keeps.
Qed.

Lemma keeps_set_esc e : keeps (on_hart (St:=St) (set_esc e)).
Proof. by intros s [] s' [= <-]. Qed.
Lemma keeps_echo_uart : keeps (echo_uart (St:=St)).
Proof.
  pose proof keeps_set_esc. unfold echo_uart, uart_get, uart_read. solve_keeps.
  apply keeps_for_each. solve_keeps.
Qed.

Lemma keeps_handle_external : keeps (handle_external (St:=St)).
Proof.
  unfold handle_external, plic_next, plic_complete.
  pose proof keeps_echo_uart. pose proof keeps_pending_by_irq. solve_keeps.
Qed.
End interrupts.

#[export] Hint Resolve keeps_print : keeps.

(** ** Contexts *)

Definition wf_frame (f : TrapFrame) : Prop := length (regs f) = 32%nat.
Definition wf_cpu (c : cpu) : Prop := length (x c) = 32%nat ∧ x c !! 0%nat = Some 0.

(** The frame [mscratch] points at while slot [o] is on the CPU. *)
Definition ptr_of (o : option nat) : frame_ptr :=
  match o with Some i => SlotFrame i | None => KernelFrame end.

Definition context : Type := list Z * Z.

(** The context saved in a slot. *)
Definition saved_context (t : table) (i : nat) : option context :=
  match slots t !! i with
  | Some (Some p) => Some (load_gps (frame p), pc p)
  | _ => None
  end.

(** The context of the process in slot [i]: on the CPU if it is current,
    else saved. *)
Definition context_of (t : table) (c : cpu) (i : nat) : option context :=
  match slots t !! i with
  | Some (Some p) =>
      Some (if decide (current t = Some i) then (x c, cpc c) else (load_gps (frame p), pc p))
  | _ => None
  end.

Lemma load_save_gps c f : wf_cpu c → wf_frame f → load_gps (save_gps (x c) f) = x c.
Proof.
  intros [Hl H0] Hf. unfold load_gps, save_gps. cbn [regs set_regs].
  rewrite drop_app_ge by (rewrite length_take, Hf; cbn; lia).
  rewrite length_take, Hf. cbn [Nat.min Nat.sub]. rewrite drop_0.
  destruct (x c) as [|r l]; [done|]. cbn in H0. by injection H0 as ->.
Qed.

Lemma save_gps_wf c f : wf_cpu c → wf_frame f → wf_frame (save_gps (x c) f).
Proof.
  intros [Hl _] Hf. unfold wf_frame, save_gps in *. cbn [regs set_regs].
  rewrite length_app, length_take, length_drop. lia.
Qed.

Lemma load_gps_wf f : wf_frame f → length (load_gps f) = 32%nat ∧ load_gps f !! 0%nat = Some 0.
Proof.
  intros Hf. unfold wf_frame, load_gps in *. cbn [length]. rewrite length_drop, Hf. done.
Qed.

(** The process table after the trap vector has stored the registers. *)
Definition store_regs (x : list Z) (t : table) : table :=
  match current t with
  | Some i =>
      match slots t !! i with
      | Some (Some q) =>
          mk_table (<[i := Some (set_frame (save_gps x (frame q)) q)]> (slots t))
            (current t) (NEXT_PID t)
      | _ => t
      end
  | None => t
  end.

Definition frames_wf (t : table) : Prop :=
  ∀ i p, slots t !! i = Some (Some p) → wf_frame (frame p).

Lemma store_regs_lookup l t i q :
  current t = Some i → slots t !! i = Some (Some q) →
  ∀ k, slots (store_regs l t) !! k =
    if decide (k = i) then Some (Some (set_frame (save_gps l (frame q)) q)) else slots t !! k.
Proof.
  intros Hc Hq k. unfold store_regs. rewrite Hc, Hq. cbn [slots].
  case_decide as Hk; [subst k|].
  - apply list_lookup_insert_eq. by eapply lookup_lt_Some.
  - by apply list_lookup_insert_ne.
Qed.

Lemma store_regs_current l t : current (store_regs l t) = current t.
Proof.
  unfold store_regs. destruct (current t) as [i|] eqn:E; [|done].
  by destruct (slots t !! i) as [[?|]|].
Qed.

Lemma store_regs_runnable l t i : runnable (store_regs l t) i ↔ runnable t i.
Proof.
  unfold store_regs. destruct (current t) as [j|]; [|done].
  destruct (slots t !! j) as [[q|]|] eqn:Hq; try done. unfold runnable. cbn [slots].
  destruct (decide (j = i)) as [->|]; [|by rewrite list_lookup_insert_ne].
  rewrite list_lookup_insert_eq by (by eapply lookup_lt_Some). by rewrite Hq.
Qed.

Lemma store_regs_wf l t : wf_table t → wf_table (store_regs l t).
Proof.
  intros Hwf. split.
  - unfold store_regs. destruct (current t) as [i|]; [|apply Hwf].
    destruct (slots t !! i) as [[q|]|]; try apply Hwf. cbn. rewrite length_insert. apply Hwf.
  - intros i. rewrite store_regs_current. intros Hi. apply store_regs_runnable. by apply Hwf.
  - unfold store_regs. destruct (current t) as [i|]; [|apply Hwf].
    destruct (slots t !! i) as [[q|]|]; apply Hwf.
Qed.

(** Once the scheduler has stashed the PC, every context is saved. *)
Lemma schedule_saves_contexts t c i :
  wf_table t → wf_cpu c → frames_wf t →
  saved_context (schedule_table (cpc c) (store_regs (x c) t)).2 i = context_of t c i.
Proof.
  intros Hwf Hcpu Hfr. set (t1 := store_regs (x c) t).
  assert (Hs : slots (schedule_table (cpc c) t1).2 = save_pc (cpc c) t1)
    by (unfold schedule_table; by destruct (pick _ _) as [[??]|]).
  unfold saved_context. rewrite Hs, save_pc_lookup.
  assert (Hd : current t1 = Some i ∧ runnable t1 i ↔ current t = Some i).
  { unfold t1. rewrite store_regs_current, store_regs_runnable. split; [tauto|].
    intros Hc. split; [done|]. by apply (wf_cur _ Hwf). }
  unfold context_of. destruct (decide (current t = Some i)) as [Hc|Hc].
  - rewrite decide_True by tauto.
    destruct (proj1 (runnable_lookup _ _) (wf_cur _ Hwf i Hc)) as (q & Hq & _).
    unfold t1. rewrite (store_regs_lookup (x c) t i q Hc Hq i), decide_True, Hq by done.
    cbn. by rewrite load_save_gps by (done || by eapply Hfr).
  - rewrite decide_False by tauto. unfold t1, store_regs.
    destruct (current t) as [j|] eqn:Hj; [|done].
    destruct (slots t !! j) as [[q|]|] eqn:Hq; try done. cbn [slots].
    rewrite list_lookup_insert_ne; [done|]. congruence.
Qed.

Section vector.
Context `{Profile} `{Linker.Linker} {T : Type} `{Host T} `{Spins} `{!BlockReader (kernel T)}.
Abbreviation St := (kernel T).

(** Between traps: [mscratch] points at the frame of the current process, or
    at the kernel's own frame while the CPU idles. *)
Record sched_inv (s : St) : Prop := {
  sc_table : wf_table (k_table s.2);
  sc_ptr : mscratch (k_hart s.2) = ptr_of (current (k_table s.2));
  sc_kframe : wf_frame (TRAP_FRAME (k_hart s.2));
  sc_frames : frames_wf (k_table s.2) }.

(** The state once the vector has stored the registers. *)
Definition entered (c : cpu) (s : St) : St :=
  (s.1, mk_rest (k_virtio s.2) (store_regs (x c) (k_table s.2))
    (match current (k_table s.2) with
     | None => set_kernel_frame (save_gps (x c) (TRAP_FRAME (k_hart s.2))) (k_hart s.2)
     | Some _ => k_hart s.2
     end)).

Definition leave (pc' : Z) : M St cpu :=
  k ← get_state (T:=hart);
  f ← load_frame (mscratch k);
  mret (mk_cpu (load_gps f) pc').

Lemma trap_vector_enter cause tval c s :
  sched_inv s →
  trap_vector cause tval c s =
  (pc' ← m_trap (cpc c) tval cause 0 (ptr_of (current (k_table s.2))); leave pc') (entered c s).
Proof.
  intros []. unfold trap_vector. rewrite bind_get. change (view s) with (k_hart s.2).
  rewrite sc_ptr0. unfold entered, store_regs.
  destruct (current (k_table s.2)) as [i|] eqn:Hc; cbn [ptr_of load_frame store_frame].
  - destruct (proj1 (runnable_lookup _ _) (wf_cur _ sc_table0 i Hc)) as (q & Hq & _).
    rewrite bind_assoc, bind_get. change (view s) with (k_table s.2). rewrite Hq, bind_ret.
    rewrite bind_assoc, bind_get. change (view s) with (k_table s.2). rewrite Hq, bind_set.
    by rewrite Hc.
  - rewrite bind_assoc, bind_get, bind_ret. unfold on_hart.
    rewrite bind_assoc, bind_get, bind_set. by destruct s as [f []].
Qed.

Lemma entered_inv c s : sched_inv s → wf_cpu c → sched_inv (entered c s).
Proof.
  intros [] Hcpu. split; cbn [entered snd k_table k_hart].
  - by apply store_regs_wf.
  - rewrite store_regs_current. by destruct (current (k_table s.2)).
  - destruct (current (k_table s.2)); [done|]. cbn. by apply save_gps_wf.
  - intros i p Hp. unfold store_regs in Hp.
    destruct (current (k_table s.2)) as [j|] eqn:Hc; [|by eapply sc_frames0].
    destruct (slots (k_table s.2) !! j) as [[q|]|] eqn:Hq; try (by eapply sc_frames0).
    cbn [slots] in Hp. destruct (decide (j = i)) as [->|].
    + rewrite list_lookup_insert_eq in Hp by (by eapply lookup_lt_Some). injection Hp as <-.
      cbn. apply save_gps_wf; [done|]. by eapply sc_frames0.
    + rewrite list_lookup_insert_ne in Hp by done. by eapply sc_frames0.
Qed.

(** Leaving the vector loads the registers of the frame in [mscratch]. *)
Definition current_frame (s : St) : option TrapFrame :=
  match current (k_table s.2) with
  | None => Some (TRAP_FRAME (k_hart s.2))
  | Some i => frame <$> mjoin (slots (k_table s.2) !! i)
  end.

Lemma leave_spec pc' s :
  sched_inv s → ∃ f, current_frame s = Some f ∧ wf_frame f ∧
    leave pc' s = Done (mk_cpu (load_gps f) pc', s).
Proof.
  intros []. unfold leave, current_frame. rewrite bind_get.
  change (view s) with (k_hart s.2). rewrite sc_ptr0.
  destruct (current (k_table s.2)) as [i|] eqn:Hc; cbn [ptr_of load_frame].
  - destruct (proj1 (runnable_lookup _ _) (wf_cur _ sc_table0 i Hc)) as (q & Hq & _).
    rewrite bind_assoc, bind_get. change (view s) with (k_table s.2). rewrite Hq.
    exists (frame q). cbn. split_and!; try done. by eapply sc_frames0.
  - exists (TRAP_FRAME (k_hart s.2)). by rewrite bind_assoc, bind_get.
Qed.

(** A handler that leaves the scheduler alone is transparent: the CPU
    resumes with the registers it had. *)
Lemma transparent c s s2 pc' :
  sched_inv s → wf_cpu c → sched_part s2 = sched_part (entered c s) →
  leave pc' s2 = Done (mk_cpu (x c) pc', s2) ∧ sched_inv s2 ∧
  ∀ i, context_of (k_table s2.2) (mk_cpu (x c) pc') i =
       context_of (k_table s.2) (mk_cpu (x c) pc') i.
Proof.
  intros Hs Hcpu E. pose proof (entered_inv c s Hs Hcpu) as He.
  injection E as Et Ep Ek.
  assert (Hs2 : sched_inv s2).
  { destruct He. split; rewrite ?Et, ?Ep, ?Ek; done. }
  destruct (leave_spec pc' s2 Hs2) as (f & Hf & _ & Hl).
  assert (Hx : load_gps f = x c).
  { revert Hf. unfold current_frame. rewrite Et, Ek, store_regs_current.
    destruct (current (k_table s.2)) as [i|] eqn:Hc.
    - destruct (proj1 (runnable_lookup _ _) (wf_cur _ (sc_table _ Hs) i Hc)) as (q & Hq & _).
      rewrite (store_regs_lookup _ _ i q Hc Hq), decide_True by done. cbn. intros [= <-].
      apply load_save_gps; [done|]. by eapply (sc_frames _ Hs).
    - cbn. intros [= <-]. apply load_save_gps; [done|apply Hs]. }
  rewrite Hl, Hx. split; [done|]. split; [done|]. intros i.
  unfold context_of. rewrite Et, store_regs_current. unfold store_regs.
  destruct (current (k_table s.2)) as [j|] eqn:Hc; [|done].
  destruct (slots (k_table s.2) !! j) as [[q|]|] eqn:Hq; try done. cbn [slots x cpc].
  destruct (decide (j = i)) as [->|Hne].
  - rewrite list_lookup_insert_eq by (by eapply lookup_lt_Some). rewrite Hq.
    by rewrite !decide_True.
  - by rewrite list_lookup_insert_ne by done.
Qed.

Lemma schedule_in_kernel epc (s : St) :
  wf_table (k_table s.2) →
  schedule epc s =
  Done ((schedule_table epc (k_table s.2)).1,
        (s.1, mk_rest (k_virtio s.2) (schedule_table epc (k_table s.2)).2 (k_hart s.2))).
Proof.
  intros Hwf. unfold schedule. rewrite bind_get. change (view s) with (k_table s.2).
  unfold check_current.
  assert (Hck : match current (k_table s.2) with
    | Some i => if (i <? length (slots (k_table s.2)))%nat then mret tt else panic PBounds
    | None => mret tt end = mret (M:=M St) tt).
  { destruct (current (k_table s.2)) as [i|] eqn:Hc; [|done].
    pose proof (runnable_lt _ i Hwf (wf_cur _ Hwf i Hc)). rewrite (wf_len _ Hwf).
    by rewrite (proj2 (Nat.ltb_lt _ _)). }
  rewrite Hck, bind_ret. destruct (schedule_table epc (k_table s.2)) as [r t]. by rewrite bind_set.
Qed.

Lemma schedule_frames_wf epc t : frames_wf t → frames_wf (schedule_table epc t).2.
Proof.
  intros Hf i p Hp.
  assert (Hs : slots (schedule_table epc t).2 = save_pc epc t)
    by (unfold schedule_table; by destruct (pick _ _) as [[??]|]).
  rewrite Hs, save_pc_lookup in Hp. case_decide; [|by eapply Hf].
  destruct (slots t !! i) as [[q|]|] eqn:Hq; cbn in Hp; try done. injection Hp as <-.
  cbn. by eapply Hf.
Qed.

(** The state after a scheduling decision for slot [j]. *)
Definition switched (t : table) (j : nat) (s : St) : St :=
  (s.1, mk_rest (k_virtio s.2) t (set_mscratch (SlotFrame j) (k_hart s.2))).

(** Leaving the vector after a switch puts the chosen process's saved context
    on the CPU. *)
Lemma switch_and_leave epc s j a t2 :
  wf_table (k_table s.2) → wf_frame (TRAP_FRAME (k_hart s.2)) → frames_wf (k_table s.2) →
  schedule_table epc (k_table s.2) = (Some (SlotFrame j, a), t2) →
  sched_inv (switched t2 j s) ∧
  ∃ c', leave a (switched t2 j s) = Done (c', switched t2 j s) ∧ wf_cpu c' ∧
    current t2 = Some j ∧ ∀ i, context_of t2 c' i = saved_context t2 i.
Proof.
  intros Hwf Hk Hfr E. pose proof (schedule_wf epc _ Hwf) as Hwf2.
  pose proof (schedule_frames_wf epc _ Hfr) as Hfr2.
  pose proof (schedule_reply epc (k_table s.2) j a Hwf) as Hrep.
  rewrite E in Hwf2, Hfr2, Hrep. destruct (Hrep eq_refl) as [Hpc Hcur]. cbn [snd] in *.
  assert (Hinv : sched_inv (switched t2 j s)).
  { split; cbn; try done. by rewrite Hcur. }
  split; [done|]. destruct (leave_spec a _ Hinv) as (f & Hf & Hwff & Hl).
  exists (mk_cpu (load_gps f) a). split; [done|].
  split; [exact (load_gps_wf f Hwff)|]. split; [done|].
  intros i. unfold context_of, saved_context. destruct (decide (current t2 = Some i)) as [Hi|Hi]; [|done].
  assert (i = j) by congruence. subst i. unfold current_frame in Hf. cbn in Hf. rewrite Hcur in Hf.
  unfold saved_pc in Hpc. destruct (slots t2 !! j) as [[q|]|]; cbn in *; try done.
  injection Hf as ->. by injection Hpc as ->.
Qed.

Lemma store_regs_next l t : next_slot (store_regs l t) = next_slot t.
Proof.
  unfold next_slot, start_of. rewrite store_regs_current. apply pick_fst_ext. intros i.
  pose proof (store_regs_runnable l t i) as Hr. unfold runnable in Hr.
  destruct (running (mjoin (slots (store_regs l t) !! i))),
    (running (mjoin (slots t !! i))); tauto || (symmetry; tauto) || (exfalso; intuition congruence).
Qed.

Lemma timer_enter c s :
  sched_inv s → wf_cpu c → 0 <= CLINT_MTIME (k_hart s.2) < 2 ^ 64 - TIMER_TICK →
  let s1 := entered c s in
  let s2 := (s1.1, mk_rest (k_virtio s1.2) (k_table s1.2)
    (set_mtimecmp (CLINT_MTIME (k_hart s.2) + TIMER_TICK) (k_hart s1.2))) in
  timer_trap (cpc c) s1 =
  (o ← schedule (cpc c);
   match o with
   | Some (next_frame, next_pc) => on_hart (set_mscratch next_frame);; mret next_pc
   | None => mret (cpc c)
   end) s2.
Proof.
  intros Hs Hcpu Ht s1 s2. unfold timer_trap, rearm_timer. rewrite bind_assoc, bind_get, bind_assoc.
  assert (Hm : CLINT_MTIME (view (T:=hart) s1) = CLINT_MTIME (k_hart s.2)).
  { unfold s1, entered. cbn. by destruct (current (k_table s.2)). }
  rewrite Hm. erewrite bind_done by (apply checked_ok; unfold TIMER_TICK in *; lia).
  by rewrite bind_set.
Qed.

Lemma timer_switch c s tval :
  sched_inv s → wf_cpu c → 0 <= CLINT_MTIME (k_hart s.2) < 2 ^ 64 - TIMER_TICK →
  ∃ c' s', trap_vector (2 ^ 63 + 7) tval c s = Done (c', s') ∧
    sched_inv s' ∧ wf_cpu c' ∧
    (∀ i, context_of (k_table s'.2) c' i = context_of (k_table s.2) c i) ∧
    current (k_table s'.2) = next_slot (k_table s.2) ∧
    (next_slot (k_table s.2) = None → c' = c) ∧
    CLINT_MTIMECMP (k_hart s'.2) = CLINT_MTIME (k_hart s.2) + TIMER_TICK.
Proof.
  intros Hs Hcpu Ht. rewrite trap_vector_enter by done.
  change (m_trap (cpc c) tval (2 ^ 63 + 7) 0 _) with (timer_trap (St:=St) (cpc c)).
  pose proof (entered_inv c s Hs Hcpu) as He. pose proof (timer_enter c s Hs Hcpu Ht) as Ett.
  set (s1 := entered c s) in *. cbv zeta in Ett.
  set (s2 := (s1.1, mk_rest _ _ _)) in Ett.
  assert (Hwf2 : wf_table (k_table s2.2)) by apply He.
  assert (Hk2 : wf_frame (TRAP_FRAME (k_hart s2.2))) by apply He.
  assert (Hf2 : frames_wf (k_table s2.2)) by apply He.
  pose proof (schedule_in_kernel (cpc c) s2 Hwf2) as Esch.
  pose proof (schedule_next (cpc c) (k_table s2.2) Hwf2) as Hnext.
  change (k_table s2.2) with (store_regs (x c) (k_table s.2)) in *.
  rewrite store_regs_next in Hnext.
  pose proof (λ i, schedule_saves_contexts (k_table s.2) c i (sc_table _ Hs) Hcpu (sc_frames _ Hs)) as Hsave.
  unfold mbind at 1, M_bind at 1. rewrite Ett, (bind_done _ _ _ _ _ Esch). clear Ett Esch.
  destruct (schedule_cases (cpc c) _ Hwf2) as [(k & p & E & _)|(E & Hcn & _)].
  - cbv zeta in E. revert E. generalize ((start_of (store_regs (x c) (k_table s.2)) + k) mod 16)%nat.
    intros j E. rewrite E in Hnext, Hsave |- *. cbn [fst snd] in *.
    destruct (switch_and_leave (cpc c) s2 j (pc p) _ Hwf2 Hk2 Hf2 E)
      as (Hinv & c' & Hl & Hc' & Hcur & Hctx).
    exists c'. eexists. split; [exact Hl|]. split; [done|]. split; [done|].
    split; [intros i; rewrite <- Hsave; apply Hctx|]. split; [by rewrite <- Hnext|].
    split; [|done]. rewrite <- Hnext, Hcur. done.
  - rewrite E in Hnext |- *. cbn [fst snd current] in *.
    match goal with |- context [mret _ ?st] => set (s3 := st) end.
    destruct (transparent c s s3 (cpc c) Hs Hcpu) as (Hl & Hinv & Hctx).
    { unfold sched_part, s3, s2, s1. cbn [entered fst snd k_table k_hart mscratch TRAP_FRAME set_mtimecmp].
      f_equal. f_equal. rewrite <- Hcn. by destruct (store_regs (x c) (k_table s.2)). }
    exists c, s3. destruct c as [xs p]. split; [exact Hl|]. split; [done|]. split; [done|].
    split; [exact Hctx|]. split; [by rewrite <- Hnext|]. split; [done|]. done.
Qed.

(** C4. Context switch: a timer interrupt always returns, re-arms the timer
    one tick ahead, and gives the CPU to the process next in round-robin
    order, or back to the idle loop when there is none; the registers and
    the PC of every process, the one preempted, the one resumed and all
    others, are the same before and after. *)
Theorem timer_switches_contexts c s tval :
  sched_inv s → wf_cpu c → 0 <= CLINT_MTIME (k_hart s.2) < 2 ^ 64 - TIMER_TICK →
  ∃ c' s', trap_vector (2 ^ 63 + 7) tval c s = Done (c', s') ∧
    sched_inv s' ∧ wf_cpu c' ∧
    (∀ i, context_of (k_table s'.2) c' i = context_of (k_table s.2) c i) ∧
    current (k_table s'.2) = next_slot (k_table s.2) ∧
    (next_slot (k_table s.2) = None → c' = c) ∧
    CLINT_MTIMECMP (k_hart s'.2) = CLINT_MTIME (k_hart s.2) + TIMER_TICK.
Proof. apply timer_switch. Qed.
End vector.

(** ** Interrupts and exceptions other than the timer *)

Section transparency.
Context `{Profile} `{Linker.Linker} {T : Type} `{Host T} `{Spins} `{!BlockReader (kernel T)}.
Abbreviation St := (kernel T).

(** A dispatch that leaves the scheduler alone. *)
Lemma keeps_transparent c s cause tval c' s' :
  sched_inv s → wf_cpu c → keeps (m_trap (St:=St) (cpc c) tval cause 0 (ptr_of (current (k_table s.2)))) →
  trap_vector cause tval c s = Done (c', s') →
  x c' = x c ∧ sched_inv s' ∧
  (∃ s1, m_trap (cpc c) tval cause 0 (ptr_of (current (k_table s.2))) (entered c s) = Done (cpc c', s1)) ∧
  ∀ i, context_of (k_table s'.2) c' i = context_of (k_table s.2) c' i.
Proof.
  intros Hs Hcpu Hk E. rewrite trap_vector_enter in E by done.
  apply bind_done_inv in E as (pc' & s2 & Em & El).
  destruct (transparent c s s2 pc' Hs Hcpu (Hk _ _ _ Em)) as (Hl & Hinv & Hctx).
  rewrite Hl in El. injection El as <- <-. cbn. eauto 6.
Qed.

(** C20. Transparency of interrupts: when a software or external interrupt
    returns, whatever device work its handler did, the interrupted context
    continues with exactly the registers and PC it had, and no other
    process's context has changed. *)
Theorem interrupts_are_transparent c s cause tval c' s' :
  sched_inv s → wf_cpu c →
  Z.land (Z.shiftr cause 63) 1 = 1 → Z.land cause 0xfff ≠ 7 →
  trap_vector cause tval c s = Done (c', s') →
  c' = c ∧ sched_inv s' ∧ ∀ i, context_of (k_table s'.2) c' i = context_of (k_table s.2) c i.
Proof.
  intros Hs Hcpu Ha H7 E.
  assert (Hm : ∀ p, m_trap (St:=St) (cpc c) tval cause 0 p =
    if Z.land cause 0xfff =? 3 then print "machine software interrupt cpu#{}\r\n" [Num 0];; mret (cpc c)
    else if Z.land cause 0xfff =? 11 then handle_external;; mret (cpc c) else panic PExplicit).
  { intros p. unfold m_trap. rewrite Ha. cbn [Z.eqb Pos.eqb]. by rewrite (proj2 (Z.eqb_neq _ 7)) by done. }
  pose proof (keeps_handle_external (T:=T)) as Hext.
  destruct (keeps_transparent c s cause tval c' s' Hs Hcpu) as (Hx & Hinv & (s1 & Em) & Hctx);
    [rewrite Hm; solve_keeps|done|].
  assert (Hpc : cpc c' = cpc c).
  { rewrite Hm in Em. destruct (_ =? 3); [|destruct (_ =? 11); [|discriminate]];
      apply bind_done_inv in Em as (? & ? & _ & Em); by injection Em. }
  assert (c' = c) by (destruct c, c'; cbn in *; congruence). subst c'. done.
Qed.

(** C21. Faults are stepped over: an instruction, load or store page fault, or
    an access fault, resumes after the faulting instruction with every
    register unchanged; a page fault is reported first, on a UART that
    answers, an access fault is recorded for the driver probing the bus. *)
Theorem faults_are_stepped_over c s cause tval :
  sched_inv s → wf_cpu c → 0 <= cpc c < 2 ^ 64 - 4 → cause ∈ [5; 7; 12; 13; 15] →
  (cause ∈ [12; 13; 15] → prints T) →
  ∃ s', trap_vector cause tval c s = Done (mk_cpu (x c) (cpc c + 4), s') ∧ sched_inv s' ∧
    (∀ i, current (k_table s.2) ≠ Some i →
       context_of (k_table s'.2) c i = context_of (k_table s.2) c i) ∧
    ACCESS_FAULT_SEEN (k_virtio s'.2) =
      (bool_decide (cause ∈ [5; 7]) || ACCESS_FAULT_SEEN (k_virtio s.2)).
Proof.
  intros Hs Hcpu Hpc Hc Hprints. rewrite trap_vector_enter by done.
  assert (Hm : ∃ s2, m_trap (cpc c) tval cause 0 (ptr_of (current (k_table s.2))) (entered c s)
                     = Done (cpc c + 4, s2) ∧ sched_part s2 = sched_part (entered c s) ∧
      ACCESS_FAULT_SEEN (k_virtio s2.2) =
        (bool_decide (cause ∈ [5; 7]) || ACCESS_FAULT_SEEN (k_virtio s.2))).
  { assert (Hadd : ∀ st : St, checked 64 (cpc c + 4) st = Done (cpc c + 4, st))
      by (intros; apply checked_ok; lia).
    assert (Hsay : ∀ f a, cause ∈ [12; 13; 15] → ∃ s2, (print f a;; checked 64 (cpc c + 4)) (entered c s) = Done (cpc c + 4, s2) ∧
      sched_part s2 = sched_part (entered c s) ∧
      ACCESS_FAULT_SEEN (k_virtio s2.2) = ACCESS_FAULT_SEEN (k_virtio s.2)).
    { intros f a (U & HU)%Hprints. destruct (print_runs f a (entered c s)) as (t & E & _).
      eexists. rewrite (bind_done _ _ _ _ _ E). by split; [apply Hadd|]. }
    rewrite !elem_of_cons in Hc. destruct_or? Hc; subst; try (by apply not_elem_of_nil in Hc);
      first [refine (Hsay _ _ _); rewrite !elem_of_cons; tauto|eexists; by split; [apply Hadd|]]. }
  destruct Hm as (s2 & Em & Hp & Hf). rewrite (bind_done _ _ _ _ _ Em).
  destruct (transparent c s s2 (cpc c + 4) Hs Hcpu Hp) as (Hl & Hinv & Hctx).
  exists s2. split; [exact Hl|]. split; [done|]. split; [|done].
  intros i Hi. specialize (Hctx i). unfold context_of in *.
  injection Hp as Et _ _. rewrite Et in Hctx |- *. rewrite store_regs_current in *.
  destruct (slots (store_regs (x c) (k_table s.2)) !! i) as [[?|]|],
    (slots (k_table s.2) !! i) as [[?|]|]; try done. by rewrite !decide_False in * by done.
Qed.
End transparency.

(** ** System calls *)

Section syscalls.
Context `{Profile} `{Linker.Linker} {T : Type} `{Host T} `{Spins} `{!BlockReader (kernel T)}.
Abbreviation St := (kernel T).
Context (Hbd : ∀ d b n o, keeps (bd_read (S:=St) d b n o)).

Lemma keeps_on_frames {A} (m : M frames A) : keeps (on_frames m : M St A).
Proof. intros s a s' E. apply on_frames_keeps in E. unfold sched_part. by rewrite E. Qed.
Lemma keeps_allocate n : keeps (fa_allocate (S:=St) n).
Proof. apply keeps_on_frames. Qed.
Lemma keeps_deallocate p : keeps (fa_deallocate (S:=St) p).
Proof. apply keeps_on_frames. Qed.
Lemma keeps_memory : keeps (Minix3.memory (St:=St)).
Proof. apply keeps_gets. Qed.
#[local] Hint Resolve keeps_allocate keeps_deallocate keeps_memory : keeps.

Lemma keeps_with_buffer {A} n (oom : A) body :
  (∀ b, keeps (body b)) → keeps (with_buffer (St:=St) n oom body).
Proof. intros Hb. unfold with_buffer. solve_keeps. Qed.

Lemma keeps_mount d : keeps (mount (St:=St) d).
Proof. apply keeps_with_buffer. intros b. solve_keeps. Qed.
Lemma keeps_read_inode fs n : keeps (read_inode (St:=St) fs n).
Proof.
  unfold read_inode. apply keeps_if; [solve_keeps|]. apply keeps_with_buffer. intros b. solve_keeps.
Qed.

Lemma keeps_advance n c : keeps (advance (St:=St) n c).
Proof. unfold advance. solve_keeps. Qed.
Lemma keeps_copy_zone fs e b z c : keeps (copy_zone (St:=St) fs e b z c).
Proof. unfold copy_zone, copy_out. solve_keeps. Qed.
Lemma keeps_flow_then (m : M St flow) k : keeps m → (∀ c, keeps (k c)) → keeps (flow_then m k).
Proof. intros Hm Hk. unfold flow_then. solve_keeps. Qed.
#[local] Hint Resolve keeps_advance keeps_copy_zone : keeps.

Lemma keeps_zone_loop fs e b get idx :
  (∀ i, keeps (get i)) → ∀ c, keeps (zone_loop (St:=St) fs e b get idx c).
Proof.
  intros Hg. induction idx as [|i idx IH]; intros c; cbn [zone_loop]; [solve_keeps|].
  apply keeps_if; [solve_keeps|]. apply keeps_bind; [done|]. intros z.
  apply keeps_flow_then; solve_keeps.
Qed.
Lemma keeps_fetch fs z b c k : keeps k → keeps (fetch (St:=St) fs z b c k).
Proof. intros Hk. unfold fetch, read_indirect_zone. solve_keeps. Qed.
Lemma keeps_ptr_at b i : keeps (ptr_at (St:=St) b i).
Proof. unfold ptr_at. solve_keeps. Qed.
Lemma keeps_zone_table fs e b buf c : keeps (zone_table (St:=St) fs e b buf c).
Proof. apply keeps_zone_loop, keeps_ptr_at. Qed.
Lemma keeps_table_loop fs e buf sub sp brk inner idx :
  (∀ c, keeps (inner c)) → ∀ c, keeps (table_loop (St:=St) fs e buf sub sp brk inner idx c).
Proof.
  intros Hi. pose proof keeps_ptr_at.
  induction idx as [|i idx IH]; intros c; cbn [table_loop]; [solve_keeps|].
  apply keeps_bind; [done|]. intros z. apply keeps_if; [solve_keeps|].
  apply keeps_flow_then; [apply keeps_fetch; done|done].
Qed.
Lemma keeps_double_table fs e b brk d i c : keeps (double_table (St:=St) fs e b brk d i c).
Proof. apply keeps_table_loop, keeps_zone_table. Qed.

Lemma keeps_read_file fs ino off out : keeps (read_file (St:=St) fs ino off out).
Proof.
  unfold read_file. do 2 (apply keeps_if; [solve_keeps|]).
  do 4 (apply keeps_with_buffer; intros ?). apply keeps_bind; [|solve_keeps].
  pose proof keeps_zone_table. pose proof keeps_double_table. unfold read_zones.
  apply keeps_flow_then; [apply keeps_zone_loop; solve_keeps|]. intros.
  apply keeps_flow_then; [unfold single_indirect; solve_keeps; by apply keeps_fetch|]. intros.
  apply keeps_flow_then; [unfold double_indirect; solve_keeps; by apply keeps_fetch|]. intros.
  unfold triple_indirect. solve_keeps. apply keeps_fetch. apply keeps_table_loop. done.
Qed.

Lemma keeps_sys_read d i b n o : keeps (sys_read (St:=St) d i b n o).
Proof.
  unfold sys_read. pose proof keeps_mount. pose proof keeps_read_inode. pose proof keeps_read_file.
  assert (Hmod : ∀ f : gmap Z Z → gmap Z Z, keeps (modify (λ s : St, fa_set_ram (f (fa_ram s)) s)))
    by (intros; by intros s [] s' [= <-]).
  unfold with_slice. solve_keeps.
Qed.

(** The current frame, read and written through [mscratch]. *)
Lemma load_current (s1 : St) c (s : St) :
  sched_inv s → sched_part s1 = sched_part (entered c s) → wf_cpu c →
  ∃ f, load_frame (ptr_of (current (k_table s.2))) s1 = Done (f, s1) ∧
    regs f !! 10%nat = x c !! 10%nat ∧ wf_frame f ∧
    ∀ v, ∃ s2 : St, store_frame (ptr_of (current (k_table s.2)))
           (set_regs (<[10%nat := v]> (regs f)) f) s1 = Done (tt, s2) ∧
      sched_part s2 = sched_part (entered (mk_cpu (<[10%nat := v]> (x c)) (cpc c)) s).
Proof.
  intros Hs E Hcpu. injection E as Et Ep Ek Es.
  assert (Hsave : ∀ f v, wf_frame f →
    set_regs (<[10%nat := v]> (regs (save_gps (x c) f))) (save_gps (x c) f) =
    save_gps (<[10%nat := v]> (x c)) f).
  { intros f v Hf. unfold save_gps, set_regs. cbn [regs fregs satp trap_stack hartid].
    unfold wf_frame in Hf. f_equal. destruct (regs f) as [|r0 l0]; [done|].
    by destruct (x c) as [|x0 l]; [destruct Hcpu|]. }
  assert (Hten : ∀ f, wf_frame f → regs (save_gps (x c) f) !! 10%nat = x c !! 10%nat).
  { intros f Hf. unfold save_gps, wf_frame in *. cbn [regs set_regs].
    destruct (regs f) as [|r0 l0]; [done|]. by destruct (x c) as [|x0 l]. }
  destruct (current (k_table s.2)) as [i|] eqn:Hc; cbn [ptr_of load_frame store_frame].
  - destruct (proj1 (runnable_lookup _ _) (wf_cur _ (sc_table _ Hs) i Hc)) as (q & Hq & _).
    pose proof (sc_frames _ Hs i q Hq) as Hwf.
    rewrite bind_get. change (view s1) with (k_table s1.2). rewrite Et.
    rewrite (store_regs_lookup _ _ i q Hc Hq), decide_True by done. cbn [frame set_frame].
    eexists. split; [reflexivity|]. split; [by apply Hten|]. split; [by apply save_gps_wf|].
    intros v. rewrite bind_get. change (view s1) with (k_table s1.2). rewrite Et.
    rewrite (store_regs_lookup _ _ i q Hc Hq), decide_True by done.
    eexists. split; [reflexivity|].
    unfold sched_part. cbn [put beside_lens table_lens fst snd k_table k_hart].
    rewrite Ep, Ek, Es. cbn [entered snd k_hart k_table]. rewrite Hc. do 3 f_equal.
    unfold store_regs. rewrite Hc, Hq. cbn [slots current NEXT_PID x]. f_equal.
    rewrite list_insert_insert_eq, Hsave by done. done.
  - rewrite bind_get. eexists. split; [reflexivity|]. change (view s1) with (k_hart s1.2).
    rewrite Ek. cbn [entered snd k_hart]. rewrite ?Hc. cbn [TRAP_FRAME set_kernel_frame].
    pose proof (sc_kframe _ Hs) as Hwf.
    split; [by apply Hten|]. split; [by apply save_gps_wf|].
    intros v. eexists. split; [reflexivity|]. unfold sched_part.
    cbn [put beside_lens hart_lens fst snd k_table k_hart set_kernel_frame mscratch TRAP_FRAME TRAP_STACK_TOP].
    change (view s1) with (k_hart s1.2). rewrite Et, Ep, Es, Hsave by done.
    unfold entered, store_regs. cbn [snd k_hart k_table]. by rewrite Hc.
Qed.

Lemma reg_of_lookup n f v : regs f !! n = Some v → reg_of n f = v.
Proof. unfold reg_of. by intros ->. Qed.

(** What a call other than [exit] does to the state: the caller's [a0]. *)
Lemma syscall_result c s num pc' s2 :
  sched_inv s → wf_cpu c → x c !! 10%nat = Some num → num ≠ 93 →
  do_syscall (cpc c) (ptr_of (current (k_table s.2))) (entered c s) = Done (pc', s2) →
  pc' = (cpc c + 4) mod 2 ^ 64 ∧ ∃ v, (num ≠ 63 → v = num) ∧ (num = 63 → word v) ∧
    sched_part s2 = sched_part (entered (mk_cpu (<[10%nat := v]> (x c)) (cpc c)) s).
Proof.
  intros Hs Hcpu H10 H93 Hm.
  destruct (load_current (entered c s) c s Hs eq_refl Hcpu) as (f & Ef & Hf10 & Hwff & _).
  rewrite H10 in Hf10. unfold do_syscall in Hm. rewrite (bind_done _ _ _ _ _ Ef) in Hm.
  rewrite (reg_of_lookup _ _ _ Hf10) in Hm. rewrite (proj2 (Z.eqb_neq num 93)) in Hm by done.
  assert (Hid : mk_cpu (<[10%nat := num]> (x c)) (cpc c) = c)
    by (rewrite list_insert_id by done; by destruct c).
  destruct (num =? 1) eqn:E1; [|destruct (num =? 63) eqn:E63].
  - apply checked_mod in Hm as [-> ->]. split; [done|]. exists num. rewrite Hid.
    apply Z.eqb_eq in E1. by split_and!; [|lia|].
  - apply bind_done_inv in Hm as (v & s3 & Er & Hm).
    pose proof (keeps_sys_read _ _ _ _ _ _ _ _ Er) as Hk.
    destruct (load_current s3 c s Hs Hk Hcpu) as (f3 & Ef3 & _ & _ & Hst).
    rewrite (bind_done _ _ _ _ _ Ef3) in Hm. destruct (Hst v) as (s4 & Es4 & Hs4).
    rewrite (bind_done _ _ _ _ _ Es4) in Hm. apply checked_mod in Hm as [-> ->].
    split; [done|]. exists v. apply Z.eqb_eq in E63.
    split_and!; [lia|intros _; exact (sys_read_word _ _ _ _ _ _ _ _ Er)|done].
  - apply bind_done_inv in Hm as (u & s3 & Er & Hm). apply checked_mod in Hm as [-> ->].
    split; [done|]. exists num. rewrite Hid. apply Z.eqb_neq in E63. split_and!; [done|done|].
    by apply (keeps_print _ _ _ _ _ Er).
Qed.

Lemma set_a0_wf c v : wf_cpu c → wf_cpu (mk_cpu (<[10%nat := v]> (x c)) (cpc c)).
Proof.
  intros [Hl Hzero]. split; cbn; [by rewrite length_insert|]. by rewrite list_lookup_insert_ne.
Qed.

(** C18. A system call other than [exit] is invisible to everybody but its
    caller: when it returns, the caller continues after the [ecall] with
    only its register [a0] possibly changed (and unchanged for every call
    but [read]), and the contexts of all other processes are untouched. *)
Theorem syscall_changes_only_a0 c s cause tval c' s' num :
  sched_inv s → wf_cpu c → cause ∈ [8; 9] → 0 <= cpc c < 2 ^ 64 - 4 →
  x c !! 10%nat = Some num → num ≠ 93 →
  trap_vector cause tval c s = Done (c', s') →
  (∃ v, x c' = <[10%nat := v]> (x c)) ∧ (num ≠ 63 → x c' = x c) ∧ cpc c' = cpc c + 4 ∧
  sched_inv s' ∧
  ∀ i, current (k_table s.2) ≠ Some i →
    context_of (k_table s'.2) c' i = context_of (k_table s.2) c i.
Proof.
  intros Hs Hcpu Hcause Hpc H10 H93 E. rewrite trap_vector_enter in E by done.
  apply bind_done_inv in E as (pc' & s2 & Em & El).
  assert (Hm : do_syscall (cpc c) (ptr_of (current (k_table s.2))) (entered c s) = Done (pc', s2)).
  { rewrite !elem_of_cons in Hcause. destruct_or? Hcause; subst; [done|done|].
    by apply not_elem_of_nil in Hcause. }
  destruct (syscall_result c s num pc' s2 Hs Hcpu H10 H93 Hm) as (-> & v & Hv & _ & Hp).
  rewrite Z.mod_small in El by lia.
  destruct (transparent _ s s2 (cpc c + 4) Hs (set_a0_wf c v Hcpu) Hp) as (Hl & Hinv & Hctx).
  rewrite Hl in El. injection El as <- <-. cbn [x cpc]. split; [eauto|].
  split; [intros H63; rewrite (Hv H63); by apply list_insert_id|]. split; [done|]. split; [done|].
  intros i Hi. rewrite Hctx. unfold context_of.
  destruct (slots (k_table s.2) !! i) as [[?|]|]; try done. by rewrite !decide_False.
Qed.

Lemma exit_store_regs l t i q :
  current t = Some i → slots t !! i = Some (Some q) →
  exit_table (store_regs l t) = exit_table t ∧
  exit_table t = (Some (pid q), mk_table (<[i := None]> (slots t)) None (NEXT_PID t)).
Proof.
  intros Hc Hq. unfold exit_table, store_regs. rewrite Hc, Hq. cbn [current slots NEXT_PID].
  rewrite list_lookup_insert_eq by (by eapply lookup_lt_Some).
  by rewrite list_insert_insert_eq.
Qed.

(** What [exit] leaves was there before. *)
Lemma exit_subtable t i q k p :
  current t = Some i → slots t !! i = Some (Some q) →
  slots (exit_table t).2 !! k = Some (Some p) → k ≠ i ∧ slots t !! k = Some (Some p).
Proof.
  intros Hc Hq. destruct (exit_store_regs [] t i q Hc Hq) as [_ ->]. cbn [snd slots].
  destruct (decide (i = k)) as [->|Hne].
  - by rewrite list_lookup_insert_eq by (by eapply lookup_lt_Some).
  - by rewrite list_lookup_insert_ne.
Qed.

(** The state in which [exit] reports and asks the scheduler. *)
Definition exited (s : St) : St :=
  (s.1, mk_rest (k_virtio s.2) (exit_table (k_table s.2)).2 (k_hart s.2)).

Lemma exited_wf s i q :
  sched_inv s → current (k_table s.2) = Some i → slots (k_table s.2) !! i = Some (Some q) →
  wf_table (k_table (exited s).2) ∧ frames_wf (k_table (exited s).2).
Proof.
  intros Hs Hc Hq. split; [apply (exit_wf _ (sc_table _ Hs))|].
  intros k p Hp. eapply (sc_frames _ Hs), (exit_subtable _ i q k p Hc Hq Hp).
Qed.

(** The exit system call up to the scheduling decision. *)
Lemma exit_call c s i q :
  sched_inv s → wf_cpu c → x c !! 10%nat = Some 93 →
  current (k_table s.2) = Some i → slots (k_table s.2) !! i = Some (Some q) →
  do_syscall (cpc c) (ptr_of (current (k_table s.2))) (entered c s) =
  (print "process {} exited\r\n" [Num (pid q)];;
   o ← schedule (cpc c);
   match o with
   | Some (next_frame, next_pc) => on_hart (set_mscratch next_frame);; mret next_pc
   | None => diverge
   end) (exited s).
Proof.
  intros Hs Hcpu H10 Hc Hq.
  destruct (load_current (entered c s) c s Hs eq_refl Hcpu) as (f & Ef & Hf10 & _).
  rewrite H10 in Hf10. unfold do_syscall. rewrite (bind_done _ _ _ _ _ Ef).
  rewrite (reg_of_lookup _ _ _ Hf10). cbn [Z.eqb Pos.eqb]. clear f Ef Hf10.
  destruct (exit_store_regs (x c) _ i q Hc Hq) as [Ex1 Ex2].
  assert (Eexit : exit_current (entered c s) = Done (Some (pid q), (s.1, mk_rest (k_virtio s.2)
                   (exit_table (k_table s.2)).2 (k_hart s.2)))).
  { unfold exit_current. rewrite bind_get. change (view (entered c s)) with (store_regs (x c) (k_table s.2)).
    unfold check_current. rewrite store_regs_current, Hc.
    pose proof (runnable_lt _ i (sc_table _ Hs) (wf_cur _ (sc_table _ Hs) i Hc)) as Hi.
    rewrite (wf_len _ (store_regs_wf (x c) _ (sc_table _ Hs))), (proj2 (Nat.ltb_lt _ _)) by done.
    rewrite bind_ret, Ex1, Ex2, bind_set. unfold entered.
    cbn [snd k_table k_hart k_virtio fst]. by rewrite Hc. }
  by rewrite (bind_done _ _ _ _ _ Eexit).
Qed.

(** C19. [exit]: the caller's slot is freed at once and never resumed; if
    another process can run, the next one in round-robin order gets the CPU
    with its saved context and every other context is kept; if none is left
    the hart parks and the call never returns.  (The report it prints goes to
    a UART that answers.) *)
Theorem exit_switches_away `{!UartHost T} `{!ConsoleReady T} c s cause tval i :
  sched_inv s → wf_cpu c → cause ∈ [8; 9] → x c !! 10%nat = Some 93 →
  current (k_table s.2) = Some i →
  let t1 := (exit_table (k_table s.2)).2 in
  match next_slot t1 with
  | None => trap_vector cause tval c s = Diverge
  | Some j => ∃ c' s', trap_vector cause tval c s = Done (c', s') ∧ sched_inv s' ∧ wf_cpu c' ∧
      current (k_table s'.2) = Some j ∧ slots (k_table s'.2) !! i = Some None ∧
      ∀ k, k ≠ i → context_of (k_table s'.2) c' k = context_of (k_table s.2) c k
  end.
Proof.
  intros Hs Hcpu Hcause H10 Hc t1.
  destruct (proj1 (runnable_lookup _ _) (wf_cur _ (sc_table _ Hs) i Hc)) as (q & Hq & _).
  rewrite trap_vector_enter by done.
  assert (Hm : m_trap (cpc c) tval cause 0 (ptr_of (current (k_table s.2))) (entered c s) =
               do_syscall (cpc c) (ptr_of (current (k_table s.2))) (entered c s)).
  { rewrite !elem_of_cons in Hcause. destruct_or? Hcause; subst; [done|done|].
    by apply not_elem_of_nil in Hcause. }
  rewrite (bind_same _ _ _ _ _ (eq_trans Hm (exit_call c s i q Hs Hcpu H10 Hc Hq))).
  destruct (exited_wf s i q Hs Hc Hq) as [Hwf1 Hf1].
  destruct (print_runs "process {} exited\r\n" [Num (pid q)] (exited s)) as (t & Et & _).
  change (wf_table t1) in Hwf1. change (frames_wf t1) in Hf1.
  rewrite bind_assoc, (bind_done _ _ _ _ _ Et). set (s1 := with_bus t (exited s)) in *.
  destruct (exit_store_regs [] _ i q Hc Hq) as [_ Ex].
  assert (Ht1 : t1 = mk_table (<[i := None]> (slots (k_table s.2))) None (NEXT_PID (k_table s.2)))
    by (unfold t1; by rewrite Ex).
  pose proof (schedule_next (cpc c) t1 Hwf1) as Hnext.
  rewrite (bind_assoc (schedule (cpc c))), (bind_done _ _ _ _ _ (schedule_in_kernel (cpc c) s1 Hwf1)).
  change (k_table s1.2) with t1.
  destruct (schedule_cases (cpc c) _ Hwf1) as [(k & p & E & _)|(E & _ & _)].
  - cbv zeta in E. revert E. generalize ((start_of t1 + k) mod 16)%nat. intros j E.
    rewrite <- Hnext, E. cbn [fst snd current].
    destruct (switch_and_leave (cpc c) s1 j (pc p) _ Hwf1 (sc_kframe _ Hs) Hf1 E)
      as (Hinv & c' & Hl & Hc' & Hcur & Hctx).
    exists c'. eexists. split; [exact Hl|]. split; [done|]. split; [done|]. split; [done|].
    assert (Hsv : slots (switched (mk_table (save_pc (cpc c) t1) (Some j) (NEXT_PID t1)) j s1).2.(k_table)
                  = slots t1) by (cbn; unfold save_pc; by rewrite Ht1).
    split.
    + etrans; [exact (f_equal (λ l, l !! i) Hsv)|]. rewrite Ht1. cbn [slots].
      apply list_lookup_insert_eq. by eapply lookup_lt_Some.
    + intros k' Hk'. etrans; [apply Hctx|]. unfold saved_context, context_of.
      cbn in Hsv. cbn [slots]. rewrite Hsv, Ht1. cbn [slots].
      rewrite list_lookup_insert_ne by done.
      destruct (slots (k_table s.2) !! k') as [[?|]|]; try done.
      by rewrite decide_False by congruence.
  - by rewrite <- Hnext, E.
Qed.
End syscalls.

(** The block driver does not touch the scheduler. *)
Lemma keeps_block_op `{Profile} `{Linker.Linker} {T} `{Host T} polls d b n o w :
  keeps (block_op (St:=kernel T) polls d b n o w).
Proof.
  pose proof (keeps_get_dev (T:=T)). pose proof (keeps_set_dev (T:=T)).
  pose proof (keeps_write_volatile (T:=T)). pose proof (keeps_pending_loop (T:=T)).
  pose proof (keeps_allocate (T:=T)). pose proof (keeps_deallocate (T:=T)).
  assert (Hticks : keeps (device_runs (St:=kernel T))).
  { unfold device_runs, set_host, vget. solve_keeps. }
  assert (Hpoll : ∀ fuel slot req, keeps (poll (St:=kernel T) fuel slot req)).
  { induction fuel; intros; cbn [poll]; unfold pending, Virtio.memory; solve_keeps. }
  unfold block_op, alloc_request, free_request, write_chain, publish, Virtio.memory. solve_keeps.
Qed.
