(* ===== verification/Machine.v ===== *)
(** * The kernel as a machine of virtual processors

    Seen from its processes the kernel is sixteen processors, one of which
    runs at a time.  [pstep] is that abstract machine, a transition relation
    on the contexts of the processes with the events that may happen to them;
    [mstep] is the real one, the CPU beside the kernel's state, where every
    trap goes through [trap_vector].  Every execution of the second is, event
    by event, an execution of the first. *)

From Stdlib Require Import String.
From S2P Require Import Prelude Frames Bytes BlockDev Minix3 PageFrame Virtio Uart Hart.
From S2P Require Import Process ProcessProps Trap Words Kernel TrapProps.

#[local] Open Scope Z_scope.

(** ** The abstract machine *)

(** What the hardware does next: run the context on the CPU, or trap. *)
Inductive event : Type := Run | TrapOn (cause : Z).

Definition async (cause : Z) : Prop := Z.land (Z.shiftr cause 63) 1 = 1.
Definition code (cause : Z) : Z := Z.land cause 0xfff.

(** The context of each slot, and the slot on the CPU. *)
Record processors : Type := mk_processors {
  virtual : list (option context); on_cpu : option nat }.

Definition ready (p : processors) (i : nat) : Prop := ∃ x, virtual p !! i = Some (Some x).

(** Round robin: the first ready slot behind the one on the CPU. *)
Definition next_up (p : processors) (o : option nat) : Prop :=
  let start := match on_cpu p with Some i => ((i + 1) mod 16)%nat | None => O end in
  match o with
  | Some j => ∃ k, (k < 16)%nat ∧ j = ((start + k) mod 16)%nat ∧ ready p j ∧
      ∀ k', (k' < k)%nat → ¬ ready p ((start + k') mod 16)%nat
  | None => ∀ i, ¬ ready p i
  end.

(** A context of machine words. *)
Definition word_context (y : context) : Prop := Forall word y.1 ∧ word y.2.
Definition typed (p : processors) : Prop :=
  ∀ i y, virtual p !! i = Some (Some y) → word_context y.

(** The next instruction. *)
Definition after (pc : Z) : Z := (pc + 4) mod 2 ^ 64.

Inductive pstep : event → processors → processors → Prop :=
(** the process on the CPU computes *)
| ps_run p i y : on_cpu p = Some i → ready p i → word_context y →
    pstep Run p (mk_processors (<[i := Some y]> (virtual p)) (Some i))
| ps_run_idle p : on_cpu p = None → pstep Run p p
(** a device or a software interrupt *)
| ps_device cause p : async cause → code cause ∈ [3; 11] → pstep (TrapOn cause) p p
(** the timer *)
| ps_tick cause p o : async cause → code cause = 7 → next_up p o →
    pstep (TrapOn cause) p (mk_processors (virtual p) o)
(** a fault: the instruction is skipped *)
| ps_fault cause p i l a : ¬ async cause → code cause ∈ [5; 7; 12; 13; 15] →
    on_cpu p = Some i → virtual p !! i = Some (Some (l, a)) →
    pstep (TrapOn cause) p (mk_processors (<[i := Some (l, after a)]> (virtual p)) (Some i))
| ps_fault_idle cause p : ¬ async cause → code cause ∈ [5; 7; 12; 13; 15] → on_cpu p = None →
    pstep (TrapOn cause) p p
(** a system call: only [read] returns a value *)
| ps_call cause p i l a num v : ¬ async cause → code cause ∈ [8; 9] →
    on_cpu p = Some i → virtual p !! i = Some (Some (l, a)) →
    l !! 10%nat = Some num → num ≠ 93 → (num ≠ 63 → v = num) → (num = 63 → word v) →
    pstep (TrapOn cause) p
      (mk_processors (<[i := Some (<[10%nat := v]> l, after a)]> (virtual p)) (Some i))
(** [exit] *)
| ps_exit cause p i l a j : ¬ async cause → code cause ∈ [8; 9] →
    on_cpu p = Some i → virtual p !! i = Some (Some (l, a)) → l !! 10%nat = Some 93 →
    next_up (mk_processors (<[i := None]> (virtual p)) None) (Some j) →
    pstep (TrapOn cause) p (mk_processors (<[i := None]> (virtual p)) (Some j))
(** the idle loop, which is no process, calling the kernel *)
| ps_call_idle cause p : ¬ async cause → code cause ∈ [8; 9] → on_cpu p = None →
    pstep (TrapOn cause) p p
| ps_exit_idle cause p j : ¬ async cause → code cause ∈ [8; 9] → on_cpu p = None →
    next_up p (Some j) → pstep (TrapOn cause) p (mk_processors (virtual p) (Some j)).

Inductive psteps : list event → processors → processors → Prop :=
| psteps_nil p : psteps [] p p
| psteps_cons e es p p' p'' : pstep e p p' → psteps es p' p'' → psteps (e :: es) p p''.

(** A process changes only while it is on the CPU. *)
Lemma pstep_isolated e p p' i :
  pstep e p p' → on_cpu p ≠ Some i → virtual p' !! i = virtual p !! i.
Proof.
  destruct 1; intros Hne; cbn [virtual]; try done;
    (rewrite list_lookup_insert_ne; [done|congruence]).
Qed.

(** The timer moves no context. *)
Lemma tick_keeps_contexts cause p p' :
  async cause → code cause = 7 → pstep (TrapOn cause) p p' → virtual p' = virtual p.
Proof. intros Ha H7 Hp. by inversion Hp. Qed.

(** Machine words stay machine words. *)
Lemma pstep_typed e p p' : pstep e p p' → typed p → typed p'.
Proof.
  intros Hp Ht. assert (Hins : ∀ i o (l : list (option context)), (∀ y, o = Some y → word_context y) →
    (∀ k y, l !! k = Some (Some y) → word_context y) →
    ∀ k y, <[i := o]> l !! k = Some (Some y) → word_context y).
  { intros i o l Ho Hl k y. rewrite list_lookup_insert. case_decide; [intros [= ->]; by apply Ho|apply Hl]. }
  assert (Hafter : ∀ a, word (after a)) by (intros; apply Z.mod_pos_bound; lia).
  destruct Hp as [p i y _ _ Hy|p Hc|cause p|cause p o|cause p i l a _ _ _ Hl|cause p|cause p i l a num v _ _ _ Hl H10 _ Hv Hw
    |cause p i l a j|cause p|cause p j]; try exact Ht; refine (Hins _ _ _ _ Ht); try done.
  - by intros ? [= <-].
  - intros y [= <-]. split; [apply (Ht _ _ Hl)|apply Hafter].
  - intros y [= <-]. destruct (Ht _ _ Hl) as [Hr _]. cbn [fst] in Hr. split; [|apply Hafter].
    apply list.Forall_insert; [done|]. destruct (decide (num = 63)) as [->|Hne]; [by apply Hw|].
    rewrite (Hv Hne). by eapply list.Forall_lookup_1.
Qed.

(** ** The real machine *)

Section machine.
Context `{Profile} `{Linker.Linker} {T : Type} `{Host T} `{Spins} `{!BlockReader (kernel T)}.
Abbreviation St := (kernel T).

(** [Run]: the program on the CPU and the devices change registers, memory
    and device state, not the kernel's own statics.  [TrapOn]: the trap
    vector. *)
Inductive mstep : event → cpu * St → cpu * St → Prop :=
| ms_run c c' s s' : wf_cpu c' → word_context (x c', cpc c') → sched_part s' = sched_part s → mstep Run (c, s) (c', s')
| ms_trap cause tval c s c' s' : trap_vector cause tval c s = Done (c', s') →
    mstep (TrapOn cause) (c, s) (c', s').

Inductive msteps : list event → cpu * St → cpu * St → Prop :=
| msteps_nil x : msteps [] x x
| msteps_cons e es x x' x'' : mstep e x x' → msteps es x' x'' → msteps (e :: es) x x''.

(** No slot holds a process that cannot run. *)
Definition all_running (t : table) : Prop :=
  ∀ i q, slots t !! i = Some (Some q) → state q = Running.

Record machine_inv (x : cpu * St) : Prop := {
  mi_sched : sched_inv x.2;
  mi_running : all_running (k_table x.2.2);
  mi_cpu : wf_cpu x.1 }.

(** The processors a state stands for. *)
Definition contexts (t : table) (c : cpu) : list (option context) := context_of t c <$> seq 0 16.
Definition processors_of (x : cpu * St) : processors :=
  mk_processors (contexts (k_table x.2.2) x.1) (current (k_table x.2.2)).

(** ** Contexts as a list *)

Lemma contexts_lookup t c i : (i < 16)%nat → contexts t c !! i = Some (context_of t c i).
Proof. intros Hi. unfold contexts. rewrite list_lookup_fmap, lookup_seq_lt by done. done. Qed.

Lemma length_contexts t c : length (contexts t c) = 16%nat.
Proof. unfold contexts. by rewrite length_fmap, length_seq. Qed.

Lemma contexts_ext t c t' c' :
  (∀ i, context_of t' c' i = context_of t c i) → contexts t' c' = contexts t c.
Proof. intros Hi. unfold contexts. apply list_fmap_ext. auto. Qed.

Lemma contexts_insert t c t' c' i :
  (∀ j, j ≠ i → context_of t' c' j = context_of t c j) →
  contexts t' c' = <[i := context_of t' c' i]> (contexts t c).
Proof.
  intros Hj. apply list_eq. intros k. destruct (decide (k < 16)%nat) as [Hk|Hk].
  - rewrite contexts_lookup by done. destruct (decide (k = i)) as [->|Hne].
    + by rewrite list_lookup_insert_eq by (by rewrite length_contexts).
    + by rewrite list_lookup_insert_ne, contexts_lookup, Hj by done.
  - rewrite !lookup_ge_None_2; [done|rewrite length_insert, length_contexts; lia|rewrite length_contexts; lia].
Qed.

Lemma ready_runnable t c o i :
  wf_table t → all_running t → ready (mk_processors (contexts t c) o) i ↔ runnable t i.
Proof.
  intros Hwf Hr. unfold ready. cbn [virtual]. rewrite runnable_lookup. split.
  - intros [y Hy]. destruct (decide (i < 16)%nat) as [Hi|Hi].
    + rewrite contexts_lookup in Hy by done. unfold context_of in Hy.
      destruct (slots t !! i) as [[q|]|] eqn:Hq; try done. eauto.
    + rewrite lookup_ge_None_2 in Hy; [done|]. rewrite length_contexts. lia.
  - intros (q & Hq & _). apply lookup_lt_Some in Hq as Hi. rewrite (wf_len _ Hwf) in Hi.
    eexists. rewrite contexts_lookup by exact Hi. unfold context_of. by rewrite Hq.
Qed.

(** The scheduler's choice is the abstract one. *)
Lemma next_up_slot t l :
  wf_table t → (∀ i, ready (mk_processors l (current t)) i ↔ runnable t i) →
  next_up (mk_processors l (current t)) (next_slot t).
Proof.
  intros Hwf Hr. rewrite <- (schedule_next 0 t Hwf).
  destruct (schedule_cases 0 t Hwf) as [(k & p & E & Hk & _ & Hrun & Hmin)|(E & _ & Hno)].
  - rewrite E. cbn [snd current]. unfold next_up. cbn [on_cpu]. exists k.
    split; [done|]. split; [done|]. split; [by apply Hr|]. intros k' Hk'. rewrite Hr. by apply Hmin.
  - rewrite E. cbn [snd current next_up]. intros i. rewrite Hr. apply Hno.
Qed.

(** ** The invariant *)

Lemma all_running_store l t : all_running t → all_running (store_regs l t).
Proof.
  intros Hr i p. unfold store_regs. destruct (current t) as [j|]; [|apply Hr].
  destruct (slots t !! j) as [[q|]|] eqn:Hq; try apply Hr. cbn [slots].
  destruct (decide (j = i)) as [->|]; [|rewrite list_lookup_insert_ne by done; apply Hr].
  rewrite list_lookup_insert_eq by (by eapply lookup_lt_Some). intros [= <-]. cbn. by eapply Hr.
Qed.

Lemma all_running_schedule epc t : all_running t → all_running (schedule_table epc t).2.
Proof.
  intros Hr i p.
  assert (Hs : slots (schedule_table epc t).2 = save_pc epc t)
    by (unfold schedule_table; by destruct (pick _ _) as [[??]|]).
  rewrite Hs, save_pc_lookup. case_decide; [|apply Hr].
  destruct (slots t !! i) as [[q|]|] eqn:Hq; cbn; try done. intros [= <-]. cbn. by eapply Hr.
Qed.

(** A handler that leaves the scheduler alone, up to the registers it stores
    for the caller. *)
Lemma resumed c c1 (s s2 : St) pc' :
  machine_inv (c, s) → wf_cpu c1 → sched_part s2 = sched_part (entered c1 s) →
  leave pc' s2 = Done (mk_cpu (x c1) pc', s2) ∧ machine_inv (mk_cpu (x c1) pc', s2) ∧
  processors_of (mk_cpu (x c1) pc', s2) =
    match current (k_table s.2) with
    | Some i => mk_processors (<[i := Some (x c1, pc')]> (contexts (k_table s.2) c)) (Some i)
    | None => processors_of (c, s)
    end.
Proof.
  intros [Hs Hr Hc] Hc1 Hp. cbn [fst snd] in *.
  destruct (transparent c1 s s2 pc' Hs Hc1 Hp) as (Hl & Hinv & Hctx).
  injection Hp as Et _ _ _. cbn [entered snd k_table] in Et.
  split; [done|]. split.
  { split; cbn [fst snd]; [done| |done]. rewrite Et. by apply all_running_store. }
  unfold processors_of. cbn [fst snd]. rewrite Et at 2. rewrite store_regs_current.
  destruct (current (k_table s.2)) as [i|] eqn:Hcur.
  - f_equal. rewrite (contexts_insert (k_table s.2) c _ _ i).
    + f_equal. rewrite Hctx. unfold context_of.
      destruct (proj1 (runnable_lookup _ _) (wf_cur _ (sc_table _ Hs) i Hcur)) as (q & -> & _).
      by rewrite decide_True.
    + intros j Hj. rewrite Hctx. unfold context_of.
      destruct (slots (k_table s.2) !! j) as [[?|]|]; try done. by rewrite !decide_False by congruence.
  - f_equal. apply contexts_ext. intros i. rewrite Hctx. unfold context_of.
    destruct (slots (k_table s.2) !! i) as [[?|]|]; try done. by rewrite !decide_False by congruence.
Qed.

(** The scheduler picked slot [j]. *)
Lemma rescheduled epc (s2 : St) j a t3 c' s' :
  wf_table (k_table s2.2) → wf_frame (TRAP_FRAME (k_hart s2.2)) → frames_wf (k_table s2.2) →
  all_running (k_table s2.2) →
  schedule_table epc (k_table s2.2) = (Some (SlotFrame j, a), t3) →
  leave a (switched t3 j s2) = Done (c', s') →
  machine_inv (c', s') ∧ current (k_table s'.2) = Some j ∧
  ∀ i, context_of (k_table s'.2) c' i = saved_context t3 i.
Proof.
  intros Hwf Hk Hf Hr E El.
  destruct (switch_and_leave epc s2 j a t3 Hwf Hk Hf E) as (Hinv & c1 & Hl & Hc1 & Hcur & Hctx).
  rewrite Hl in El. injection El as <- <-. split; [|done]. split; cbn [fst snd]; [done| |done].
  pose proof (all_running_schedule epc _ Hr) as Hr3. rewrite E in Hr3. exact Hr3.
Qed.

(** The context on the CPU. *)
Lemma own_context c (s : St) i :
  machine_inv (c, s) → current (k_table s.2) = Some i →
  virtual (processors_of (c, s)) !! i = Some (Some (x c, cpc c)).
Proof.
  intros [Hs _ _] Hcur. cbn [snd] in Hs.
  destruct (proj1 (runnable_lookup _ _) (wf_cur _ (sc_table _ Hs) i Hcur)) as (q & Hq & _).
  apply lookup_lt_Some in Hq as Hlt. rewrite (wf_len _ (sc_table _ Hs)) in Hlt.
  cbn [processors_of virtual fst snd]. rewrite contexts_lookup by exact Hlt.
  unfold context_of. by rewrite Hq, decide_True.
Qed.

(** ** One lemma per kind of trap *)

Lemma device_step c (s s2 : St) c' s' :
  machine_inv (c, s) → sched_part s2 = sched_part (entered c s) → leave (cpc c) s2 = Done (c', s') →
  machine_inv (c', s') ∧ processors_of (c', s') = processors_of (c, s).
Proof.
  intros Hi Hp El. pose proof Hi as [Hs Hr Hc]. cbn [fst snd] in *.
  destruct (resumed c c s s2 (cpc c) Hi Hc Hp) as (Hl & Hi' & Ha).
  rewrite Hl in El. injection El as <- <-. split; [done|]. rewrite Ha.
  pose proof (own_context c s) as Hown. unfold processors_of in *. cbn [fst snd virtual] in *.
  destruct (current (k_table s.2)) as [i|] eqn:Hcur; [|done]. f_equal. apply list_insert_id. auto.
Qed.

(** The decision of [schedule], from a state whose contexts are all saved by
    it. *)
Lemma schedule_step c (s s1 : St) p none pc' s2 c' s' :
  machine_inv (c, s) → sched_part s1 = sched_part (entered c s) →
  (o ← schedule (cpc c);
   match o with
   | Some (next_frame, next_pc) => on_hart (set_mscratch next_frame);; mret next_pc
   | None => none
   end) s1 = Done (pc', s2) → leave pc' s2 = Done (c', s') →
  processors_of (c, s) = p →
  (∃ j, machine_inv (c', s') ∧ next_up p (Some j) ∧ processors_of (c', s') = mk_processors (virtual p) (Some j)) ∨
  (next_up p None ∧ none s1 = Done (pc', s2) ∧ on_cpu p = None).
Proof.
  intros Hi Hp Em El <-. pose proof Hi as [Hs Hr Hc]. cbn [fst snd] in *.
  pose proof (entered_inv c s Hs Hc) as [He _ Hk Hfr].
  injection Hp as Et _ Ef _. cbn [entered snd k_table] in Et, He, Hfr.
  rewrite <- Et in He, Hfr. change (wf_frame (TRAP_FRAME (k_hart (entered c s).2))) in Hk.
  assert (Hk1 : wf_frame (TRAP_FRAME (k_hart s1.2))) by (rewrite Ef; exact Hk). clear Hk.
  assert (Hr1 : all_running (k_table s1.2)) by (rewrite Et; by apply all_running_store).
  assert (Hnext : next_up (processors_of (c, s)) (next_slot (k_table s.2))).
  { apply next_up_slot; [apply Hs|]. intros i. apply ready_runnable; [apply Hs|done]. }
  rewrite <- (store_regs_next (x c)), <- Et in Hnext.
  rewrite (bind_done _ _ _ _ _ (schedule_in_kernel (cpc c) s1 He)) in Em.
  pose proof (schedule_next (cpc c) _ He) as Hn. rewrite <- Hn in Hnext. clear Hn.
  destruct (schedule_cases (cpc c) _ He) as [(k & p & E & _)|(E & Hcn & _)].
  - left. cbv zeta in E. revert E. generalize ((start_of (k_table s1.2) + k) mod 16)%nat. intros j E.
    rewrite E in Em, Hnext. cbn [fst snd current] in Em, Hnext.
    unfold on_hart in Em. rewrite bind_assoc, bind_get, bind_set in Em. injection Em as <- <-.
    destruct (rescheduled (cpc c) s1 j (pc p) _ c' s' He Hk1 Hfr Hr1 E El) as (Hi' & Hcur & Hctx).
    exists j. split; [done|]. split; [done|]. unfold processors_of. cbn [fst snd virtual]. rewrite Hcur.
    f_equal. apply contexts_ext. intros i. rewrite Hctx.
    rewrite <- (schedule_saves_contexts (k_table s.2) c i (sc_table _ Hs) Hc (sc_frames _ Hs)).
    by rewrite <- Et, E.
  - right. rewrite E in Em, Hnext. cbn [fst snd current] in Em, Hnext. split; [done|]. split.
    + rewrite <- Em. f_equal. destruct s1 as [f1 [v1 t1 h1]]. cbn in *. rewrite <- Hcn. by destruct t1.
    + cbn. by rewrite <- Hcn, Et, store_regs_current.
Qed.

Lemma keeps_rearm : keeps (rearm_timer (St:=St)).
Proof.
  intros s [] s' E. unfold rearm_timer in E. rewrite bind_get in E.
  apply bind_done_inv in E as (v & s1 & E1 & E2).
  unfold checked in E1. destruct (in_width _ _); [|destruct overflow_checks; [done|]];
    injection E1 as _ <-; by injection E2 as <-.
Qed.

Lemma timer_step c (s : St) pc' s2 c' s' :
  machine_inv (c, s) → timer_trap (cpc c) (entered c s) = Done (pc', s2) → leave pc' s2 = Done (c', s') →
  machine_inv (c', s') ∧ ∃ o, next_up (processors_of (c, s)) o ∧
    processors_of (c', s') = mk_processors (virtual (processors_of (c, s))) o.
Proof.
  intros Hi Em El. unfold timer_trap in Em. apply bind_done_inv in Em as ([] & s1 & E1 & Em).
  apply keeps_rearm in E1.
  destruct (schedule_step c s s1 _ _ pc' s2 c' s' Hi E1 Em El eq_refl)
    as [(j & Hi' & Hn & Hp)|(Hn & Hret & Hc)].
  - split; [done|]. by exists (Some j).
  - injection Hret as <- <-. destruct (device_step c s s1 c' s' Hi E1 El) as [Hi' Hp].
    split; [done|]. exists None. split; [done|]. rewrite Hp. unfold processors_of in *. cbn in *. by rewrite Hc.
Qed.

Lemma fault_step cause c (s : St) s2 c' s' :
  machine_inv (c, s) → ¬ async cause → code cause ∈ [5; 7; 12; 13; 15] →
  sched_part s2 = sched_part (entered c s) → leave (after (cpc c)) s2 = Done (c', s') →
  machine_inv (c', s') ∧ pstep (TrapOn cause) (processors_of (c, s)) (processors_of (c', s')).
Proof.
  intros Hi Ha Hc Hp El.
  destruct (resumed c c s s2 (after (cpc c)) Hi (mi_cpu _ Hi) Hp) as (Hl & Hi' & Hpr).
  rewrite Hl in El. injection El as <- <-. split; [done|]. rewrite Hpr.
  destruct (current (k_table s.2)) as [i|] eqn:Hcur; [|by apply ps_fault_idle].
  eapply ps_fault; [done|done|done|]. by apply own_context.
Qed.

Context (Hbd : ∀ d b n o, keeps (bd_read (S:=St) d b n o)).

Lemma call_step cause c (s : St) num pc' s2 c' s' :
  machine_inv (c, s) → ¬ async cause → code cause ∈ [8; 9] → x c !! 10%nat = Some num → num ≠ 93 →
  do_syscall (cpc c) (ptr_of (current (k_table s.2))) (entered c s) = Done (pc', s2) →
  leave pc' s2 = Done (c', s') →
  machine_inv (c', s') ∧ pstep (TrapOn cause) (processors_of (c, s)) (processors_of (c', s')).
Proof.
  intros Hi Ha Hc H10 H93 Em El.
  destruct (syscall_result Hbd c s num pc' s2 (mi_sched _ Hi) (mi_cpu _ Hi) H10 H93 Em) as (-> & v & Hv & Hw & Hp).
  destruct (resumed c _ s s2 ((cpc c + 4) mod 2 ^ 64) Hi (set_a0_wf c v (mi_cpu _ Hi)) Hp) as (Hl & Hi' & Hpr).
  rewrite Hl in El. injection El as <- <-. split; [done|]. cbn [x cpc] in Hpr. rewrite Hpr.
  destruct (current (k_table s.2)) as [i|] eqn:Hcur; [|by apply ps_call_idle].
  eapply ps_call; [done|done|done|by apply own_context|done|done|done|done].
Qed.

(** [exit] from the idle loop only reschedules. *)
Lemma idle_exit_step cause c (s : St) pc' s2 c' s' :
  machine_inv (c, s) → ¬ async cause → code cause ∈ [8; 9] → x c !! 10%nat = Some 93 →
  current (k_table s.2) = None →
  do_syscall (cpc c) (ptr_of (current (k_table s.2))) (entered c s) = Done (pc', s2) →
  leave pc' s2 = Done (c', s') →
  machine_inv (c', s') ∧ pstep (TrapOn cause) (processors_of (c, s)) (processors_of (c', s')).
Proof.
  intros Hi Ha Hc H10 Hcur Em El. pose proof Hi as [Hs _ Hcpu]. cbn [fst snd] in *.
  destruct (load_current (entered c s) c s Hs eq_refl Hcpu) as (f & Ef & Hf10 & _).
  rewrite H10 in Hf10. unfold do_syscall in Em. rewrite (bind_done _ _ _ _ _ Ef) in Em.
  rewrite (reg_of_lookup _ _ _ Hf10) in Em. cbn [Z.eqb Pos.eqb] in Em.
  assert (Ex : exit_current (entered c s) = Done (None, entered c s)).
  { assert (Hn : current (store_regs (x c) (k_table s.2)) = None) by (by rewrite store_regs_current).
    unfold exit_current. rewrite bind_get. change (view (entered c s)) with (store_regs (x c) (k_table s.2)).
    unfold check_current, exit_table. rewrite Hn, bind_ret, bind_set. reflexivity. }
  rewrite (bind_done _ _ _ _ _ Ex), bind_ret in Em.
  destruct (schedule_step c s (entered c s) _ _ pc' s2 c' s' Hi eq_refl Em El eq_refl)
    as [(j & Hi' & Hn & Hp)|(_ & Hd & _)]; [|done].
  split; [done|]. rewrite Hp. by apply ps_exit_idle.
Qed.

(** The contexts left by [exit]. *)
Lemma exit_contexts t c i q :
  current t = Some i → slots t !! i = Some (Some q) →
  contexts (exit_table t).2 c = <[i := None]> (contexts t c).
Proof.
  intros Hc Hq. destruct (exit_store_regs [] t i q Hc Hq) as [_ ->]. cbn [snd].
  rewrite (contexts_insert t c _ _ i).
  - f_equal. unfold context_of. cbn [slots].
    by rewrite list_lookup_insert_eq by (by eapply lookup_lt_Some).
  - intros j Hj. unfold context_of. cbn [slots current]. rewrite list_lookup_insert_ne by done.
    destruct (slots t !! j) as [[?|]|]; try done. by rewrite !decide_False by congruence.
Qed.

Lemma exit_step cause c (s : St) i pc' s2 c' s' :
  machine_inv (c, s) → ¬ async cause → code cause ∈ [8; 9] → x c !! 10%nat = Some 93 →
  current (k_table s.2) = Some i →
  do_syscall (cpc c) (ptr_of (current (k_table s.2))) (entered c s) = Done (pc', s2) →
  leave pc' s2 = Done (c', s') →
  machine_inv (c', s') ∧ pstep (TrapOn cause) (processors_of (c, s)) (processors_of (c', s')).
Proof.
  intros Hi Ha Hc H10 Hcur Em El. pose proof Hi as [Hs Hr Hcpu]. cbn [fst snd] in *.
  destruct (proj1 (runnable_lookup _ _) (wf_cur _ (sc_table _ Hs) i Hcur)) as (q & Hq & _).
  rewrite (exit_call c s i q Hs Hcpu H10 Hcur Hq) in Em.
  apply bind_done_inv in Em as (u & s1 & Ep & Em). apply keeps_print in Ep as Hk.
  injection Hk as Et _ Ek _.
  pose proof (exit_contexts _ c i q Hcur Hq) as Hctx.
  destruct (exit_store_regs [] _ i q Hcur Hq) as [_ Ex].
  destruct (exited_wf s i q Hs Hcur Hq) as [Hwf1 Hf1].
  assert (Hk1 : wf_frame (TRAP_FRAME (k_hart s1.2))) by (rewrite Ek; apply Hs).
  change (k_table (exited s).2) with (exit_table (k_table s.2)).2 in Et, Hwf1, Hf1.
  set (t1 := (exit_table (k_table s.2)).2) in *.
  assert (Hr1 : all_running t1).
  { intros k p Hp. eapply Hr, (exit_subtable _ i q k p Hcur Hq Hp). }
  assert (Hn : current t1 = None) by (unfold t1; by rewrite Ex).
  assert (Hnext : next_up (mk_processors (<[i := None]> (contexts (k_table s.2) c)) None) (next_slot t1)).
  { rewrite <- Hctx, <- Hn. apply next_up_slot; [exact Hwf1|]. intros k. by apply ready_runnable. }
  rewrite (bind_done _ _ _ _ _ (schedule_in_kernel (cpc c) s1 ltac:(by rewrite Et))), Et in Em. rewrite <- (schedule_next (cpc c) t1 Hwf1) in Hnext.
  destruct (schedule_cases (cpc c) t1 Hwf1) as [(k & p & Es & _)|(Es & _ & _)]; [|by rewrite Es in Em].
  cbv zeta in Es. revert Es. generalize ((start_of t1 + k) mod 16)%nat. intros j Es.
  rewrite Es in Em, Hnext. cbn [fst snd current] in Em, Hnext.
  unfold on_hart in Em. rewrite bind_assoc, bind_get, bind_set in Em. injection Em as <- <-.
  rewrite <- Et in Hwf1, Hf1, Hr1. rewrite <- Et in Es at 1.
  destruct (rescheduled (cpc c) s1 j (pc p) _ c' s' Hwf1 Hk1 Hf1 Hr1 Es El) as (Hi' & Hcj & Hsv).
  split; [done|].
  assert (Hp' : processors_of (c', s') = mk_processors (<[i := None]> (contexts (k_table s.2) c)) (Some j)).
  { unfold processors_of. cbn [fst snd]. rewrite Hcj, <- Hctx. f_equal. apply contexts_ext. intros k'.
    rewrite Hsv. unfold saved_context, context_of, save_pc. cbn [slots]. rewrite Hn.
    destruct (_ !! k') as [[?|]|]; try done. }
  rewrite Hp'. exact (ps_exit cause (processors_of (c, s)) i _ _ j Ha Hc Hcur (own_context c s i Hi Hcur) H10 Hnext).
Qed.

(** ** Every trap is a step of the abstract machine *)

Lemma syscall_step cause c (s : St) pc' s2 c' s' :
  machine_inv (c, s) → ¬ async cause → code cause ∈ [8; 9] →
  do_syscall (cpc c) (ptr_of (current (k_table s.2))) (entered c s) = Done (pc', s2) →
  leave pc' s2 = Done (c', s') →
  machine_inv (c', s') ∧ pstep (TrapOn cause) (processors_of (c, s)) (processors_of (c', s')).
Proof.
  intros Hi Ha Hc Em El.
  destruct (lookup_lt_is_Some_2 (x c) 10%nat) as [num H10].
  { pose proof (mi_cpu _ Hi) as [Hl _]. cbn [fst] in Hl. rewrite Hl. lia. }
  destruct (decide (num = 93)) as [->|H93]; [|by eapply call_step].
  destruct (current (k_table s.2)) as [i|] eqn:Hcur.
  - rewrite <- Hcur in Em. by eapply exit_step.
  - rewrite <- Hcur in Em. by eapply idle_exit_step.
Qed.

Ltac listed := rewrite !elem_of_cons; auto 8.

(** A branch of the dispatcher that skips the faulting instruction. *)
Ltac skipped :=
  match goal with
  | Hskip : context [checked], Ec : code ?cause = _, Em : _ = Done _ |- _ =>
      first
        [ refine (Hskip _ _ _ _ Em); [done|done|rewrite Ec; listed]
        | apply bind_done_inv in Em as (? & ? & ?Ee & Em); apply keeps_print in Ee;
          refine (Hskip _ _ _ _ Em); [done|done|rewrite Ec; listed] ]
  end.

Lemma trap_step cause tval c (s : St) c' s' :
  machine_inv (c, s) → trap_vector cause tval c s = Done (c', s') →
  machine_inv (c', s') ∧ pstep (TrapOn cause) (processors_of (c, s)) (processors_of (c', s')).
Proof.
  intros Hi E. pose proof Hi as [Hs _ Hcpu]. cbn [fst snd] in *.
  rewrite trap_vector_enter in E by done. apply bind_done_inv in E as (pc' & s2 & Em & El).
  assert (Hskip : ∀ (s1 : St), sched_part s1 = sched_part (entered c s) → ¬ async cause →
    code cause ∈ [5; 7; 12; 13; 15] → checked 64 (cpc c + 4) s1 = Done (pc', s2) →
    machine_inv (c', s') ∧ pstep (TrapOn cause) (processors_of (c, s)) (processors_of (c', s'))).
  { intros s1 Hp Ha Hc Ec. apply checked_mod in Ec as [-> ->]. by eapply fault_step. }
  unfold m_trap in Em. fold (code cause) in Em. cbv zeta in Em.
  destruct (Z.eqb_spec (Z.land (Z.shiftr cause 63) 1) 1) as [Ha|Ha];
    [change (async cause) in Ha|change (¬ async cause) in Ha].
  - assert (Hdev : code cause ∈ [3; 11] → pc' = cpc c → sched_part s2 = sched_part (entered c s) →
      machine_inv (c', s') ∧ pstep (TrapOn cause) (processors_of (c, s)) (processors_of (c', s'))).
    { intros Hc -> Hp. destruct (device_step c s s2 c' s' Hi Hp El) as [? ->]. split; [done|]. by apply ps_device. }
    destruct (Z.eqb_spec (code cause) 3) as [E3|_].
    { apply bind_done_inv in Em as (u & s1 & Ee & Em). injection Em as <- <-.
      apply Hdev; [rewrite E3; listed|done|]. exact (keeps_print _ _ _ _ _ Ee). }
    destruct (Z.eqb_spec (code cause) 7) as [E7|_].
    { destruct (timer_step c s pc' s2 c' s' Hi Em El) as (? & o & Ho & ->). split; [done|]. by apply ps_tick. }
    destruct (Z.eqb_spec (code cause) 11) as [E11|_]; [|done].
    apply bind_done_inv in Em as (? & ? & Ee & Em). injection Em as <- <-.
    apply Hdev; [rewrite E11; listed|done|]. exact (keeps_handle_external _ _ _ Ee).
  - destruct (Z.eqb_spec (code cause) 2); [done|].
    destruct (Z.eqb_spec (code cause) 8) as [E8|_], (Z.eqb_spec (code cause) 9) as [E9|_]; cbn [orb] in Em;
      try (eapply syscall_step; [done|done| |done|done]; rewrite ?E8, ?E9; listed).
    destruct (Z.eqb_spec (code cause) 11); [done|].
    destruct (Z.eqb_spec (code cause) 12) as [Ec|_]; [skipped|].
    destruct (Z.eqb_spec (code cause) 13) as [Ec|_]; [skipped|].
    destruct (Z.eqb_spec (code cause) 5) as [Ec|_]; [skipped|].
    destruct (Z.eqb_spec (code cause) 7) as [Ec|_]; [skipped|]. cbn [orb] in Em.
    destruct (Z.eqb_spec (code cause) 15) as [Ec|_]; [skipped|done].
Qed.

Lemma run_step c c' (s s' : St) :
  machine_inv (c, s) → wf_cpu c' → word_context (x c', cpc c') → sched_part s' = sched_part s →
  machine_inv (c', s') ∧ pstep Run (processors_of (c, s)) (processors_of (c', s')).
Proof.
  intros Hi Hc' Hw E. pose proof Hi as [[Ht Hp Hk Hf] Hr _]. cbn [fst snd] in *. injection E as Et Ep Ek _.
  split; [split; [split|..]; cbn [fst snd]; rewrite ?Et, ?Ep, ?Ek; done|].
  unfold processors_of. cbn [fst snd]. rewrite Et.
  assert (Hext : ∀ j, current (k_table s.2) ≠ Some j →
    context_of (k_table s.2) c' j = context_of (k_table s.2) c j).
  { intros j Hj. unfold context_of. destruct (_ !! j) as [[?|]|]; try done. by rewrite !decide_False. }
  destruct (current (k_table s.2)) as [i|] eqn:Hcur.
  - rewrite (contexts_insert (k_table s.2) c _ c' i) by (intros j Hj; apply Hext; congruence).
    pose proof (own_context c s i Hi Hcur) as Hown.
    unfold context_of. destruct (proj1 (runnable_lookup _ _) (wf_cur _ Ht i Hcur)) as (q & -> & _).
    rewrite decide_True by done. refine (ps_run (mk_processors _ _) i _ _ _ _); [done| |done].
    unfold processors_of in Hown. by eexists.
  - rewrite (contexts_ext (k_table s.2) c _ c') by (intros j; by apply Hext). by apply ps_run_idle.
Qed.

Lemma step_refines e x x' :
  machine_inv x → mstep e x x' → machine_inv x' ∧ pstep e (processors_of x) (processors_of x').
Proof. intros Hi Hm. destruct Hm; [by apply run_step|by eapply trap_step]. Qed.

Lemma same_context (x x' : cpu * St) i :
  machine_inv x → machine_inv x' →
  virtual (processors_of x') !! i = virtual (processors_of x) !! i →
  context_of (k_table x'.2.2) x'.1 i = context_of (k_table x.2.2) x.1 i.
Proof.
  intros Hx Hx'. cbn [processors_of virtual]. destruct (decide (i < 16)%nat) as [Hi|Hi].
  - rewrite !contexts_lookup by done. by intros [= E].
  - intros _. unfold context_of.
    rewrite !lookup_ge_None_2; [done|pose proof (wf_len _ (sc_table _ (mi_sched _ Hx)));
      pose proof (wf_len _ (sc_table _ (mi_sched _ Hx')));
      unfold MAX_PROCESSES in *; lia..].
Qed.

(** Events during which slot [i] is not on the CPU; the last may put it
    there. *)
Inductive off_cpu (i : nat) : list event → cpu * St → cpu * St → Prop :=
| off_nil x : off_cpu i [] x x
| off_cons e es x x' x'' : current (k_table x.2.2) ≠ Some i → mstep e x x' →
    off_cpu i es x' x'' → off_cpu i (e :: es) x x''.

Lemma off_cpu_kept i es x x' :
  machine_inv x → off_cpu i es x x' →
  machine_inv x' ∧ virtual (processors_of x') !! i = virtual (processors_of x) !! i.
Proof.
  intros Hi Ho. revert Hi. induction Ho as [x|e es x y z Hoff Hxy _ IH]; intros Hi; [done|].
  destruct (step_refines e x y Hi Hxy) as [Hy Hp]. destruct (IH Hy) as [Hz ->].
  split; [done|]. by eapply pstep_isolated.
Qed.

(** C15. Preemption is invisible: from the tick that takes a process off the
    CPU until the step that puts it back, through any number of interrupts,
    faults and system calls of the processes that run meanwhile, its
    registers and PC are the ones it was interrupted with. *)
Theorem preempted_context_kept i cause es x x1 x2 :
  machine_inv x → async cause → code cause = 7 →
  mstep (TrapOn cause) x x1 → off_cpu i es x1 x2 →
  context_of (k_table x2.2.2) x2.1 i = context_of (k_table x.2.2) x.1 i.
Proof.
  intros Hi Ha H7 Hm Ho. destruct (step_refines _ _ _ Hi Hm) as [Hi1 Hp].
  destruct (off_cpu_kept i es x1 x2 Hi1 Ho) as [Hi2 Hv].
  apply same_context; [done|done|]. rewrite Hv.
  by rewrite (tick_keeps_contexts cause _ _ Ha H7 Hp).
Qed.

(** C31. Registers and program counters are 64-bit words: if those of every
    process are, they stay so through any computation and traps; in
    particular the PC after a fault or a call, which wraps, and the count
    [read] puts in [a0], whatever the disk holds. *)
Theorem contexts_stay_words es x x' :
  machine_inv x → typed (processors_of x) → msteps es x x' → typed (processors_of x').
Proof.
  intros Hi Ht Hs. revert Hi Ht. induction Hs as [x|e es x y z Hxy _ IH]; intros Hi Ht; [done|].
  destruct (step_refines e x y Hi Hxy) as [Hy Hp]. apply (IH Hy). by eapply pstep_typed.
Qed.

(** C3. The kernel refines the machine of virtual processors: over any
    sequence of computation and traps that the handlers survive, the
    contexts of the processes and the slot on the CPU go through exactly the
    steps of the abstract machine, whatever the file system, the block driver
    and the console did in between, and the scheduler's invariant holds at
    the end. *)
Theorem kernel_refines_processors es x x' :
  machine_inv x → msteps es x x' →
  psteps es (processors_of x) (processors_of x') ∧ machine_inv x'.
Proof.
  intros Hi Hs. revert Hi. induction Hs as [x|e es x y z Hxy _ IH]; intros Hi; [by split; [constructor|]|].
  destruct (step_refines e x y Hi Hxy) as [Hy Hp]. destruct (IH Hy) as [Hps Hz].
  split; [by econstructor|done].
Qed.
End machine.
