(* ===== verification/SyscallProps.v ===== *)
(** * The [read] system call, end to end

    [sys_read] (mount, inode lookup, file read into the caller's buffer)
    against the frame-allocator and block-device interfaces. *)

From S2P Require Import Prelude Frames Bytes BlockDev Minix3 Minix3Read Trap.

Section sys_read.
Context `{Profile} {St : Type} `{FrameAllocatorLaws St}.
Context `{!BlockReader St} `{!BlockReaderLaws St}.

(** The caller's buffer lies in one of its own runs. *)
Definition user_buffer (h d : gmap Z Z) (buffer size : Z) : Prop :=
  0 < buffer ∧ 0 <= size ∧
  ∃ p n, h !! p = Some n ∧ d !! p = None ∧ p <= buffer ∧ buffer + size <= p + n * PAGE_SIZE.

(** What the call returns and puts at the start of the buffer. *)
Definition sys_read_result (dv ino size offset : Z) : option (Z * (Z → Z)) :=
  match mount_result dv with
  | Err _ => None
  | Ok fs =>
      match read_inode_result fs ino with
      | Err _ => None
      | Ok node => Some (Z.max 0 (Z.min size (Minix3.size node - offset)), file_byte (dev fs) node)
      end
  end.

Lemma filled_lookup fs node offset out want j :
  0 <= want <= Z.of_nat (length out) → 0 <= j < Z.of_nat (length out) →
  slice_at (filled fs node offset out want) j =
  if decide (j < want) then file_byte (dev fs) node (offset + j) else slice_at out j.
Proof.
  intros Hw Hj. unfold slice_at, filled. rewrite (proj2 (Z.ltb_ge _ _)) by lia.
  case_decide.
  - rewrite lookup_app_l by (rewrite bytes_from_length; lia).
    rewrite bytes_from_lookup by lia. cbn. f_equal. lia.
  - rewrite lookup_app_r by (rewrite bytes_from_length; lia).
    rewrite bytes_from_length, lookup_drop. do 2 f_equal. lia.
Qed.

Lemma mount_result_dev dv fs : mount_result dv = Ok fs → dev fs = dv ∧ wf_sb (sb fs).
Proof.
  unfold mount_result. repeat case_match; try done. intros [= <-]. cbn.
  split; [done|apply super_block_wf].
Qed.

Lemma read_inode_result_wf fs n node : read_inode_result fs n = Ok node → wf_inode node.
Proof.
  unfold read_inode_result. repeat case_match; try done. intros [= <-].
  apply inode_at_wf, bd_disk_byte.
Qed.

(** Lending the buffer to [read_file] and storing the slice back. *)
Lemma with_slice_wp E (s : St) h d n fs node offset buffer size :
  world s h d → fa_room s (S (S (S (S (S n))))) → user_buffer h d buffer size →
  wf_inode node → 0 <= offset < 2 ^ 32 → size < 2 ^ 32 →
  let want := Z.max 0 (Z.min size (Minix3.size node - offset)) in
  dense (dev fs) node (offset + want) →
  wp E (with_slice buffer size (read_file fs node offset)) (λ r s',
    r = Ok want ∧ world s' h d ∧ fa_room s' (S (S (S (S (S n))))) ∧
    (∀ j, 0 <= j < want → byte_at (fa_ram s') (buffer + j) = file_byte (dev fs) node (offset + j)) ∧
    (∀ p m a, h !! p = Some m → d !! p = None → in_run p m a →
       a < buffer ∨ buffer + want <= a → byte_at (fa_ram s') a = byte_at (fa_ram s) a)) s.
Proof.
  intros Hw Hroom (Hb0 & Hs0 & p & np & Hp & Hdp & Hlo & Hhi) Hnode Hoff Hsz want Hdense.
  unfold with_slice. rewrite (proj2 (Z.eqb_neq _ _)), (fa_managed s h p np), andb_false_r by (apply Hw || lia || done).
  apply wp_bind, wp_gets.
  set (out := bytes_from (byte_at (fa_ram s)) buffer (Z.to_nat size)).
  assert (Hlen : Z.of_nat (length out) = size) by (unfold out; rewrite bytes_from_length; lia).
  assert (Hwin : window node offset out = want).
  { unfold window, want. rewrite Hlen, Z.mod_small by lia. done. }
  assert (Hwant : 0 <= want <= size) by (unfold want; lia).
  pose proof (read_file_wp E s h d n fs node offset out) as Hrf. cbv zeta in Hrf. rewrite Hwin in Hrf.
  apply wp_bind. eapply wp_mono; [by apply Hrf|]. cbn beta.
  intros r s1 ((Hrep1 & Hown1 & Hd) & Hroom1 & Hst & ->). cbn [fst snd].
  assert (Hf : byteful (slice_at (filled fs node offset out want))).
  { intros a. destruct (Z.lt_ge_cases a 0) as [Hn|Hn].
    { unfold slice_at. rewrite (proj2 (Z.ltb_lt _ _)) by done. lia. }
    destruct (Z.lt_ge_cases a (Z.of_nat (length out))).
    - rewrite filled_lookup by lia. case_decide; [apply bd_disk_byte|].
      unfold slice_at, out. rewrite (proj2 (Z.ltb_ge _ _)) by lia.
      rewrite bytes_from_lookup by lia. apply byte_at_byteful.
    - unfold slice_at. rewrite (proj2 (Z.ltb_ge _ _)) by lia.
      rewrite (proj2 (lookup_ge_None _ _)); [cbn; lia|].
      unfold filled. rewrite length_app, bytes_from_length, length_drop. lia. }
  apply wp_bind, wp_modify, wp_ret. rewrite fa_ram_set.
  set (m' := copy_bytes _ _ _ _ _).
  assert (Hm' : ∀ a, byte_at m' a = if decide (buffer <= a < buffer + size)
     then slice_at (filled fs node offset out want) (a - buffer) else byte_at (fa_ram s1) a).
  { intros a. unfold m'. rewrite byte_at_copy_bytes by done. rewrite Z2Nat.id by lia.
    by rewrite Z.add_0_l. }
  split_and!; try done.
  - split; [by apply fa_rep_set|]. split; [|done].
    apply bd_own_store; [done|]. intros q nq a Hq Ha. rewrite Hm', decide_False; [done|].
    intros Hin. assert (Hne : p ≠ q) by congruence.
    pose proof (lookup_weaken _ _ _ _ Hq Hd) as Hq'. unfold in_run in Ha.
    destruct (fa_disjoint s1 h p np q nq Hrep1 Hp Hq' Hne); lia.
  - by apply fa_room_set.
  - intros j Hj. rewrite Hm', decide_True by lia. replace (buffer + j - buffer) with j by lia.
    rewrite filled_lookup by lia. by rewrite decide_True by lia.
  - intros q nq a Hq Hdq Ha Hout. rewrite Hm'. case_decide as Hin.
    + rewrite filled_lookup by lia. rewrite decide_False by lia.
      unfold slice_at, out. rewrite (proj2 (Z.ltb_ge _ _)) by lia.
      rewrite bytes_from_lookup by lia. cbn. f_equal. lia.
    + by apply (Hst q nq).
Qed.

(** C2. The [read] system call, end to end: on a mounted Minix 3 image whose
    inode exists and whose file has no hole in the requested window, the call
    returns exactly the number of bytes available, puts those bytes of the
    file at the start of the caller's buffer, changes no other memory any
    process owns, and gives back every page it used; when the image cannot be
    mounted or the inode does not exist it returns 0 and leaves the buffer
    alone. *)
Theorem sys_read_delivers_file (s : St) h d dv ino buffer size offset :
  world s h d → fa_room s 5 → user_buffer h d buffer size →
  0 <= ino < 2 ^ 32 → 0 <= offset < 2 ^ 32 → size < 2 ^ 32 →
  match mount_result dv with
  | Err _ => True
  | Ok fs => match read_inode_result fs ino with
             | Err _ => True
             | Ok node => dense dv node
                 (offset + Z.max 0 (Z.min size (Minix3.size node - offset)))
             end
  end →
  ∃ s', sys_read dv ino buffer size offset s =
      Done (match sys_read_result dv ino size offset with Some (n, _) => n | None => 0 end, s') ∧
    world s' h d ∧ fa_room s' 5 ∧
    let n := match sys_read_result dv ino size offset with Some (n, _) => n | None => 0 end in
    (∀ j f, sys_read_result dv ino size offset = Some (n, f) → 0 <= j < n →
       byte_at (fa_ram s') (buffer + j) = f (offset + j)) ∧
    (∀ p m a, h !! p = Some m → d !! p = None → in_run p m a →
       a < buffer ∨ buffer + n <= a → byte_at (fa_ram s') a = byte_at (fa_ram s) a).
Proof.
  intros Hw Hroom Hub Hino Hoff Hsz Hd.
  enough (Hwp : wp none (sys_read dv ino buffer size offset) (λ r s',
    r = match sys_read_result dv ino size offset with Some (n, _) => n | None => 0 end ∧
    world s' h d ∧ fa_room s' 5 ∧
    (∀ j f, sys_read_result dv ino size offset = Some (r, f) → 0 <= j < r →
       byte_at (fa_ram s') (buffer + j) = f (offset + j)) ∧
    (∀ p m a, h !! p = Some m → d !! p = None → in_run p m a →
       a < buffer ∨ buffer + r <= a → byte_at (fa_ram s') a = byte_at (fa_ram s) a)) s).
  { apply wp_none in Hwp as (r & s' & E & -> & ?). eauto. }
  unfold sys_read_result, sys_read. apply wp_bind.
  eapply wp_mono; [by apply mount_wp|]. cbn beta. intros r s1 (Hw1 & Hroom1 & Hst1 & ->).
  destruct (mount_result dv) as [fs|e] eqn:Em.
  2: { apply wp_ret. split_and!; try done. intros p m a Hp Hdp Ha _. by apply (Hst1 p m). }
  destruct (mount_result_dev _ _ Em) as [Hdev Hsb].
  apply wp_bind. eapply wp_mono; [by apply read_inode_wp|]. cbn beta.
  intros r s2 (Hw2 & Hroom2 & Hst2 & ->).
  pose proof (stays_trans _ _ _ _ _ Hst1 Hst2) as Hst.
  destruct (read_inode_result fs ino) as [node|e] eqn:Ei.
  2: { apply wp_ret. split_and!; try done. intros p m a Hp Hdp Ha _. by apply (Hst p m). }
  apply wp_bind. eapply wp_mono.
  { apply (with_slice_wp none s2 h d 0); try done; [by eapply read_inode_result_wf|by rewrite Hdev]. }
  cbn beta. intros r s3 (-> & Hw3 & Hroom3 & Hdata & Hkeep). apply wp_ret.
  split_and!; try done.
  - intros j f [= <-] Hj. by apply Hdata.
  - intros p m a Hp Hdp Ha Hout. rewrite (Hkeep p m a) by done. by apply (Hst p m).
Qed.
End sys_read.
