(* ===== verification/Elf.v ===== *)
(** * The ELF64 reader: [src/src/exec/elf.rs]

    [parse] and [program_headers] on a slice: its address and its bytes.  A
    reference made from a pointer that is not aligned or does not lie inside
    the slice is undefined behaviour. *)

From S2P Require Import Prelude Bytes.

Definition MAGIC : Z := 0x464c457f.
Definition MACHINE_RISCV : Z := 0xf3.
Definition TYPE_EXEC : Z := 2.
Definition PT_LOAD : Z := 1.
Definition PROG_EXECUTE : Z := 1.
Definition PROG_WRITE : Z := 2.
Definition PROG_READ : Z := 4.

Record Header : Type := {
  magic : Z; bitsize : Z; endian : Z; ident_abi_version : Z; target_platform : Z;
  abi_version : Z; obj_type : Z; machine : Z; version : Z; entry_addr : Z; phoff : Z;
  shoff : Z; flags : Z; ehsize : Z; phentsize : Z; phnum : Z; shentsize : Z; shnum : Z;
  shstrndx : Z }.

Definition HEADER_SIZE : Z := 64.

Definition header_at (f : Z → Z) (a : Z) : Header := {|
  magic := u32_at f a; bitsize := u8_at f (a + 4); endian := u8_at f (a + 5);
  ident_abi_version := u8_at f (a + 6); target_platform := u8_at f (a + 7);
  abi_version := u8_at f (a + 8);
  obj_type := u16_at f (a + 16); machine := u16_at f (a + 18); version := u32_at f (a + 20);
  entry_addr := u64_at f (a + 24); phoff := u64_at f (a + 32); shoff := u64_at f (a + 40);
  flags := u32_at f (a + 48); ehsize := u16_at f (a + 52); phentsize := u16_at f (a + 54);
  phnum := u16_at f (a + 56); shentsize := u16_at f (a + 58); shnum := u16_at f (a + 60);
  shstrndx := u16_at f (a + 62) |}.

Record ProgramHeader : Type := {
  seg_type : Z; p_flags : Z; off : Z; vaddr : Z; paddr : Z; filesz : Z; memsz : Z; align : Z }.

Definition PROGRAM_HEADER_SIZE : Z := 56.

Definition program_header_at (f : Z → Z) (a : Z) : ProgramHeader := {|
  seg_type := u32_at f a; p_flags := u32_at f (a + 4); off := u64_at f (a + 8);
  vaddr := u64_at f (a + 16); paddr := u64_at f (a + 24); filesz := u64_at f (a + 32);
  memsz := u64_at f (a + 40); align := u64_at f (a + 48) |}.

Inductive ElfError : Type := BadMagic | NotRiscv | NotExecutable | Truncated.

#[global] Instance ElfError_eq_dec : EqDecision ElfError.
Proof. solve_decision. Defined.

(** [usize::checked_add] *)
Definition checked_add (a b : Z) : option Z := if a + b <? 2 ^ 64 then Some (a + b) else None.

Section elf.
Context `{Profile} {St : Type}.

(** [&*(buf.as_ptr().add(o) as *const T)] for a [T] of [n] bytes aligned to
    eight, in the slice of [len] bytes at [ptr]. *)
Definition deref {A} (decode : (Z → Z) → Z → A) (n ptr : Z) (buf : list Z) (o : Z) : M St A :=
  if ((ptr + o) mod 8 =? 0) && (o + n <=? Z.of_nat (length buf))
  then mret (decode (slice_at buf) o) else undefined.

Definition parse (ptr : Z) (buf : list Z) : M St (result Header ElfError) :=
  if Z.of_nat (length buf) <? HEADER_SIZE then mret (Err Truncated) else
  hdr ← deref header_at HEADER_SIZE ptr buf 0;
  if negb (magic hdr =? MAGIC) then mret (Err BadMagic) else
  if negb (machine hdr =? MACHINE_RISCV) then mret (Err NotRiscv) else
  if negb (obj_type hdr =? TYPE_EXEC) then mret (Err NotExecutable) else
  n ← checked 64 (phnum hdr * phentsize hdr);
  match checked_add (phoff hdr) n with
  | None => mret (Err Truncated)
  | Some ph_end =>
      if Z.of_nat (length buf) <? ph_end then mret (Err Truncated) else mret (Ok hdr)
  end.

(** Item [i] of the iterator. *)
Definition program_header (ptr : Z) (buf : list Z) (hdr : Header) (i : Z) : M St ProgramHeader :=
  d ← checked 64 (i * PROGRAM_HEADER_SIZE);
  o ← checked 64 (phoff hdr + d);
  deref program_header_at PROGRAM_HEADER_SIZE ptr buf o.

(** The iterator run to its end. *)
Fixpoint collect {A} (l : list (M St A)) : M St (list A) :=
  match l with
  | [] => mret []
  | m :: l' => a ← m; r ← collect l'; mret (a :: r)
  end.

Definition program_headers (ptr : Z) (buf : list Z) (hdr : Header) : M St (list ProgramHeader) :=
  collect ((λ i : nat, program_header ptr buf hdr (Z.of_nat i)) <$> seq 0 (Z.to_nat (phnum hdr))).

(** ** Properties *)

(** The bytes of a slice are bytes. *)
Definition byte_slice (buf : list Z) : Prop := Forall (λ b, 0 <= b < 256) buf.

Lemma slice_byteful buf : byte_slice buf → byteful (slice_at buf).
Proof.
  intros Hb a. unfold slice_at. destruct (a <? 0); [lia|].
  destruct (buf !! Z.to_nat a) as [b|] eqn:E; cbn; [|lia]. by eapply Forall_lookup_1 in Hb.
Qed.

Lemma header_ranges buf a : byte_slice buf →
  let hdr := header_at (slice_at buf) a in
  0 <= phoff hdr < 2 ^ 64 ∧ 0 <= phnum hdr < 2 ^ 16 ∧ 0 <= phentsize hdr < 2 ^ 16.
Proof.
  intros Hb. apply slice_byteful in Hb. cbn.
  split_and!; (apply u64_range || apply u16_range); done.
Qed.

(** C34. [parse] accepts exactly the slices that hold a whole header with the
    ELF magic, for RISC-V, of an executable, whose program-header table, as
    the header describes it, ends inside the slice; no header makes its
    arithmetic overflow, and the first check that fails decides the error. *)
Theorem parse_accepts ptr buf (s : St) :
  byte_slice buf → ptr mod 8 = 0 →
  let hdr := header_at (slice_at buf) 0 in
  let len := Z.of_nat (length buf) in
  parse ptr buf s = Done (
    if decide (len < 64) then Err Truncated
    else if decide (magic hdr ≠ MAGIC) then Err BadMagic
    else if decide (machine hdr ≠ MACHINE_RISCV) then Err NotRiscv
    else if decide (obj_type hdr ≠ TYPE_EXEC) then Err NotExecutable
    else if decide (phoff hdr + phnum hdr * phentsize hdr <= len ∧
                    phoff hdr + phnum hdr * phentsize hdr < 2 ^ 64) then Ok hdr
    else Err Truncated, s).
Proof.
  intros Hb Hp hdr len. destruct (header_ranges buf 0 Hb) as (H1 & H2 & H3).
  fold hdr in H1, H2, H3. unfold parse, HEADER_SIZE. fold len.
  destruct (Z.ltb_spec len 64); [by rewrite decide_True|]. rewrite decide_False by lia.
  rewrite (bind_done _ _ s hdr s).
  2: { unfold deref. rewrite Z.add_0_r, Hp, Z.add_0_l. fold len.
       by rewrite (proj2 (Z.leb_le _ _)). }
  destruct (Z.eqb_spec (magic hdr) MAGIC); cbn [negb];
    [rewrite (decide_False (P := magic hdr ≠ _)) by tauto|by rewrite decide_True].
  destruct (Z.eqb_spec (machine hdr) MACHINE_RISCV); cbn [negb];
    [rewrite (decide_False (P := machine hdr ≠ _)) by tauto|by rewrite decide_True].
  destruct (Z.eqb_spec (obj_type hdr) TYPE_EXEC); cbn [negb];
    [rewrite (decide_False (P := obj_type hdr ≠ _)) by tauto|by rewrite decide_True].
  rewrite (bind_done _ _ s (phnum hdr * phentsize hdr) s) by (apply checked_ok; nia).
  unfold checked_add. destruct (Z.ltb_spec (phoff hdr + phnum hdr * phentsize hdr) (2 ^ 64)).
  - destruct (Z.ltb_spec len (phoff hdr + phnum hdr * phentsize hdr)).
    + by rewrite decide_False by lia.
    + by rewrite decide_True.
  - by rewrite decide_False by lia.
Qed.
Lemma collect_all {A} (f : nat → A) (m : nat → M St A) idx s :
  (∀ i, i ∈ idx → m i s = Done (f i, s)) → collect (m <$> idx) s = Done (f <$> idx, s).
Proof.
  induction idx as [|i idx IH]; intros Hm; cbn; [done|].
  rewrite (bind_done _ _ _ _ _ (Hm i ltac:(by left))).
  rewrite (bind_done _ _ s (f <$> idx) s); [done|]. apply IH. intros j Hj. apply Hm. by right.
Qed.

Lemma collect_undefined {A} (m : nat → M St A) idx i s :
  (∀ j, j ∈ idx → m j s = Undefined ∨ ∃ a, m j s = Done (a, s)) →
  i ∈ idx → m i s = Undefined → collect (m <$> idx) s = Undefined.
Proof.
  induction idx as [|j idx IH]; intros Hm Hi Hu; [by apply not_elem_of_nil in Hi|].
  cbn. unfold mbind at 1, M_bind at 1.
  destruct (Hm j ltac:(by left)) as [E|[a E]]; rewrite E; [done|].
  apply elem_of_cons in Hi as [->|Hi]; [congruence|]. unfold mbind, M_bind.
  unfold mbind, M_bind in IH. rewrite IH; try done. intros k Hk. apply Hm. by right.
Qed.

(** One item of the iterator after a successful [parse]. *)
Lemma program_header_item ptr buf hdr i (s : St) :
  ptr mod 8 = 0 → 0 <= phoff hdr < 2 ^ 63 → 0 <= i < 2 ^ 16 →
  program_header ptr buf hdr i s =
  if decide (phoff hdr mod 8 = 0 ∧ phoff hdr + (i + 1) * 56 <= Z.of_nat (length buf))
  then Done (program_header_at (slice_at buf) (phoff hdr + i * 56), s) else Undefined.
Proof.
  intros Hp Ho Hi. unfold program_header, PROGRAM_HEADER_SIZE.
  rewrite (bind_done _ _ s (i * 56) s) by (apply checked_ok; lia).
  rewrite (bind_done _ _ s (phoff hdr + i * 56) s) by (apply checked_ok; lia).
  unfold deref. replace ((ptr + (phoff hdr + i * 56)) mod 8) with (phoff hdr mod 8) by dlia.
  destruct (Z.eqb_spec (phoff hdr mod 8) 0), (Z.leb_spec (phoff hdr + i * 56 + 56) (Z.of_nat (length buf)));
    cbn [andb]; by repeat case_decide; try (exfalso; lia).
Qed.

(** C35. The program-header walk after a successful [parse]: it visits
    [phnum] entries of 56 bytes from [phoff], and is defined exactly when the
    table so read, which is not the [phnum * phentsize] bytes [parse] checked,
    ends inside the slice and [phoff] is a multiple of eight; then each entry
    is decoded from its own bytes. *)
Theorem program_headers_defined ptr buf hdr (s : St) :
  byte_slice buf → ptr mod 8 = 0 → Z.of_nat (length buf) < 2 ^ 63 →
  parse ptr buf s = Done (Ok hdr, s) →
  program_headers ptr buf hdr s =
  if decide (phnum hdr = 0 ∨
             (phoff hdr mod 8 = 0 ∧ phoff hdr + phnum hdr * 56 <= Z.of_nat (length buf)))
  then Done ((λ i : nat, program_header_at (slice_at buf) (phoff hdr + Z.of_nat i * 56))
               <$> seq 0 (Z.to_nat (phnum hdr)), s)
  else Undefined.
Proof.
  intros Hb Hp Hlen Hparse. rewrite parse_accepts in Hparse by done. cbv zeta in Hparse.
  destruct (header_ranges buf 0 Hb) as (R1 & R2 & R3).
  set (hdr0 := header_at (slice_at buf) 0) in *.
  do 5 (case_decide; [try discriminate|try discriminate]). injection Hparse as <-.
  assert (Hph : 0 <= phoff hdr0 < 2 ^ 63) by nia.
  assert (Hit := λ i, program_header_item ptr buf hdr0 i s Hp Hph).
  unfold program_headers. match goal with |- _ = if decide ?P then _ else _ => destruct (decide P) as [Hd|Hd] end.
  - apply collect_all. intros i Hi. apply elem_of_seq in Hi. rewrite Hit by lia.
    rewrite decide_True; [done|]. lia.
  - apply collect_undefined with (i := (Z.to_nat (phnum hdr0) - 1)%nat).
    + intros j Hj. apply elem_of_seq in Hj. rewrite Hit by lia. clear Hit. case_decide; eauto.
    + apply elem_of_seq. lia.
    + rewrite Hit by lia. rewrite decide_False; [done|].
      replace (Z.of_nat (Z.to_nat (phnum hdr0) - 1) + 1) with (phnum hdr0) by lia. lia.
Qed.
End elf.

(** ** Two small files *)

Definition le_bytes (n : nat) (v : Z) : list Z := (λ i : nat, v / 2 ^ (8 * Z.of_nat i) mod 256) <$> seq 0 n.

(** A header for one program header of [ents] bytes at [off], and [tail]. *)
Definition elf_file (phoff ents : Z) (tail : list Z) : list Z :=
  le_bytes 4 MAGIC ++ replicate 12 0 ++ le_bytes 2 TYPE_EXEC ++ le_bytes 2 MACHINE_RISCV ++
  le_bytes 4 1 ++ le_bytes 8 0x80000000 ++ le_bytes 8 phoff ++ replicate 8 0 ++ replicate 4 0 ++
  le_bytes 2 64 ++ le_bytes 2 ents ++ le_bytes 2 1 ++ replicate 6 0 ++ tail.

Definition good_file : list Z := elf_file 64 56 (le_bytes 4 PT_LOAD ++ le_bytes 4 5 ++ replicate 48 0).
Definition short_file : list Z := elf_file 64 32 (replicate 32 0).

Lemma file_bytes l : forallb (λ b, (0 <=? b) && (b <? 256)) l = true → byte_slice l.
Proof.
  intros Hl. apply list.Forall_forall. intros b Hb. apply forallb_forall with (x := b) in Hl.
  - lia.
  - by apply list_elem_of_In.
Qed.

Lemma parse_accepts_witness :
  @parse dev unit 0x80000000 short_file tt = Done (Ok (header_at (slice_at short_file) 0), tt).
Proof.
  pose proof (@parse_accepts dev unit 0x80000000 short_file tt
    (file_bytes short_file eq_refl) eq_refl) as Hp. cbv zeta in Hp. rewrite Hp.
  vm_compute. reflexivity.
Defined.

Lemma program_headers_defined_witness :
  match @program_headers dev unit 0x80000000 good_file (header_at (slice_at good_file) 0) tt with
  | Done (l, _) => seg_type <$> l = [PT_LOAD]
  | _ => False
  end.
Proof.
  rewrite (@program_headers_defined dev unit 0x80000000 good_file _ tt
    (file_bytes good_file eq_refl) eq_refl eq_refl eq_refl).
  vm_compute. reflexivity.
Defined.

(** Finding: [parse] bounds the table by the file's own entry size, the
    walk advances by 56 bytes.  A file that declares entries of 32 bytes is
    accepted, and reading its one program header runs past the end of the
    slice. *)
Theorem small_entries_overrun_slice :
  @parse dev unit 0x80000000 short_file tt = Done (Ok (header_at (slice_at short_file) 0), tt) ∧
  @program_headers dev unit 0x80000000 short_file (header_at (slice_at short_file) 0) tt = Undefined.
Proof. split; vm_compute; reflexivity. Qed.
