(* ===== verification/Boot.v ===== *)
(** * Boot: [src/src/boot/entry.rs]

    The start-up sequence [kinit] in machine mode, the supervisor entry
    [skmain], and the disk exercises it runs. *)

From Stdlib Require Import String.
From S2P Require Import Prelude Fmt Linker Frames Bytes PageFrame Sv39 BlockDev Minix3.
From S2P Require Import Virtio Uart Hart Process Trap Kernel Elf.

#[local] Open Scope Z_scope.

Definition align_down (addr align : Z) : Z := Z.land addr (Z.lnot (align - 1)).
Definition align_up (addr align : Z) : Z := next_multiple_of addr align.

Definition ELF_TEST_INODE : Z := 0.
Definition ELF_TEST_MAX_SIZE : Z := 64 * 1024.

(** One turn of the loop of [init_process]: the counter, and the system call
    it makes, if any; and [n] turns. *)
Definition init_step (i : Z) : Z * option Z :=
  let i := (i + 1) mod 2 ^ 64 in
  if 1000000 <? i then (0, Some 1) else (i, None).
Fixpoint init_run (n : nat) (i : Z) : Z * list Z :=
  match n with
  | O => (i, [])
  | S n' =>
      let '(i1, call) := init_step i in
      let '(i2, calls) := init_run n' i1 in
      (i2, option_list call ++ calls)
  end.

(** [{:?}] of an [FsError]. *)
Definition fs_debug (e : FsError) : list Z :=
  text match e with
  | Minix3.BadMagic => "BadMagic" | BlockReadFailed => "BlockReadFailed"
  | Minix3.OutOfMemory => "OutOfMemory" | InodeOutOfRange => "InodeOutOfRange"
  | BufferTooSmall => "BufferTooSmall"
  end%string.
Definition elf_debug (e : ElfError) : list Z :=
  text match e with
  | Elf.BadMagic => "BadMagic" | NotRiscv => "NotRiscv" | NotExecutable => "NotExecutable"
  | Truncated => "Truncated"
  end%string.

Section mapping.
Context {St : Type} `{FrameAllocator St}.

Definition map_section (root start end_ bits : Z) : M St unit :=
  id_map_range root (align_down start PAGE_SIZE) (align_up end_ PAGE_SIZE) bits.

(** [rx], [ro] and [rw] of [kinit]. *)
Definition rx : Z := bitor (bitor READ EXECUTE) ACCESSED.
Definition ro : Z := bitor READ ACCESSED.
Definition rw : Z := bitor (bitor (bitor READ WRITE) ACCESSED) DIRTY.

(** The mappings of [kinit], in order: start, end, flags. *)
Definition sections `{Linker} : list (Z * Z * Z) :=
  let uart_base := align_down UART_BASE PAGE_SIZE in
  [ (text_start, text_end, rx);
    (rodata_start, rodata_end, ro);
    (data_start, data_end, rw);
    (bss_start, bss_end, rw);
    (stack_start, stack_end, rw);
    (heap_start, memory_end, rw);
    (uart_base, uart_base + PAGE_SIZE, rw);
    (MMIO_VIRTIO_START, MMIO_VIRTIO_END + MMIO_VIRTIO_STRIDE, rw) ].

Definition map_kernel `{Linker} (root : Z) : M St unit :=
  for_each sections (λ '(start, end_, bits), map_section root start end_ bits).
End mapping.

(** The façade [src/src/arch/mod.rs]. *)
Module arch.
Section arch.
Context `{Profile} `{Linker} {T : Type} `{Host T}.
Abbreviation St := (kernel T).

Definition make_satp_sv39 (root_table_addr : Z) : Z := Hart.make_satp_sv39 root_table_addr.
Definition enter_sv39 (satp_val s_entry : Z) : privilege := Hart.enter_sv39 satp_val s_entry.
Definition install_trap_handler (satp : Z) : M St unit := install satp.
Definition enable_interrupts : M St unit := Trap.enable_interrupts.
End arch.
End arch.

Section boot.
Context `{Profile} `{Linker} {T : Type} `{Host T} `{Spins} `{!BlockReader (kernel T)}.
Abbreviation St := (kernel T).

Definition println (f : string) (args : list arg) : M St unit := print (f ++ "\r\n")%string args.

(** [src/src/boot/panic.rs], [src/src/boot/abort.rs]: report and halt. *)
Definition abort : M St unit := diverge.
Definition panic_handler (location : option (list Z)) (message : list Z) : M St unit :=
  (match location with
   | Some loc => println "kernel panic at {}: {}" [Str loc; Str message]
   | None => println "kernel panic: {}" [Str message]
   end);;
  abort.

(** Before [install], [mtvec] points at the bare [mret] of [boot.S]: an
    access that faults is retried, and faults again, for ever. *)
Definition untrapped {A} (m : M St A) : M St A :=
  v ← vget;
  set_fault false;;
  r ← m;
  v' ← vget;
  if ACCESS_FAULT_SEEN v' then diverge else set_fault (ACCESS_FAULT_SEEN v);; mret r.

(** [kinit] up to [enter_sv39(satp, skmain)]: the [satp] it enters with. *)
Definition kinit : M St Z :=
  untrapped (
    uart_init UART_BASE;;
    println "" [];;
    println "vesper booted successfully!" []);;
  on_frames init;;
  o ← fa_zallocate 1;
  root_table_addr ← unwrap o;
  map_kernel root_table_addr;;
  let satp := arch.make_satp_sv39 root_table_addr in
  arch.install_trap_handler satp;;
  plic_set_threshold 0;;
  plic_enable UART0_IRQ;;
  plic_set_priority UART0_IRQ 1;;
  probe;;
  irqs ← configured_irqs;
  for_each (omap id irqs) (λ irq, plic_enable irq;; plic_set_priority irq 1);;
  arch.enable_interrupts;;
  mret satp.

(** [list_dir] *)
Definition print_entry (buf : Z) (i : nat) : M St unit :=
  f ← gets (λ s, byte_at (fa_ram s));
  let de := dir_entry_at f (buf + Z.of_nat i * DIRENT_SIZE) in
  if d_inode de =? 0 then mret tt
  else println "    inode {:>4}  {}" [Num (d_inode de); Str (name_str de)].

Definition list_dir (fs : Fs) (dir : Inode) : M St unit :=
  o ← fa_zallocate 1;
  buf_pages ← unwrap o;
  r ← with_slice buf_pages BLOCK_SIZE (read_file fs dir 0);
  match r with
  | Err e =>
      println "  list_dir failed: {:?}" [Str (fs_debug e)];;
      fa_deallocate buf_pages
  | Ok read =>
      let entries := read / DIRENT_SIZE in
      println "  /  ({} entries):" [Num entries];;
      for_each (seq 0 (Z.to_nat entries)) (print_entry buf_pages);;
      fa_deallocate buf_pages
  end.

(** [test_elf] *)
Definition print_segments (l : list ProgramHeader) : M St unit :=
  for_each (zip (seq 0 (length l)) l) (λ '(i, ph),
    if negb (seg_type ph =? PT_LOAD) then mret tt
    else println "    PH#{}: vaddr=0x{:x} filesz={} memsz={} flags=0x{:x}"
           [Num (Z.of_nat i); Num (vaddr ph); Num (filesz ph); Num (memsz ph); Num (p_flags ph)]).

Definition test_elf (fs : Fs) : M St unit :=
  println "  loading ELF at inode {}..." [Num ELF_TEST_INODE];;
  r ← read_inode fs ELF_TEST_INODE;
  match r with
  | Err e => println "    read inode failed: {:?}" [Str (fs_debug e)]
  | Ok inode =>
      let want := Z.min (size inode) ELF_TEST_MAX_SIZE in
      let pages := div_ceil want PAGE_SIZE in
      o ← fa_zallocate pages;
      match o with
      | None => println "    OOM allocating ELF buffer" []
      | Some buf =>
          r ← with_slice buf want (read_file fs inode 0);
          match r with
          | Err e =>
              println "    read_file failed: {:?}" [Str (fs_debug e)];;
              fa_deallocate buf
          | Ok got =>
              if negb (got =? want) then
                println "    short read: wanted {} got {}" [Num want; Num got];;
                fa_deallocate buf
              else
                f ← gets (λ s, byte_at (fa_ram s));
                let slice := bytes_from f buf (Z.to_nat got) in
                r ← parse buf slice;
                (match r with
                 | Ok hdr =>
                     println "    ELF ok: entry=0x{:x} phnum={} machine=0x{:x}"
                       [Num (entry_addr hdr); Num (phnum hdr); Num (machine hdr)];;
                     l ← program_headers buf slice hdr;
                     print_segments l
                 | Err e => println "    elf parse: {:?}" [Str (elf_debug e)]
                 end);;
                fa_deallocate buf
          end
      end
  end.

Definition test_minix3 : M St unit :=
  o ← first_block_device;
  match o with
  | None => mret tt
  | Some slot =>
      let dv := Z.of_nat slot in
      println "" [];;
      println "Probing device {} for Minix 3 filesystem..." [Num dv];;
      r ← mount dv;
      match r with
      | Err Minix3.BadMagic =>
          println "  no Minix 3 filesystem (magic mismatch). Format with `mkfs.minix -3` to test." []
      | Err e => println "  mount failed: {:?}" [Str (fs_debug e)]
      | Ok fs =>
          println "  superblock: ninodes={} zones={} block_size={} first_data_zone={}"
            [Num (ninodes (sb fs)); Num (zones_total (sb fs)); Num (block_size (sb fs)); Num (first_data_zone (sb fs))];;
          r ← read_inode fs ROOT_INODE;
          match r with
          | Err e => println "  read root inode failed: {:?}" [Str (fs_debug e)]
          | Ok root =>
              z ← index (zones root) 0;
              println "  root inode: mode=0o{:o} size={} zones[0]={}" [Num (mode root); Num (size root); Num z];;
              if negb (is_dir root) then
                println "  root inode is not a directory; aborting" []
              else
                list_dir fs root;;
                if negb (ELF_TEST_INODE =? 0) then test_elf fs else mret tt
          end
      end
  end.

(** The block-driver exercise of [skmain]. *)
Definition dump (ptr : Z) : M St unit :=
  for_each (seq 0 48) (λ i,
    f ← gets (λ s, byte_at (fa_ram s));
    print " {:02x}" [Num (f (ptr + Z.of_nat i))];;
    if (Z.of_nat i + 1) mod 24 =? 0 then println "" [] else mret tt).

Definition test_block : M St unit :=
  o ← first_block_device;
  match o with
  | None => println "no block device discovered" []
  | Some slot =>
      o ← fa_allocate 1;
      match o with
      | None => println "failed to allocate test buffer" []
      | Some ptr =>
          ok ← bd_read (Z.of_nat slot) ptr 512 0;
          (if ok : bool then dump ptr else println "block read failed" []);;
          fa_deallocate ptr
      end
  end.

(** [syscall]: an [ecall] from supervisor mode with [num] in [a0], and the
    [a0] it comes back with. *)
Definition syscall (num : Z) (c : cpu) : M St (Z * cpu) :=
  c' ← trap_vector 9 0 (mk_cpu (<[10%nat := num]> (x c)) (cpc c));
  mret (default 0 (x c' !! 10%nat), c').

(** [skmain] up to its idle loop, given the address of [init_process]. *)
Definition skmain (init_process : Z) : M St unit :=
  println "" [];;
  println "paging enabled (Sv39), now in S-mode" [];;
  println "interrupts enabled — type to echo:" [];;
  println "Testing block driver." [];;
  test_block;;
  println "Block driver done" [];;
  test_minix3;;
  r ← spawn_kernel init_process;
  (match r with Ok _ => mret tt | Err _ => panic PUnwrap end);;
  println "spawned init kernel thread, awaiting first timer tick" [].
End boot.
