(* ===== verification/BootProps.v ===== *)
(** * The kernel's address space and the state boot leaves

    What [kinit]'s page table maps, with which rights, and that the state it
    hands to the supervisor satisfies the invariants of the trap handler, the
    process table and the block driver. *)

From Stdlib Require Import String.
From S2P Require Import Prelude Linker Frames Bytes PageFrame Sv39 Sv39Room BlockDev Minix3 Minix3Read.
From S2P Require Import Virtio VirtioProps VirtioQueue VirtioRead VirtioBus Uart Console Hart Process Trap.
From S2P Require Import Kernel TrapProps Elf Boot.

#[local] Open Scope Z_scope.

(** ** The mappings *)

Definition section_range (x : Z * Z * Z) : Z * Z :=
  let '(a, b, _) := x in (align_down a PAGE_SIZE, align_up b PAGE_SIZE).

Definition in_section (x : Z * Z * Z) (va : Z) : Prop :=
  (section_range x).1 <= va < (section_range x).2.

#[global] Instance in_section_dec x va : Decision (in_section x va).
Proof. unfold in_section. apply _. Defined.

(** The flags of a page after mapping a list of sections: the last one that
    covers it counts. *)
Fixpoint flags_in (l : list (Z * Z * Z)) (va : Z) : option Z :=
  match l with
  | [] => None
  | x :: l' =>
      match flags_in l' va with
      | Some f => Some f
      | None => if decide (in_section x va) then Some x.2 else None
      end
  end.

Lemma align_down_val a : align_down a PAGE_SIZE = a - a mod 4096.
Proof.
  unfold align_down. rewrite PAGE_SIZE_val. change (4096 - 1) with (2 ^ 12 - 1).
  by rewrite land_clear_low.
Qed.

Lemma align_up_val a : 0 <= a →
  a <= align_up a PAGE_SIZE < a + 4096 ∧ align_up a PAGE_SIZE mod 4096 = 0.
Proof.
  intros Ha. destruct (next_multiple_of_spec a Ha) as [[q Hq] Hb]. unfold align_up.
  rewrite PAGE_SIZE_val in *. split; [done|]. rewrite Hq. by rewrite Z.mod_mul.
Qed.

Lemma align_up_aligned a : 0 <= a → (4096 | a) → align_up a PAGE_SIZE = a.
Proof. intros Ha [q ->]. destruct (align_up_val (q * 4096) Ha). dlia. Qed.

Lemma align_up_le a b : 0 <= a <= b → b mod 4096 = 0 → align_up a PAGE_SIZE <= b.
Proof. intros Hab Hb. destruct (align_up_val a); [lia|]. dlia. Qed.

Lemma align_down_mono a b : a <= b → align_down a PAGE_SIZE <= align_down b PAGE_SIZE.
Proof. intros Hab. rewrite !align_down_val. dlia. Qed.

Lemma align_down_le a : align_down a PAGE_SIZE <= a < align_down a PAGE_SIZE + 4096.
Proof. rewrite align_down_val. dlia. Qed.

Lemma align_down_aligned a : a mod 4096 = 0 → align_down a PAGE_SIZE = a.
Proof. rewrite align_down_val. lia. Qed.

Record wf_section (x : Z * Z * Z) : Prop := {
  ws_start : 0 <= x.1.1; ws_end : 0 <= x.1.2;
  ws_high : align_up x.1.2 PAGE_SIZE <= 2 ^ 39; ws_flags : flags_ok x.2 }.

Lemma wf_section_intro a b f :
  0 <= a → 0 <= b <= 2 ^ 39 - 4096 → flags_ok f → wf_section (a, b, f).
Proof. intros Ha Hb Hf. split; cbn [fst snd]; try lia; [|done]. destruct (align_up_val b); lia. Qed.

Section mapping.
Context {St : Type} `{FrameAllocatorLaws St}.
Implicit Types (s : St) (h : gmap Z Z).

Record mapped (root : Z) (l : list (Z * Z * Z)) s h s' h' : Prop := {
  mp_rep : fa_rep s' h'; mp_wf : pt_wf (fa_ram s') root h';
  mp_small : small_pages (fa_ram s') root; mp_sub : h ⊆ h';
  mp_walk : ∀ va, 0 <= va < 2 ^ 39 → walk (fa_ram s') root va =
    match flags_in l va with
    | Some f => Some (0%nat, leaf_pte (page_of va) f)
    | None => walk (fa_ram s) root va
    end }.

Lemma map_section_spec root a b f s h :
  fa_rep s h → pt_wf (fa_ram s) root h → small_pages (fa_ram s) root → wf_section (a, b, f) →
  map_section root a b f s = Panic PUnwrap ∨
  ∃ s' h', map_section root a b f s = Done (tt, s') ∧ mapped root [(a, b, f)] s h s' h'.
Proof.
  intros R W Hsm [Ha Hb Hhi Hf]. cbn in *.
  destruct (align_up_val b Hb) as [_ Hm]. pose proof (align_down_val a) as Hd.
  destruct (id_map_range_spec s h root (align_down a PAGE_SIZE) (align_up b PAGE_SIZE) f R W Hsm)
    as [E|(s' & h' & E & R' & W' & Hsm' & Hsub & Hw)]; try done;
    [dlia|rewrite Hd, PAGE_SIZE_val; dlia|by left|]. right. exists s', h'. split; [done|]. split; try done.
  intros va Hva. rewrite Hw by done. cbn [flags_in]. unfold in_section, section_range. cbn [fst snd].
  by repeat case_decide.
Qed.

Lemma map_sections_spec root l s h :
  fa_rep s h → pt_wf (fa_ram s) root h → small_pages (fa_ram s) root → Forall wf_section l →
  let m := for_each l (λ '(start, end_, bits), map_section root start end_ bits) in
  m s = Panic PUnwrap ∨ ∃ s' h', m s = Done (tt, s') ∧ mapped root l s h s' h'.
Proof.
  revert s h. induction l as [|[[a b] f] l IH]; intros s h R W Hsm Hl; cbn [for_each].
  { right. exists s, h. by split. }
  apply list.Forall_cons in Hl as [Hx Hl].
  destruct (map_section_spec root a b f s h R W Hsm Hx) as [E|(s1 & h1 & E & [R1 W1 S1 Hs1 Hw1])].
  { left. unfold mbind, M_bind. by rewrite E. }
  rewrite (bind_done _ _ _ _ _ E).
  destruct (IH s1 h1 R1 W1 S1 Hl) as [E2|(s2 & h2 & E2 & [R2 W2 S2 Hs2 Hw2])]; [by left|].
  right. exists s2, h2. split; [done|]. split; try done; [by etrans|].
  intros va Hva. rewrite Hw2, Hw1 by done. cbn [flags_in].
  destruct (flags_in l va); [done|]. by case_decide.
Qed.

Lemma in_section_flags l x va : x ∈ l → in_section x va → flags_in l va ≠ None.
Proof.
  induction l as [|y l IH]; intros Hx Hin; [by apply not_elem_of_nil in Hx|].
  cbn [flags_in]. destruct (flags_in l va) eqn:E; [done|].
  apply elem_of_cons in Hx as [<-|Hx]; [by rewrite decide_True|by destruct (IH Hx Hin)].
Qed.

(** With a page for every missing table of a list that covers a section,
    mapping it succeeds. *)
Lemma map_section_budget root L a b f s h :
  NoDup L → Forall path_ok L →
  fa_rep s h → pt_wf (fa_ram s) root h → small_pages (fa_ram s) root → wf_section (a, b, f) →
  (∀ c, 0 <= c → in_section (a, b, f) c → listed L c) → budget root L 0 s →
  ∃ s', map_section root a b f s = Done (tt, s') ∧ budget root L 0 s'.
Proof.
  intros Hnd Hok R W Hsm [Ha Hb Hhi Hf] HL Hbud. cbn [fst snd] in *.
  destruct (align_up_val b Hb) as [_ Hm]. pose proof (align_down_val a) as Hd.
  unfold map_section. apply (id_map_range_budget root L 0 Hnd Hok s h); try done.
  - dlia.
  - rewrite Hd, PAGE_SIZE_val. dlia.
  - intros c _ Hc. apply HL; [dlia|exact Hc].
Qed.

Lemma map_sections_budget root L l s h :
  NoDup L → Forall path_ok L →
  fa_rep s h → pt_wf (fa_ram s) root h → small_pages (fa_ram s) root → Forall wf_section l →
  (∀ c, 0 <= c → flags_in l c ≠ None → listed L c) → budget root L 0 s →
  let m := for_each l (λ '(start, end_, bits), map_section root start end_ bits) in
  ∃ s' h', m s = Done (tt, s') ∧ mapped root l s h s' h' ∧ budget root L 0 s'.
Proof.
  intros Hnd Hok R W Hsm Hl HL Hbud m.
  enough (∃ s', m s = Done (tt, s') ∧ budget root L 0 s') as (s' & E & Hb).
  { destruct (map_sections_spec root l s h R W Hsm Hl) as [E'|(s1 & h1 & E' & Hm)];
      fold m in E'; rewrite E in E'; [done|]. injection E' as <-. by exists s', h1. }
  subst m. revert s h R W Hsm Hbud.
  induction l as [|[[a b] f] l IH]; intros s h R W Hsm Hbud; cbn [for_each]; [by exists s|].
  apply list.Forall_cons in Hl as [Hx Hl].
  destruct (map_section_budget root L a b f s h) as (s2 & E2 & Hb2); try done.
  { intros c H0c Hc. apply HL; [done|]. apply (in_section_flags _ (a, b, f)); [by left|done]. }
  destruct (map_section_spec root a b f s h R W Hsm Hx) as [E|(s1 & h1 & E & [R1 W1 S1 _ _])];
    rewrite E in E2; [done|]. injection E2 as <-.
  rewrite (bind_done _ _ _ _ _ E). apply (IH Hl) with h1; try done.
  intros c Hc0 Hc. apply HL; [done|]. cbn [flags_in]. by destruct (flags_in l c).
Qed.
End mapping.

(** ** The layout of [virt.lds] *)

Lemma flags_rx : flags_ok rx. Proof. by split. Qed.
Lemma flags_ro : flags_ok ro. Proof. by split. Qed.
Lemma flags_rw : flags_ok rw. Proof. by split. Qed.

Section layout.
Context `{Linker} `{!VirtLds}.

(** The rights of an address: code is read and execute, constants read only,
    all other memory and the two device windows read and write. *)
Definition region (va : Z) : option Z :=
  if decide (text_start <= va < align_up text_end PAGE_SIZE) then Some rx
  else if decide (rodata_start <= va < align_up rodata_end PAGE_SIZE) then Some ro
  else if decide (data_start <= va < align_up data_end PAGE_SIZE ∨
                  align_down bss_start PAGE_SIZE <= va < memory_end ∨
                  0x10000000 <= va < 0x10009000) then Some rw
  else None.

Lemma sections_wf : Forall wf_section sections.
Proof.
  destruct (_ : VirtLds). pose proof flags_rx. pose proof flags_ro. pose proof flags_rw.
  assert (Hu : align_down UART_BASE PAGE_SIZE = 0x10000000) by reflexivity.
  unfold sections. rewrite Hu. cbv zeta. unfold MMIO_VIRTIO_START, MMIO_VIRTIO_END, MMIO_VIRTIO_STRIDE.
  rewrite PAGE_SIZE_val.
  repeat (apply list.Forall_cons; split; [apply wf_section_intro; (lia || done)|]).
  by apply Forall_nil.
Qed.

Lemma sections_region va : 0 <= va → flags_in sections va = region va.
Proof.
  intros Hva. destruct (_ : VirtLds).
  assert (Hmr : rodata_start mod 4096 = 0) by (by apply Z.mod_divide).
  assert (Hmd : data_start mod 4096 = 0) by (by apply Z.mod_divide).
  assert (Hmm : memory_end mod 4096 = 0) by (by rewrite lds_memory_end).
  assert (Ht : align_down text_start PAGE_SIZE = text_start) by (rewrite lds_origin; reflexivity).
  pose proof (align_down_aligned _ Hmr) as Hr. pose proof (align_down_aligned _ Hmd) as Hd.
  assert (align_up text_end PAGE_SIZE <= rodata_start) by (apply align_up_le; [lia|done]).
  assert (align_up rodata_end PAGE_SIZE <= data_start) by (apply align_up_le; [lia|done]).
  assert (align_up stack_end PAGE_SIZE <= memory_end) by (apply align_up_le; [lia|done]).
  assert (align_up memory_end PAGE_SIZE <= memory_end) by (apply align_up_le; [lia|done]).
  destruct (align_up_val memory_end) as [Hm _]; [lia|].
  destruct (align_up_val bss_end) as [Hb _]; [lia|].
  destruct (align_up_val stack_end) as [Hs _]; [lia|].
  assert (align_down data_start PAGE_SIZE <= align_down bss_start PAGE_SIZE) by (apply align_down_mono; lia).
  assert (align_down bss_start PAGE_SIZE <= align_down stack_start PAGE_SIZE) by (apply align_down_mono; lia).
  assert (align_down stack_start PAGE_SIZE <= align_down heap_start PAGE_SIZE) by (apply align_down_mono; lia).
  pose proof (align_down_le stack_start). pose proof (align_down_le heap_start).
  assert (Hv : align_up (MMIO_VIRTIO_END + MMIO_VIRTIO_STRIDE) PAGE_SIZE = 0x10009000) by reflexivity.
  assert (Hu : align_down UART_BASE PAGE_SIZE = 0x10000000) by reflexivity.
  assert (Hu2 : align_up (0x10000000 + PAGE_SIZE) PAGE_SIZE = 0x10001000) by reflexivity.
  assert (Hv0 : align_down MMIO_VIRTIO_START PAGE_SIZE = 0x10001000) by reflexivity.
  assert (Hu0 : align_down 0x10000000 PAGE_SIZE = 0x10000000) by reflexivity.
  unfold region, sections. rewrite Hu. cbv zeta. cbn [flags_in snd].
  clear lds_rodata_page lds_data_page lds_heap_size Hmr Hmd Hmm Hu.
  unfold in_section, section_range. cbn [fst snd].
  repeat case_decide; try reflexivity; exfalso; lia.
Qed.

(** The page tables below the root that the kernel's mappings need: RAM lies
    in the third gigabyte and covers 64 tables of 2 MiB, the device windows
    lie in one 2 MiB region of the first. *)
Definition kernel_tables : list (list Z) :=
  [[2]; [0]; [128; 0]] ++ ((λ k : nat, [Z.of_nat k; 2]) <$> seq 0 64).

Lemma kernel_tables_nodup : NoDup kernel_tables.
Proof. apply (bool_decide_unpack _). vm_compute. exact I. Qed.

Lemma kernel_tables_ok : Forall path_ok kernel_tables.
Proof.
  apply list.Forall_forall. intros P HP. unfold kernel_tables in HP.
  apply elem_of_app in HP as [HP|HP].
  - repeat (apply elem_of_cons in HP as [->|HP];
      [split; [cbn; lia|repeat (apply list.Forall_cons; split; [unfold idx_ok; lia|]); by apply Forall_nil]|]).
    by apply not_elem_of_nil in HP.
  - apply list_elem_of_fmap in HP as (k & -> & Hk). apply elem_of_seq in Hk.
    split; [cbn; lia|]. repeat (apply list.Forall_cons; split; [unfold idx_ok; lia|]). by apply Forall_nil.
Qed.

Lemma region_bounds va :
  region va ≠ None → 0x80000000 <= va < 0x88000000 ∨ 0x10000000 <= va < 0x10009000.
Proof.
  destruct (_ : VirtLds). intros Hr.
  assert (Hmr : rodata_start mod 4096 = 0) by (by apply Z.mod_divide).
  assert (Hmd : data_start mod 4096 = 0) by (by apply Z.mod_divide).
  assert (Hmm : memory_end mod 4096 = 0) by (by rewrite lds_memory_end).
  assert (align_up text_end PAGE_SIZE <= rodata_start) by (apply align_up_le; [lia|done]).
  assert (align_up rodata_end PAGE_SIZE <= data_start) by (apply align_up_le; [lia|done]).
  assert (align_up data_end PAGE_SIZE <= memory_end) by (apply align_up_le; [lia|done]).
  assert (align_down data_start PAGE_SIZE <= align_down bss_start PAGE_SIZE) by (apply align_down_mono; lia).
  pose proof (align_down_aligned _ Hmd).
  unfold region in Hr. repeat case_decide; try done; lia.
Qed.

Lemma kernel_tables_cover va : 0 <= va → flags_in sections va ≠ None → listed kernel_tables va.
Proof.
  intros Hva Hf. rewrite sections_region in Hf by done. apply region_bounds in Hf.
  unfold listed, vpns. cbn [drop]. change 0x1ff with (2 ^ 9 - 1).
  rewrite !Z.shiftr_div_pow2, !land_ones_mod by lia. unfold kernel_tables.
  destruct Hf as [Hf|Hf].
  - assert (va / 2 ^ 30 mod 2 ^ 9 = 2) as -> by dlia.
    split; apply elem_of_app; [right|left; by left].
    apply list_elem_of_fmap. exists (Z.to_nat (va / 2 ^ 21 mod 2 ^ 9)).
    assert (0 <= va / 2 ^ 21 mod 2 ^ 9 < 64) by dlia.
    split; [f_equal; lia|]. apply elem_of_seq. lia.
  - assert (va / 2 ^ 30 mod 2 ^ 9 = 0) as -> by dlia.
    assert (va / 2 ^ 21 mod 2 ^ 9 = 128) as -> by dlia.
    split; apply elem_of_app; left; apply (bool_decide_unpack _); reflexivity.
Qed.
End layout.

Section space.
Context {St : Type} `{FrameAllocatorLaws St} `{Linker} `{!VirtLds}.
Implicit Types (s : St) (h : gmap Z Z).

(** The translation [kinit] sets up. *)
Definition kernel_space (m : gmap Z Z) (root : Z) : Prop :=
  ∀ va, 0 <= va < 2 ^ 39 →
    walk m root va = (λ f, (0%nat, leaf_pte (page_of va) f)) <$> region va.

Lemma region_flags va f : region va = Some f → f = rx ∨ f = ro ∨ f = rw.
Proof. unfold region. repeat case_decide; intros [= <-]; auto. Qed.

Lemma map_kernel_spec root s h :
  fa_rep s h → h !! root = Some 1 → (∀ j, idx_ok j → word_at (fa_ram s) (root + 8 * j) = 0) →
  fa_room s (length kernel_tables) →
  ∃ s' h', map_kernel root s = Done (tt, s') ∧ fa_rep s' h' ∧ h ⊆ h' ∧
    pt_wf (fa_ram s') root h' ∧ kernel_space (fa_ram s') root ∧ fa_room s' 0.
Proof.
  intros R Hroot Hz Hroom. destruct (pt_wf_empty (fa_ram s) root h Hz Hroot) as (W & Hsm & Hnone).
  destruct (map_sections_budget root kernel_tables sections s h kernel_tables_nodup kernel_tables_ok
    R W Hsm sections_wf) as (s' & h' & E & [R' W' _ Hsub Hw] & Hb).
  - intros c. apply kernel_tables_cover.
  - eapply fa_room_le; [exact Hroom|]. rewrite Nat.add_0_r. apply list.length_filter.
  - exists s', h'. split_and!; try done.
    + intros va Hva. rewrite Hw, sections_region, Hnone by lia. by destruct (region va).
    + eapply fa_room_le; [exact Hb|lia].
Qed.

Lemma kernel_space_v2p root s h va :
  fa_rep s h → pt_wf (fa_ram s) root h → kernel_space (fa_ram s) root → 0 <= va < 2 ^ 39 →
  v2p root va s = Done ((λ _, va) <$> region va, s).
Proof.
  intros R W Hk Hva. rewrite (v2p_xlate _ _ _ _ R W). unfold xlate. rewrite Hk by done.
  destruct (region va) as [f|] eqn:Er; [|done]. cbn. unfold resolve. cbn [fst snd].
  assert (0 <= page_of va < 2 ^ 56) by (unfold page_of; rewrite PAGE_SIZE_val; dlia).
  assert (0 <= f < 2 ^ 10) by (destruct (region_flags _ _ Er) as [->|[->| ->]]; by vm_compute).
  rewrite leaf_addr_leaf_pte by done. unfold page_of. rewrite PAGE_SIZE_val.
  change (2 ^ (12 + 9 * Z.of_nat 0)) with 4096. do 3 f_equal. dlia.
Qed.

Lemma kernel_space_rights root m va :
  kernel_space m root → 0 <= va < 2 ^ 39 →
  match region va with
  | None => walk m root va = None
  | Some bits => ∃ e, walk m root va = Some (0%nat, e) ∧
      (∀ f, 0 <= f < 2 ^ 10 → Z.land e f = Z.land (Z.lor bits VALID) f) ∧
      (Z.land e WRITE = 0 ∨ Z.land e EXECUTE = 0)
  end.
Proof.
  intros Hk Hva. rewrite Hk by done. destruct (region va) as [bits|] eqn:Er; [|done].
  assert (Hb : 0 <= bits < 2 ^ 10) by (destruct (region_flags _ _ Er) as [->|[->| ->]]; by vm_compute).
  assert (Hp : 0 <= page_of va < 2 ^ 56) by (unfold page_of; rewrite PAGE_SIZE_val; dlia).
  eexists. split; [reflexivity|]. split; [intros; by apply leaf_pte_flags|].
  rewrite !leaf_pte_flags by (done || by vm_compute).
  destruct (region_flags _ _ Er) as [->|[->| ->]]; auto.
Qed.

(** C11. The kernel's address space: with 67 free pages [map_kernel] always
    succeeds on an empty root table, and then every address of the 39-bit
    space either belongs to a region of the image, the rest of RAM or a device
    window and translates to itself with exactly that region's rights, or
    does not translate at all; no page is both writable and executable. *)
Theorem kernel_address_space root s h :
  fa_rep s h → h !! root = Some 1 → (∀ j, idx_ok j → word_at (fa_ram s) (root + 8 * j) = 0) →
  fa_room s 67 →
  ∃ s' h', map_kernel root s = Done (tt, s') ∧ fa_rep s' h' ∧ h ⊆ h' ∧
    ∀ va, 0 <= va < 2 ^ 39 →
    match region va with
    | None => v2p root va s' = Done (None, s')
    | Some bits => v2p root va s' = Done (Some va, s') ∧
        ∃ e, walk (fa_ram s') root va = Some (0%nat, e) ∧
          (∀ f, 0 <= f < 2 ^ 10 → Z.land e f = Z.land (Z.lor bits VALID) f) ∧
          (Z.land e WRITE = 0 ∨ Z.land e EXECUTE = 0)
    end.
Proof.
  intros R Hroot Hz Hroom.
  destruct (map_kernel_spec root s h R Hroot Hz Hroom) as (s' & h' & E & R' & Hsub & W & K & _).
  exists s', h'. split_and!; [done..|]. intros va Hva.
  pose proof (kernel_space_v2p root s' h' va R' W K Hva) as Hv.
  pose proof (kernel_space_rights root _ va K Hva) as Hr.
  by destruct (region va).
Qed.
End space.

(** ** What parts of boot leave alone *)

Section leaves.
Context {S X : Type} (part : S → X).

Definition leaves {A} (m : M S A) : Prop := ∀ s a s', m s = Done (a, s') → part s' = part s.

Lemma leaves_ret {A} (a : A) : leaves (mret a).
Proof. by intros s b s' [= _ <-]. Qed.
Lemma leaves_panic {A} p : leaves (A:=A) (panic p).
Proof. done. Qed.
Lemma leaves_gets {A} (f : S → A) : leaves (gets f).
Proof. by intros s b s' [= _ <-]. Qed.
Lemma leaves_assert b : leaves (assert b).
Proof. unfold assert. destruct b; [apply leaves_ret|apply leaves_panic]. Qed.
Lemma leaves_unwrap {A} (o : option A) : leaves (unwrap o).
Proof. destruct o; [apply leaves_ret|apply leaves_panic]. Qed.
Lemma leaves_bind {A B} (m : M S A) (f : A → M S B) :
  leaves m → (∀ a, leaves (f a)) → leaves (m ≫= f).
Proof.
  intros Hm Hf s b s' E. apply bind_done_inv in E as (a & s1 & E1 & E2).
  rewrite (Hf _ _ _ _ E2). by apply (Hm _ _ _ E1).
Qed.
Lemma leaves_for_each {A} (l : list A) (f : A → M S unit) :
  (∀ x, leaves (f x)) → leaves (for_each l f).
Proof. intros Hf. induction l; cbn; [apply leaves_ret|by apply leaves_bind]. Qed.
End leaves.

Create HintDb leaves.
#[export] Hint Resolve leaves_ret leaves_panic leaves_gets leaves_assert leaves_unwrap : leaves.

Ltac solve_leaves :=
  repeat first
    [ progress intros | solve [auto 1 with leaves] | simple apply leaves_bind
    | simple apply leaves_for_each
    | match goal with |- context [match ?e with _ => _ end] => destruct e end ].

Section parts.
Context `{Profile} `{Linker} {T : Type} `{Host T} `{Spins} `{!BlockReader (kernel T)}.
Abbreviation St := (kernel T).

(** Mapping only touches the allocator and memory. *)
Lemma leaves_map_kernel root : leaves snd (map_kernel (St:=St) root).
Proof.
  assert (Hz : ∀ n, leaves (S:=St) snd (fa_zallocate n))
    by (intros n s a s' E; by apply on_frames_keeps in E).
  assert (Hst : ∀ a v, leaves (S:=St) snd (store a v)) by (intros a v s [] s' [= <-]; done).
  assert (Hen : ∀ v, leaves (S:=St) snd (ensure_table v))
    by (intros; unfold ensure_table, load; solve_leaves).
  assert (Hwalk : ∀ lv vpn v, leaves (S:=St) snd (map_walk vpn v lv)).
  { induction lv as [|i lv IH]; intros; cbn [map_walk]; unfold load; solve_leaves. }
  unfold map_kernel, map_section, id_map_range, map. solve_leaves.
Qed.

(** The probe touches neither the process table nor the hart. *)
Definition cpu_part (s : St) : table * hart := (k_table s.2, k_hart s.2).

Lemma leaves_probe : leaves cpu_part (probe (St:=St)).
Proof.
  assert (Hz : ∀ n, leaves cpu_part (fa_zallocate (S:=St) n)).
  { intros n s a s' E. apply on_frames_keeps in E. unfold cpu_part. by rewrite E. }
  assert (Hset : ∀ v : virtio T, leaves cpu_part (set_state (S:=St) v)) by (intros v s [] s' [= <-]; done).
  assert (Hpr : ∀ f a, leaves cpu_part (print (S:=St) f a)) by (intros f a s u s' E; apply print_aside in E; unfold cpu_part; by injection E as _ -> ->).
  assert (Hf : ∀ b, leaves cpu_part (set_fault (St:=St) b)) by (unfold set_fault, vget, get_state; solve_leaves).
  assert (Hh : ∀ t, leaves cpu_part (set_host (St:=St) t)) by (unfold set_host, vget, get_state; solve_leaves).
  assert (Hr : ∀ p o, leaves cpu_part (mmio_read32 (St:=St) p o))
    by (unfold mmio_read32, read_volatile, take_access_fault, vget, get_state; solve_leaves).
  assert (Hw : ∀ p o x, leaves cpu_part (mmio_write32 (St:=St) p o x))
    by (unfold mmio_write32, write_volatile, take_access_fault, vget, get_state; solve_leaves).
  assert (Hrg : ∀ p k, leaves cpu_part (register_device (St:=St) p k))
    by (unfold register_device, vget, get_state; solve_leaves).
  assert (Hsd : ∀ i b, leaves cpu_part (set_dev (St:=St) i b))
    by (unfold set_dev, vget, get_state; solve_leaves).
  assert (Hgu : ∀ p m, leaves cpu_part (give_up_device (St:=St) p m))
    by (unfold give_up_device; solve_leaves).
  assert (Hsetup : ∀ p, leaves cpu_part (setup_block_device (St:=St) p))
    by (unfold setup_block_device, write_or_fail, read_or_fail; solve_leaves).
  unfold probe, probe_one, register_entropy_device, register_unknown_device. solve_leaves.
Qed.
End parts.

(** ** Start-up *)

Section startup.
Context `{Profile} `{Linker} `{!VirtLds} {T : Type} `{Host T} `{Spins} `{!BlockReader (kernel T)}.
Abbreviation St := (kernel T).

(** What the devices on the VirtIO bus keep ([HR]) while other registers are
    read and written, and what [probe] leaves behind ([PK], of the allocator
    and the driver's tables); nothing, for [kinit] on its own. *)
Context `{!UartHost T} `{!ConsoleReady T}.
Context (HR : relation T) `{!PreOrder HR}.
Context (HR_read : ∀ a t, HR t (host_read a t).2).
Context (HR_write : ∀ a x t t', a < MMIO_VIRTIO_START → host_write a x t = Some t' → HR t t').
Context (t0 : T) (PK : frames → virtio T → Prop).
Context (PK_kept : ∀ f v v', PK f v → BLOCK_DEVICES v' = BLOCK_DEVICES v → HR (host v) (host v') → PK f v').
Context (PK_probe : ∀ (s s' : St) h, rep s.1 h → above 72 s.1 → 0x200000 <= heap_size →
  BLOCK_DEVICES (k_virtio s.2) = replicate 8 BlockDevice_empty →
  length (VIRTIO_DEVICES (k_virtio s.2)) = 8%nat → HR t0 (host (k_virtio s.2)) →
  probe (T:=T) s = Done (tt, s') → PK s'.1 (k_virtio s'.2)).

(** Register accesses and printing reach only the machine behind the
    registers, the access-fault flag and the console. *)
Record quiet (s s' : St) : Prop := {
  qu_frames : s'.1 = s.1;
  qu_table : k_table s'.2 = k_table s.2;
  qu_hart : k_hart s'.2 = k_hart s.2;
  qu_blocks : BLOCK_DEVICES (k_virtio s'.2) = BLOCK_DEVICES (k_virtio s.2);
  qu_kinds : VIRTIO_DEVICES (k_virtio s'.2) = VIRTIO_DEVICES (k_virtio s.2);
  qu_host : HR (host (k_virtio s.2)) (host (k_virtio s'.2)) }.

Lemma quiet_refl (s : St) : quiet s s.
Proof. by split. Qed.
Lemma quiet_trans s1 s2 s3 : quiet s1 s2 → quiet s2 s3 → quiet s1 s3.
Proof. intros [] []. split; try congruence. by etrans. Qed.

Definition calm {A} (m : M St A) : Prop := ∀ s, wp none m (λ _ s', quiet s s') s.

Lemma calm_ret {A} (a : A) : calm (mret a).
Proof. intros s. apply wp_ret, quiet_refl. Qed.
Lemma calm_bind {A B} (m : M St A) (f : A → M St B) :
  calm m → (∀ a, calm (f a)) → calm (m ≫= f).
Proof.
  intros Hm Hf s. apply wp_bind. eapply wp_mono; [apply Hm|]. intros a s1 Q1.
  eapply wp_mono; [apply Hf|]. intros b s2 Q2. exact (quiet_trans _ _ _ Q1 Q2).
Qed.
Lemma calm_for_each {A} (l : list A) f : (∀ x, x ∈ l → calm (f x)) → calm (for_each l f).
Proof.
  induction l as [|x l IH]; intros Hf; cbn; [apply calm_ret|].
  apply calm_bind; [apply Hf; by left|]. intros _. apply IH. intros y Hy. apply Hf. by right.
Qed.
Lemma print_settles f args s :
  ∃ t', print f args s = Done (tt, with_bus t' s) ∧ HR (host (k_virtio s.2)) t'.
Proof.
  destruct (print_runs f args s) as (t' & E & Ht & _). exists t'. split; [done|].
  by apply (talked_keeps HR).
Qed.
Lemma calm_read a : calm (read_volatile a).
Proof.
  intros s. unfold wp, read_volatile, vget. rewrite bind_get.
  pose proof (HR_read a (host (k_virtio s.2))) as Hr.
  change (host (view s)) with (host (k_virtio s.2)).
  destruct (host_read a _) as [[v|] t]; by split.
Qed.
Lemma calm_write a v : a < MMIO_VIRTIO_START → calm (write_volatile a v).
Proof.
  intros Ha s. unfold wp, write_volatile, vget. rewrite bind_get.
  pose proof (HR_write a v (host (k_virtio s.2))) as Hw.
  change (host (view s)) with (host (k_virtio s.2)).
  destruct (host_write a v _) as [t|]; split; try done. by apply Hw.
Qed.
Lemma calm_plic_enable id : id < 32 → calm (plic_enable id).
Proof.
  intros Hid. unfold plic_enable, shl32. rewrite (proj2 (Z.ltb_lt _ _)) by done.
  apply calm_bind; [apply calm_read|]. intros prev. apply calm_bind; [apply calm_ret|].
  intros b. by apply calm_write.
Qed.

(** The UART is configured and the boot message printed before traps can be
    taken: no access faults. *)
Lemma config_settles o x s : o ∈ [LCR; FCR; IER] →
  ∃ t', uart_write UART_BASE o x s = Done (tt, with_bus t' s) ∧ HR (host (k_virtio s.2)) t'.
Proof.
  intros Ho. destruct (ur_config o x (host (k_virtio s.2)) Ho) as [t' E]. exists t'. split.
  - unfold uart_write, write_volatile, vget. rewrite bind_get. change (host (view s)) with (host (k_virtio s.2)).
    by rewrite E.
  - eapply HR_write; [|exact E]. rewrite !elem_of_cons in Ho. destruct_or? Ho; subst; try done.
    by apply not_elem_of_nil in Ho.
Qed.

Lemma calm_announce :
  calm (untrapped (uart_init UART_BASE;; println "" [];; println "vesper booted successfully!" [])).
Proof.
  intros s. unfold untrapped, uart_init, println, wp, vget. rewrite bind_get.
  assert (Hf : set_fault (T:=T) false s = Done (tt, (s.1, mk_rest (mk_virtio (BLOCK_DEVICES (k_virtio s.2))
    (VIRTIO_DEVICES (k_virtio s.2)) false (host (k_virtio s.2))) (k_table s.2) (k_hart s.2)))) by done.
  rewrite (bind_done _ _ _ _ _ Hf). clear Hf. match goal with |- context [(_ ≫= _) ?st] => set (s0 := st) end.
  destruct (config_settles LCR LCR_8BITS s0) as (t1 & E1 & R1); [by left|].
  destruct (config_settles FCR FCR_ENABLE (with_bus t1 s0)) as (t2 & E2 & R2); [by right; left|].
  destruct (config_settles IER IER_RX_ENABLE (with_bus t2 s0)) as (t3 & E3 & R3); [by right; right; left|].
  destruct (print_settles ("" ++ "\r\n")%string [] (with_bus t3 s0)) as (t4 & E4 & R4).
  destruct (print_settles ("vesper booted successfully!" ++ "\r\n")%string [] (with_bus t4 s0)) as (t5 & E5 & R5).
  change (with_bus t2 (with_bus t1 s0)) with (with_bus t2 s0) in E2.
  change (with_bus t3 (with_bus t2 s0)) with (with_bus t3 s0) in E3.
  rewrite !bind_assoc, (bind_done _ _ _ _ _ E1), !bind_assoc, (bind_done _ _ _ _ _ E2), (bind_done _ _ _ _ _ E3).
  rewrite !bind_assoc, (bind_done _ _ _ _ _ E4), (bind_done _ _ _ _ _ E5).
  split; try done. cbn in *. by repeat (etrans; [eassumption|]).
Qed.

Lemma calm_then {A B} (m : M St A) (k : A → M St B) Q s :
  calm m → (∀ a s', quiet s s' → wp none (k a) Q s') → wp none (m ≫= k) Q s.
Proof. intros Hm Hk. apply wp_bind. eapply wp_mono; [apply Hm|]. auto. Qed.

(** The root table: a fresh zeroed page, and the kernel's mappings in it,
    with the end of the heap still free. *)
Record rooted (root : Z) (m : gmap Z Z) (h : gmap Z Z) : Prop := {
  ro_live : h !! root = Some 1;
  ro_wf : pt_wf m root h;
  ro_space : kernel_space m root }.

Lemma boot_space {A} (k : Z → M St A) Q (s : St) :
  rep s.1 ∅ → 0x200000 <= heap_size →
  (∀ root s' h, rep s'.1 h → rooted root (ram s'.1) h → reserved 68 s'.1 0 → s'.2 = s.2 →
     wp none (k root) Q s') →
  wp none (o ← fa_zallocate 1; root ← unwrap o; map_kernel root;; k root) Q s.
Proof.
  intros R Hheap Hpost. destruct (usable_enough Hheap) as [Hu Hd].
  assert (Hk : (68 <= usable)%nat) by lia. pose proof (reserved_fresh 68 s.1 R ltac:(lia)) as Hres.
  set (laws := beside_laws (R:=rest T) (H0 := reserve_laws 68 Hk)).
  destruct (fa_zallocate_room (FrameAllocatorLaws := laws) s ∅ 67 R Hres) as (root & s1 & E & _ & Hres1).
  destruct (fa_zallocate_spec (FrameAllocatorLaws := laws) s ∅ 1 R)
    as [E'|(root' & s1' & E' & _ & R1 & Hz)]; [lia|congruence|].
  rewrite E in E'. injection E' as <- <-. rewrite insert_empty in R1.
  assert (Hfst : s1.2 = s.2) by (by apply on_frames_keeps in E).
  destruct (map_kernel_spec (H0 := laws) root s1 {[root := 1]}) as (s2 & h2 & E2 & R2 & Hsub & W2 & K2 & Hres2);
    [done|by rewrite lookup_singleton_eq| |done|].
  { intros j Hj. rewrite Hz, PAGE_SIZE_val, decide_True; [done|]. unfold idx_ok in Hj.
    split; [lia|]. replace (root + 8 * j - root) with (j * 8) by lia. by rewrite Z.mod_mul. }
  apply wp_bind. eapply wp_done; [exact E|]. apply wp_bind, wp_ret.
  apply wp_bind. eapply wp_done; [exact E2|]. apply (Hpost _ _ h2); [done| |done|].
  - split; [|done..]. eapply lookup_weaken; [|exact Hsub]. by rewrite lookup_singleton_eq.
  - rewrite <- Hfst. by apply (leaves_map_kernel root) in E2.
Qed.

(** Memory that does not touch live runs keeps the address space. *)
Lemma rooted_kept root m m' h h' s :
  rep s h → rooted root m h → h ⊆ h' →
  (∀ p n a, h !! p = Some n → p <= a < p + n * PAGE_SIZE → word_at m' a = word_at m a) →
  rooted root m' h'.
Proof.
  intros R [Hl W K] Hsub Hm.
  assert (Ha : agree m m' root).
  { intros Q t j HQ Hj Ht. apply (Hm t 1); [by apply (wf_live _ _ _ W Q)|].
    unfold idx_ok in Hj. rewrite PAGE_SIZE_val. lia. }
  split; [by eapply lookup_weaken|by eapply pt_wf_mono, pt_wf_agree|].
  intros va Hva. rewrite (walk_agree m) by done. by apply K.
Qed.

(** The trap stack comes out of the reserve. *)
Lemma install_spec root satp (s : St) h :
  rep s.1 h → rooted root (ram s.1) h → reserved 68 s.1 0 → 0x200000 <= heap_size →
  wp none (install (St:=St) satp) (λ _ s', ∃ stk, let top := stk + TRAP_STACK_PAGES * PAGE_SIZE in
    rep s'.1 (<[stk := TRAP_STACK_PAGES]> h) ∧
    rooted root (ram s'.1) (<[stk := TRAP_STACK_PAGES]> h) ∧ above 72 s'.1 ∧
    s'.2 = mk_rest (k_virtio s.2) (k_table s.2)
      (set_mtvec (set_mscratch KernelFrame (set_kernel_frame
        (set_hartid 0 (set_trap_stack top (set_satp satp (TRAP_FRAME (k_hart s.2)))))
        (set_stack_top top (k_hart s.2)))))) s.
Proof.
  intros R Hroot Hres Hheap. destruct (usable_enough Hheap) as [Hu Hd].
  destruct (above_run 68 s.1 h TRAP_STACK_PAGES R (proj2 Hres)) as (p0 & f0 & Ea);
    [done|unfold TRAP_STACK_PAGES; lia|].
  set (laws := beside_laws (R:=rest T) (H0 := frames_laws)).
  destruct (fa_zallocate_spec (FrameAllocatorLaws := laws) s h TRAP_STACK_PAGES R) as [E|(stk & s1 & E & Hn & R1 & Hz)]; [done| |].
  { exfalso. change (on_frames (zallocate TRAP_STACK_PAGES) s = Done (None, s)) in E.
    unfold on_frames, zoom in E. by rewrite Ea in E. }
  apply wp_bind. eapply wp_done; [exact E|]. apply wp_bind, wp_ret. cbv zeta. unfold on_hart.
  apply wp_bind. eapply wp_done; [reflexivity|]. eapply wp_done; [reflexivity|]. exists stk. apply on_frames_keeps in E as E2.
  split_and!; [done| | |by rewrite <- E2; destruct s1 as [? []]].
  2: { change (on_frames (zallocate TRAP_STACK_PAGES) s = Done (Some stk, s1)) in E.
       unfold on_frames, zoom in E. rewrite Ea in E. injection E as _ <-.
       apply (above_zallocate 68 s.1 h TRAP_STACK_PAGES (Some p0)); try done; [apply Hres|unfold TRAP_STACK_PAGES; lia|lia]. }
  apply (rooted_kept root (ram s.1) _ h _ s.1); [done|done|by apply insert_subseteq|].
  intros p n a Hp Hin. change (word_at (fa_ram s1) a = word_at (fa_ram s) a). rewrite Hz.
  rewrite decide_False; [done|]. intros [Hin' _].
  assert (Hne : p ≠ stk) by (intros ->; congruence).
  destruct (fa_disjoint (FrameAllocatorLaws := laws) s1 _ p n stk TRAP_STACK_PAGES R1); [by rewrite lookup_insert_ne|by rewrite lookup_insert_eq|done|lia|lia].
Qed.

Lemma quiet_same_bus (s s' : St) : quiet s s' → same_bus (T:=T) s s'.
Proof.
  intros [Hf _ _ Hb Hk _]. split; [done|done|cbn; by rewrite Hf|]. intros h. cbn. by rewrite Hf.
Qed.

(** The probe and the interrupt lines of what it found. *)
Lemma probe_and_enable {A} (k : M St A) Q (s : St) root h :
  rep s.1 h → rooted root (ram s.1) h →
  BLOCK_DEVICES (k_virtio s.2) = replicate 8 BlockDevice_empty →
  length (VIRTIO_DEVICES (k_virtio s.2)) = 8%nat →
  above 72 s.1 → 0x200000 <= heap_size → HR t0 (host (k_virtio s.2)) →
  (∀ s' h', rep s'.1 h' → h ⊆ h' → rooted root (ram s'.1) h' → cpu_part s' = cpu_part s →
     bus_ok (T:=T) h (ram s.1) 8 h' s' → PK s'.1 (k_virtio s'.2) → wp none k Q s') →
  wp none (probe;; irqs ← configured_irqs;
           for_each (omap id irqs) (λ irq, plic_enable irq;; plic_set_priority irq 1);; k) Q s.
Proof.
  intros R Hroot Hb Hk Habove Hheap Hhost Hpost.
  destruct (probe_spec (St:=St) (T:=T) s h) as (s1 & h1 & E & Hbus); [exact R|exact Hb|exact Hk|].
  apply wp_bind. eapply wp_done; [exact E|]. apply leaves_probe in E as Hcpu.
  pose proof (PK_probe _ _ h R Habove Hheap Hb Hk Hhost E) as Hpk.
  apply wp_bind. eapply wp_done; [reflexivity|].
  apply calm_then.
  { apply calm_for_each. intros i Hi. apply list_elem_of_omap in Hi as (o & Ho & Hi).
    apply list_elem_of_fmap in Ho as (b & -> & Hin). apply list_elem_of_lookup in Hin as [j Hj].
    destruct (Z.eq_dec (bdev b) 0) as [Hz|Hz]; [unfold irq in Hi; by rewrite Hz in Hi|].
    destruct (bus_irq _ _ _ _ _ _ _ Hbus Hj Hz) as (_ & Hirq & Hlt).
    rewrite Hirq in Hi. injection Hi as <-.
    apply calm_bind; [apply calm_plic_enable; lia|]. intros _. apply calm_write.
    unfold PLIC_PRIORITY, MMIO_VIRTIO_START. lia. }
  intros _ s2 Hq. apply (Hpost s2 h1); [|apply Hbus| | | |].
  - rewrite (qu_frames _ _ Hq). apply Hbus.
  - rewrite (qu_frames _ _ Hq).
    apply (rooted_kept root (ram s.1) _ h _ s.1); [done|done|apply Hbus|apply (bu_mem _ _ _ _ _ Hbus)].
  - unfold cpu_part in *. by rewrite (qu_table _ _ Hq), (qu_hart _ _ Hq).
  - eapply bus_ok_same; [exact Hbus|by apply quiet_same_bus].
  - rewrite (qu_frames _ _ Hq). eapply PK_kept; [exact Hpk|apply Hq..].
Qed.

(** The state [kinit] hands over. *)
Record booted (root satp : Z) (s s' : St) : Prop := {
  (** the heap is consistent, the page table live and [satp] points at it *)
  bo_heap : ∃ h h0 m0, rep s'.1 h ∧ rooted root (ram s'.1) h ∧ bus_ok (T:=T) h0 m0 8 h s' ∧
    ∃ stk, h !! stk = Some TRAP_STACK_PAGES ∧
      TRAP_STACK_TOP (k_hart s'.2) = stk + TRAP_STACK_PAGES * PAGE_SIZE;
  bo_satp : satp_mode satp = 8 ∧ satp_ppn satp * PAGE_SIZE = root;
  (** entering it runs supervisor code from the text section *)
  bo_enter : ∀ entry, text_start <= entry < text_end →
    let p := arch.enter_sv39 satp entry in p_mode p = 1 ∧ p_pc p = entry ∧
    ∃ e, walk (ram s'.1) (satp_ppn (p_satp p) * PAGE_SIZE) (p_pc p) = Some (0%nat, e) ∧
      Z.land e EXECUTE ≠ 0 ∧ leaf_addr 0 e (p_pc p) = p_pc p;
  (** the trap vector is installed, the kernel's frame carries the trap stack
      and the address space *)
  bo_mtvec : mtvec (k_hart s'.2) = true;
  bo_frame : Hart.satp (TRAP_FRAME (k_hart s'.2)) = satp ∧
    trap_stack (TRAP_FRAME (k_hart s'.2)) = TRAP_STACK_TOP (k_hart s'.2);
  (** traps can be taken, no process runs yet *)
  bo_sched : sched_inv s';
  bo_table : k_table s'.2 = table_init;
  bo_mie : mie (k_hart s'.2) = Z.lor MIE_MEIE MIE_MTIE;
  bo_timer : CLINT_MTIMECMP (k_hart s'.2) = CLINT_MTIME (k_hart s.2) + TIMER_TICK }.

(** The text section can be fetched through the page table. *)
Lemma rooted_text root m h entry :
  rooted root m h → text_start <= entry < text_end →
  ∃ e, walk m root entry = Some (0%nat, e) ∧ Z.land e EXECUTE ≠ 0 ∧ leaf_addr 0 e entry = entry.
Proof.
  intros [_ _ K] He. destruct (_ : VirtLds).
  assert (Hva : 0 <= entry < 2 ^ 39) by lia.
  destruct (align_up_val text_end) as [Hu _]; [lia|].
  assert (Hp : 0 <= page_of entry < 2 ^ 56) by (unfold page_of; rewrite PAGE_SIZE_val; dlia).
  rewrite (K entry Hva). unfold region. rewrite decide_True by lia. cbn [fmap option_fmap option_map].
  eexists. split; [reflexivity|]. split.
  - by rewrite leaf_pte_flags by (done || by vm_compute).
  - rewrite leaf_addr_leaf_pte by (done || by vm_compute). unfold page_of. rewrite PAGE_SIZE_val.
    change (2 ^ (12 + 9 * Z.of_nat 0)) with 4096. dlia.
Qed.

(** Enabling interrupts only arms the timer and [mie]. *)
Lemma enable_interrupts_spec (s : St) :
  0 <= CLINT_MTIME (k_hart s.2) < 2 ^ 64 - TIMER_TICK →
  enable_interrupts (St:=St) s = Done (tt, (s.1, mk_rest (k_virtio s.2) (k_table s.2)
    (set_mie (Z.lor MIE_MEIE MIE_MTIE)
      (set_mtimecmp (CLINT_MTIME (k_hart s.2) + TIMER_TICK) (k_hart s.2))))).
Proof.
  intros Ht. unfold enable_interrupts, rearm_timer, on_hart. rewrite bind_assoc, bind_get.
  rewrite bind_assoc. erewrite bind_done; [|apply checked_ok; cbn; unfold TIMER_TICK in *; lia].
  reflexivity.
Qed.

Lemma kinit_run (s : St) :
  t0 = host (k_virtio s.2) →
  0x200000 <= heap_size → length (descs s.1) = descriptors →
  BLOCK_DEVICES (k_virtio s.2) = replicate 8 BlockDevice_empty →
  length (VIRTIO_DEVICES (k_virtio s.2)) = 8%nat →
  k_table s.2 = table_init → TRAP_FRAME (k_hart s.2) = TrapFrame_empty →
  0 <= CLINT_MTIME (k_hart s.2) < 2 ^ 64 - TIMER_TICK →
  ∃ root satp s', kinit s = Done (satp, s') ∧ booted root satp s s' ∧ PK s'.1 (k_virtio s'.2).
Proof.
  intros Eh Hheap Hlen Hb Hk Ht Hf Hm.
  enough (Hwp : wp none kinit (λ satp s', ∃ root, booted root satp s s' ∧ PK s'.1 (k_virtio s'.2)) s).
  { apply wp_none in Hwp as (satp & s' & E & root & Hbt). by exists root, satp, s'. }
  unfold kinit. apply calm_then; [apply calm_announce|]. intros _ s3 Q.
  destruct (init_spec s3.1) as (f & E & R & _); [by rewrite (qu_frames _ _ Q)|].
  apply wp_bind. destruct s3 as [f3 r3]. eapply wp_done; [by apply on_frames_done|].
  destruct Q as [_ Qt Qh Qb Qk Qx]. cbn [fst snd] in Qt, Qh, Qb, Qk, Qx.
  apply boot_space; [done|done|]. intros root s4 h4 R4 Hr4 Hres4 E4. cbv zeta.
  cbn [snd] in E4. apply wp_bind. eapply wp_mono; [by apply (install_spec root _ _ h4)|].
  intros _ s5 (stk & R5 & Hr5 & Ha5 & E5). rewrite E4 in E5.
  apply calm_then; [by apply calm_write|]. intros _ s6 Q6.
  apply calm_then; [by apply calm_plic_enable|]. intros _ s7 Q7.
  apply calm_then; [by apply calm_write|]. intros _ s8 Q8.
  assert (Q : quiet s5 s8) by (by eapply quiet_trans; [eapply quiet_trans|]). clear s6 s7 Q6 Q7 Q8.
  destruct Q as [Qf8 Qt8 Qh8 Qb8 Qk8 Qx8]. rewrite E5 in Qt8, Qh8, Qb8, Qk8, Qx8. cbn in Qt8, Qh8, Qb8, Qk8, Qx8.
  rewrite <- Qf8 in R5, Hr5, Ha5.
  apply (probe_and_enable _ _ _ root _ R5 Hr5); [by rewrite Qb8, Qb|by rewrite Qk8, Qk|done|done| |].
  { rewrite Eh. by etrans. }
  intros s9 h9 R9 Hsub9 Hr9 Hcpu Hbus Hpk. injection Hcpu as Ht9 Hh9.
  apply wp_bind. eapply wp_done.
  { apply enable_interrupts_spec. by rewrite Hh9, Qh8, Qh. }
  assert (Hsatp : satp_mode (arch.make_satp_sv39 root) = 8 ∧ satp_ppn (arch.make_satp_sv39 root) * PAGE_SIZE = root).
  { destruct (fa_run (FrameAllocatorLaws := frames_laws) _ _ _ _ R4 (ro_live _ _ _ Hr4)) as (_ & ? & ? & ?).
    assert (0 < PAGE_SIZE) by done. destruct (make_satp_fields root) as (? & ? & _); [lia|done|done]. }
  apply wp_ret. exists root. split; [|exact Hpk]. rewrite Ht9, Qt8, Qt, Hh9, Qh8, Qh. split; cbn.
  - exists h9, (<[stk := TRAP_STACK_PAGES]> h4), (ram s8.1). split_and!; [done|done| |].
    + eapply bus_ok_same; [exact Hbus|]. by split.
    + exists stk. split; [|done]. eapply lookup_weaken; [|exact Hsub9]. by rewrite lookup_insert_eq.
  - exact Hsatp.
  - intros entry He. split; [done|]. split; [done|]. rewrite (proj2 Hsatp). by apply (rooted_text _ _ h9).
  - done.
  - done.
  - split; cbn; rewrite ?Ht.
    + split; [done|done|cbn; lia].
    + done.
    + rewrite Hf. done.
    + intros i p Hi. unfold table_init in Hi. cbn [slots] in Hi. by apply lookup_replicate in Hi as [? _].
  - done.
  - done.
  - done.
Qed.
End startup.

(** C8. [kinit] always reaches the supervisor: on a machine whose UART
    answers as documented (printing waits for it), whatever every other
    device answers, refuses or faults on, from the state the boot assembly
    leaves (cleared statics, a descriptor table of the right length) and with
    a heap of at least 2 MiB, it neither panics nor hangs, and hands over a
    [satp] whose root is a live page table that maps the kernel, so that
    entering it continues in supervisor mode at any entry point of the text
    section; the trap stack is installed, the bus in order, interrupts are
    enabled with the timer armed, and the invariant every trap relies on
    holds. *)
Theorem kinit_reaches_supervisor `{Profile} `{Linker} `{!VirtLds} {T} `{Host T} `{!UartHost T}
    `{Spins} `{!ConsoleReady T} `{!BlockReader (kernel T)} (s : kernel T) :
  0x200000 <= heap_size → length (descs s.1) = descriptors →
  BLOCK_DEVICES (k_virtio s.2) = replicate 8 BlockDevice_empty →
  length (VIRTIO_DEVICES (k_virtio s.2)) = 8%nat →
  k_table s.2 = table_init → TRAP_FRAME (k_hart s.2) = TrapFrame_empty →
  0 <= CLINT_MTIME (k_hart s.2) < 2 ^ 64 - TIMER_TICK →
  ∃ root satp s', kinit s = Done (satp, s') ∧ booted root satp s s'.
Proof.
  intros Hheap Hlen Hb Hk Ht Hf Hm.
  assert (Hpre : PreOrder (λ _ _ : T, True)) by (by split).
  destruct (kinit_run (λ _ _, True) (λ _ _, I) (λ _ _ _ _ _ _, I) (host (k_virtio s.2)) (λ _ _, True)
    (λ _ _ _ _ _ _, I) (λ _ _ _ _ _ _ _ _ _ _, I) s) as (root & satp & s' & E & Hbt & _); try done.
  by exists root, satp, s'.
Qed.
