(* ===== verification/BootRun.v ===== *)
(** * The supervisor's start: [skmain]

    The self-tests of [skmain] (block driver, Minix 3 directory) on a machine
    whose disk the driver can use, and the first process.  The block reader
    is the VirtIO driver of [VirtioRead]. *)

From Stdlib Require Import String.
From S2P Require Import Prelude Linker Frames Bytes PageFrame BlockDev Minix3 Minix3Read Virtio.
From S2P Require Import VirtioQueue VirtioRead VirtioBus VirtioSetup Console Hart Process ProcessProps Trap Kernel.
From S2P Require Import TrapProps SyscallProps Elf Boot.

#[local] Open Scope Z_scope.

Section supervisor.
Context `{Profile} `{Linker} `{!HeapOk} {T : Type} `{DiskHost T} `{!DiskAside T}.
Context `{Spins} `{!UartHost T} `{!ConsoleReady T}.
Context (conf : nat → option Z) (polls : nat).
Context (Hinj : ∀ i j base, conf i = Some base → conf j = Some base → i = j).
Context (Hpolls : (hd_latency < polls)%nat).
Context (img : nat → Z → Z) (Himg : ∀ slot, byteful (img slot)).
Abbreviation St := (kernel T).
#[local] Instance reader : BlockReader St := virtio_reader polls.
#[local] Instance reader_laws : BlockReaderLaws St := virtio_reader_laws conf polls Hinj Hpolls img Himg.
Implicit Types (s : St) (h d : gmap Z Z).

(** The heap holds [h], the driver is idle and owns [d], and [n] single pages
    are free. *)
Definition ready (h d : gmap Z Z) (n : nat) (s : St) : Prop := world s h d ∧ fa_room s n.

Lemma ready_print f args h d n s : ready h d n s → wp none (print f args) (λ _, ready h d n) s.
Proof.
  intros [(R & Ho & Hd) Hr]. destruct (print_runs f args s) as (t' & E & Ht & _).
  apply (talked_keeps same_disks da_read da_write) in Ht as [Hbusy Hq Hdisk].
  eapply wp_done; [exact E|]. split; [|exact Hr]. split; [exact R|]. split; [|done].
  exact (own_host conf img s (with_bus t' s) d Ho eq_refl eq_refl Hbusy Hq Hdisk).
Qed.

(** A page borrowed for a while. *)
Lemma ready_allocate h d n s :
  ready h d (S n) s →
  ∃ p s1, fa_allocate 1 s = Done (Some p, s1) ∧ h !! p = None ∧ p < fa_end (S:=St) ∧
    ready (<[p := 1]> h) d n s1.
Proof.
  intros [(R & Ho & Hd) Hr].
  destruct (fa_allocate_room s h n R Hr) as (p & s1 & E & Hend & Hr1).
  destruct (fa_allocate_spec s h 1 R ltac:(lia)) as [E'|(p' & s1' & E' & Hp & R1 & _)];
    rewrite E in E'; [done|]. injection E' as <- <-.
  exists p, s1. split_and!; try done. split; [split_and!|]; try done.
  - exact (bd_own_allocate s h d 1 _ s1 R Ho Hd ltac:(lia) E).
  - etrans; [exact Hd|]. by apply insert_subseteq.
Qed.

Lemma ready_deallocate h d n p s :
  ready (<[p := 1]> h) d n s → h !! p = None → d ⊆ h → p < fa_end (S:=St) →
  wp none (fa_deallocate p) (λ _, ready h d (S n)) s.
Proof.
  intros [(R & Ho & Hd) Hr] Hp Hdh Hend.
  destruct (fa_deallocate_spec s _ p 1 R) as (s1 & E & R1 & _); [by rewrite lookup_insert_eq|done|].
  eapply wp_done; [exact E|]. rewrite delete_insert_id in R1 by done. split; [split_and!|]; try done.
  - eapply (bd_own_deallocate s _ d p 1 s1 R Ho Hd); [by rewrite lookup_insert_eq|done| |exact E].
    by eapply owned_not_fresh.
  - eapply (fa_deallocate_room s _ p n s1 R); [by rewrite lookup_insert_eq|done|done|exact E].
Qed.

Lemma ready_store h d n m' s :
  ready h d n s →
  (∀ p k a, d !! p = Some k → in_run p k a → byte_at m' a = byte_at (fa_ram s) a) →
  ready h d n (fa_set_ram m' s).
Proof.
  intros [(R & Ho & Hd) Hr] Hm. split; [split_and!|].
  - by apply fa_rep_set.
  - by apply bd_own_store.
  - done.
  - by apply fa_room_set.
Qed.

(** Zeroing a run the driver does not own. *)
Lemma zero_words_bytes p n m a : 0 <= p → (8 | p) →
  ¬ (p <= a < p + 8 * Z.of_nat n) → byte_at (zero_words p n m) a = byte_at m a.
Proof.
  intros H0p [q ->] Ha. unfold byte_at. rewrite word_at_zero_words, decide_False; [done|].
  intros [Hin _]. dlia.
Qed.

Lemma ready_zallocate h d n s :
  ready h d (S n) s →
  ∃ p s1, fa_zallocate 1 s = Done (Some p, s1) ∧ h !! p = None ∧ p < fa_end (S:=St) ∧ 0 < p ∧
    ready (<[p := 1]> h) d n s1.
Proof.
  intros Hs. destruct (ready_allocate h d n s Hs) as (p & s1 & E & Hp & Hend & Hs1).
  destruct (fa_run s1 _ p 1 (proj1 (proj1 Hs1))) as (_ & Hpos & Hdiv & _); [by rewrite lookup_insert_eq|].
  exists p, (fa_set_ram (zero_words p 512 (fa_ram s1)) s1). split.
  { change (on_frames (allocate 1) s = Done (Some p, s1)) in E.
    change (on_frames (zallocate 1) s = Done (Some p, fa_set_ram (zero_words p 512 (fa_ram s1)) s1)).
    unfold on_frames, zoom, zallocate in *.
    destruct (allocate 1 s.1) as [[o f1]| | |] eqn:Ea; try done. injection E as -> <-.
    rewrite (bind_done _ _ _ _ _ Ea). by erewrite bind_done by (by apply checked_ok). }
  split_and!; try done. apply ready_store; [done|].
  intros q k a Hq Ha. destruct Hs1 as [(R1 & _ & D1) _].
  apply zero_words_bytes; [lia|etrans; [|exact Hdiv]; by exists 512|]. intros Hin.
  assert (Hne : q ≠ p).
  { intros ->. assert (Hn : d !! p = None) by (eapply owned_not_fresh; [apply Hs|done]). congruence. }
  unfold in_run in Ha.
  destruct (fa_disjoint s1 _ q k p 1 R1) as [Hx|Hx];
    [by eapply lookup_weaken|by rewrite lookup_insert_eq|done|lia|rewrite PAGE_SIZE_val in *; lia].
Qed.

Lemma wp_for_each {A} (P : St → Prop) (l : list A) f s :
  (∀ x s, P s → wp none (f x) (λ _, P) s) → P s → wp none (for_each l f) (λ _, P) s.
Proof.
  intros Hf. revert s. induction l as [|x l IH]; intros s HP; cbn [for_each]; [by apply wp_ret|].
  apply wp_bind. eapply wp_mono; [by apply Hf|]. auto.
Qed.

(** The first device is a configured one. *)
Lemma first_device_conf s d o :
  own conf img s d → first_block_device (St:=St) s = Done (o, s) →
  ∀ slot, o = Some slot → ∃ base, conf slot = Some base.
Proof.
  intros (Hlen & _ & Hall & _) [= <-] slot Ho.
  apply fmap_Some in Ho as ([i bd] & Hf & ->). apply list_find_Some in Hf as (Hi & Hne & _).
  assert (Hlt : (i < 8)%nat) by (rewrite <- Hlen; exact (lookup_lt_Some _ _ _ Hi)). cbn [fst].
  specialize (Hall i Hlt). destruct (conf i) as [base|]; [by exists base|].
  destruct Hall as (bd' & Hbd & Hz). assert (bd' = bd) as -> by (apply (inj Some); by rewrite <- Hbd, <- Hi). done.
Qed.

Lemma first_device_wp h d n s :
  ready h d n s →
  wp none (first_block_device (St:=St)) (λ o s', s' = s ∧
    ∀ slot, o = Some slot → ∃ base, conf slot = Some base) s.
Proof.
  intros [(_ & Ho & _) _]. eapply wp_done; [reflexivity|]. split; [done|].
  exact (first_device_conf s d _ Ho eq_refl).
Qed.

Lemma dump_wp h d n ptr s : ready h d n s → wp none (dump ptr) (λ _, ready h d n) s.
Proof.
  intros Hs. apply wp_for_each; [|done]. intros i s1 Hs1. apply wp_bind, wp_gets, wp_bind.
  eapply wp_mono; [by apply ready_print|]. intros [] s2 Hs2.
  destruct (_ =? _); [by apply ready_print|by apply wp_ret].
Qed.

Lemma test_block_wp h d n s :
  ready h d (S (S n)) s → wp none (test_block (T:=T)) (λ _, ready h d (S (S n))) s.
Proof.
  intros Hs. unfold test_block. apply wp_bind. eapply wp_mono; [by eapply first_device_wp|].
  cbn beta. intros o s' [-> _]. destruct o as [slot|]; [|by apply ready_print].
  destruct (ready_allocate h d (S n) s Hs) as (p & s1 & E & Hp & Hend & [(R1 & O1 & D1) Hr1]).
  assert (Hdh : d ⊆ h) by apply Hs. assert (Hdp : d !! p = None) by (by eapply owned_not_fresh).
  apply wp_bind. eapply wp_done; [exact E|]. cbn beta iota.
  destruct (bd_read_spec s1 _ d (Z.of_nat slot) p 512 0 R1 O1 D1) as (s2 & E2 & R2 & O2 & Hr2 & _);
    [eapply fa_room_le; [exact Hr1|lia]|by rewrite lookup_insert_eq|done|by rewrite PAGE_SIZE_val
    |by exists 1|by exists 0|lia|lia|].
  apply wp_bind. eapply wp_done; [exact E2|].
  assert (Hs2 : ready (<[p := 1]> h) d (S n) s2) by (split; [split_and!; done|auto]).
  apply wp_bind. apply wp_mono with (λ _, ready (<[p := 1]> h) d (S n)).
  { destruct (bd_readable _ _ _); [by apply dump_wp|by apply ready_print]. }
  intros [] s3 Hs3. by apply ready_deallocate.
Qed.

(** The directory listing gives its page back. *)
Lemma list_dir_wp h d n fs dir s :
  ready h d (6 + n) s → wf_inode dir → dense (St:=St) (dev fs) dir (Z.max 0 (Z.min 1024 (size dir))) →
  wp none (list_dir fs dir) (λ _, ready h d (6 + n)) s.
Proof.
  intros Hs Hdir Hdense. unfold list_dir.
  destruct (ready_zallocate h d (5 + n) s Hs) as (p & s1 & E & Hp & Hend & Hpos & [Hw1 Hr1]).
  assert (Hdh : d ⊆ h) by apply Hs. assert (Hdp : d !! p = None) by (by eapply owned_not_fresh).
  apply wp_bind. eapply wp_done; [exact E|]. apply wp_bind, wp_ret, wp_bind.
  eapply wp_mono.
  { apply (with_slice_wp none s1 _ d n fs dir 0 p BLOCK_SIZE Hw1 Hr1); try done.
    - split_and!; [done|done|]. exists p, 1. rewrite lookup_insert_eq, PAGE_SIZE_val. unfold BLOCK_SIZE.
      split_and!; (done || lia).
    - by rewrite Z.sub_0_r. }
  cbn beta. intros r s2 (-> & Hw2 & Hr2 & _). apply wp_bind.
  eapply wp_mono; [apply (ready_print _ _ (<[p := 1]> h) d (5 + n)); by split|]. intros [] s3 Hs3.
  apply wp_bind. apply wp_mono with (λ _, ready (<[p := 1]> h) d (5 + n)).
  { apply wp_for_each; [|done]. intros i s4 Hs4. unfold print_entry. apply wp_bind, wp_gets.
    destruct (_ =? 0); [by apply wp_ret|by apply ready_print]. }
  intros [] s4 Hs4. by apply ready_deallocate.
Qed.

(** What the listing relies on of a formatted disk: its root directory has no
    hole in the first block. *)
Definition listable (dv : Z) : Prop :=
  match mount_result (St:=St) dv with
  | Err _ => True
  | Ok fs =>
      match read_inode_result (St:=St) fs ROOT_INODE with
      | Err _ => True
      | Ok root => is_dir root = true →
          dense (St:=St) (dev fs) root (Z.max 0 (Z.min 1024 (size root)))
      end
  end.

Lemma test_minix3_wp h d n s :
  ready h d (6 + n) s → (∀ slot base, conf slot = Some base → listable (Z.of_nat slot)) →
  wp none test_minix3 (λ _, ready h d (6 + n)) s.
Proof.
  intros Hs Hlist. unfold test_minix3. apply wp_bind. eapply wp_mono; [by eapply first_device_wp|].
  cbn beta. intros o s' [-> Ho]. destruct o as [slot|]; [|by apply wp_ret].
  destruct (Ho slot eq_refl) as [base Hc]. specialize (Hlist slot base Hc). unfold listable in Hlist.
  apply wp_bind. eapply wp_mono; [by apply ready_print|]. intros [] s1 Hs1.
  apply wp_bind. eapply wp_mono; [by apply ready_print|]. intros [] s2 [Hw2 Hr2].
  apply wp_bind. eapply wp_mono; [by apply (mount_wp none s2 h d (4 + n))|].
  cbn beta. intros r s3 (Hw3 & Hr3 & _ & ->). assert (Hs3 : ready h d (6 + n) s3) by by split.
  destruct (mount_result _) as [fs|e] eqn:Hm; [|destruct e; by apply ready_print].
  apply mount_result_dev in Hm as [_ Hsb].
  apply wp_bind. eapply wp_mono; [by apply ready_print|]. intros [] s4 [Hw4 Hr4].
  apply wp_bind. eapply wp_mono; [by apply (read_inode_wp none s4 h d (4 + n))|].
  cbn beta. intros r s5 (Hw5 & Hr5 & _ & ->). assert (Hs5 : ready h d (6 + n) s5) by by split.
  destruct (read_inode_result _ _) as [root|e] eqn:Hi; [|by apply ready_print].
  apply read_inode_result_wf in Hi as Hwf.
  destruct (lookup_lt_is_Some_2 (zones root) 0) as [z Hz]; [rewrite (proj1 Hwf); lia|].
  apply wp_bind. eapply wp_index; [exact Hz|].
  apply wp_bind. eapply wp_mono; [by apply ready_print|]. intros [] s6 Hs6.
  destruct (is_dir root) eqn:Hd; cbn [negb]; [|by apply ready_print].
  apply wp_bind. eapply wp_mono; [exact (list_dir_wp h d n fs root s6 Hs6 Hwf (Hlist eq_refl))|]. intros [] s7 Hs7. by apply wp_ret.
Qed.

(** ** Nothing of this touches the processes *)

Lemma keeps_tests : keeps (test_block (T:=T)) ∧ keeps (test_minix3 (T:=T)).
Proof.
  assert (Hbd : ∀ dv b n o, keeps (bd_read (S:=St) dv b n o))
    by (intros dv b n o; exact (keeps_block_op polls dv b n o false)).
  pose proof (keeps_mount (T:=T) Hbd) as Hmount. pose proof (keeps_read_inode (T:=T) Hbd) as Hinode.
  pose proof (keeps_read_file (T:=T) Hbd) as Hfile.
  pose proof (keeps_allocate (T:=T)) as Hall. pose proof (keeps_deallocate (T:=T)) as Hdeall.
  assert (Hzall : ∀ n, keeps (fa_zallocate (S:=St) n)) by (intros; apply keeps_on_frames).
  assert (Hp : ∀ f a, keeps (println (T:=T) f a)) by (intros; apply keeps_print).
  assert (Hmod : ∀ f : gmap Z Z → gmap Z Z, keeps (modify (λ s : St, fa_set_ram (f (fa_ram s)) s)))
    by (intros; by intros s [] s' [= <-]).
  assert (Hfirst : keeps (first_block_device (St:=St))) by (unfold first_block_device, vget; solve_keeps).
  assert (Hunwrap : ∀ o : option Z, keeps (T:=T) (unwrap o)) by (intros []; [apply keeps_ret|apply keeps_panic]).
  split.
  - unfold test_block, dump. solve_keeps; apply keeps_for_each; solve_keeps.
  - assert (Hlist : ∀ fs dir, keeps (list_dir (T:=T) fs dir)).
    { intros. unfold list_dir, with_slice, print_entry. solve_keeps; apply keeps_for_each; solve_keeps. }
    unfold test_minix3. cbn [negb Z.eqb ELF_TEST_INODE]. pose proof (λ l : list Z, keeps_index (T:=T) l). solve_keeps.
Qed.

Definition started (h d : gmap Z Z) (n : nat) (s0 s : St) : Prop :=
  ready h d n s ∧ sched_part s = sched_part s0.

Lemma wp_started {A} (m : M St A) h d n s0 s :
  (∀ s, ready h d n s → wp none m (λ _, ready h d n) s) → keeps m →
  started h d n s0 s → wp none m (λ _, started h d n s0) s.
Proof.
  intros Hm Hk [Hs Hp]. specialize (Hm s Hs). apply wp_none in Hm as (a & s' & E & Hs').
  eapply wp_done; [exact E|]. split; [done|]. by rewrite (Hk _ _ _ E).
Qed.

Lemma started_println f args h d n s0 s :
  started h d n s0 s → wp none (println f args) (λ _, started h d n s0) s.
Proof. apply wp_started; [intros ?; apply ready_print|apply keeps_print]. Qed.

(** The first process. *)
Lemma spawn_init_wp s0 s h d n init_process :
  started h d n s0 s → k_table s0.2 = table_init →
  (∃ p s1, fa_zallocate STACK_PAGES s = Done (Some p, s1)) →
  wp none (spawn_kernel init_process) (λ r s', r = Ok 1 ∧ ∃ stk, h !! stk = None ∧
    fa_rep s' (<[stk := STACK_PAGES]> h) ∧
    k_table s'.2 = mk_table (<[0%nat := Some (new_process init_process stk (TRAP_STACK_TOP (k_hart s0.2)) 1)]>
        (slots table_init)) None 2 ∧
    (mscratch (k_hart s'.2), TRAP_FRAME (k_hart s'.2)) = (mscratch (k_hart s0.2), TRAP_FRAME (k_hart s0.2)) ∧
    (∀ j, 0 <= j < STACK_PAGES * 512 → word_at (fa_ram s') (stk + 8 * j) = 0)) s.
Proof.
  intros [[(R & _ & _) _] Hp] Ht (p0 & s0' & E0). injection Hp as Hpt Hpm Hpf Hps.
  destruct (fa_zallocate_spec s h STACK_PAGES R ltac:(done)) as [E|(p & s1 & E & Hp & R1 & Hz)]; [congruence|].
  pose proof (spawn_kernel_run s init_process p s1 E) as Hrun. cbv zeta in Hrun.
  change (view (T:=table) s) with (k_table s.2) in Hrun.
  change (TRAP_STACK_TOP (view (T:=hart) s)) with (TRAP_STACK_TOP (k_hart s.2)) in Hrun.
  rewrite Hpt, Ht, Hps in Hrun. eapply wp_done; [exact Hrun|]. split; [done|]. exists p.
  split_and!; [done|exact R1|done| |].
  { change (fa_zallocate STACK_PAGES s) with (on_frames (zallocate STACK_PAGES) s) in E.
    apply on_frames_keeps in E. cbn. by rewrite E, Hpm, Hpf. }
  intros j Hj.
  change (word_at (fa_ram s1) (p + 8 * j) = 0). rewrite Hz, decide_True; [done|].
  unfold STACK_PAGES in *. rewrite PAGE_SIZE_val. split; [lia|].
  replace (p + 8 * j - p) with (j * 8) by lia. by rewrite Z.mod_mul.
Qed.

(** [skmain] with all it leaves behind. *)
Lemma skmain_run s h d n init_process :
  ready h d (6 + n) s → (∀ slot base, conf slot = Some base → listable (Z.of_nat slot)) →
  k_table s.2 = table_init → (∃ p s1, fa_zallocate STACK_PAGES s = Done (Some p, s1)) →
  wp none (skmain init_process) (λ _ s', ∃ stk, h !! stk = None ∧
    fa_rep s' (<[stk := STACK_PAGES]> h) ∧
    k_table s'.2 = mk_table (<[0%nat := Some (new_process init_process stk (TRAP_STACK_TOP (k_hart s.2)) 1)]>
        (slots table_init)) None 2 ∧
    (mscratch (k_hart s'.2), TRAP_FRAME (k_hart s'.2)) = (mscratch (k_hart s.2), TRAP_FRAME (k_hart s.2)) ∧
    (∀ j, 0 <= j < STACK_PAGES * 512 → word_at (fa_ram s') (stk + 8 * j) = 0)) s.
Proof.
  intros Hs Hlist Ht (p0 & s0 & E0).
  assert (Hst : started h d (6 + n) s s) by done. destruct keeps_tests as [Hkb Hkm].
  unfold skmain.
  do 4 (apply wp_bind; eapply wp_mono; [by apply started_println|]; clear Hst; intros [] ? Hst).
  apply wp_bind. eapply wp_mono; [eapply wp_started; [intros ?; apply test_block_wp|exact Hkb|exact Hst]|].
  clear Hst. intros [] ? Hst.
  apply wp_bind. eapply wp_mono; [by apply started_println|]. clear Hst. intros [] ? Hst.
  apply wp_bind. eapply wp_mono; [eapply wp_started; [intros ? ?; by apply test_minix3_wp|exact Hkm|exact Hst]|].
  clear Hst. intros [] s1 Hst.
  apply wp_bind. eapply wp_mono; [apply (spawn_init_wp s _ h d (6 + n)); [exact Hst|done|]|].
  { destruct s as [f r], s1 as [f1 r1]. change (on_frames (zallocate STACK_PAGES) (f, r) = Done (Some p0, s0)) in E0.
    unfold on_frames, zoom in E0. cbn [fst] in E0.
    destruct (zallocate STACK_PAGES f) as [[o f0]| | |] eqn:Ez; try done. injection E0 as -> <-.
    destruct (zallocate_again f f1 h STACK_PAGES p0 f0) as (p' & f' & E'); [apply Hs|apply Hst|done|done|].
    exists p', (f', r1). by apply on_frames_done. }
  cbn beta. intros r s2 (-> & Hpost). apply wp_bind, wp_ret.
  destruct (print_runs ("spawned init kernel thread, awaiting first timer tick" ++ "\r\n")%string [] s2)
    as (t & E & _).
  eapply wp_done; [exact E|]. exact Hpost.
Qed.

(** C12. The supervisor's start-up: on any machine whose UART answers and
    whose formatted disks have no hole in the first block of their root directory, [skmain] runs its
    disk tests to the end, whatever they find, gives back every page they
    used, and creates the first process: PID 1 in slot 0, at the given entry
    point, on a zeroed stack of its own and the kernel's trap stack. *)
Theorem skmain_spawns_init s h d n init_process :
  ready h d (6 + n) s → (∀ slot base, conf slot = Some base → listable (Z.of_nat slot)) →
  k_table s.2 = table_init → (∃ p s1, fa_zallocate STACK_PAGES s = Done (Some p, s1)) →
  ∃ stk s', skmain init_process s = Done (tt, s') ∧ h !! stk = None ∧
    fa_rep s' (<[stk := STACK_PAGES]> h) ∧ current (k_table s'.2) = None ∧
    slots (k_table s'.2) =
      <[0%nat := Some (new_process init_process stk (TRAP_STACK_TOP (k_hart s.2)) 1)]>
        (slots table_init) ∧
    NEXT_PID (k_table s'.2) = 2 ∧
    (∀ j, 0 <= j < STACK_PAGES * 512 → word_at (fa_ram s') (stk + 8 * j) = 0).
Proof.
  intros Hs Hlist Ht Hstk. pose proof (skmain_run s h d n init_process Hs Hlist Ht Hstk) as Hwp.
  apply wp_none in Hwp as ([] & s' & E & stk & Hn & R & Hk & _ & Hz). exists stk, s'. by rewrite Hk.
Qed.
End supervisor.

(** The call of the first process comes back: only [a0] and the PC move. *)
Lemma init_call_returns `{Profile} `{Linker} {T} `{Host T} `{Spins} `{!BlockReader (kernel T)} c (s : kernel T) :
  sched_inv s → wf_cpu c → 0 <= cpc c < 2 ^ 64 - 4 →
  ∃ s', syscall 1 c s = Done ((1, mk_cpu (<[10%nat := 1]> (x c)) (cpc c + 4)), s') ∧ sched_inv s' ∧
    ∀ i, current (k_table s.2) ≠ Some i → context_of (k_table s'.2) c i = context_of (k_table s.2) c i.
Proof.
  intros Hs Hc Hpc. unfold syscall. pose proof (set_a0_wf c 1 Hc) as Hc1.
  set (c1 := mk_cpu _ _) in *.
  assert (H10 : x c1 !! 10%nat = Some 1).
  { destruct Hc as [Hl _]. unfold c1. cbn [x]. apply list_lookup_insert_eq. lia. }
  destruct (load_current (entered c1 s) c1 s Hs eq_refl Hc1) as (f & Ef & Hf10 & _).
  rewrite H10 in Hf10.
  assert (Em : m_trap (cpc c1) 0 9 0 (ptr_of (current (k_table s.2))) (entered c1 s) =
               Done (cpc c + 4, entered c1 s)).
  { change (do_syscall (cpc c1) (ptr_of (current (k_table s.2))) (entered c1 s) = Done (cpc c + 4, entered c1 s)).
    unfold do_syscall. rewrite (bind_done _ _ _ _ _ Ef), (reg_of_lookup _ _ _ Hf10). cbn [Z.eqb Pos.eqb].
    apply checked_ok. cbn [cpc c1]. lia. }
  destruct (transparent c1 s (entered c1 s) (cpc c + 4) Hs Hc1 eq_refl) as (Hl & Hi & Hctx).
  erewrite bind_done; [|rewrite trap_vector_enter by done; by rewrite (bind_done _ _ _ _ _ Em)].
  eexists. split; [cbn [x]; rewrite H10; reflexivity|]. split; [done|]. intros i Hne.
  specialize (Hctx i). unfold context_of in *. cbn [entered snd k_table] in *. rewrite store_regs_current in *.
  destruct (slots (store_regs (x c1) (k_table s.2)) !! i) as [[?|]|], (slots (k_table s.2) !! i) as [[?|]|];
    try done. by rewrite !decide_False in * by done.
Qed.

(** ** The first process: one system call every 1 000 001 turns *)

Lemma init_run_app a b i :
  init_run (a + b) i =
  let '(j, l) := init_run a i in let '(k, l') := init_run b j in (k, l ++ l').
Proof.
  revert i. induction a as [|a IH]; intros i; cbn [Nat.add init_run].
  - by destruct (init_run b i).
  - destruct (init_step i) as [i1 o]. rewrite IH. destruct (init_run a i1) as [j l].
    destruct (init_run b j) as [k l']. by rewrite app_assoc.
Qed.

Lemma init_run_counts n i :
  0 <= i → i + Z.of_nat n <= 1000000 → init_run n i = (i + Z.of_nat n, []).
Proof.
  revert i. induction n as [|n IH]; intros i Hi Hn; [by rewrite Z.add_0_r|].
  cbn [init_run]. unfold init_step. rewrite Z.mod_small, (proj2 (Z.ltb_ge _ _)), IH by lia.
  cbn. f_equal. lia.
Qed.

Lemma init_process_calls k n :
  Z.of_nat n = 1000001 * Z.of_nat k → init_run n 0 = (0, replicate k 1).
Proof.
  revert n. induction k as [|k IH]; intros n Hn; [by replace n with 0%nat by lia|].
  replace n with (Z.to_nat 1000000 + (1 + Z.to_nat (1000001 * Z.of_nat k)))%nat by lia.
  rewrite init_run_app, init_run_counts, Z2Nat.id, init_run_app by lia.
  cbn [init_run]. unfold init_step. rewrite Z.mod_small, (proj2 (Z.ltb_lt _ _)) by lia.
  rewrite IH by lia. done.
Qed.
