(* ===== verification/BootDisk.v ===== *)
(** * The disks [kinit] leaves to [skmain]

    On a bus whose devices behave as [VirtioSetup] documents, every block
    device the probe records has brought up the queue it was given, idle, and
    the disks hold what they held; and
    start-up as a whole takes at most 88 pages, so that the supervisor's
    self-tests and the first process find theirs. *)

From Stdlib Require Import String.
From S2P Require Import Prelude Linker Frames Bytes PageFrame BlockDev Virtio VirtioProps VirtioQueue.
From S2P Require Import VirtioRead VirtioBus VirtioSetup Console Hart Process Trap Kernel.

#[local] Open Scope Z_scope.

(** Partial correctness: what holds if the code returns. *)
Definition any : fault → Prop := λ _, True.

Section setup.
Context `{Profile} `{Linker} `{!HeapOk} {T : Type} `{DiskSetup T}.
Context `{Spins} `{!UartHost T} `{!ConsoleReady T} (img : nat → Z → Z).
Abbreviation St := (kernel T).
Implicit Types (s : St).

Abbreviation blocks s := (BLOCK_DEVICES (k_virtio s.2)).
Abbreviation bus_of s := (host (k_virtio s.2)).

(** Register reads, printing, and accesses to empty slots. *)
Record near (s s' : St) : Prop := {
  ne_frames : s'.1 = s.1;
  ne_blocks : blocks s' = blocks s;
  ne_bus : same_setup (bus_of s) (bus_of s') }.

Lemma near_print f args s : wp any (print f args) (λ _, near s) s.
Proof.
  destruct (print_runs f args s) as (t & E & Ht & _).
  apply (talked_keeps same_setup (λ a t _, hs_read a t) hs_elsewhere) in Ht.
  eapply wp_done; [exact E|]. by split.
Qed.

(** A register access in full: the bus answers, the access-fault flag is
    taken. *)
Definition on_bus (t : T) (s : St) : St :=
  (s.1, mk_rest (mk_virtio (blocks s) (VIRTIO_DEVICES (k_virtio s.2)) false t)
          (k_table s.2) (k_hart s.2)).

Lemma mmio_read32_run ptr off s :
  mmio_read32 ptr off s =
  let '(r, t) := host_read (reg ptr off) (bus_of s) in Done (r, on_bus t s).
Proof.
  unfold mmio_read32, read_volatile, take_access_fault, set_host, set_fault, vget, get_state, set_state,
    gets, modify, mbind, M_bind, mret, M_ret. cbn.
  by destruct (host_read (reg ptr off) (bus_of s)) as [[v|] t].
Qed.

Lemma mmio_write32_run ptr off x s :
  mmio_write32 ptr off x s =
  match host_write (reg ptr off) x (bus_of s) with
  | Some t => Done (true, on_bus t s)
  | None => Done (false, on_bus (bus_of s) s)
  end.
Proof.
  unfold mmio_write32, write_volatile, take_access_fault, set_host, set_fault, vget, get_state, set_state,
    gets, modify, mbind, M_bind, mret, M_ret. cbn.
  by destruct (host_write (reg ptr off) x (bus_of s)).
Qed.

Lemma near_read32 ptr off s : wp any (mmio_read32 ptr off) (λ _, near s) s.
Proof.
  pose proof (hs_read (reg ptr off) (bus_of s)) as Hr. unfold wp. rewrite mmio_read32_run.
  destruct (host_read (reg ptr off) (bus_of s)) as [r t]. by split.
Qed.

(** An empty slot does not answer. *)
Lemma absent_read32 slot off s :
  hd_present slot = false → wp any (mmio_read32 (slot_addr slot) off) (λ o s', o = None ∧ near s s') s.
Proof.
  intros Hp. pose proof (hs_read (reg (slot_addr slot) off) (bus_of s)) as Hr.
  pose proof (hs_absent slot off (bus_of s) Hp) as Hn. unfold wp. rewrite mmio_read32_run.
  destruct (host_read (reg (slot_addr slot) off) (bus_of s)) as [r t]. by split; [|split].
Qed.

(** A write to an occupied slot. *)
Lemma present_write32 slot off x s :
  hd_present slot = true →
  wp any (mmio_write32 (slot_addr slot) off x) (λ ok s', ok = true ∧ s'.1 = s.1 ∧ blocks s' = blocks s ∧
    host_write (reg (slot_addr slot) off) x (bus_of s) = Some (bus_of s')) s.
Proof.
  intros Hp. destruct (hs_write slot off x (bus_of s) Hp) as (t' & E & _).
  unfold wp. by rewrite mmio_write32_run, E.
Qed.

(** The slots below [k] were probed: every recorded device has its queue up
    and idle; the pages from [m] on are free. *)
Record probed (k m : nat) (s : St) : Prop := {
  pr_rep : ∃ h, rep s.1 h;
  pr_above : above m s.1;
  pr_len : length (blocks s) = 8%nat;
  pr_busy : hd_busy (bus_of s) = None;
  pr_disk : ∀ j a, hd_disk (bus_of s) j a = img j a;
  pr_live : ∀ j bd, blocks s !! j = Some bd → bdev bd ≠ 0 →
    (j < k)%nat ∧ hd_queue (bus_of s) j = Some (desc (queue bd), 0) }.

Lemma probed_near k m s s' : probed k m s → near s s' → probed k m s'.
Proof.
  intros [] [Hf Hb [Eb Eq _ Ed]]. split; rewrite ?Hf, ?Hb, ?Eb; try done; [intros; by rewrite Ed|].
  intros j bd Hj Hne. rewrite Eq. by apply pr_live0.
Qed.

Lemma probed_mono k m k' m' s : (k <= k')%nat → (m <= m')%nat → probed k m s → probed k' m' s.
Proof.
  intros Hk Hm []. split; try done.
  - intros i Hi. apply pr_above0. lia.
  - intros j bd Hj Hne. destruct (pr_live0 j bd Hj Hne). split; [lia|done].
Qed.

(** The device of [slot] is being set up: its queue is down, and the
    registers of [l] have been written. *)
Record configuring (slot m : nat) (l : list (MmioOffsets * Z)) (s : St) : Prop := {
  cf_probed : probed slot m s;
  cf_present : hd_present slot = true;
  cf_queue : hd_queue (bus_of s) slot = None;
  cf_regs : Forall (λ p, p.1 ≠ Status ∧ hd_reg (bus_of s) slot p.1 = p.2) l }.

Lemma configuring_near slot m l s s' : configuring slot m l s → near s s' → configuring slot m l s'.
Proof.
  intros [] Hn. split; [by eapply probed_near|done|by rewrite (ss_queue _ _ (ne_bus _ _ Hn))|].
  eapply list.Forall_impl; [exact cf_regs0|]. intros [o x] Hx. by rewrite (ss_reg _ _ (ne_bus _ _ Hn)).
Qed.

(** A write to the slot being set up leaves the others alone. *)
Lemma probed_write slot m o x s s' :
  probed slot m s → hd_present slot = true → o ≠ QueueNotify → s'.1 = s.1 → blocks s' = blocks s →
  host_write (reg (slot_addr slot) o) x (bus_of s) = Some (bus_of s') → probed slot m s'.
Proof.
  intros [] Hp Ho Hf Hb Hw. destruct (hs_write slot o x (bus_of s) Hp) as (t' & E & Hq & Hn & Hd).
  rewrite Hw in E. injection E as <-. split; rewrite ?Hf, ?Hb; auto; [intros; by rewrite Hd|].
  intros j bd Hj Hne. destruct (pr_live0 j bd Hj Hne) as [Hlt Hl]. split; [done|]. rewrite Hq by lia. done.
Qed.

Section steps.
Context (slot m : nat).

Lemma config_step {Q : bool → St → Prop} o x k l s :
  configuring slot m l s → o ≠ Status → o ≠ QueueNotify → Forall (λ p, p.1 ≠ o) l →
  (∀ s', configuring slot m ((o, x) :: l) s' → wp any k Q s') →
  wp any (write_or_fail (slot_addr slot) o x k) Q s.
Proof.
  intros [Hpr Hp Hq Hr] Ho Hon Hl Hk. apply wp_bind. eapply wp_mono; [by apply present_write32|].
  cbn beta. intros ok s1 (-> & Hf & Hb & Hw). apply Hk.
  destruct (hs_config slot o x _ _ Hp Ho Hw) as [Hq1 Hr1].
  split; [by eapply probed_write|done|by rewrite Hq1|]. constructor; cbn [fst snd].
  { split; [done|]. by rewrite Hr1, decide_True. }
  eapply (list.Forall_impl _ _ _ (proj2 (list.Forall_and _ _) (conj Hr Hl))). intros [o' x'] [[Hs' Hx'] Hne].
  split; [done|]. by rewrite Hr1, decide_False.
Qed.

Lemma status_step {Q : bool → St → Prop} x k l s :
  configuring slot m l s → x ≠ 0 → Z.land x VIRTIO_DRIVER_OK = 0 →
  (∀ s', configuring slot m l s' → wp any k Q s') →
  wp any (write_or_fail (slot_addr slot) Status x k) Q s.
Proof.
  intros [Hpr Hp Hq Hr] Hx Hok Hk. apply wp_bind. eapply wp_mono; [by apply present_write32|].
  cbn beta. intros ok s1 (-> & Hf & Hb & Hw). apply Hk.
  destruct (hs_status slot x _ _ Hp Hx Hok Hw) as [Hq1 Hr1].
  split; [by eapply (probed_write slot m Status)|done|by rewrite Hq1|].
  eapply list.Forall_impl; [exact Hr|]. intros [o' x'] [Hs' Hx']. split; [done|]. by rewrite Hr1.
Qed.

Lemma reset_step {Q : bool → St → Prop} k s :
  probed slot m s → hd_present slot = true → (∀ s', configuring slot m [] s' → wp any k Q s') →
  wp any (write_or_fail (slot_addr slot) Status 0 k) Q s.
Proof.
  intros Hpr Hp Hk. apply wp_bind. eapply wp_mono; [by apply present_write32|].
  cbn beta. intros ok s1 (-> & Hf & Hb & Hw). apply Hk.
  split; [by eapply (probed_write slot m Status)|done|by apply (hs_reset slot _ _ Hp Hw)|constructor].
Qed.

Lemma read_step {Q : bool → St → Prop} o k l s :
  configuring slot m l s → (∀ s', configuring slot m l s' → Q false s') →
  (∀ x s', configuring slot m l s' → wp any (k x) Q s') →
  wp any (read_or_fail (slot_addr slot) o k) Q s.
Proof.
  intros Hc Hq Hk. apply wp_bind. eapply wp_mono; [apply near_read32|].
  cbn beta. intros [x|] s1 Hn; [apply Hk|apply Hq]; by eapply configuring_near.
Qed.

Lemma give_up_step l msg s :
  configuring slot m l s → wp any (give_up_device (slot_addr slot) msg) (λ _, probed slot m) s.
Proof.
  intros Hc. apply wp_bind. eapply wp_mono; [apply near_print|]. cbn beta. intros _ s1 Hn.
  eapply configuring_near in Hn; [|exact Hc]. destruct Hn as [Hpr Hp _ _].
  apply wp_bind. eapply wp_mono; [by apply present_write32|]. cbn beta. intros ok s2 (-> & Hf & Hb & Hw).
  apply wp_ret. by eapply (probed_write slot m Status).
Qed.

(** The queue's pages come from below the high-water mark, within the reach
    of the 32-bit page number register. *)
Lemma queue_step l s :
  configuring slot m l s → (m <= 98)%nat → 0x200000 <= heap_size → heap_start + heap_size <= 2 ^ 32 →
  wp any (fa_zallocate queue_pages) (λ o s', configuring slot (m + 2) l s' ∧
    ∀ p, o = Some p → p mod 2 ^ 32 / PAGE_SIZE * PAGE_SIZE = p ∧ p mod 2 ^ 32 / PAGE_SIZE ≠ 0) s.
Proof.
  intros [[[h R] Ha Hl Hb Hdk Hv] Hp Hq Hr] Hm Hheap Hend. destruct (usable_enough Hheap) as [Hu Hd].
  change (fa_zallocate queue_pages) with (on_frames (R:=rest T) (zallocate 2)).
  unfold wp, on_frames, zoom.
  destruct (zallocate 2 s.1) as [[o f]| | |] eqn:E; try done.
  destruct (above_zallocate m s.1 h 2 o f R Ha) as [Ha' Hlow]; [lia..|done|].
  destruct (zallocate_spec s.1 h 2 R ltac:(lia)) as [E'|(p & f' & E' & _ & R' & _)];
    rewrite E in E'; injection E' as -> ->.
  - split; [|done]. split; [split; try done|done..]. by exists h.
  - split; [split; [split; try done|done..]; by eexists|]. intros p' [= <-].
    destruct (fa_run (FrameAllocatorLaws := frames_laws) f' _ p 2 R') as (_ & Hpos & [q ->] & _);
      [by rewrite lookup_insert_eq|]. specialize (Hlow _ eq_refl). rewrite PAGE_SIZE_val in *.
    rewrite Z.mod_small, Z.div_mul by lia. lia.
Qed.

(** The device comes up with the queue just recorded. *)
Lemma driver_ok_step x p ro s :
  configuring slot m [(QueuePfn, p mod 2 ^ 32 / PAGE_SIZE); (GuestPageSize, PAGE_SIZE);
    (QueueAlign, PAGE_SIZE); (QueueNum, VIRTIO_RING_SIZE); (QueueSel, 0)] s →
  (slot < 8)%nat → Z.land x VIRTIO_DRIVER_OK ≠ 0 →
  p mod 2 ^ 32 / PAGE_SIZE * PAGE_SIZE = p → p mod 2 ^ 32 / PAGE_SIZE ≠ 0 →
  let q := mk_queue p (p + virtqueue_desc_bytes) (p + used_offset)
             (free QueueState_empty) (req_head QueueState_empty) in
  wp any (set_dev slot (mk_block (slot_addr slot) q 0 ro);; register_device (slot_addr slot) Block;;
          write_or_fail (slot_addr slot) Status x (mret true)) (λ _, probed (S slot) m) s.
Proof.
  intros [[Hrep Ha Hl Hb Hdk Hv] Hp Hq Hr] Hs Hx Hp1 Hp2 q. rewrite !list.Forall_cons in Hr.
  destruct Hr as ([_ R1] & [_ R2] & [_ R3] & [_ R4] & [_ R5] & _). cbn [fst snd] in *.
  apply wp_bind, wp_set_dev; [change (slot < length (blocks s))%nat; by rewrite Hl|].
  set (s1 := put _ s).
  apply wp_bind. apply wp_mono with (λ _ s2, s2.1 = s1.1 ∧ blocks s2 = blocks s1 ∧ bus_of s2 = bus_of s1).
  { unfold wp, register_device, vget. rewrite bind_get. by destruct (_ <? _)%nat. }
  intros _ s2 (Hf2 & Hb2 & Ht2). apply wp_bind. eapply wp_mono; [by apply present_write32|].
  cbn beta. intros ok s3 (-> & Hf3 & Hb3 & Hw). apply wp_ret.
  change (bus_of s1) with (bus_of s) in Ht2. change (blocks s1) with (<[slot := mk_block (slot_addr slot) q 0 ro]> (blocks s)) in Hb2.
  rewrite Ht2 in Hw. destruct (hs_write slot Status x (bus_of s) Hp) as (t' & E & Hothers & Hidle & Hkd).
  rewrite Hw in E. injection E as <-.
  pose proof (hs_driver_ok slot x _ _ Hp Hx Hq R5 R4 R3 ltac:(by rewrite R1) Hw) as Hup. rewrite R1, R2, Hp1 in Hup.
  split; rewrite ?Hf3, ?Hf2, ?Hb3, ?Hb2; try done.
  - by rewrite length_insert.
  - auto.
  - intros j a. by rewrite Hkd.
  - intros j bd. rewrite list_lookup_insert. case_decide as Hd.
    + destruct Hd as [<- _]. intros [= <-] _. split; [lia|exact Hup].
    + intros Hj Hne. destruct (Hv j bd Hj Hne) as [Hlt Hl']. split; [lia|]. rewrite Hothers by lia. done.
Qed.
End steps.

Context (Hheap : 0x200000 <= heap_size) (Hend : heap_start + heap_size <= 2 ^ 32).

(** A read that fails gives the device up. *)
Ltac gone := intros ? Hgone; eapply probed_mono; [| |exact (cf_probed _ _ _ _ Hgone)]; lia.

Lemma setup_live slot m s :
  probed slot m s → hd_present slot = true → (slot < 8)%nat → (m <= 98)%nat →
  wp any (setup_block_device (slot_addr slot)) (λ _, probed (S slot) (m + 2)) s.
Proof.
  intros Hpr Hp Hs Hm. assert (Hfail : ∀ l msg s, configuring slot m l s →
    wp any (give_up_device (slot_addr slot) msg) (λ _, probed (S slot) (m + 2)) s).
  { intros l msg s1 Hc. eapply wp_mono; [by eapply give_up_step|]. intros ? ? Hg. eapply probed_mono; [| |exact Hg]; lia. }
  unfold setup_block_device. rewrite dev_slot_roundtrip.
  apply (reset_step slot m); [done|done|]. intros s1 Hc.
  do 2 (eapply status_step; [done|done|done|]; clear Hc; intros ? Hc).
  eapply read_step; [done|gone|]. clear Hc. intros feats s2 Hc. cbv zeta.
  eapply config_step; [done|done|done|done|]. clear Hc. intros s3 Hc.
  eapply status_step; [done|done|done|]. clear Hc. intros s4 Hc.
  eapply read_step; [done|gone|]. clear Hc. intros st s5 Hc.
  case_match; [by eapply Hfail|].
  assert (Hc0 : configuring slot m [] s5) by (destruct Hc; by split). clear Hc.
  eapply config_step; [done|done|done|done|]. clear Hc0. intros s6 Hc.
  eapply read_step; [done|gone|]. clear Hc. intros qn s7 Hc. case_match; [by eapply Hfail|].
  do 3 (eapply config_step; [done|done|done|by repeat constructor|]; clear Hc; intros ? Hc).
  apply wp_bind. eapply wp_mono; [by eapply queue_step|]. cbn beta. clear Hc. intros o s8 [Hc Hpfn].
  destruct o as [p|].
  - destruct (Hpfn p eq_refl) as [Hp1 Hp2].
    eapply config_step; [done|done|done|by repeat constructor|]. clear Hc. intros s9 Hc.
    by eapply driver_ok_step.
  - eapply wp_mono; [by eapply give_up_step|]. intros ? ? Hg. eapply probed_mono; [| |exact Hg]; lia.
Qed.

Lemma register_live slot m k s :
  probed slot m s → wp any (register_device (slot_addr slot) k) (λ _, probed slot m) s.
Proof.
  intros [Hrep Ha Hl Hb Hdk Hv]. unfold wp, register_device, vget. rewrite bind_get.
  destruct (_ <? _)%nat; [|done]. by split.
Qed.

Lemma probe_one_live slot m s :
  probed slot m s → (slot < 8)%nat → (m <= 98)%nat →
  wp any (probe_one (slot_addr slot)) (λ _, probed (S slot) (m + 2)) s.
Proof.
  intros Hpr Hs Hm.
  assert (Hdone : ∀ s, probed slot m s → probed (S slot) (m + 2) s) by (intros ? Hg; eapply probed_mono; [| |exact Hg]; lia).
  assert (Hsay : ∀ f a s, probed slot m s → wp any (print f a) (λ _, probed slot m) s).
  { intros f a s1 Hs1. eapply wp_mono; [apply near_print|]. intros [] s2 Hn. by eapply probed_near. }
  assert (Hend' : ∀ f a s, probed slot m s → wp any (print f a) (λ _, probed (S slot) (m + 2)) s).
  { intros f a s1 Hs1. eapply wp_mono; [by apply Hsay|]. auto. }
  assert (HsayS : ∀ f a s, probed (S slot) (m + 2) s → wp any (print f a) (λ _, probed (S slot) (m + 2)) s).
  { intros f a s1 Hs1. eapply wp_mono; [apply near_print|]. intros [] s2 Hn. by eapply probed_near. }
  unfold probe_one. apply wp_bind. eapply wp_mono; [by apply Hsay|]. cbn beta. intros _ s1 Hs1.
  apply wp_bind. destruct (hd_present slot) eqn:Hp.
  2: { eapply wp_mono; [by apply absent_read32|]. cbn beta. intros o s2 [-> Hn]. apply Hend'. by eapply probed_near. }
  eapply wp_mono; [apply near_read32|]. cbn beta. intros [magic|] s2 Hn2;
    (assert (Hs2 : probed slot m s2) by (by eapply probed_near)); [|by apply Hend'].
  case_match; [by apply Hend'|].
  apply wp_bind. eapply wp_mono; [apply near_read32|]. cbn beta. intros [id|] s3 Hn3;
    (assert (Hs3 : probed slot m s3) by (by eapply probed_near)); [|by apply Hend'].
  case_match; [by apply Hend'|]. case_match; [|case_match].
  - apply wp_bind. eapply wp_mono; [by apply Hsay|]. cbn beta. intros _ s4 Hs4. apply wp_bind.
    eapply wp_mono; [by apply setup_live|]. cbn beta. intros [] s5 Hs5; by apply HsayS.
  - apply wp_bind. eapply wp_mono; [by apply Hsay|]. cbn beta. intros _ s4 Hs4. apply wp_bind.
    eapply wp_mono; [by apply register_live|]. cbn beta. auto.
  - apply wp_bind. eapply wp_mono; [by apply register_live|]. cbn beta. auto.
Qed.

Lemma probe_live n k m s :
  probed k m s → (k + n <= 8)%nat → (m + 2 * n <= 100)%nat →
  wp any (for_each (slot_addr <$> seq k n) probe_one) (λ _, probed (k + n) (m + 2 * n)) s.
Proof.
  revert k m s. induction n as [|n IH]; intros k m s Hpr Hk Hm; cbn [seq fmap list_fmap for_each].
  - apply wp_ret. by rewrite !Nat.add_0_r.
  - apply wp_bind. eapply wp_mono; [apply probe_one_live; [done|lia|lia]|]. cbn beta. intros _ s1 Hs1.
    replace (k + S n)%nat with (S k + n)%nat by lia.
    replace (m + 2 * S n)%nat with (m + 2 + 2 * n)%nat by lia. apply IH; [done|lia|lia].
Qed.
End setup.
