(* ===== verification/BootAll.v ===== *)
(** * From reset to the first instruction of the first process

    [kinit], [skmain] and the first timer tick in sequence: what the machine
    half of start-up leaves is what the supervisor half needs, and what the
    supervisor leaves is what the traps need. *)

From Stdlib Require Import String.
From S2P Require Import Prelude Linker Frames Bytes PageFrame BlockDev Minix3Read Virtio VirtioProps VirtioQueue.
From S2P Require Import VirtioRead VirtioBus VirtioSetup Console Hart Process ProcessProps Trap Kernel TrapProps Machine.
From S2P Require Import Boot BootProps BootRun BootDisk.

#[local] Open Scope Z_scope.

Section all.
Context `{Profile} `{Linker} `{!VirtLds} {T : Type} `{DiskSetup T}.
Context `{Spins} `{!UartHost T} `{!ConsoleReady T}.
Context (polls : nat) (Hpolls : (hd_latency < polls)%nat).
Abbreviation St := (kernel T).
Implicit Types (s : St).
#[local] Instance reader : BlockReader St := virtio_reader polls.

(** The queues the driver's table describes. *)
Definition conf_of (v : virtio T) (slot : nat) : option Z :=
  match BLOCK_DEVICES v !! slot with
  | Some bd => if bdev bd =? 0 then None else Some (desc (queue bd))
  | None => None
  end.

Lemma conf_of_some v slot base :
  conf_of v slot = Some base →
  ∃ bd, BLOCK_DEVICES v !! slot = Some bd ∧ bdev bd ≠ 0 ∧ desc (queue bd) = base.
Proof.
  unfold conf_of. destruct (BLOCK_DEVICES v !! slot) as [bd|]; [|done].
  destruct (Z.eqb_spec (bdev bd) 0); [done|]. intros [= <-]. eauto.
Qed.

Lemma conf_of_inj v i j base :
  own_queues v → conf_of v i = Some base → conf_of v j = Some base → i = j.
Proof.
  intros Ho (b & Hb & Hb0 & Hd)%conf_of_some (c & Hc & Hc0 & Hd')%conf_of_some.
  destruct (decide (i = j)) as [|Hne]; [done|]. exfalso.
  apply (Ho i j b c Hne Hb Hc Hb0 Hc0). congruence.
Qed.

(** What the probe leaves, of the allocator and of the bus. *)
Definition ready_bus (img : nat → Z → Z) (f : frames) (v : virtio T) : Prop :=
  above 88 f ∧ hd_busy (host v) = None ∧ (∀ k a, hd_disk (host v) k a = img k a) ∧
  ∀ j bd, BLOCK_DEVICES v !! j = Some bd → bdev bd ≠ 0 →
    hd_queue (host v) j = Some (desc (queue bd), 0).

Lemma ready_bus_kept img f v v' :
  ready_bus img f v → BLOCK_DEVICES v' = BLOCK_DEVICES v → same_setup (host v) (host v') → ready_bus img f v'.
Proof.
  intros (Ha & Hb & Hd & Hq) Eb [Sb Sq _ Sd]. split; [done|]. split; [congruence|].
  split; [intros; by rewrite Sd|].
  intros j bd Hj Hne. rewrite Eb in Hj. rewrite Sq. auto.
Qed.

Lemma probe_ready (t0 : T) s s' h :
  hd_busy t0 = None → rep s.1 h → above 72 s.1 → 0x200000 <= heap_size →
  BLOCK_DEVICES (k_virtio s.2) = replicate 8 BlockDevice_empty → same_setup t0 (host (k_virtio s.2)) →
  probe (T:=T) s = Done (tt, s') → ready_bus (hd_disk t0) s'.1 (k_virtio s'.2).
Proof.
  intros Hidle R Ha Hheap Hb Hs E. destruct (_ : VirtLds) eqn:Hlds.
  assert (Hend : heap_start + heap_size <= 2 ^ 32) by lia.
  pose proof (probe_live (hd_disk t0) Hheap Hend 8 0 72 s) as Hwp. rewrite <- probe_addrs_slots in Hwp.
  change (for_each probe_addrs probe_one) with (probe (T:=T) (St:=St)) in Hwp. unfold wp in Hwp. rewrite E in Hwp.
  destruct Hwp as [_ Ha' _ Hb' Hd' Hl']; [|lia|lia|].
  - split; [by exists h|done|by rewrite Hb, length_replicate|by rewrite (ss_busy _ _ Hs)|apply (ss_disk _ _ Hs)|].
    intros j bd Hj. rewrite Hb in Hj. by apply lookup_replicate in Hj as [-> _].
  - split; [exact Ha'|]. split; [done|]. split; [done|]. intros j bd Hj Hne. by apply Hl'.
Qed.

(** The driver is idle and owns its queues. *)
Lemma own_booted img s h0 m0 h :
  bus_ok (T:=T) h0 m0 8 h s → ready_bus img s.1 (k_virtio s.2) → own (conf_of (k_virtio s.2)) img s h.
Proof.
  intros Hbus (_ & Hidle & Hd & Hq). split; [apply Hbus|]. split; [done|]. split; [|done]. intros slot Hs.
  destruct (bu_slot _ _ _ _ _ Hbus slot Hs) as (bd & Hbd & Hc).
  change (BLOCK_DEVICES (k_virtio s.2) !! slot = Some bd) in Hbd.
  unfold conf_of. rewrite Hbd. destruct (Z.eqb_spec (bdev bd) 0) as [Hz|Hz]; [by exists bd|].
  destruct Hc as [?|(base & Hat & Hh & Hack & _ & Hinv & Hav)]; [done|].
  pose proof (Hq slot bd Hbd Hz) as Hqs. rewrite (da_desc _ _ _ Hat) in Hqs |- *.
  split; [done|]. exists bd, 0, []. split; rewrite ?Hack; (done || cbn; lia).
Qed.

(** Every formatted disk has a root directory without a hole in its first
    block, whichever slots hold disks. *)
Definition disks_listable (t : T) : Prop :=
  ∀ conf (Hinj : ∀ i j base, conf i = Some base → conf j = Some base → i = j) slot base,
    conf slot = Some base → listable conf polls Hinj Hpolls (hd_disk t) (hd_disk_byte t) (Z.of_nat slot).

(** [skmain] after [kinit]. *)
Lemma supervisor_starts t root satp s s1 init_process :
  0x200000 <= heap_size → disks_listable t → k_table s.2 = table_init →
  booted root satp s s1 → ready_bus (hd_disk t) s1.1 (k_virtio s1.2) →
  ∃ stk s2, skmain init_process s1 = Done (tt, s2) ∧ sched_inv s2 ∧
    k_table s2.2 = mk_table (<[0%nat := Some (new_process init_process stk (TRAP_STACK_TOP (k_hart s1.2)) 1)]>
        (slots table_init)) None 2.
Proof.
  intros Hheap Hlist Ht Hbt Hready. destruct (usable_enough Hheap) as [Hu Hd].
  destruct (bo_heap _ _ _ _ Hbt) as (h & h0 & m0 & R & _ & Hbus & _).
  pose proof (own_booted _ s1 h0 m0 h Hbus Hready) as Hown. destruct Hready as (Ha & _).
  set (conf := conf_of (k_virtio s1.2)) in *.
  assert (Hinj : ∀ i j base, conf i = Some base → conf j = Some base → i = j)
    by (intros i j base; apply conf_of_inj, Hbus).
  pose proof R as (Hlen & _).
  assert (Hr : room s1.1 6) by (apply (above_room 88); try done; lia).
  assert (Hstk : ∃ p s2, fa_zallocate (S:=St) STACK_PAGES s1 = Done (Some p, s2)).
  { destruct (above_run 88 s1.1 h STACK_PAGES R Ha) as (p & f & E); [done|unfold STACK_PAGES; lia|].
    exists p, (f, s1.2). by apply on_frames_done. }
  pose proof (skmain_run conf polls Hinj Hpolls (hd_disk t) (hd_disk_byte t) s1 h h 0 init_process) as Hwp.
  apply wp_none in Hwp as ([] & s2 & E & stk & _ & _ & Hk & Hh & _);
    [|split; [split_and!; [exact R|exact Hown|done]|exact Hr]|intros slot base; by apply Hlist|apply Hbt|done].
  exists stk, s2. split; [done|]. split; [|done]. injection Hh as Hm Hf.
  destruct (bo_sched _ _ _ _ Hbt) as [_ Hptr Hkf _]. rewrite (bo_table _ _ _ _ Hbt) in Hptr.
  split; rewrite ?Hk, ?Hm, ?Hf; [|done|done|].
  - split; [done|done|cbn; lia].
  - intros [|i] p; cbn; [by intros [= <-]|].
    intros Hi. by apply (lookup_replicate 15) in Hi as [? _].
Qed.

(** The first tick. *)
Lemma first_tick init_process stk top c tval s :
  sched_inv s → wf_cpu c → 0 <= CLINT_MTIME (k_hart s.2) < 2 ^ 64 - TIMER_TICK →
  k_table s.2 = mk_table (<[0%nat := Some (new_process init_process stk top 1)]> (slots table_init)) None 2 →
  ∃ c' s', trap_vector (2 ^ 63 + 7) tval c s = Done (c', s') ∧
    current (k_table s'.2) = Some 0%nat ∧ cpc c' = init_process ∧
    x c' = <[2%nat := stk + 2 * PAGE_SIZE]> (replicate 32 0).
Proof.
  intros Hs Hc Ht Hk. destruct (timer_switch c s tval Hs Hc Ht) as (c' & s' & E & Hi & _ & Hctx & Hcur & _).
  exists c', s'. split; [done|]. rewrite Hk in Hcur. split; [done|].
  change (next_slot _) with (Some 0%nat) in Hcur.
  specialize (Hctx 0%nat). rewrite Hk in Hctx. unfold context_of in Hctx.
  destruct (slots (k_table s'.2) !! 0%nat) as [[p|]|]; try done.
  rewrite decide_True in Hctx by done. by injection Hctx as -> ->.
Qed.

(** C9. From reset to the first process: from the state the boot assembly
    leaves, on a heap of at least 2 MiB, a UART that answers and a bus of
    idle, documented devices whose formatted disks have a hole-free root directory, [kinit]
    and then [skmain] run to their ends; the machine they leave satisfies the
    invariant of the virtual processors, and the first timer interrupt, at
    whatever time and with whatever in the registers and on the devices it
    arrives, starts PID 1: at its entry point, on the top of its own stack,
    with every other register zero. *)
Theorem boot_runs_init s init_process :
  0x200000 <= heap_size → length (descs s.1) = descriptors →
  BLOCK_DEVICES (k_virtio s.2) = replicate 8 BlockDevice_empty →
  length (VIRTIO_DEVICES (k_virtio s.2)) = 8%nat →
  k_table s.2 = table_init → TRAP_FRAME (k_hart s.2) = TrapFrame_empty →
  0 <= CLINT_MTIME (k_hart s.2) < 2 ^ 64 - TIMER_TICK →
  hd_busy (host (k_virtio s.2)) = None → disks_listable (host (k_virtio s.2)) →
  ∃ satp s1 s2 stk, kinit s = Done (satp, s1) ∧ skmain init_process s1 = Done (tt, s2) ∧
    (pid <$> mjoin (slots (k_table s2.2) !! 0%nat)) = Some 1 ∧
    (∀ c, wf_cpu c → machine_inv (c, s2)) ∧
    ∀ c tval s3, wf_cpu c → sched_part s3 = sched_part s2 →
      0 <= CLINT_MTIME (k_hart s3.2) < 2 ^ 64 - TIMER_TICK →
      ∃ c' s4, trap_vector (2 ^ 63 + 7) tval c s3 = Done (c', s4) ∧
        current (k_table s4.2) = Some 0%nat ∧ cpc c' = init_process ∧
        x c' = <[2%nat := stk + 2 * PAGE_SIZE]> (replicate 32 0).
Proof.
  intros Hheap Hlen Hb Hk Ht Hf Hm Hidle Hlist.
  destruct (kinit_run same_setup hs_read hs_elsewhere (host (k_virtio s.2)) (ready_bus (hd_disk (host (k_virtio s.2))))
    (ready_bus_kept _)) with (s := s) as (root & satp & s1 & E1 & Hbt & Hready); try done.
  { intros s0 s0' h R Ha _ Hb0 _ Hs0 E0. by eapply probe_ready. }
  destruct (supervisor_starts _ root satp s s1 init_process Hheap Hlist Ht Hbt Hready) as (stk & s2 & E2 & Hs & Hk2).
  exists satp, s1, s2, stk. split; [done|]. split; [done|]. split; [by rewrite Hk2|]. split.
  - intros c Hc. split; [done| |done]. cbn [fst snd]. rewrite Hk2. intros [|i] p; cbn; [by intros [= <-]|].
    intros Hi. by apply (lookup_replicate 15) in Hi as [? _].
  - intros c tval s3 Hc Hp Ht3. injection Hp as Et Ep Ek _. eapply first_tick; [|done|done|by rewrite Et].
    destruct Hs. by split; rewrite ?Et, ?Ep, ?Ek.
Qed.
End all.
