(* ===== verification/Demo.v ===== *)
(** * A small machine

    One concrete kernel on which the theorems are instantiated: the
    sixteen-page heap of [PageFrame.Toy], a serial port, a ramdisk in VirtIO
    slot 0 holding a Minix 3 image with a root directory and two files, and
    two kernel processes.  Every hypothesis of the theorems about the kernel
    is met by this state. *)

From Stdlib Require Import String.
From S2P Require Import Prelude Linker Frames Bytes PageFrame BlockDev Minix3 Minix3Read.
From S2P Require Import Virtio VirtioProps VirtioQueue VirtioRead VirtioBus VirtioSetup Uart Console Ramdisk Hart Process Trap Kernel TrapProps.
Import Toy.

#[local] Open Scope Z_scope.

(** ** The disk *)

(** Little-endian fields of the image: address, width, value. *)
Definition fields : list (Z * nat * Z) :=
  [ (1024, 4%nat, 3);          (* ninodes *)
    (1030, 2%nat, 1);          (* imap_blocks *)
    (1032, 2%nat, 1);          (* zmap_blocks *)
    (1048, 2%nat, 0x4d5a);     (* magic *)
    (4096, 2%nat, 0x4000);     (* inode 1: the root directory *)
    (4104, 4%nat, 128);        (* size *)
    (4120, 4%nat, 8);          (* zone 0 *)
    (4160, 2%nat, 0x8000);     (* inode 2: a regular file *)
    (4168, 4%nat, 5);
    (4184, 4%nat, 6);
    (4224, 2%nat, 0x8000);     (* inode 3: its first block is a hole *)
    (4232, 4%nat, 2048);
    (4252, 4%nat, 7);          (* zone 1 *)
    (5120, 4%nat, 5);          (* a pointer block that points at itself *)
    (6144, 5%nat, 0x6f6c6c6568); (* hello *)
    (7168, 5%nat, 0x646c726f77); (* world *)
    (8192, 4%nat, 2);            (* the directory's entries *)
    (8196, 5%nat, 0x6f6c6c6568);
    (8256, 4%nat, 3);
    (8260, 6%nat, 0x657372617073) ].

Fixpoint image_byte (l : list (Z * nat * Z)) (a : Z) : Z :=
  match l with
  | [] => 0
  | (p, n, v) :: l' =>
      if (p <=? a) && (a <? p + Z.of_nat n) then v / 2 ^ (8 * (a - p)) else image_byte l' a
  end.

Definition img : Z → Z := image_byte fields.
Definition sectors : Z := 18.
Definition delay : nat := 1.

#[export] Instance demo_host : Host ramdisk := rd_host img sectors delay.
#[export] Instance demo_disk : DiskHost ramdisk := rd_disk img sectors delay.
#[export] Instance demo_setup : DiskSetup ramdisk := rd_setup img sectors delay.
#[export] Instance demo_uart : UartHost ramdisk := rd_uart img sectors delay.
#[export] Existing Instance two_looks.
#[export] Instance demo_console : ConsoleReady ramdisk.
Proof. split; [apply rd_ready|cbn; lia]. Qed.

Definition polls : nat := 4.
Definition conf (slot : nat) : option Z := if (slot =? 0)%nat then Some base else None.

Lemma conf_inj i j b : conf i = Some b → conf j = Some b → i = j.
Proof. unfold conf. by destruct i, j. Qed.
Lemma polls_enough : (hd_latency (T:=ramdisk) < polls)%nat.
Proof. unfold polls. cbn. unfold delay. lia. Qed.

(** What the driver left in the configuration registers. *)
Definition demo_regs : gmap Z Z := list_to_map
  [ (val GuestFeatures, 0); (val GuestPageSize, PAGE_SIZE); (val QueueSel, 0);
    (val QueueNum, VIRTIO_RING_SIZE); (val QueueAlign, PAGE_SIZE); (val QueuePfn, base / PAGE_SIZE) ].
Definition demo_dev : ramdisk := mk_ramdisk ∅ 15 demo_regs (Some (base, 0)) None (mk_port [] false).
Definition demo_disks : nat → Z → Z := hd_disk demo_dev.
Lemma demo_disks_byte slot : byteful (demo_disks slot).
Proof. apply hd_disk_byte. Qed.

#[export] Instance demo_reader : BlockReader (kernel ramdisk) := virtio_reader polls.
#[export] Instance demo_reader_laws : BlockReaderLaws (kernel ramdisk) :=
  virtio_reader_laws conf polls conf_inj polls_enough demo_disks demo_disks_byte.

(** ** The kernel *)

(** Two pages for the queue at [base], one for a process's buffer. *)
Definition user : Z := base + 2 * PAGE_SIZE.
Definition pages : gmap Z Z := <[user := 1]> {[base := 2]}.
Definition driver_pages : gmap Z Z := {[base := 2]}.

Definition heap2 : frames := set_descs (mark_run 0 2 (descs heap)) heap.
Definition heap3 : frames := set_descs (mark_run 2 1 (descs heap2)) heap2.

Lemma heap2_rep : rep heap2 {[base := 2]}.
Proof.
  destruct (allocate_spec _ _ 2 (fresh_rep ∅)) as [[E _]|(i & E & _ & _ & _ & R)];
    [done|done|]. assert (E' : allocate 2 heap = Done (Some base, heap2)) by by vm_compute.
  assert (Hb : page_addr i = base) by (unfold heap in E'; congruence).
  change base with (page_addr 0) in Hb. apply (inj page_addr) in Hb as ->. exact R.
Qed.

Lemma heap3_rep : rep heap3 pages.
Proof.
  destruct (allocate_spec _ _ 1 heap2_rep) as [[E _]|(i & E & _ & _ & _ & R)]; [done|done|].
  assert (E' : allocate 1 heap2 = Done (Some user, heap3)) by by vm_compute.
  assert (Hb : page_addr i = user) by congruence.
  change user with (page_addr 2) in Hb. apply (inj page_addr) in Hb as ->. exact R.
Qed.

Definition demo_queue : QueueState :=
  mk_queue base (avail_of base) (used_of base) (replicate 8 true) (replicate 8 0).
Definition demo_virtio : virtio ramdisk :=
  mk_virtio (<[0%nat := mk_block (slot_addr 0) demo_queue 0 false]> (replicate 8 BlockDevice_empty))
    (<[0%nat := Some Block]> (replicate 8 None)) false
    demo_dev.

Definition proc (sp pc pid : Z) : Process :=
  mk_process (set_regs (<[2%nat := sp]> (replicate 32 0)) TrapFrame_empty) (sp - 8192) pc pid Running.
Definition demo_table : table :=
  mk_table (<[1%nat := Some (proc 0x80088000 0x80000200 2)]>
    (<[0%nat := Some (proc 0x80086000 0x80000100 1)]> (replicate 16 None))) (Some 0%nat) 3.

Definition demo_hart : hart := set_mscratch (SlotFrame 0) hart_reset.

Definition demo_kernel : kernel ramdisk :=
  (heap3, mk_rest demo_virtio demo_table demo_hart).

Lemma demo_own : own conf demo_disks demo_kernel driver_pages.
Proof.
  split; [reflexivity|]. split; [reflexivity|]. split; [|done]. intros [|slot] Hslot; cbn [conf Nat.eqb].
  - split; [done|]. exists (mk_block (slot_addr 0) demo_queue 0 false), 0, [].
    split; try done; [apply fresh_queue_inv; by vm_compute|cbn; lia].
  - exists BlockDevice_empty. split; [|done].
    change (replicate 7 BlockDevice_empty !! slot = Some BlockDevice_empty).
    apply lookup_replicate_2. lia.
Qed.

Lemma demo_world : world demo_kernel pages driver_pages.
Proof.
  split; [apply heap3_rep|]. split; [apply demo_own|].
  apply insert_subseteq. by vm_compute.
Qed.

Lemma demo_room : fa_room demo_kernel 5.
Proof. vm_compute. lia. Qed.

Definition demo_cpu : cpu :=
  mk_cpu (<[10%nat := 1]> (<[2%nat := 0x80085f00]> (replicate 32 0))) 0x80000104.

Lemma demo_cpu_wf : wf_cpu demo_cpu.
Proof. by split. Qed.

Lemma demo_slot i p : slots demo_table !! i = Some (Some p) → i = 0%nat ∨ i = 1%nat.
Proof.
  destruct i as [|[|i]]; [by left|by right|].
  change (slots demo_table !! S (S i)) with (replicate 14 (@None Process) !! i).
  intros Hl. by apply lookup_replicate in Hl as [? _].
Qed.

Lemma demo_table_wf : wf_table demo_table.
Proof. split; [done| |done]. by intros i [= <-]. Qed.

Lemma demo_sched : sched_inv demo_kernel.
Proof.
  split; [apply demo_table_wf|done|done|].
  intros i p Hp. destruct (demo_slot i p Hp) as [-> | ->]; by injection Hp as <-.
Qed.
