(* ===== verification/Examples.v ===== *)
(** * The theorems on the small machine

    Each theorem with hypotheses about the kernel's state, applied to the
    machine of [Demo]; and what [read_file] does with holes. *)

From Stdlib Require Import String.
From S2P Require Import Prelude Linker Frames Bytes PageFrame BlockDev Minix3 Minix3Read Minix3Holes.
From S2P Require Import Virtio VirtioProps VirtioQueue VirtioRead VirtioBus VirtioSetup Ramdisk.
From S2P Require Import Fmt Hart Process ProcessProps Uart Console Trap Words Kernel TrapProps Machine SyscallProps Boot BootRun Demo.
Import Toy.

#[local] Open Scope Z_scope.

(** ** The console *)

(** A serial port that needs two looks at its status after each byte, and
    drops a byte written before that. *)
Record serial : Type := mk_serial { sent : list Z; busy : nat }.
#[local] Instance serial_host : Host serial := {|
  host_read a t :=
    if a =? UART_BASE + LSR
    then (Some (if (busy t =? 0)%nat then LSR_THR_EMPTY else 0), mk_serial (sent t) (pred (busy t)))
    else (Some 0, t);
  host_write a b t :=
    Some (if a =? UART_BASE + RBR_THR
          then if (busy t =? 0)%nat then mk_serial (sent t ++ [b]) 2 else t
          else t);
  host_tick t m := (t, m) |}.
#[local] Program Instance serial_uart : UartHost serial := {|
  ua_sent := sent; ua_busy := busy; ua_latency := 2 |}.
Next Obligation. intros t. eexists _, _. split; [reflexivity|]. by destruct (busy t =? 0)%nat. Qed.
Next Obligation. intros t b Hb. cbn. rewrite Hb. eexists. split; [reflexivity|]. by split. Qed.

Lemma console_transmits_witness :
  ∃ t' (s' : kernel serial),
    for_each [("process {} exited\r\n"%string, [Num 12]); ("{}"%string, [Chr 65])]
      (λ m, console_print (T:=serial) 3 m.1 m.2) (kernel_reset heap (mk_serial [] 1)) = Done (tt, s') ∧
    only_host t' (kernel_reset heap (mk_serial [] 1)) s' ∧
    sent t' = (text "process 12 exited" ++ [13; 10; 65])%list.
Proof.
  assert (Hp : (ua_latency (T:=serial) < 3)%nat) by (cbn; lia).
  destruct (console_transmits (St:=kernel serial) (T:=serial) 3 Hp
    [("process {} exited\r\n"%string, [Num 12]); ("{}"%string, [Chr 65])] (kernel_reset heap (mk_serial [] 1)))
    as (t' & s' & E & Hs & Ho).
  - cbn. lia.
  - exists t', s'. split; [exact E|]. split; [exact Hs|]. etransitivity; [exact Ho|reflexivity].
Defined.

(** Typing a byte above 0x7f echoes two: [c as char] is a Latin-1 character,
    printed as UTF-8. *)
Lemma echo_reencodes_high_bytes c :
  128 <= c < 256 →
  (λ m, render m.1 m.2) <$> (esc_step Idle c).2 = [[0xc0 + c / 64; 0x80 + c mod 64]].
Proof.
  intros Hc. unfold esc_step. repeat (rewrite (proj2 (Z.eqb_neq _ _)) by lia).
  assert (Er : render "{}" [Chr c] = utf8 c).
  { change (render "{}" [Chr c]) with (pad false 32 0 (utf8 c) ++ []). unfold pad.
    replace (Z.to_nat _) with O by lia. by rewrite !app_nil_r. }
  cbn [orb snd fmap list_fmap fst]. rewrite Er. unfold utf8. by rewrite (proj2 (Z.ltb_ge _ _)) by lia.
Qed.

(** ** The VirtIO driver *)

(** Six descriptors in use: the chain 5, 1, 2 was completed by the device,
    the chain 3, 4, 0 is in flight; the driver's used index stands at 65535,
    so that acknowledging the completion wraps it around. *)
Definition chain_desc (i next : Z) (more : bool) : gmap Z Z → gmap Z Z :=
  put_descriptor (base + DESC_SIZE * i)
    {| d_addr := user; d_len := 16; d_flags := if more then VIRTIO_DESC_F_NEXT else 0; d_next := next |}.
Definition busy_ram : gmap Z Z :=
  chain_desc 5 1 true (chain_desc 1 2 true (chain_desc 2 0 false
    (chain_desc 3 4 true (chain_desc 4 0 true (chain_desc 0 0 false
      (put_le 4 (used_elem_addr (used_of base) 7) 5 (fa_ram demo_kernel))))))).
Definition busy_block : BlockDevice :=
  mk_block (slot_addr 0)
    (mk_queue base (avail_of base) (used_of base) (replicate 6 false ++ [true; true]) (replicate 8 0)) 65535 false.
Definition busy_kernel : kernel ramdisk :=
  fa_set_ram busy_ram (heap3, mk_rest
    (mk_virtio (<[0%nat := busy_block]> (replicate 8 BlockDevice_empty))
       (<[0%nat := Some Block]> (replicate 8 None)) false demo_dev) demo_table demo_hart).

Lemma busy_queue :
  q_inv (bytes_of busy_kernel) base (ack_used_idx busy_block) (free (queue busy_block))
    [(5, 1, 2)%nat] [(3, 4, 0)%nat].
Proof.
  split.
  - apply (bool_decide_unpack _). by vm_compute.
  - apply (bool_decide_unpack _). by vm_compute.
  - done.
  - intros i Hi. do 8 (destruct i as [|i]; [by vm_compute|]). lia.
  - repeat (apply list.Forall_cons; split); [by vm_compute..|apply list.Forall_nil_2].
  - done.
  - intros [|k] c Hk; [|done]. injection Hk as <-. by vm_compute.
  - by vm_compute.
Qed.

Lemma pending_acknowledges_completions_witness :
  ∃ bd', pending (St:=kernel ramdisk) busy_block busy_kernel = Done (bd', busy_kernel) ∧
    ack_used_idx bd' = 0 ∧ free (queue bd') !! 5%nat = Some true ∧ free (queue bd') !! 3%nat = Some false.
Proof.
  destruct (pending_acknowledges_completions (St:=kernel ramdisk) [(5, 1, 2)%nat] [(3, 4, 0)%nat] 0 base
    busy_block busy_kernel) as (bd' & E & _ & Hack & Hfree & _).
  - cbn [length]. lia.
  - split; reflexivity.
  - exact busy_queue.
  - exists bd'. split; [exact E|]. split; [rewrite Hack; vm_compute; reflexivity|].
    split; rewrite Hfree by lia; vm_compute; reflexivity.
Defined.

Lemma block_read_delivers_sectors_witness :
  ∃ s', block_read polls 0 user 1024 6144 demo_kernel = Done (true, s') ∧
    byte_at (fa_ram s') user = 104.
Proof.
  destruct (block_read_delivers_sectors conf polls conf_inj polls_enough demo_disks demo_kernel
    pages driver_pages 0 user 1024 6144)
    as (s' & E & _ & _ & _ & _ & Hdata).
  - apply heap3_rep.
  - apply demo_own.
  - apply demo_world.
  - eapply fa_room_le; [apply demo_room|lia].
  - reflexivity.
  - reflexivity.
  - split; [lia|]. rewrite PAGE_SIZE_val. lia.
  - exists 12. reflexivity.
  - lia.
  - exists s'. split; [exact E|]. specialize (Hdata eq_refl 0 ltac:(lia)).
    rewrite Z.add_0_r in Hdata. exact Hdata.
Defined.

(** A process's page that holds text, written over the first file's data and
    read back. *)
Definition text_kernel : kernel ramdisk :=
  fa_set_ram (put_le 5 user 0x216f6c6f68 (fa_ram demo_kernel)) demo_kernel.

Lemma text_own : own conf demo_disks text_kernel driver_pages.
Proof.
  apply (bd_own_store (BlockReaderLaws := demo_reader_laws)); [apply demo_own|].
  intros p n a Hp Ha. unfold driver_pages in Hp. apply lookup_singleton_Some in Hp as [<- <-].
  rewrite byte_at_put_le, decide_False; [done|]. unfold in_run, user in *. lia.
Qed.

Lemma block_write_read_roundtrip_witness :
  ∃ s1 s2, block_write polls 0 user 1024 6144 text_kernel = Done (true, s1) ∧
    block_read polls 0 user 1024 6144 s1 = Done (true, s2) ∧ byte_at (fa_ram s2) (user + 4) = 0x21.
Proof.
  destruct (block_write_read_roundtrip conf polls conf_inj polls_enough demo_disks text_kernel
    pages driver_pages 0 user user 1024 6144) as (s1 & s2 & img' & E1 & E2 & Hdata & _).
  - apply fa_rep_set, heap3_rep.
  - apply text_own.
  - apply demo_world.
  - apply fa_room_set. eapply fa_room_le; [apply demo_room|lia].
  - reflexivity.
  - reflexivity.
  - reflexivity.
  - reflexivity.
  - split; [lia|]. rewrite PAGE_SIZE_val. lia.
  - exists 12. reflexivity.
  - lia.
  - reflexivity.
  - exists s1, s2. split; [exact E1|]. split; [exact E2|]. rewrite Hdata by lia. vm_compute. reflexivity.
Defined.

(** The file system sees the new data. *)
Example write_changes_file :
  match block_write polls 0 user 1024 6144 text_kernel with
  | Done (true, s1) =>
      match read_file (St:=kernel ramdisk) {| dev := 0; sb := super_block_at (image img demo_dev) 1024 |}
              (inode_at (image img demo_dev) 4160) 0 (replicate 8 0) s1 with
      | Done ((Ok n, bytes), _) => (n, bytes) = (5, [0x68; 0x6f; 0x6c; 0x6f; 0x21; 0; 0; 0])
      | _ => False
      end
  | _ => False
  end.
Proof. vm_compute. reflexivity. Qed.

Lemma probe_configures_bus_witness :
  ∃ s' h', probe (T:=ramdisk) (kernel_reset heap (rd_fresh ∅ (mk_port [] false))) = Done (tt, s') ∧
    bus_ok ∅ (fa_ram (kernel_reset heap (rd_fresh ∅ (mk_port [] false)))) 8 h' s'.
Proof.
  apply (probe_configures_bus (kernel_reset heap (rd_fresh ∅ (mk_port [] false))) ∅).
  - apply fresh_rep.
  - reflexivity.
  - reflexivity.
Defined.

(** The ramdisk is found, its queue set up as in [Demo], and the probe is
    reported on the serial port. *)
Example probe_finds_ramdisk :
  match probe (T:=ramdisk) (kernel_reset heap (rd_fresh ∅ (mk_port [] false))) with
  | Done (_, s) => BLOCK_DEVICES (k_virtio s.2) = BLOCK_DEVICES demo_virtio ∧
      with_port (mk_port [] false) (host (k_virtio s.2)) = host demo_virtio ∧
      take 38 (port_sent (rd_port (host (k_virtio s.2)))) = text "Virtio probing 0x10001000...block devi"
  | _ => False
  end.
Proof. vm_compute. done. Qed.

Lemma demo_bus : bus_ok driver_pages ∅ 8 pages demo_kernel.
Proof.
  split.
  - apply heap3_rep.
  - apply demo_world.
  - done.
  - done.
  - intros [|slot] Hs.
    + eexists. split; [reflexivity|]. right. exists base. split_and!; try done.
      apply fresh_queue_inv. by vm_compute.
    + exists BlockDevice_empty. split; [|by left].
      change (replicate 7 BlockDevice_empty !! slot = Some BlockDevice_empty).
      apply lookup_replicate_2. lia.
  - intros [|i] [|j] b c Hij Hi Hj Hb Hc; try done.
    + change (replicate 7 BlockDevice_empty !! j = Some c) in Hj.
      apply lookup_replicate in Hj as [-> _]. done.
    + change (replicate 7 BlockDevice_empty !! i = Some b) in Hi.
      apply lookup_replicate in Hi as [-> _]. done.
    + change (replicate 7 BlockDevice_empty !! i = Some b) in Hi.
      apply lookup_replicate in Hi as [-> _]. done.
  - intros j bd Hj Hl. apply lookup_lt_Some in Hl.
    change (length (BLOCK_DEVICES (view demo_kernel))) with 8%nat in Hl. lia.
Qed.


(** ** The file system *)

Definition demo_fs : Fs := {| dev := 0; sb := super_block_at (image img demo_dev) 1024 |}.
Definition hello : Inode := inode_at (image img demo_dev) 4160.

Lemma mount_decodes_superblock_witness :
  ∃ s', mount (St:=kernel ramdisk) 0 demo_kernel = Done (Ok demo_fs, s').
Proof.
  destruct (mount_decodes_superblock demo_kernel pages driver_pages 0 0) as (s' & E & _).
  - apply demo_world.
  - eapply fa_room_le; [apply demo_room|lia].
  - exists s'. exact E.
Defined.

Lemma demo_fs_wf : wf_sb (sb demo_fs).
Proof. by vm_compute. Qed.

Lemma read_inode_decodes_table_witness :
  ∃ s', read_inode (St:=kernel ramdisk) demo_fs 2 demo_kernel = Done (Ok hello, s').
Proof.
  destruct (read_inode_decodes_table demo_kernel pages driver_pages 0 demo_fs 2) as (s' & E & _).
  - apply demo_world.
  - eapply fa_room_le; [apply demo_room|lia].
  - apply demo_fs_wf.
  - lia.
  - exists s'. exact E.
Defined.

Lemma hello_wf : wf_inode hello.
Proof. apply inode_at_wf, image_byteful. Qed.

Lemma hello_dense : dense (St:=kernel ramdisk) 0 hello 5.
Proof.
  intros k Hk Hlt. unfold BLOCK_SIZE in Hlt. assert (k = 0) as -> by lia.
  assert (Hp : path (St:=kernel ramdisk) 0 hello 0 = [6]) by (vm_compute; reflexivity).
  rewrite Hp. apply list.Forall_singleton. split; [done|vm_compute; reflexivity].
Qed.

Lemma read_file_returns_window_witness :
  ∃ s', read_file (St:=kernel ramdisk) demo_fs hello 1 (replicate 8 0) demo_kernel =
    Done ((Ok 4, [101; 108; 108; 111; 0; 0; 0; 0]), s').
Proof.
  destruct (read_file_returns_window demo_kernel pages driver_pages 0 demo_fs hello 1 (replicate 8 0))
    as (s' & E & _).
  - apply demo_world.
  - apply demo_room.
  - apply hello_wf.
  - lia.
  - exact hello_dense.
  - exists s'. etransitivity; [exact E|]. vm_compute. reflexivity.
Defined.

(** *** Holes

    The third inode of the image has no first block; the one below has no
    single-indirect table but a double-indirect one. *)

Definition sparse : Inode := inode_at (image img demo_dev) 4224.
Definition gap : Inode :=
  {| mode := REGULAR; nlinks := 1; uid := 0; gid := 0; size := 1000000; atime := 0; mtime := 0;
     ctime := 0; zones := [6; 6; 6; 6; 6; 6; 6; 0; 5; 0] |}.

Lemma sparse_wf : wf_inode sparse.
Proof. apply inode_at_wf, image_byteful. Qed.

Lemma read_file_on_any_image_witness :
  match read_file (St:=kernel ramdisk) demo_fs sparse 0 (replicate 16 0) demo_kernel with
  | Done ((r, out'), s') =>
      world s' pages driver_pages ∧ fa_room s' (5 + 0) ∧
      stays pages driver_pages (fa_ram demo_kernel) (fa_ram s') ∧
      length out' = length (replicate 16 0) ∧
      (∀ w, r = Ok w → 0 <= w <= Z.of_nat (length (replicate 16 0)))
  | Panic p => p = POverflow
  | Undefined => True
  | Diverge => False
  end.
Proof.
  apply (read_file_on_any_image demo_kernel pages driver_pages 0 demo_fs sparse 0 (replicate 16 0)).
  - apply demo_world.
  - apply demo_room.
  - apply sparse_wf.
Defined.

(** What a call returned, and the first bytes of the slice. *)
Definition seen {A} (r : outcome ((result Z A * list Z) * kernel ramdisk)) (n : nat)
    : option (result Z A * list Z) :=
  match r with Done ((r, l), _) => Some (r, take n l) | _ => None end.

(** Of a 2048-byte file whose first block is a hole, a read of the whole file
    reports 1024 bytes and puts the contents of the second block at the start
    of the slice, where the hole's bytes belong. *)
Lemma read_file_skips_holes_witness :
  ∃ s', read_file (St:=kernel ramdisk) demo_fs sparse 0 (replicate 2048 0xaa) demo_kernel =
    Done ((Ok 1024, packed (St:=kernel ramdisk) demo_fs sparse 2048 2 ++ replicate 1024 0xaa), s') ∧
    take 6 (packed (St:=kernel ramdisk) demo_fs sparse 2048 2) = [119; 111; 114; 108; 100; 0].
Proof.
  destruct (read_file_skips_holes (St:=kernel ramdisk) demo_fs sparse demo_kernel pages driver_pages 0
    (replicate 2048 0xaa)) as (b & s' & E & Hb & _).
  - apply demo_world.
  - apply demo_room.
  - apply sparse_wf.
  - vm_compute. discriminate.
  - intros [|[|k]] _ Hlt; [left; vm_compute; reflexivity|right; split; [vm_compute; discriminate|vm_compute; reflexivity]|].
    exfalso. change (window sparse 0 (replicate 2048 0xaa)) with 2048 in Hlt. unfold BLOCK_SIZE in Hlt. lia.
  - change (window sparse 0 (replicate 2048 0xaa)) with 2048 in *.
    assert (b = 2%nat) as ->.
    { pose proof (Hb 1%nat) as H1. pose proof (Hb 2%nat) as H2. unfold BLOCK_SIZE in *. lia. }
    exists s'. split; [|vm_compute; reflexivity]. etransitivity; [exact E|].
    assert (Hl : length (packed (St:=kernel ramdisk) demo_fs sparse 2048 2) = 1024%nat) by (vm_compute; reflexivity).
    rewrite Hl. reflexivity.
Defined.

(** Finding: a hole before the window moves the read position back.  The
    same file read at offset 1500 into ten bytes goes back to offset 1024
    and copies 486 bytes, past the end of the slice. *)
Example hole_before_window_overruns_slice :
  read_file (St:=kernel ramdisk) demo_fs sparse 1500 (replicate 10 0) demo_kernel = Undefined.
Proof. vm_compute. reflexivity. Qed.

(** Finding: a file whose single-indirect table is missing while the
    double-indirect one is present cannot be read past its direct zones: the
    position inside the block underflows and the kernel panics. *)
Example missing_indirect_table_panics :
  read_file (St:=kernel ramdisk) demo_fs gap 7168 (replicate 10 0) demo_kernel = Panic POverflow.
Proof. vm_compute. reflexivity. Qed.

(** ** Processes *)

Lemma spawn_kernel_spec_witness :
  spawn_kernel (St:=kernel ramdisk) 0x80000400 demo_kernel = Done (Err Process.OutOfMemory, demo_kernel) ∨
  ∃ stk s' r, spawn_kernel (St:=kernel ramdisk) 0x80000400 demo_kernel = Done (r, s') ∧
    pages !! stk = None ∧ r = Ok 3.
Proof.
  destruct (spawn_kernel_spec demo_kernel pages 0x80000400) as [E|(stk & s' & r & E & Hp & _ & _ & _ & _ & Hr)].
  - apply heap3_rep.
  - left. exact E.
  - right. exists stk, s', r. split; [exact E|]. split; [exact Hp|].
    assert (Hf : first_none (slots (view (T:=table) demo_kernel)) = Some 2%nat) by reflexivity.
    rewrite Hf in Hr. exact (proj1 Hr).
Defined.

(** The machine with a full table. *)
Definition full_kernel : kernel ramdisk :=
  (heap3, mk_rest demo_virtio
     (mk_table (replicate 16 (Some (proc 0x80088000 0x80000200 2))) (Some 0%nat) 3) demo_hart).

Lemma spawn_into_full_table_leaks_witness :
  ∃ p s', spawn_kernel (St:=kernel ramdisk) 0x80000400 full_kernel = Done (Err TableFull, s') ∧
    pages !! p = None ∧ fa_rep s' (<[p := 2]> pages).
Proof.
  apply (spawn_into_full_table_leaks full_kernel pages 0x80000400).
  - apply heap3_rep.
  - reflexivity.
  - eexists _, _. reflexivity.
Defined.

Lemma exit_frees_slot_not_stack_witness :
  ∃ s', exit_current (St:=kernel ramdisk) demo_kernel = Done (Some 1, s') ∧ fa_rep s' pages.
Proof.
  destruct (exit_frees_slot_not_stack demo_kernel pages 0 (proc 0x80086000 0x80000100 1))
    as (s' & E & _ & _ & _ & _ & Hrep).
  - apply heap3_rep.
  - apply demo_table_wf.
  - reflexivity.
  - reflexivity.
  - exists s'. split; [exact E|exact Hrep].
Defined.

(** ** Traps *)

Lemma timer_switches_contexts_witness :
  ∃ c' s', trap_vector (2 ^ 63 + 7) 0 demo_cpu demo_kernel = Done (c', s') ∧
    current (k_table s'.2) = Some 1%nat ∧
    context_of (k_table s'.2) c' 0 = Some (x demo_cpu, 0x80000104).
Proof.
  destruct (timer_switches_contexts demo_cpu demo_kernel 0)
    as (c' & s' & E & _ & _ & Hctx & Hcur & _).
  - apply demo_sched.
  - apply demo_cpu_wf.
  - vm_compute. split; [discriminate|reflexivity].
  - exists c', s'. split; [exact E|]. split; [exact Hcur|]. rewrite Hctx. vm_compute. reflexivity.
Defined.

(** The interrupt of an idle device. *)
Lemma interrupts_are_transparent_witness :
  match trap_vector (2 ^ 63 + 3) 0 demo_cpu demo_kernel with
  | Done (c', s') => c' = demo_cpu ∧ sched_inv s'
  | _ => False
  end.
Proof.
  destruct (trap_vector (2 ^ 63 + 3) 0 demo_cpu demo_kernel) as [[c' s']|?| |] eqn:E;
    [|vm_compute in E; discriminate..].
  destruct (interrupts_are_transparent demo_cpu demo_kernel (2 ^ 63 + 3) 0 c' s') as (Hc & Hs & _).
  - apply demo_sched.
  - apply demo_cpu_wf.
  - reflexivity.
  - vm_compute. discriminate.
  - exact E.
  - split; [exact Hc|exact Hs].
Defined.

Lemma faults_are_stepped_over_witness :
  (∃ s', trap_vector 5 0 demo_cpu demo_kernel = Done (mk_cpu (x demo_cpu) 0x80000108, s') ∧
    ACCESS_FAULT_SEEN (k_virtio s'.2) = true) ∧
  ∃ s', trap_vector 13 0 demo_cpu demo_kernel = Done (mk_cpu (x demo_cpu) 0x80000108, s') ∧
    ACCESS_FAULT_SEEN (k_virtio s'.2) = false.
Proof.
  split.
  - destruct (faults_are_stepped_over demo_cpu demo_kernel 5 0) as (s' & E & _ & _ & Hf).
    + apply demo_sched.
    + apply demo_cpu_wf.
    + vm_compute. split; [discriminate|reflexivity].
    + left.
    + intros _. exists demo_uart. apply demo_console.
    + exists s'. split; [exact E|exact Hf].
  - destruct (faults_are_stepped_over demo_cpu demo_kernel 13 0) as (s' & E & _ & _ & Hf).
    + apply demo_sched.
    + apply demo_cpu_wf.
    + vm_compute. split; [discriminate|reflexivity].
    + do 3 right. left.
    + intros _. exists demo_uart. apply demo_console.
    + exists s'. split; [exact E|exact Hf].
Defined.

Lemma demo_keeps d b n o : keeps (bd_read (S:=kernel ramdisk) d b n o).
Proof. apply (keeps_block_op polls d b n o false). Qed.

Lemma syscall_changes_only_a0_witness :
  match trap_vector 8 0 demo_cpu demo_kernel with
  | Done (c', s') => x c' = x demo_cpu ∧ cpc c' = 0x80000108
  | _ => False
  end.
Proof.
  destruct (trap_vector 8 0 demo_cpu demo_kernel) as [[c' s']|?| |] eqn:E;
    [|vm_compute in E; discriminate..].
  destruct (syscall_changes_only_a0 demo_keeps
    demo_cpu demo_kernel 8 0 c' s' 1) as (_ & Hx & Hpc & _).
  - apply demo_sched.
  - apply demo_cpu_wf.
  - left.
  - vm_compute. split; [discriminate|reflexivity].
  - reflexivity.
  - discriminate.
  - exact E.
  - split; [apply Hx; discriminate|exact Hpc].
Defined.

Definition exit_cpu : cpu := mk_cpu (<[10%nat := 93]> (x demo_cpu)) 0x80000104.

Lemma exit_switches_away_witness :
  ∃ c' s', trap_vector 8 0 exit_cpu demo_kernel = Done (c', s') ∧
    current (k_table s'.2) = Some 1%nat ∧ slots (k_table s'.2) !! 0%nat = Some None.
Proof.
  pose proof (exit_switches_away exit_cpu demo_kernel 8 0 0 demo_sched ltac:(split; reflexivity) ltac:(left)
    eq_refl eq_refl) as Hex. cbv zeta in Hex.
  assert (En : next_slot (exit_table (k_table demo_kernel.2)).2 = Some 1%nat) by reflexivity.
  rewrite En in Hex. destruct Hex as (c' & s' & E & _ & _ & Hcur & Hslot & _).
  exists c', s'. split; [exact E|split; [exact Hcur|exact Hslot]].
Defined.

(** ** The machine of virtual processors *)

Lemma demo_machine : machine_inv (demo_cpu, demo_kernel).
Proof.
  split; [apply demo_sched| |apply demo_cpu_wf].
  intros i p Hp. destruct (demo_slot i p Hp) as [-> | ->]; by injection Hp as <-.
Qed.

(** Traps one after the other. *)
Fixpoint run_traps (causes : list Z) (c : cpu) (s : kernel ramdisk) : option (cpu * kernel ramdisk) :=
  match causes with
  | [] => Some (c, s)
  | cause :: causes' =>
      match trap_vector cause 0 c s with Done (c', s') => run_traps causes' c' s' | _ => None end
  end.

Lemma run_traps_msteps causes : ∀ c s x',
  run_traps causes c s = Some x' → msteps (TrapOn <$> causes) (c, s) x'.
Proof.
  induction causes as [|cause causes IH]; intros c s x' E; cbn in E; [injection E as <-; constructor|].
  destruct (trap_vector cause 0 c s) as [[c1 s1]| | |] eqn:E1; try done.
  econstructor; [by eapply ms_trap|by apply IH].
Qed.

Definition tick : Z := 2 ^ 63 + 7.

(** A tick to the second process, its system call, a fault of its, and a
    tick back. *)
Lemma demo_traps :
  match run_traps [tick; 8; 13; tick] demo_cpu demo_kernel with
  | Some (c, s) => bool_decide (current (k_table s.2) = Some 0%nat) &&
      bool_decide (snd <$> context_of (k_table s.2) c 1 = Some 0x80000208)
  | None => false
  end = true.
Proof. vm_compute. reflexivity. Qed.

Lemma kernel_refines_processors_witness :
  ∃ x' : cpu * kernel ramdisk, psteps (TrapOn <$> [tick; 8; 13; tick]) (processors_of (demo_cpu, demo_kernel)) (processors_of x') ∧
    on_cpu (processors_of x') = Some 0%nat.
Proof.
  pose proof demo_traps as Hd.
  destruct (run_traps [tick; 8; 13; tick] demo_cpu demo_kernel) as [[c s]|] eqn:E; [|discriminate].
  exists (c, s). split.
  - apply (kernel_refines_processors demo_keeps _ _ _ demo_machine (run_traps_msteps _ _ _ _ E)).
  - apply andb_true_iff in Hd as [Hd _]. apply bool_decide_eq_true_1 in Hd. exact Hd.
Defined.

Lemma demo_typed : typed (processors_of (demo_cpu, demo_kernel)).
Proof.
  assert (Hall : forallb (λ o, match o with
    | Some (l, a) => forallb (λ z, (0 <=? z) && (z <? 2 ^ 64)) (a :: l)
    | None => true end) (virtual (processors_of (demo_cpu, demo_kernel))) = true) by by vm_compute.
  assert (Hword : ∀ z, (0 <=? z) && (z <? 2 ^ 64) = true → word z) by (intros z Hz; unfold word; lia).
  intros i [l a] Hi. rewrite forallb_forall in Hall.
  specialize (Hall (Some (l, a)) (proj1 (list_elem_of_In _ _) (list_elem_of_lookup_2 _ _ _ Hi))).
  rewrite forallb_forall in Hall. split; cbn [fst snd].
  - apply list.Forall_forall. intros z Hz. apply Hword, Hall. right. by apply list_elem_of_In.
  - apply Hword, Hall. by left.
Qed.

Lemma contexts_stay_words_witness :
  ∃ x' : cpu * kernel ramdisk, msteps (TrapOn <$> [tick; 8; 13; tick]) (demo_cpu, demo_kernel) x' ∧
    typed (processors_of x').
Proof.
  pose proof demo_traps as Hd.
  destruct (run_traps [tick; 8; 13; tick] demo_cpu demo_kernel) as [x'|] eqn:E; [|discriminate].
  exists x'. split; [exact (run_traps_msteps _ _ _ _ E)|].
  exact (contexts_stay_words demo_keeps _ _ _ demo_machine demo_typed (run_traps_msteps _ _ _ _ E)).
Defined.

Lemma demo_round_trip :
  match trap_vector tick 0 demo_cpu demo_kernel with
  | Done (c1, s1) => bool_decide (current (k_table s1.2) = Some 1%nat) &&
      match trap_vector tick 0 c1 s1 with
      | Done (_, s2) => bool_decide (current (k_table s2.2) = Some 0%nat)
      | _ => false
      end
  | _ => false
  end = true.
Proof. vm_compute. reflexivity. Qed.

Lemma preempted_context_kept_witness :
  ∃ c s, run_traps [tick; tick] demo_cpu demo_kernel = Some (c, s) ∧
    current (k_table s.2) = Some 0%nat ∧ context_of (k_table s.2) c 0 = Some (x demo_cpu, cpc demo_cpu).
Proof.
  pose proof demo_round_trip as Hd. unfold run_traps.
  destruct (trap_vector tick 0 demo_cpu demo_kernel) as [[c1 s1]| | |] eqn:E1; try discriminate.
  destruct (trap_vector tick 0 c1 s1) as [[c2 s2]| | |] eqn:E2;
    try (rewrite andb_false_r in Hd; discriminate).
  apply andb_true_iff in Hd as [Hc1 Hc2]. apply bool_decide_eq_true_1 in Hc1, Hc2.
  exists c2, s2. split; [reflexivity|]. split; [exact Hc2|].
  eapply eq_trans; [apply (preempted_context_kept demo_keeps 0 tick [TrapOn tick]
    (demo_cpu, demo_kernel) (c1, s1) (c2, s2))|reflexivity].
  - apply demo_machine.
  - reflexivity.
  - reflexivity.
  - eapply ms_trap, E1.
  - econstructor; [cbn; rewrite Hc1; discriminate|eapply ms_trap, E2|constructor].
Defined.

(** ** The [read] system call *)

Lemma sys_read_delivers_file_witness :
  ∃ s', sys_read (St:=kernel ramdisk) 0 2 user 64 0 demo_kernel = Done (5, s') ∧
    byte_at (fa_ram s') user = 104 ∧ byte_at (fa_ram s') (user + 4) = 111.
Proof.
  destruct (sys_read_delivers_file demo_kernel pages driver_pages 0 2 user 64 0)
    as (s' & E & _ & _ & Hdata & _).
  - apply demo_world.
  - apply demo_room.
  - split; [reflexivity|]. split; [lia|]. exists user, 1. split; [reflexivity|].
    split; [reflexivity|]. rewrite PAGE_SIZE_val. lia.
  - lia.
  - lia.
  - lia.
  - exact hello_dense.
  - exists s'. split; [exact E|]. cbv zeta in Hdata.
    assert (Hr : sys_read_result (St:=kernel ramdisk) 0 2 64 0 = Some (5, file_byte (St:=kernel ramdisk) 0 hello))
      by reflexivity.
    rewrite Hr in Hdata.
    pose proof (Hdata 0 _ eq_refl ltac:(lia)) as H0'. rewrite Z.add_0_r in H0'.
    split; [rewrite H0'; vm_compute; reflexivity|].
    rewrite (Hdata 4 _ eq_refl ltac:(lia)). vm_compute. reflexivity.
Defined.

(** ** The supervisor's start *)

Definition idle_kernel : kernel ramdisk := (heap3, mk_rest demo_virtio table_init hart_reset).

Lemma idle_stack : ∃ p s1, fa_zallocate STACK_PAGES idle_kernel = Done (Some p, s1).
Proof.
  assert (E : match fa_zallocate STACK_PAGES idle_kernel with Done (Some _, _) => true | _ => false end = true)
    by (vm_compute; reflexivity).
  destruct (fa_zallocate _ _) as [[[p|] s1]| | |]; [by exists p, s1|discriminate E..].
Qed.

(** The root directory is listed. *)
Definition rootdir : Inode := inode_at (image img demo_dev) 4096.

Lemma rootdir_dense : dense (St:=kernel ramdisk) 0 rootdir 128.
Proof.
  intros k Hk Hlt. unfold BLOCK_SIZE in Hlt. assert (k = 0) as -> by lia.
  assert (Hp : path (St:=kernel ramdisk) 0 rootdir 0 = [8]) by (vm_compute; reflexivity).
  rewrite Hp. apply list.Forall_singleton. split; [done|vm_compute; reflexivity].
Qed.

Lemma skmain_spawns_init_witness :
  ∃ stk s', skmain 0x80001000 idle_kernel = Done (tt, s') ∧ pages !! stk = None ∧
    slots (k_table s'.2) !! 0%nat = Some (Some (new_process 0x80001000 stk 0 1)).
Proof.
  destruct (skmain_spawns_init conf polls conf_inj polls_enough demo_disks demo_disks_byte idle_kernel pages driver_pages 0 0x80001000)
    as (stk & s' & E & Hn & _ & _ & Hsl & _).
  - split; [|vm_compute; lia]. split; [apply heap3_rep|]. split; [|apply demo_world].
    exact (own_ext conf demo_disks demo_kernel idle_kernel driver_pages demo_own eq_refl eq_refl).
  - intros [|slot] b Hc; [|done].
    change (is_dir rootdir = true → dense (St:=kernel ramdisk) 0 rootdir (Z.max 0 (Z.min 1024 (size rootdir)))).
    intros _. exact rootdir_dense.
  - reflexivity.
  - apply idle_stack.
  - exists stk, s'. split; [exact E|]. split; [exact Hn|]. rewrite Hsl. reflexivity.
Defined.

(** What is on the serial port afterwards. *)
Definition said (t : list Z) (sent : list Z) : bool :=
  existsb (λ i, bool_decide (take (length t) (drop i sent) = t)) (seq 0 (length sent)).

Example skmain_lists_root :
  match skmain 0x80001000 idle_kernel with
  | Done (_, s) =>
      said (text "  /  (2 entries):") (port_sent (rd_port (host (k_virtio s.2)))) = true ∧
      said (text "    inode    3  sparse") (port_sent (rd_port (host (k_virtio s.2)))) = true
  | _ => False
  end.
Proof. vm_compute. done. Qed.
