(* ===== verification/BootExamples.v ===== *)
(** * Boot on the linked image

    The theorems about start-up applied to the link of [Linker.demo_linker],
    whose heap is the rest of the 128 MiB of the machine, and to a machine
    with the serial port of [Ramdisk] and its disk in VirtIO slot 0. *)

From Stdlib Require Import String.
From S2P Require Import Prelude Linker Frames Bytes PageFrame Sv39 BlockDev Virtio VirtioRead.
From S2P Require Import VirtioQueue VirtioBus VirtioSetup Uart Console Ramdisk Hart Process Trap Kernel TrapProps Machine Minix3Read.
From S2P Require Import Boot BootProps BootRun BootAll.

#[local] Open Scope Z_scope.
#[local] Existing Instance dev.
#[local] Existing Instance demo_linker.

#[local] Instance empty_disk : Host ramdisk := rd_host (λ _, 0) 16 1.
#[local] Instance empty_uart : UartHost ramdisk := rd_uart (λ _, 0) 16 1.
#[local] Existing Instance two_looks.
#[local] Instance empty_console : ConsoleReady ramdisk.
Proof. split; [apply rd_ready|cbn; lia]. Qed.
#[local] Instance empty_reader : BlockReader (kernel ramdisk) := virtio_reader 4.

Definition machine : kernel ramdisk :=
  kernel_reset (mk_frames (replicate descriptors 0) 0 ∅) (rd_fresh ∅ (mk_port [] false)).

Lemma kinit_reaches_supervisor_witness :
  ∃ root satp s', kinit machine = Done (satp, s') ∧ booted root satp machine s'.
Proof.
  apply (kinit_reaches_supervisor machine).
  - vm_compute. discriminate.
  - apply length_replicate.
  - reflexivity.
  - reflexivity.
  - reflexivity.
  - reflexivity.
  - split; reflexivity.
Defined.

(** The whole of start-up; the disk is blank, so there is nothing to list. *)
#[local] Instance blank_disk : DiskHost ramdisk := rd_disk (λ _, 0) 16 1.
#[local] Instance blank_setup : DiskSetup ramdisk := rd_setup (λ _, 0) 16 1.

Lemma four_polls : (hd_latency (T:=ramdisk) < 4)%nat.
Proof. cbn. lia. Qed.

Lemma blank_listable : disks_listable (T:=ramdisk) 4 four_polls (rd_fresh ∅ (mk_port [] false)).
Proof.
  intros conf Hinj slot base _. unfold listable, mount_result.
  destruct (bd_readable _ _ _); [|done]. change (bd_disk (Z.of_nat slot)) with (hd_disk (rd_fresh ∅ (mk_port [] false)) (Z.to_nat (Z.of_nat slot))).
  rewrite Nat2Z.id. destruct slot; by vm_compute.
Qed.

Lemma boot_runs_init_witness :
  ∃ satp s1 s2, kinit machine = Done (satp, s1) ∧ skmain 0x80000100 s1 = Done (tt, s2) ∧
    (pid <$> mjoin (slots (k_table s2.2) !! 0%nat)) = Some 1.
Proof.
  destruct (boot_runs_init 4 four_polls machine 0x80000100) as (satp & s1 & s2 & stk & E1 & E2 & Hp & _).
  - vm_compute. discriminate.
  - apply length_replicate.
  - reflexivity.
  - reflexivity.
  - reflexivity.
  - reflexivity.
  - split; reflexivity.
  - reflexivity.
  - apply blank_listable.
  - exists satp, s1, s2. split; [exact E1|]. split; [exact E2|exact Hp].
Defined.

(** The first page of the heap as root table. *)
Lemma kernel_address_space_witness :
  ∃ root (s s' : frames), map_kernel root s = Done (tt, s') ∧
    v2p root 0x80000000 s' = Done (Some 0x80000000, s') ∧
    v2p root 0x10001000 s' = Done (Some 0x10001000, s') ∧
    v2p root 0x1000 s' = Done (None, s').
Proof.
  pose proof (fresh_rep ∅) as R.
  assert (Hroom : room (fresh_frames ∅) 68).
  { destruct usable_enough as [Hu Hd]; [vm_compute; discriminate|].
    destruct (reserved_fresh 68 (fresh_frames ∅) R) as [Hr _]; [lia|].
    apply (room_in_mono 68); [exact Hr|lia]. }
  destruct (fa_zallocate_room (FrameAllocatorLaws := frames_laws) (fresh_frames ∅) ∅ 67 R Hroom) as (root & s & E & _ & Hr).
  destruct (fa_zallocate_spec (FrameAllocatorLaws := frames_laws) (fresh_frames ∅) ∅ 1 R) as [E'|(p & s1 & E' & _ & R1 & Hz)];
    [lia|congruence|]. rewrite E in E'. injection E' as <- <-.
  destruct (kernel_address_space root s (<[root := 1]> ∅)) as (s' & h' & Em & _ & _ & Hva).
  - exact R1.
  - by rewrite lookup_insert_eq.
  - intros j Hj. rewrite Hz, decide_True; [done|]. unfold idx_ok in Hj. rewrite PAGE_SIZE_val.
    split; [lia|]. replace (root + 8 * j - root) with (j * 8) by lia. by rewrite Z.mod_mul.
  - exact Hr.
  - exists root, s, s'. split; [exact Em|].
    pose proof (Hva 0x80000000 ltac:(lia)) as H1. pose proof (Hva 0x10001000 ltac:(lia)) as H2.
    pose proof (Hva 0x1000 ltac:(lia)) as H3.
    change (region 0x80000000) with (Some rx) in H1. change (region 0x10001000) with (Some rw) in H2.
    change (region 0x1000) with (@None Z) in H3.
    split; [apply H1|]. split; [apply H2|exact H3].
Defined.
